(** * RageSoundReader_WAV: the WAV / MS-ADPCM stream reader

    A shallow embedding of [src/RageSoundReader_WAV.cpp] and the properties
    of the reader that its design document states.

    The reader is a C++ object that owns a stdio stream.  Its member
    functions become computations of a small state-and-fault monad over the
    record [reader]; machine integers are [Z] with the wrap-around of every
    conversion written out; [float] is IEEE binary32, taken from the
    specification of floating-point arithmetic of the standard library. *)

From Stdlib Require Import String.
From Stdlib Require Import Strings.Byte.
From Stdlib Require Import ZArith List Lia Bool DecimalString.
From Stdlib Require Import Floats.SpecFloat.
Import ListNotations.

Local Open Scope Z_scope.

(* ================================================================== *)
(** * Machine integers *)

Module CInt.

(** An unsigned [w]-bit object keeps the low [w] bits. *)
Definition wrap_unsigned (w z : Z) : Z := z mod 2 ^ w.

(** A signed [w]-bit object: two's complement. *)
Definition wrap_signed (w z : Z) : Z :=
  (z + 2 ^ (w - 1)) mod 2 ^ w - 2 ^ (w - 1).

Definition Uint8 := wrap_unsigned 8.
Definition Uint16 := wrap_unsigned 16.
Definition Uint32 := wrap_unsigned 32.
Definition Sint16 := wrap_signed 16.
Definition Sint32 := wrap_signed 32.

End CInt.
Import CInt.

(* ================================================================== *)
(** * Single-precision floating point

    [float] is IEEE 754 binary32: 24 bits of precision, round to nearest,
    ties to even.  The operations are the ones of [SpecFloat]. *)

Module Float32.

Definition float := spec_float.

Definition prec : Z := 24.
Definition emax : Z := 128.

(** Conversion of an integer to [float] (rounds when more than 24 bits
    are needed). *)
Definition of_Z (z : Z) : float := binary_normalize prec emax z 0 false.

Definition mul : float -> float -> float := SFmul prec emax.
Definition div : float -> float -> float := SFdiv prec emax.

(** Truncation toward zero, as the conversion of a [float] to an integer
    type does.  [None] for infinities and NaN. *)
Definition trunc (x : float) : option Z :=
  match x with
  | S754_zero _ => Some 0
  | S754_finite s m e =>
      let a := match e with
               | Zneg p => Z.shiftr (Zpos m) (Zpos p)
               | _ => Z.shiftl (Zpos m) e
               end in
      Some (if s then - a else a)
  | _ => None
  end.

(** [(Uint32) x]: defined only when the truncated value is representable. *)
Definition to_Uint32 (x : float) : option Z :=
  match trunc x with
  | Some z => if (0 <=? z) && (z <? 4294967296) then Some z else None
  | None => None
  end.

End Float32.

(* ================================================================== *)
(** * Bytes *)

Definition byte_to_Z (b : byte) : Z := Z.of_N (Byte.to_N b).

Definition byte_of_Z (z : Z) : byte :=
  match Byte.of_N (Z.to_N (z mod 256)) with
  | Some b => b
  | None => x00
  end.

(** Little-endian value of a byte string. *)
Definition le_decode (bs : list byte) : Z :=
  fold_right (fun b acc => byte_to_Z b + 256 * acc) 0 bs.

(** The [n] low-order bytes of [z], least significant first. *)
Fixpoint le_encode (n : nat) (z : Z) : list byte :=
  match n with
  | O => []
  | S n' => byte_of_Z z :: le_encode n' (z / 256)
  end.

(** [memcpy] into a buffer at a byte offset.  The buffer is the caller's
    memory; its capacity is the caller's obligation and is not modelled, so
    a write past the end of the list extends it. *)
Definition write_at (off : nat) (data buf : list byte) : list byte :=
  firstn off (buf ++ repeat x00 (off - length buf))
  ++ data ++ skipn (off + length data) buf.

(* ================================================================== *)
(** * The reader *)

Module WAV.

(** ** Data *)

(** The stdio stream [rw]: the bytes of the file and the file position. *)
Record FILE := mkFILE { contents : list byte; cursor : Z }.

Inductive ConversionMode :=
  CONV_NONE | CONV_16LSB_TO_16SYS | CONV_8BIT_TO_16BIT.

Inductive OpenResult := OPEN_OK | OPEN_NO_MATCH | OPEN_MATCH_BUT_FAIL.

Definition riffID : Z := 0x46464952.
Definition waveID : Z := 0x45564157.
Definition fmtID : Z := 0x20746D66.
Definition dataID : Z := 0x61746164.

Definition FMT_NORMAL : Z := 1.
Definition FMT_ADPCM : Z := 2.

Record ADPCMCOEFSET := mkCoef { iCoef1 : Z; iCoef2 : Z }.

(** [iSamp0] is [iSamp[0]], the newest sample; [iSamp1] is [iSamp[1]]. *)
Record ADPCMBLOCKHEADER := mkHeader {
  bPredictor : Z;
  iDelta : Z;
  iSamp0 : Z;
  iSamp1 : Z
}.

(** The members of [fmt] and [adpcm].  The class declaration is in
    [RageSoundReader_WAV.h]; the integer widths are the ones of the
    container layout (16-bit tag, channels, block alignment and sample
    size, 32-bit rates) and, for the members the reader derives itself,
    32-bit unsigned. *)
Record fmt_t := mkFmt {
  wFormatTag : Z;
  wChannels : Z;
  dwAvgBytesPerSec : Z;
  wBlockAlign : Z;
  wBitsPerSample : Z;
  adpcm_sample_frame_size : Z;
  data_starting_offset : Z
}.

(** [aCoef] and [blockheaders] are heap arrays; the empty list stands for
    the null pointer. *)
Record adpcm_t := mkAdpcm {
  cbSize : Z;
  wSamplesPerBlock : Z;
  wNumCoef : Z;
  aCoef : list ADPCMCOEFSET;
  blockheaders : list ADPCMBLOCKHEADER;
  samples_left_in_block : Z;
  nibble_state : Z;
  nibble : Z
}.

(** The object.  [rw = None] is the null stream of a closed reader.
    [tmpbuf] is the function-local static scratch array of [Read], with
    [tmpbufsize] its length. *)
Record reader := mkReader {
  rw : option FILE;
  fmt : fmt_t;
  adpcm : adpcm_t;
  SampleRate : Z;
  Channels : Z;
  BytesPerSample : Z;
  Conversion : ConversionMode;
  Input_Buffer_Ratio : Z;
  tmpbuf : list Z
}.

Definition zero_fmt : fmt_t := mkFmt 0 0 0 0 0 0 0.
Definition zero_adpcm : adpcm_t := mkAdpcm 0 0 0 [] [] 0 0 0.

Definition set_rw (v : option FILE) (s : reader) : reader :=
  mkReader v (fmt s) (adpcm s) (SampleRate s) (Channels s) (BytesPerSample s)
           (Conversion s) (Input_Buffer_Ratio s) (tmpbuf s).
Definition set_fmt (v : fmt_t) (s : reader) : reader :=
  mkReader (rw s) v (adpcm s) (SampleRate s) (Channels s) (BytesPerSample s)
           (Conversion s) (Input_Buffer_Ratio s) (tmpbuf s).
Definition set_adpcm (v : adpcm_t) (s : reader) : reader :=
  mkReader (rw s) (fmt s) v (SampleRate s) (Channels s) (BytesPerSample s)
           (Conversion s) (Input_Buffer_Ratio s) (tmpbuf s).
Definition set_SampleRate (v : Z) (s : reader) : reader :=
  mkReader (rw s) (fmt s) (adpcm s) v (Channels s) (BytesPerSample s)
           (Conversion s) (Input_Buffer_Ratio s) (tmpbuf s).
Definition set_Channels (v : Z) (s : reader) : reader :=
  mkReader (rw s) (fmt s) (adpcm s) (SampleRate s) v (BytesPerSample s)
           (Conversion s) (Input_Buffer_Ratio s) (tmpbuf s).
Definition set_BytesPerSample (v : Z) (s : reader) : reader :=
  mkReader (rw s) (fmt s) (adpcm s) (SampleRate s) (Channels s) v
           (Conversion s) (Input_Buffer_Ratio s) (tmpbuf s).
Definition set_Conversion (v : ConversionMode) (s : reader) : reader :=
  mkReader (rw s) (fmt s) (adpcm s) (SampleRate s) (Channels s)
           (BytesPerSample s) v (Input_Buffer_Ratio s) (tmpbuf s).
Definition set_Input_Buffer_Ratio (v : Z) (s : reader) : reader :=
  mkReader (rw s) (fmt s) (adpcm s) (SampleRate s) (Channels s)
           (BytesPerSample s) (Conversion s) v (tmpbuf s).
Definition set_tmpbuf (v : list Z) (s : reader) : reader :=
  mkReader (rw s) (fmt s) (adpcm s) (SampleRate s) (Channels s)
           (BytesPerSample s) (Conversion s) (Input_Buffer_Ratio s) v.

Definition set_wFormatTag v (f : fmt_t) :=
  mkFmt v (wChannels f) (dwAvgBytesPerSec f) (wBlockAlign f) (wBitsPerSample f)
        (adpcm_sample_frame_size f) (data_starting_offset f).
Definition set_wChannels v (f : fmt_t) :=
  mkFmt (wFormatTag f) v (dwAvgBytesPerSec f) (wBlockAlign f) (wBitsPerSample f)
        (adpcm_sample_frame_size f) (data_starting_offset f).
Definition set_dwAvgBytesPerSec v (f : fmt_t) :=
  mkFmt (wFormatTag f) (wChannels f) v (wBlockAlign f) (wBitsPerSample f)
        (adpcm_sample_frame_size f) (data_starting_offset f).
Definition set_wBlockAlign v (f : fmt_t) :=
  mkFmt (wFormatTag f) (wChannels f) (dwAvgBytesPerSec f) v (wBitsPerSample f)
        (adpcm_sample_frame_size f) (data_starting_offset f).
Definition set_wBitsPerSample v (f : fmt_t) :=
  mkFmt (wFormatTag f) (wChannels f) (dwAvgBytesPerSec f) (wBlockAlign f) v
        (adpcm_sample_frame_size f) (data_starting_offset f).
Definition set_adpcm_sample_frame_size v (f : fmt_t) :=
  mkFmt (wFormatTag f) (wChannels f) (dwAvgBytesPerSec f) (wBlockAlign f)
        (wBitsPerSample f) v (data_starting_offset f).
Definition set_data_starting_offset v (f : fmt_t) :=
  mkFmt (wFormatTag f) (wChannels f) (dwAvgBytesPerSec f) (wBlockAlign f)
        (wBitsPerSample f) (adpcm_sample_frame_size f) v.

Definition set_cbSize v (a : adpcm_t) :=
  mkAdpcm v (wSamplesPerBlock a) (wNumCoef a) (aCoef a) (blockheaders a)
          (samples_left_in_block a) (nibble_state a) (nibble a).
Definition set_wSamplesPerBlock v (a : adpcm_t) :=
  mkAdpcm (cbSize a) v (wNumCoef a) (aCoef a) (blockheaders a)
          (samples_left_in_block a) (nibble_state a) (nibble a).
Definition set_wNumCoef v (a : adpcm_t) :=
  mkAdpcm (cbSize a) (wSamplesPerBlock a) v (aCoef a) (blockheaders a)
          (samples_left_in_block a) (nibble_state a) (nibble a).
Definition set_aCoef v (a : adpcm_t) :=
  mkAdpcm (cbSize a) (wSamplesPerBlock a) (wNumCoef a) v (blockheaders a)
          (samples_left_in_block a) (nibble_state a) (nibble a).
Definition set_blockheaders v (a : adpcm_t) :=
  mkAdpcm (cbSize a) (wSamplesPerBlock a) (wNumCoef a) (aCoef a) v
          (samples_left_in_block a) (nibble_state a) (nibble a).
Definition set_samples_left_in_block v (a : adpcm_t) :=
  mkAdpcm (cbSize a) (wSamplesPerBlock a) (wNumCoef a) (aCoef a)
          (blockheaders a) v (nibble_state a) (nibble a).
Definition set_nibble_state v (a : adpcm_t) :=
  mkAdpcm (cbSize a) (wSamplesPerBlock a) (wNumCoef a) (aCoef a)
          (blockheaders a) (samples_left_in_block a) v (nibble a).
Definition set_nibble v (a : adpcm_t) :=
  mkAdpcm (cbSize a) (wSamplesPerBlock a) (wNumCoef a) (aCoef a)
          (blockheaders a) (samples_left_in_block a) (nibble_state a) v.

Definition set_bPredictor v (h : ADPCMBLOCKHEADER) :=
  mkHeader v (iDelta h) (iSamp0 h) (iSamp1 h).
Definition set_iDelta v (h : ADPCMBLOCKHEADER) :=
  mkHeader (bPredictor h) v (iSamp0 h) (iSamp1 h).
Definition set_iSamp0 v (h : ADPCMBLOCKHEADER) :=
  mkHeader (bPredictor h) (iDelta h) v (iSamp1 h).
Definition set_iSamp1 v (h : ADPCMBLOCKHEADER) :=
  mkHeader (bPredictor h) (iDelta h) (iSamp0 h) v.

(** ** Effects

    A member function either returns a value, leaving a new object state
    and the messages it passed to [SetError] (oldest first), or stops the
    program.  The faults are the ways a call can fail to return: a failed
    [ASSERT], an integer division by zero, a use of the null stream, an
    array access outside the array, a [float] converted to an integer that
    cannot hold it, and a loop that has not finished within the iterations
    it was given. *)

Inductive fault :=
| AssertionFailed
| DivisionByZero
| NullStream
| OutOfBounds
| FloatRange
| OutOfFuel.

Inductive outcome (A : Type) :=
| Returned (a : A) (s : reader) (errs : list string)
| Faulted (f : fault).
Arguments Returned {A} a s errs.
Arguments Faulted {A} f.

Definition M (A : Type) : Type := reader -> outcome A.

Definition ret {A} (a : A) : M A := fun s => Returned a s [].

Definition bind {A B} (m : M A) (k : A -> M B) : M B :=
  fun s =>
    match m s with
    | Returned a s1 e1 =>
        match k a s1 with
        | Returned b s2 e2 => Returned b s2 (e1 ++ e2)
        | Faulted f => Faulted f
        end
    | Faulted f => Faulted f
    end.

Declare Scope wav_scope.
Delimit Scope wav_scope with wav.
Notation "x <- m ;; k" := (bind m (fun x => k))
  (at level 100, m at next level, right associativity) : wav_scope.
Notation "' p <- m ;; k" := (bind m (fun x => match x with p => k end))
  (at level 100, p pattern, m at next level, right associativity) : wav_scope.
Notation "m ;; k" := (bind m (fun _ => k))
  (at level 100, right associativity) : wav_scope.
Local Open Scope wav_scope.

Definition gets {A} (f : reader -> A) : M A := fun s => Returned (f s) s [].
Definition modify (f : reader -> reader) : M unit :=
  fun s => Returned tt (f s) [].
Definition abort {A} (f : fault) : M A := fun _ => Faulted f.
Definition SetError (msg : string) : M unit := fun s => Returned tt s [msg].

(** [ASSERT] is the assertion macro of [global.h]: when the condition does
    not hold the program stops. *)
Definition ASSERT (c : bool) : M unit :=
  if c then ret tt else abort AssertionFailed.

(** Indexing a heap array; outside the array the access is a fault. *)
Definition index {A} (l : list A) (i : Z) : M A :=
  if i <? 0 then abort OutOfBounds
  else match nth_error l (Z.to_nat i) with
       | Some a => ret a
       | None => abort OutOfBounds
       end.

Fixpoint list_update {A} (l : list A) (i : nat) (a : A) : option (list A) :=
  match l, i with
  | [], _ => None
  | _ :: t, O => Some (a :: t)
  | h :: t, S i' =>
      match list_update t i' a with
      | Some t' => Some (h :: t')
      | None => None
      end
  end.

Definition store {A} (l : list A) (i : Z) (a : A) : M (list A) :=
  if i <? 0 then abort OutOfBounds
  else match list_update l (Z.to_nat i) a with
       | Some l' => ret l'
       | None => abort OutOfBounds
       end.

(** The message of [strerror(errno)] after a failed [fseek]. *)
Definition strerror_errno : string := "Invalid argument"%string.

(** ** stdio *)

Definition the_stream : M FILE :=
  fun s => match rw s with
           | Some f => Returned f s []
           | None => Faulted NullStream
           end.

(** [fread(buf, 1, n, rw)]: the bytes transferred, at most [n] and no more
    than the file holds after the position; the position moves past them. *)
Definition fread (n : Z) : M (list byte) :=
  f <- the_stream ;;
  let got := firstn (Z.to_nat n) (skipn (Z.to_nat (cursor f)) (contents f)) in
  modify (set_rw (Some (mkFILE (contents f)
                               (cursor f + Z.of_nat (length got))))) ;;
  ret got.

Definition ftell : M Z :=
  f <- the_stream ;; ret (cursor f).

(** [fseek(rw, off, SEEK_SET)] with [off] the value of the [long]
    argument: 0, or -1 for a negative position, which leaves the position
    alone.  A position past the end of the file is accepted. *)
Definition fseek_set (off : Z) : M Z :=
  f <- the_stream ;;
  if off <? 0 then ret (-1)
  else modify (set_rw (Some (mkFILE (contents f) off))) ;; ret 0.

(** [fseek(rw, off, SEEK_END)]. *)
Definition fseek_end (off : Z) : M Z :=
  f <- the_stream ;;
  let target := Z.of_nat (length (contents f)) + off in
  if target <? 0 then ret (-1)
  else modify (set_rw (Some (mkFILE (contents f) target))) ;; ret 0.

(** [fread(p, size, 1, rw)] followed by the test [rc != 1] of the
    [read_*] helpers: the item, or the end-of-file error after a short
    read (which still consumes what was there). *)
Definition read_item (size : Z) : M (option (list byte)) :=
  bs <- fread size ;;
  if Z.of_nat (length bs) =? size then ret (Some bs)
  else SetError "end of file" ;; ret None.

Definition read_le16_signed : M (option Z) :=
  r <- read_item 2 ;;
  ret (option_map (fun bs => Sint16 (le_decode bs)) r).

Definition read_le16_unsigned : M (option Z) :=
  r <- read_item 2 ;;
  ret (option_map le_decode r).

Definition read_le32_signed : M (option Z) :=
  r <- read_item 4 ;;
  ret (option_map (fun bs => Sint32 (le_decode bs)) r).

Definition read_le32_unsigned : M (option Z) :=
  r <- read_item 4 ;;
  ret (option_map le_decode r).

Definition read_uint8 : M (option Z) :=
  r <- read_item 1 ;;
  ret (option_map le_decode r).

(** ** Position arithmetic *)

Definition float_to_Uint32 (x : Float32.float) : M Z :=
  match Float32.to_Uint32 x with
  | Some z => ret z
  | None => abort FloatRange
  end.

(** [frames_per_ms = ((float) SampleRate) / 1000.0f] *)
Definition frames_per_ms (rate : Z) : Float32.float :=
  Float32.div (Float32.of_Z rate) (Float32.of_Z 1000).

Definition ConvertMsToBytePos (bytesPerSample channels ms : Z) : M Z :=
  rate <- gets SampleRate ;;
  frame_offset <-
    float_to_Uint32 (Float32.mul (frames_per_ms rate) (Float32.of_Z ms)) ;;
  let frame_size := Uint32 (bytesPerSample * channels) in
  ret (Uint32 (frame_offset * frame_size)).

Definition ConvertBytePosToMs (bytesPerSample channels pos : Z) : M Z :=
  let frame_size := Uint32 (bytesPerSample * channels) in
  if frame_size =? 0 then abort DivisionByZero
  else
    let frame_no := pos / frame_size in
    rate <- gets SampleRate ;;
    float_to_Uint32 (Float32.div (Float32.of_Z frame_no) (frames_per_ms rate)).

(** ** The format chunk *)

(** [RETURN_IF_MACRO(!read(rw, &field), false)] followed by the rest. *)
Definition read_into (rd : M (option Z)) (upd : Z -> reader -> reader)
           (rest : M bool) : M bool :=
  r <- rd ;;
  match r with
  | None => ret false
  | Some v => modify (upd v) ;; rest
  end.

Definition upd_fmt (f : Z -> fmt_t -> fmt_t) (v : Z) (s : reader) : reader :=
  set_fmt (f v (fmt s)) s.

Definition upd_adpcm (f : Z -> adpcm_t -> adpcm_t) (v : Z) (s : reader)
  : reader :=
  set_adpcm (f v (adpcm s)) s.

Definition upd_coef (f : Z -> ADPCMCOEFSET -> ADPCMCOEFSET) (i : nat) (v : Z)
           (s : reader) : reader :=
  match nth_error (aCoef (adpcm s)) i with
  | Some c =>
      match list_update (aCoef (adpcm s)) i (f v c) with
      | Some l => set_adpcm (set_aCoef l (adpcm s)) s
      | None => s
      end
  | None => s
  end.

(** The loop over the [wNumCoef] coefficient pairs. *)
Fixpoint read_coefs (idxs : list nat) (rest : M bool) : M bool :=
  match idxs with
  | [] => rest
  | i :: idxs' =>
      read_into read_le16_signed
                (upd_coef (fun v c => mkCoef v (iCoef2 c)) i)
        (read_into read_le16_signed
                   (upd_coef (fun v c => mkCoef (iCoef1 c) v) i)
           (read_coefs idxs' rest))
  end.

Definition zero_header : ADPCMBLOCKHEADER := mkHeader 0 0 0 0.

(** The two [new] arrays come without initial values; the model gives
    them zeros. *)
Definition read_fmt_chunk : M bool :=
  read_into read_le16_unsigned (upd_fmt set_wFormatTag)
 (read_into read_le16_unsigned (upd_fmt set_wChannels)
 (read_into read_le32_unsigned set_SampleRate
 (read_into read_le32_unsigned (upd_fmt set_dwAvgBytesPerSec)
 (read_into read_le16_unsigned (upd_fmt set_wBlockAlign)
 (read_into read_le16_unsigned (upd_fmt set_wBitsPerSample)
 (f <- gets fmt ;;
  if wFormatTag f =? FMT_ADPCM then
    modify (set_adpcm zero_adpcm) ;;
    read_into read_le16_unsigned (upd_adpcm set_cbSize)
   (read_into read_le16_unsigned (upd_adpcm set_wSamplesPerBlock)
   (read_into read_le16_unsigned (upd_adpcm set_wNumCoef)
   (a <- gets adpcm ;;
    modify (set_adpcm
              (set_aCoef (repeat (mkCoef 0 0) (Z.to_nat (wNumCoef a))) a)) ;;
    read_coefs (seq 0 (Z.to_nat (wNumCoef a)))
      (a' <- gets adpcm ;;
       modify (set_adpcm
                 (set_blockheaders
                    (repeat zero_header (Z.to_nat (wChannels f))) a')) ;;
       ret true))))
  else ret true)))))).

(** ** The ADPCM decoder *)

Definition FIXED_POINT_COEF_BASE : Z := 256.
Definition FIXED_POINT_ADAPTION_BASE : Z := 256.
Definition SMALLEST_ADPCM_DELTA : Z := 16.

Definition max_audioval : Z := 2 ^ (16 - 1) - 1.
Definition min_audioval : Z := - 2 ^ (16 - 1).

Definition AdaptionTable : list Z :=
  [230; 230; 230; 230; 307; 409; 512; 614;
   768; 614; 512; 409; 307; 230; 230; 230].

(** [clamp(x, lo, hi)] of [RageUtil.h]. *)
Definition clamp (x lo hi : Z) : Z := Z.max lo (Z.min x hi).

(** One nibble.  [nib] is one of 0..15 at both call sites; the table is
    read at [nib]. *)
Definition do_adpcm_nibble (nib : Z) (header : ADPCMBLOCKHEADER)
           (lPredSamp : Z) : ADPCMBLOCKHEADER :=
  let lNewSamp := lPredSamp in
  let lNewSamp :=
    if Z.testbit nib 3
    then Sint32 (lNewSamp + Sint32 (iDelta header * (nib - 0x10)))
    else Sint32 (lNewSamp + Sint32 (iDelta header * nib)) in
  let lNewSamp := clamp lNewSamp min_audioval max_audioval in
  let delta :=
    Z.quot (Sint32 (iDelta header * nth (Z.to_nat nib) AdaptionTable 0))
           FIXED_POINT_ADAPTION_BASE in
  let delta := Z.max delta SMALLEST_ADPCM_DELTA in
  mkHeader (bPredictor header)
           (Uint16 (Sint16 delta))
           (Sint16 lNewSamp)
           (iSamp0 header).

(** The linear prediction of [decode_adpcm_sample_frame]. *)
Definition predict (coef : ADPCMCOEFSET) (header : ADPCMBLOCKHEADER) : Z :=
  Z.quot (Sint32 (iSamp0 header * iCoef1 coef + iSamp1 header * iCoef2 coef))
         FIXED_POINT_COEF_BASE.

Definition put_header (i : Z) (h : ADPCMBLOCKHEADER) : M unit :=
  a <- gets adpcm ;;
  l <- store (blockheaders a) i h ;;
  modify (fun s => set_adpcm (set_blockheaders l (adpcm s)) s).

(** The body of the channel loop, for the channels [idxs] still to do and
    the local [nib].  The result is [nib] at the end of the loop, or
    [None] where the function returns [false]. *)
Fixpoint decode_channels (idxs : list nat) (nib : Z) : M (option Z) :=
  match idxs with
  | [] => ret (Some nib)
  | i :: idxs' =>
      a <- gets adpcm ;;
      h <- index (blockheaders a) (Z.of_nat i) ;;
      c <- index (aCoef a) (bPredictor h) ;;
      let lPredSamp := predict c h in
      if nibble_state a =? 0 then
        r <- read_uint8 ;;
        match r with
        | None => ret None
        | Some nib' =>
            modify (upd_adpcm set_nibble_state 1) ;;
            put_header (Z.of_nat i)
                       (do_adpcm_nibble (Z.shiftr nib' 4) h lPredSamp) ;;
            decode_channels idxs' nib'
        end
      else
        modify (upd_adpcm set_nibble_state 0) ;;
        put_header (Z.of_nat i)
                   (do_adpcm_nibble (Z.land nib 0x0F) h lPredSamp) ;;
        decode_channels idxs' nib
  end.

Definition channel_indices (s : reader) : list nat :=
  seq 0 (Z.to_nat (wChannels (fmt s))).

Definition decode_adpcm_sample_frame : M bool :=
  idxs <- gets channel_indices ;;
  a <- gets adpcm ;;
  r <- decode_channels idxs (Uint8 (nibble a)) ;;
  match r with
  | None => ret false
  | Some nib => modify (upd_adpcm set_nibble nib) ;; ret true
  end.

(** One of the four loops of [read_adpcm_block_headers]: a field of every
    channel's header of [out], in channel order.  The headers are updated
    in place, so what was read before a failure stays written. *)
Fixpoint read_header_field (rd : M (option Z))
         (upd : Z -> ADPCMBLOCKHEADER -> ADPCMBLOCKHEADER)
         (idxs : list nat) (out : adpcm_t) : M (bool * adpcm_t) :=
  match idxs with
  | [] => ret (true, out)
  | i :: idxs' =>
      r <- rd ;;
      match r with
      | None => ret (false, out)
      | Some v =>
          h <- index (blockheaders out) (Z.of_nat i) ;;
          l <- store (blockheaders out) (Z.of_nat i) (upd v h) ;;
          read_header_field rd upd idxs' (set_blockheaders l out)
      end
  end.

(** [read_adpcm_block_headers(out)]: the updated [out] comes back with
    the result, also when the result is [false]. *)
Definition read_adpcm_block_headers (out : adpcm_t) : M (bool * adpcm_t) :=
  idxs <- gets channel_indices ;;
  '(ok, out) <- read_header_field read_uint8 set_bPredictor idxs out ;;
  if negb ok then ret (false, out) else
  '(ok, out) <- read_header_field read_le16_unsigned set_iDelta idxs out ;;
  if negb ok then ret (false, out) else
  '(ok, out) <- read_header_field read_le16_signed set_iSamp0 idxs out ;;
  if negb ok then ret (false, out) else
  '(ok, out) <- read_header_field read_le16_signed set_iSamp1 idxs out ;;
  if negb ok then ret (false, out) else
  ret (true,
       set_nibble_state 0
         (set_samples_left_in_block (wSamplesPerBlock out) out)).

(** The call on the reader's own [adpcm]. *)
Definition read_own_block_headers : M bool :=
  a <- gets adpcm ;;
  '(ok, a') <- read_adpcm_block_headers a ;;
  modify (set_adpcm a') ;;
  ret ok.

Definition frame_sample (frame : Z) (h : ADPCMBLOCKHEADER) : Z :=
  if frame =? 0 then iSamp0 h else iSamp1 h.

(** [put_adpcm_sample_frame(buf + bw, frame)]: one 16-bit sample per
    channel, in the byte order of the (little-endian) host. *)
Definition put_adpcm_sample_frame (buf : list byte) (bw frame : Z)
  : M (list byte) :=
  idxs <- gets channel_indices ;;
  a <- gets adpcm ;;
  if Z.of_nat (length (blockheaders a)) <? Z.of_nat (length idxs)
  then abort OutOfBounds
  else
    let samples :=
      map (frame_sample frame) (firstn (length idxs) (blockheaders a)) in
    ret (write_at (Z.to_nat bw)
                  (flat_map (fun v => le_encode 2 (Uint16 v)) samples) buf).

Definition dec_samples_left : M unit :=
  modify (fun s =>
    set_adpcm (set_samples_left_in_block
                 (Uint32 (samples_left_in_block (adpcm s) - 1)) (adpcm s)) s).

(** The [while (bw < len)] loop, given [fuel] iterations. *)
Fixpoint read_sample_fmt_adpcm_loop (fuel : nat) (buf : list byte)
         (len bw : Z) : M (Z * list byte) :=
  if bw <? len then
    match fuel with
    | O => abort OutOfFuel
    | S fuel' =>
        a <- gets adpcm ;;
        fs <- gets (fun s => adpcm_sample_frame_size (fmt s)) ;;
        if samples_left_in_block a =? 0 then
          ok <- read_own_block_headers ;;
          if negb ok then ret (bw, buf) else
          buf <- put_adpcm_sample_frame buf bw 1 ;;
          dec_samples_left ;;
          read_sample_fmt_adpcm_loop fuel' buf len (Uint32 (bw + fs))
        else if samples_left_in_block a =? 1 then
          buf <- put_adpcm_sample_frame buf bw 0 ;;
          dec_samples_left ;;
          read_sample_fmt_adpcm_loop fuel' buf len (Uint32 (bw + fs))
        else
          buf <- put_adpcm_sample_frame buf bw 0 ;;
          dec_samples_left ;;
          let bw := Uint32 (bw + fs) in
          ok <- decode_adpcm_sample_frame ;;
          if negb ok then ret (bw, buf)
          else read_sample_fmt_adpcm_loop fuel' buf len bw
    end
  else ret (bw, buf).

Definition read_sample_fmt_adpcm (fuel : nat) (buf : list byte) (len : Z)
  : M (Z * list byte) :=
  read_sample_fmt_adpcm_loop fuel buf len 0.

(** [fread(buf, 1, len, rw)] into the caller's buffer. *)
Definition read_sample_fmt_normal (buf : list byte) (len : Z)
  : M (Z * list byte) :=
  got <- fread len ;;
  let buf := write_at 0 got buf in
  let ret_ := Sint32 (Z.of_nat (length got)) in
  if ret_ =? -1 then SetError strerror_errno ;; ret (-1, buf)
  else ret (ret_, buf).

Section Platform.

(** The width of [long], the type of stdio offsets (32 on the 32-bit
    targets, 64 on LP64), and the signedness of plain [char]. *)
Variable long_bits : Z.
Variable char_is_signed : bool.

Definition to_long (z : Z) : Z := wrap_signed long_bits z.

(** ** Seeking *)

Definition seek_sample_fmt_normal (ms : Z) : M Z :=
  bps <- gets BytesPerSample ;;
  ch <- gets Channels ;;
  off <- ConvertMsToBytePos bps ch ms ;;
  let offset := Sint32 off in
  dso <- gets (fun s => data_starting_offset (fmt s)) ;;
  let pos := Sint32 (dso + offset) in
  rc <- fseek_set (to_long pos) ;;
  if negb (rc =? pos) then ret (-1)
  else ret (Sint32 ms).

(** The [while (rc > 0)] loop of [seek_sample_fmt_adpcm].  [None] is the
    failure exit, after which the function rewinds and returns 0. *)
Fixpoint seek_decode_loop (fuel : nat) (rc : Z) : M (option unit) :=
  if 0 <? rc then
    match fuel with
    | O => abort OutOfFuel
    | S fuel' =>
        ok <- decode_adpcm_sample_frame ;;
        if negb ok then ret None
        else
          dec_samples_left ;;
          fs <- gets (fun s => adpcm_sample_frame_size (fmt s)) ;;
          seek_decode_loop fuel' (Sint32 (rc - fs))
    end
  else ret (Some tt).

Definition seek_failed : M Z :=
  fseek_set 0 ;;
  modify (upd_adpcm set_samples_left_in_block 0) ;;
  ret 0.

Definition seek_sample_fmt_adpcm (fuel : nat) (ms : Z) : M Z :=
  bps <- gets BytesPerSample ;;
  ch <- gets Channels ;;
  off <- ConvertMsToBytePos bps ch ms ;;
  let offset := Sint32 off in
  a <- gets adpcm ;;
  f <- gets fmt ;;
  let bpb := Sint32 (wSamplesPerBlock a * adpcm_sample_frame_size f) in
  if bpb =? 0 then abort DivisionByZero else
  let skipsize := Sint32 (Z.quot offset bpb * wBlockAlign f) in
  let pos := Sint32 (skipsize + data_starting_offset f) in
  rc <- fseek_set (to_long pos) ;;
  if rc =? -1 then SetError strerror_errno ;; ret 0 else
  if negb (rc =? pos) then SetError "end of file" ;; ret 0 else
  let rc := Z.rem offset bpb in
  ok <- read_own_block_headers ;;
  if negb ok then seek_failed else
  dec_samples_left ;;
  let rc := Sint32 (rc - adpcm_sample_frame_size f) in
  r <- seek_decode_loop fuel rc ;;
  match r with
  | None => seek_failed
  | Some _ => ret (Sint32 ms)
  end.

Definition SetPosition (fuel : nat) (ms : Z) : M Z :=
  f <- gets fmt ;;
  if wFormatTag f =? FMT_NORMAL then seek_sample_fmt_normal (Uint32 ms)
  else if wFormatTag f =? FMT_ADPCM then seek_sample_fmt_adpcm fuel (Uint32 ms)
  else ASSERT false ;; ret (-1).

(** ** Length *)

(** [tmp_adpcm] is the local of that name.  It is declared without an
    initialiser, so the model takes its contents as an argument; a
    [blockheaders] with fewer entries than the stream has channels makes
    the header reads fault, as a pointer to no array does.  What a write
    through such a pointer does to other objects is outside this model. *)
Definition get_length_fmt_adpcm (tmp_adpcm : adpcm_t) : M Z :=
  offset <- fseek_end 0 ;;
  if offset =? -1 then SetError strerror_errno ;; ret (-1) else
  f <- gets fmt ;;
  a <- gets adpcm ;;
  let offset := Sint32 (offset - data_starting_offset f) in
  let bpb := Sint32 (wSamplesPerBlock a * adpcm_sample_frame_size f) in
  if wBlockAlign f =? 0 then abort DivisionByZero else
  let blockno := Z.quot offset (wBlockAlign f) in
  let byteno := Sint32 (blockno * bpb) in
  fseek_set (to_long (Uint32 (Sint32 (blockno * wBlockAlign f)
                              + data_starting_offset f))) ;;
  '(ok, tmp_adpcm) <- read_adpcm_block_headers tmp_adpcm ;;
  if negb ok then ret 0 else
  bps <- gets BytesPerSample ;;
  ch <- gets Channels ;;
  ms1 <- ConvertBytePosToMs bps ch (Uint32 byteno) ;;
  ms2 <- ConvertBytePosToMs bps ch
           (Uint32 (samples_left_in_block tmp_adpcm
                    * adpcm_sample_frame_size f)) ;;
  ret (Sint32 (Uint32 (ms1 + ms2))).

Definition get_length_fmt_normal : M Z :=
  r <- fseek_end 0 ;;
  if r =? -1 then SetError strerror_errno ;; ret (-1) else
  offset <- ftell ;;
  let offset := Sint32 offset in
  f <- gets fmt ;;
  bps <- gets BytesPerSample ;;
  ch <- gets Channels ;;
  (* the arguments of LOG->Trace are evaluated first *)
  ConvertBytePosToMs bps ch (Uint32 (offset - data_starting_offset f)) ;;
  ms <- ConvertBytePosToMs bps ch (Uint32 (offset - data_starting_offset f)) ;;
  ret (Sint32 ms).

Definition GetLength (tmp_adpcm : adpcm_t) : M Z :=
  origpos <- ftell ;;
  let origpos := Sint32 origpos in
  f <- gets fmt ;;
  ret_ <- (if wFormatTag f =? FMT_NORMAL then get_length_fmt_normal
           else if wFormatTag f =? FMT_ADPCM
                then get_length_fmt_adpcm tmp_adpcm
                else ret 0) ;;
  rc <- fseek_set (to_long origpos) ;;
  if rc =? -1 then SetError strerror_errno ;; ret (-1)
  else ret ret_.

(** ** The chunk scanner *)

Inductive scan := Found (size : Z) | NotFound | Next (pos : Z).

(** One turn of the [while (1)] loop of [find_chunk]; [pos] is the local
    of that name. *)
Definition find_chunk_step (id pos : Z) : M scan :=
  r <- read_le32_unsigned ;;
  match r with
  | None => ret NotFound
  | Some id_ =>
      r <- read_le32_signed ;;
      match r with
      | None => ret NotFound
      | Some size =>
          if id_ =? id then ret (Found size)
          else if size <? 0 then ret NotFound
          else
            let pos := Uint32 (pos + (4 * 2) + size) in
            rc <- fseek_set (to_long pos) ;;
            if rc =? -1 then SetError strerror_errno ;; ret NotFound
            else ret (Next pos)
      end
  end.

Fixpoint find_chunk_loop (fuel : nat) (id pos : Z) : M (option Z) :=
  match fuel with
  | O => abort OutOfFuel
  | S fuel' =>
      r <- find_chunk_step id pos ;;
      match r with
      | Found size => ret (Some size)
      | NotFound => ret None
      | Next pos' => find_chunk_loop fuel' id pos'
      end
  end.

(** [find_chunk(id, size)]: [Some size] for [true], [None] for [false]. *)
Definition find_chunk (fuel : nat) (id : Z) : M (option Z) :=
  pos <- ftell ;;
  find_chunk_loop fuel id (Uint32 pos).

(** ** Opening *)

Definition is_magic (r : option Z) (magic : Z) : bool :=
  match r with
  | Some m => m =? magic
  | None => false
  end.

Definition decimal (z : Z) : string := NilZero.string_of_int (Z.to_int z).

(** [WAV_open_internal] is one function; the model cuts its body into
    consecutive pieces, each continuing into the next one.  This is the
    choice of [Conversion] and [BytesPerSample] from the sample size;
    [false] is the branch that returns [OPEN_MATCH_BUT_FAIL]. *)
Definition select_conversion : M bool :=
  f <- gets fmt ;;
  if (wBitsPerSample f =? 4) && (wFormatTag f =? FMT_ADPCM) then
    modify (set_Conversion CONV_NONE) ;;
    modify (set_BytesPerSample 2) ;; ret true
  else if wBitsPerSample f =? 8 then
    modify (set_Conversion CONV_8BIT_TO_16BIT) ;;
    modify (set_BytesPerSample 1) ;; ret true
  else if wBitsPerSample f =? 16 then
    modify (set_Conversion CONV_16LSB_TO_16SYS) ;;
    modify (set_BytesPerSample 2) ;; ret true
  else
    SetError ("Unsupported sample size " ++ decimal (wBitsPerSample f)) ;;
    ret false.

Definition double_ratio : M unit :=
  modify (fun s =>
            set_Input_Buffer_Ratio (Sint32 (Input_Buffer_Ratio s * 2)) s).

(** From the two updates of [Input_Buffer_Ratio] to the end. *)
Definition locate_data (fuel : nat) (NextChunk : Z) : M OpenResult :=
  conv <- gets Conversion ;;
  (match conv with
   | CONV_8BIT_TO_16BIT => double_ratio
   | _ => ret tt
   end) ;;
  ch <- gets Channels ;;
  (if ch =? 1 then double_ratio else ret tt) ;;
  fseek_set (to_long NextChunk) ;;
  r <- find_chunk fuel dataID ;;
  match r with
  | None => SetError "No data chunk." ;; ret OPEN_MATCH_BUT_FAIL
  | Some _ =>
      dso <- ftell ;;
      bps <- gets BytesPerSample ;;
      ch <- gets Channels ;;
      modify (fun s =>
        set_fmt (set_adpcm_sample_frame_size (Uint32 (bps * ch))
                   (set_data_starting_offset (Uint32 dso) (fmt s))) s) ;;
      ret OPEN_OK
  end.

(** From the assignment of [Channels], after the format chunk has been
    read, to the end. *)
Definition after_format_chunk (fuel : nat) (NextChunk : Z) : M OpenResult :=
  f <- gets fmt ;;
  modify (set_Channels (Uint8 (wChannels f))) ;;
  ch <- gets Channels ;;
  ASSERT (ch <=? 2) ;;
  if negb (wFormatTag f =? FMT_NORMAL) && negb (wFormatTag f =? FMT_ADPCM)
  then
    SetError ("Unsupported WAV format " ++ decimal (wFormatTag f)) ;;
    ret OPEN_NO_MATCH
  else
    supported <- select_conversion ;;
    if negb supported then ret OPEN_MATCH_BUT_FAIL
    else locate_data fuel NextChunk.

(** From the search for the format chunk, after the container magic and
    the form type have been accepted, to the end. *)
Definition after_magic (fuel : nat) : M OpenResult :=
  r <- find_chunk fuel fmtID ;;
  match r with
  | None => SetError "No format chunk." ;; ret OPEN_MATCH_BUT_FAIL
  | Some NextChunk =>
      here <- ftell ;;
      let NextChunk := Sint32 (NextChunk + here) in
      ok <- read_fmt_chunk ;;
      if negb ok
      then SetError "Can't read format chunk." ;; ret OPEN_MATCH_BUT_FAIL
      else after_format_chunk fuel NextChunk
  end.

Definition WAV_open_internal (fuel : nat) : M OpenResult :=
  magic1 <- read_le32_unsigned ;;
  if negb (is_magic magic1 riffID)
  then SetError "WAV: Not a RIFF file." ;; ret OPEN_NO_MATCH else
  read_le32_unsigned ;;
  magic2 <- read_le32_unsigned ;;
  if negb (is_magic magic2 waveID)
  then SetError "Not a WAVE file." ;; ret OPEN_NO_MATCH
  else after_magic fuel.

Definition Close : M unit :=
  modify (fun s =>
    set_rw None (set_adpcm (set_blockheaders [] (set_aCoef [] (adpcm s))) s)).

(** [Open(filename)], with [data] the contents of the file of that name. *)
Definition Open (fuel : nat) (data : list byte) : M OpenResult :=
  Close ;;
  modify (set_Input_Buffer_Ratio 1) ;;
  modify (set_rw (Some (mkFILE data 0))) ;;
  modify (set_fmt zero_fmt) ;;
  rc <- WAV_open_internal fuel ;;
  match rc with
  | OPEN_OK => ret rc
  | _ => Close ;; ret rc
  end.

(** ** Reading *)

(** [(Sint16(buf[s]) - 128) << 8], stored into a [Sint16].  [buf] is an
    array of plain [char]. *)
Definition char_value (b : byte) : Z :=
  if char_is_signed then wrap_signed 8 (byte_to_Z b) else byte_to_Z b.

Definition widen_8bit (b : byte) : Z :=
  Sint16 (Z.shiftl (Sint32 (Sint16 (char_value b) - 128)) 8).

(** An array of [Sint16] seen as bytes, and back. *)
Definition bytes_of_samples (l : list Z) : list byte :=
  flat_map (fun v => le_encode 2 (Uint16 v)) l.

Fixpoint samples_of_bytes (l : list byte) : list Z :=
  match l with
  | b0 :: b1 :: l' => Sint16 (le_decode [b0; b1]) :: samples_of_bytes l'
  | _ => []
  end.

(** The format-specific reader, asked for [actualLen] bytes. *)
Definition read_raw (fuel : nat) (buf : list byte) (actualLen : Z)
  : M (Z * list byte) :=
  f <- gets fmt ;;
  if wFormatTag f =? FMT_NORMAL then
    read_sample_fmt_normal buf (Uint32 actualLen)
  else if wFormatTag f =? FMT_ADPCM then
    '(bw, buf) <- read_sample_fmt_adpcm fuel buf (Uint32 actualLen) ;;
    ret (Sint32 bw, buf)
  else ASSERT false ;; ret (0, buf).

(** The 8-bit to 16-bit step: the loop over [tmpbuf], the [memcpy] back
    and [ret *= 2]. *)
Definition widen_step (ret_ : Z) (buf : list byte) : M (Z * list byte) :=
  t <- gets tmpbuf ;;
  if Z.of_nat (length t) <? ret_ then abort OutOfBounds else
  let n := Z.to_nat ret_ in
  let t := map widen_8bit (firstn n buf) ++ skipn n t in
  modify (set_tmpbuf t) ;;
  ret (Sint32 (ret_ * 2), write_at 0 (bytes_of_samples (firstn n t)) buf).

(** The mono to stereo step. *)
Definition duplicate_step (ret_ : Z) (buf : list byte) : M (Z * list byte) :=
  t <- gets tmpbuf ;;
  if Z.of_nat (length t) <? ret_ then abort OutOfBounds else
  let n := Z.to_nat ret_ in
  let half := Z.to_nat (ret_ / 2) in
  let doubled :=
    flat_map (fun v => [v; v]) (samples_of_bytes (firstn (2 * half) buf)) in
  let t := doubled ++ skipn (length doubled) t in
  modify (set_tmpbuf t) ;;
  ret (Sint32 (ret_ * 2), write_at 0 (bytes_of_samples (firstn n t)) buf).

(** The static scratch array grows to [len] elements when it is smaller.
    C++ leaves the new array without values; the model fills it with
    zeros. *)
Definition grow_tmpbuf (len : Z) : M unit :=
  t <- gets tmpbuf ;;
  if Z.of_nat (length t) <? len
  then modify (set_tmpbuf (repeat 0 (Z.to_nat len)))
  else ret tt.

(** The part of [Read] after the [switch]: what it does with the [ret_]
    bytes that the format-specific reader left in [buf]. *)
Definition convert (len ret_ : Z) (buf : list byte) : M (Z * list byte) :=
  if ret_ <=? 0 then ret (ret_, buf) else
  grow_tmpbuf len ;;
  conv <- gets Conversion ;;
  '(ret_, buf) <-
    (match conv with
     | CONV_8BIT_TO_16BIT => widen_step ret_ buf
     | _ => ret (ret_, buf)
     end) ;;
  ch <- gets Channels ;;
  if ch =? 1 then duplicate_step ret_ buf
  else ret (ret_, buf).

(** [Read(buf, len)] on a little-endian host, where the byte swap of the
    16-bit case is compiled out.  The result is the return value and the
    buffer. *)
Definition Read (fuel : nat) (buf : list byte) (len : Z)
  : M (Z * list byte) :=
  ratio <- gets Input_Buffer_Ratio ;;
  let ratio := Uint32 ratio in
  (if ratio =? 0 then abort DivisionByZero else ret tt) ;;
  ASSERT (len mod ratio =? 0) ;;
  let ActualLen := Sint32 (len / ratio) in
  '(ret_, buf) <- read_raw fuel buf ActualLen ;;
  convert len ret_ buf.

End Platform.

End WAV.
Import WAV.

(* ================================================================== *)
(** * Vocabulary of the properties *)

(** [preserves I m]: a call of [m] that returns keeps [I]. *)
Definition preserves {A} (I : reader -> Prop) (m : M A) : Prop :=
  forall s a s' e, I s -> m s = Returned a s' e -> I s'.

(** [returns m s]: the call returns (no fault, and within its fuel). *)
Definition returns {A} (m : M A) (s : reader) : Prop :=
  exists a s' e, m s = Returned a s' e.

(** Properties that do not depend on the file position (nor on more than
    the sign of it), on the decoder state, on the scratch array. *)
Definition rw_stable (I : reader -> Prop) : Prop :=
  forall s f c, I s -> rw s = Some f -> (0 <= cursor f -> 0 <= c) ->
                I (set_rw (Some (mkFILE (contents f) c)) s).

Definition adpcm_stable (I : reader -> Prop) : Prop :=
  forall s a, I s -> I (set_adpcm a s).

Definition tmpbuf_stable (I : reader -> Prop) : Prop :=
  forall s t, I s -> I (set_tmpbuf t s).

(** Properties of the stream alone. *)
Definition rw_only (I : reader -> Prop) : Prop :=
  forall s s', rw s' = rw s -> I s -> I s'.

(** [moved s0 s]: [s] is [s0] up to the file position. *)
Definition moved (s0 s : reader) : Prop :=
  option_map contents (rw s) = option_map contents (rw s0)
  /\ fmt s = fmt s0
  /\ adpcm s = adpcm s0
  /\ SampleRate s = SampleRate s0
  /\ Channels s = Channels s0
  /\ BytesPerSample s = BytesPerSample s0
  /\ Conversion s = Conversion s0
  /\ Input_Buffer_Ratio s = Input_Buffer_Ratio s0
  /\ tmpbuf s = tmpbuf s0.

(** The file position is a position. *)
Definition cursor_ok (s : reader) : Prop :=
  match rw s with
  | Some f => 0 <= cursor f
  | None => True
  end.

(** What [Open] establishes and no later call changes. *)
Record well_formed (s : reader) : Prop := {
  wf_rw : rw s <> None;
  wf_tag : wFormatTag (fmt s) = FMT_NORMAL \/ wFormatTag (fmt s) = FMT_ADPCM;
  wf_channels : Channels s = Uint8 (wChannels (fmt s)) /\ Channels s <= 2;
  wf_conversion :
    (wBitsPerSample (fmt s) = 4 /\ wFormatTag (fmt s) = FMT_ADPCM
     /\ Conversion s = CONV_NONE /\ BytesPerSample s = 2)
    \/ (wBitsPerSample (fmt s) = 8
        /\ Conversion s = CONV_8BIT_TO_16BIT /\ BytesPerSample s = 1)
    \/ (wBitsPerSample (fmt s) = 16
        /\ Conversion s = CONV_16LSB_TO_16SYS /\ BytesPerSample s = 2);
  wf_ratio :
    Input_Buffer_Ratio s =
    (match Conversion s with CONV_8BIT_TO_16BIT => 2 | _ => 1 end)
    * (if Channels s =? 1 then 2 else 1);
  wf_frame_size :
    adpcm_sample_frame_size (fmt s) = BytesPerSample s * Channels s
}.

(** The streams a caller can hold: the result of a successful [Open], and
    what [Read], [SetPosition] and [GetLength] make of it. *)
Inductive open_stream (long_bits : Z) (char_is_signed : bool)
  : reader -> Prop :=
| opened fuel data s0 s e :
    Open long_bits fuel data s0 = Returned OPEN_OK s e ->
    open_stream long_bits char_is_signed s
| after_Read fuel buf len s r s' e :
    open_stream long_bits char_is_signed s ->
    Read char_is_signed fuel buf len s = Returned r s' e ->
    open_stream long_bits char_is_signed s'
| after_SetPosition fuel ms s r s' e :
    open_stream long_bits char_is_signed s ->
    SetPosition long_bits fuel ms s = Returned r s' e ->
    open_stream long_bits char_is_signed s'
| after_GetLength tmp s r s' e :
    open_stream long_bits char_is_signed s ->
    GetLength long_bits tmp s = Returned r s' e ->
    open_stream long_bits char_is_signed s'.

(** The state the constructor leaves: no stream, no arrays.  The other
    members have no initial value; they are zero here. *)
Definition new_reader : reader :=
  mkReader None zero_fmt zero_adpcm 0 0 0 CONV_NONE 0 [].

(** The signed value of a nibble: 0..7 stand for themselves, 8..15 for
    -8..-1. *)
Definition signed_nibble (n : Z) : Z := if n <? 8 then n else n - 16.

(** One decode step of a channel: the prediction from the channel's
    coefficient pair, then the nibble. *)
Definition adpcm_decode_step (coef : ADPCMCOEFSET) (n : Z)
           (header : ADPCMBLOCKHEADER) : ADPCMBLOCKHEADER :=
  do_adpcm_nibble n header (predict coef header).

(** Any number of length queries in a row; [tmps] are the contents of
    the uninitialised local of each. *)
Fixpoint query_lengths (long_bits : Z) (tmps : list adpcm_t) : M unit :=
  match tmps with
  | [] => ret tt
  | tmp :: tmps' =>
      bind (GetLength long_bits tmp) (fun _ => query_lengths long_bits tmps')
  end.

(** The stream of [s] moved to the position [c]. *)
Definition at_position (c : Z) (s : reader) : reader :=
  match rw s with
  | Some f => set_rw (Some (mkFILE (contents f) c)) s
  | None => s
  end.

(** What the file holds from the file position on. *)
Definition ahead (f : FILE) : list byte :=
  skipn (Z.to_nat (cursor f)) (contents f).

(** The size of a chunk's payload with the pad byte that the container
    convention adds after an odd size. *)
Definition padded (size : Z) : Z := size + size mod 2.

Definition u16 : Z -> list byte := le_encode 2.
Definition u32 : Z -> list byte := le_encode 4.

(** [total m]: on an object that has a stream, [m] returns, and the object
    still has its stream. *)
Definition streaming (s : reader) : Prop := rw s <> None.

Definition total {A} (m : M A) : Prop :=
  forall s, streaming s ->
            exists a s' e, m s = Returned a s' e /\ streaming s'.

(** The object after [Close]. *)
Definition closed (s : reader) : reader :=
  set_rw None (set_adpcm (set_blockheaders [] (set_aCoef [] (adpcm s))) s).

(** The object on which [Open] runs [WAV_open_internal]: the file just
    opened, the ratio at 1, [fmt] cleared. *)
Definition fresh (data : list byte) (s0 : reader) : reader :=
  set_fmt zero_fmt
    (set_rw (Some (mkFILE data 0)) (set_Input_Buffer_Ratio 1 (closed s0))).

(** The same object once the twelve bytes of the container header have
    been read, where the search for the format chunk starts. *)
Definition scan_start (data : list byte) (s0 : reader) : reader :=
  set_rw (Some (mkFILE data 12)) (fresh data s0).

(** The file begins with the container magic "RIFF"; its form type, at
    offset 8, is "WAVE". *)
Definition has_magic (data : list byte) : Prop :=
  firstn 4 data = u32 riffID.

Definition has_form (data : list byte) : Prop :=
  firstn 4 (skipn 8 data) = u32 waveID.

Definition result_of {A} (o : outcome A) : option A :=
  match o with
  | Returned a _ _ => Some a
  | Faulted _ => None
  end.

(** [safe m]: no assertion fails in a call of [m]. *)
Definition safe {A} (m : M A) : Prop :=
  forall s, m s <> Faulted AssertionFailed.

(** The translation as the specification words it, in exact integer
    arithmetic: [floor(ms * sample_rate / 1000) * frame_size].  The code's
    own translation is [ConvertMsToBytePos]. *)
Definition ms_to_byte_offset (sample_rate frame_size ms : Z) : Z :=
  (ms * sample_rate / 1000) * frame_size.

(** The [float] that holds the integer [n] exactly, for [0 <= n < 2^24]:
    a 24-bit significand and the matching exponent. *)
Definition exact_float (n : Z) : Float32.float :=
  match n with
  | Zpos p =>
      let d := Zpos (digits2_pos p) in
      S754_finite false (Z.to_pos (n * 2 ^ (24 - d))) (d - 24)
  | _ => S754_zero false
  end.

(** ** Test files *)

(** A canonical file: the RIFF header, the format chunk with the extension
    [ext], the data chunk. *)
Definition wav_file (tag channels rate block_align bits : Z)
           (ext data : list byte) : list byte :=
  u32 riffID ++ u32 (36 + Z.of_nat (length ext + length data)) ++ u32 waveID
  ++ u32 fmtID ++ u32 (16 + Z.of_nat (length ext))
  ++ u16 tag ++ u16 channels ++ u32 rate ++ u32 (rate * block_align)
  ++ u16 block_align ++ u16 bits ++ ext
  ++ u32 dataID ++ u32 (Z.of_nat (length data)) ++ data.

Definition state_of {A} (o : outcome A) : reader :=
  match o with
  | Returned _ s _ => s
  | Faulted _ => new_reader
  end.

(** A chunk list whose first chunk has an odd size (one payload byte and
    its pad byte), followed by a data chunk of four bytes. *)
Definition odd_chunk_list : list byte :=
  [x4c; x49; x53; x54] ++ u32 1 ++ [xaa; x00]
  ++ u32 dataID ++ u32 4 ++ [x01; x02; x03; x04].

(** MP3 data in a WAV container: format tag 0x55. *)
Definition mp3_in_wav_file : list byte :=
  wav_file 85 2 44100 1 0 [] [xff; xfb; x90; x00].

(** 24-bit PCM, stereo and 5.1. *)
Definition pcm24_stereo_file : list byte :=
  wav_file 1 2 48000 6 24 [] [x00; x00; x00; x00; x00; x00].

Definition pcm24_surround_file : list byte :=
  wav_file 1 6 48000 18 24 [] (repeat x00 18).

(** 8-bit mono PCM at 8000 Hz, twenty samples. *)
Definition pcm8_mono_file : list byte :=
  wav_file 1 1 8000 1 8 []
           (map byte_of_Z [0; 1; 127; 128; 129; 254; 255; 64; 1; 2;
                           3; 4; 5; 6; 7; 8; 9; 10; 11; 12]).

Definition pcm8_mono : reader :=
  state_of (Open 32 8 pcm8_mono_file new_reader).

(** 16-bit stereo PCM at 44100 Hz, three frames. *)
Definition pcm16_stereo_file : list byte :=
  wav_file 1 2 44100 4 16 []
           (map byte_of_Z [1; 0; 2; 0; 3; 0; 4; 0; 5; 0; 6; 0]).

Definition pcm16_stereo : reader :=
  state_of (Open 32 8 pcm16_stereo_file new_reader).

(** Mono MS-ADPCM at 8000 Hz: two coefficient pairs, two blocks of six
    samples (two seeds and two bytes of nibbles each). *)
Definition adpcm_extension : list byte :=
  u16 32 ++ u16 6 ++ u16 2 ++ u16 256 ++ u16 0 ++ u16 512 ++ u16 (-256).

Definition adpcm_block : list byte :=
  [x00] ++ u16 16 ++ u16 100 ++ u16 50 ++ [x12; x9f].

Definition adpcm_mono_file : list byte :=
  wav_file 2 1 8000 9 4 adpcm_extension (adpcm_block ++ adpcm_block).

Definition adpcm_mono : reader :=
  state_of (Open 32 8 adpcm_mono_file new_reader).

(** ** What the calls leave alone *)

(** [same_format s0 s]: the bytes of the file, the format description, the
    sample rate, the channel count, the sample size, the conversion and
    its ratio are in [s] what they are in [s0]. *)
Definition same_format (s0 s : reader) : Prop :=
  option_map contents (rw s) = option_map contents (rw s0)
  /\ fmt s = fmt s0
  /\ SampleRate s = SampleRate s0
  /\ Channels s = Channels s0
  /\ BytesPerSample s = BytesPerSample s0
  /\ Conversion s = Conversion s0
  /\ Input_Buffer_Ratio s = Input_Buffer_Ratio s0.

(** The stream of [s] is that of [f], [n] bytes further on. *)
Definition advanced (n : Z) (f : FILE) (s : reader) : reader :=
  set_rw (Some (mkFILE (contents f) (cursor f + n))) s.

(** [behind_header id data f]: the stream [f], on the file [data], is on
    the byte after a chunk header whose identifier is [id]. *)
Definition behind_header (id : Z) (data : list byte) (f : FILE) : Prop :=
  contents f = data
  /\ 8 <= cursor f <= Z.of_nat (length data)
  /\ firstn 4 (skipn (Z.to_nat (cursor f - 8)) data) = u32 id.

(** ** The layout of a block *)

(** The headers of a block as the file has them: the predictors of all
    channels, then the deltas, then the newest samples, then the samples
    before them. *)
Definition block_header_bytes (hs : list ADPCMBLOCKHEADER) : list byte :=
  map (fun h => byte_of_Z (bPredictor h)) hs
  ++ flat_map (fun h => u16 (iDelta h)) hs
  ++ flat_map (fun h => u16 (iSamp0 h)) hs
  ++ flat_map (fun h => u16 (iSamp1 h)) hs.

(** The values that the fields of a header can hold. *)
Definition header_in_range (h : ADPCMBLOCKHEADER) : Prop :=
  0 <= bPredictor h < 256
  /\ 0 <= iDelta h < 65536
  /\ -32768 <= iSamp0 h < 32768
  /\ -32768 <= iSamp1 h < 32768.

(** [fill upd enc post hs olds]: the headers [olds] after one of the four
    loops has stored into each the field that it reads from the bytes
    [enc h] of the header [h] of the file. *)
Definition fill (upd : Z -> ADPCMBLOCKHEADER -> ADPCMBLOCKHEADER)
           (enc : ADPCMBLOCKHEADER -> list byte) (post : Z -> Z)
           (hs olds : list ADPCMBLOCKHEADER) : list ADPCMBLOCKHEADER :=
  map (fun p => upd (post (le_decode (enc (fst p)))) (snd p)) (combine hs olds).

(** ** Loops that end *)

(** [within_fuel m]: a call of [m] does not run out of the loop
    iterations it was given. *)
Definition within_fuel {A} (m : M A) : Prop :=
  forall s, m s <> Faulted OutOfFuel.

(** [frame_size_is F s]: the frames of [s] are [F] bytes long. *)
Definition frame_size_is (F : Z) (s : reader) : Prop :=
  adpcm_sample_frame_size (fmt s) = F.

(** ** More streams *)

(** 16-bit mono PCM at 8000 Hz, four samples. *)
Definition pcm16_mono_file : list byte :=
  wav_file 1 1 8000 2 16 [] (u16 1 ++ u16 (-2) ++ u16 3 ++ u16 4).

Definition pcm16_mono : reader :=
  state_of (Open 32 8 pcm16_mono_file new_reader).

(** The container header alone: magic, length and form type. *)
Definition header_only_file : list byte :=
  u32 riffID ++ u32 4 ++ u32 waveID.

(** [pcm8_mono] after a [Read] of all its twenty samples. *)
Definition pcm8_mono_drained : reader :=
  state_of (Read true 0 [] 80 pcm8_mono).

(** A file that declares no channel at all: 8-bit PCM, two bytes of
    data. *)
Definition no_channel_file : list byte :=
  wav_file 1 0 8000 1 8 [] [x80; x80].

Definition no_channel : reader :=
  state_of (Open 32 8 no_channel_file new_reader).

(** 8-bit mono PCM at 8000 Hz, sixteen samples: two milliseconds. *)
Definition two_ms_file : list byte :=
  wav_file 1 1 8000 1 8 [] (repeat x80 16).

Definition two_ms : reader :=
  state_of (Open 32 8 two_ms_file new_reader).

(** MS-ADPCM that declares no channel. *)
Definition adpcm_no_channel_file : list byte :=
  wav_file 2 0 8000 0 4 adpcm_extension (adpcm_block ++ adpcm_block).

Definition adpcm_no_channel : reader :=
  state_of (Open 32 8 adpcm_no_channel_file new_reader).


(** The mono MS-ADPCM stream after a [Read] of its first frame: the
    headers of the first block are in, the next byte of the file is the
    first byte of nibbles. *)
Definition adpcm_mono_in_block : reader :=
  state_of (Read true 1 [x00; x00; x00; x00] 4 adpcm_mono).

(** Mono MS-ADPCM at 8000 Hz that declares blocks of 1024 bytes and 16
    samples and 83 coefficient pairs, with a chunk of padding that puts
    the data at byte 1024. *)
Definition adpcm_far_extension : list byte :=
  u16 338 ++ u16 16 ++ u16 83
  ++ flat_map (fun _ => u16 256 ++ u16 0) (seq 0 83).

Definition adpcm_far_file : list byte :=
  u32 riffID ++ u32 1052 ++ u32 waveID
  ++ u32 fmtID ++ u32 354
  ++ u16 2 ++ u16 1 ++ u32 8000 ++ u32 4000 ++ u16 1024 ++ u16 4
  ++ adpcm_far_extension
  ++ [x4a; x55; x4e; x4b] ++ u32 634 ++ repeat x00 634
  ++ u32 dataID ++ u32 36
  ++ adpcm_block ++ adpcm_block ++ adpcm_block ++ adpcm_block.

Definition adpcm_far : reader :=
  state_of (Open 32 8 adpcm_far_file new_reader).

(** 16-bit stereo PCM at 8000 Hz with 2 GiB of silence for data: a file
    longer than an [int] can count. *)
Definition big_pcm_data : list byte := repeat x00 (Z.to_nat 2147483648).

Definition big_pcm_file : list byte := wav_file 1 2 8000 4 16 [] big_pcm_data.

(** What two roundings to 24 bits leave of a number of frames: the exact
    [ms * rate / 1000] lowered, and raised, by the factor
    [(1 -+ 2^-23)^2], in whole frames. *)
Definition frames_low (rate ms : Z) : Z :=
  ms * rate * ((2 ^ 23 - 1) * (2 ^ 23 - 1)) / (1000 * (2 ^ 23 * 2 ^ 23)).

Definition frames_high (rate ms : Z) : Z :=
  ms * rate * ((2 ^ 23 + 1) * (2 ^ 23 + 1)) / (1000 * (2 ^ 23 * 2 ^ 23)).

(** 16-bit stereo PCM at 12345 Hz. *)
Definition pcm16_odd_rate_file : list byte :=
  wav_file 1 2 12345 4 16 [] (map byte_of_Z [1; 0; 2; 0; 3; 0; 4; 0]).

Definition pcm16_odd_rate : reader :=
  state_of (Open 32 8 pcm16_odd_rate_file new_reader).

(* ================================================================== *)
(** * Facts about machine integers and bytes *)

Module CIntFacts.

Lemma Uint8_range z : 0 <= Uint8 z < 256.
Proof. unfold Uint8, wrap_unsigned. apply Z.mod_pos_bound. lia. Qed.

Lemma Uint16_range z : 0 <= Uint16 z < 65536.
Proof. unfold Uint16, wrap_unsigned. apply Z.mod_pos_bound. lia. Qed.

Lemma Uint32_range z : 0 <= Uint32 z < 4294967296.
Proof. unfold Uint32, wrap_unsigned. apply Z.mod_pos_bound. lia. Qed.

Lemma Uint8_small z : 0 <= z < 256 -> Uint8 z = z.
Proof. intros. unfold Uint8, wrap_unsigned. apply Z.mod_small. lia. Qed.

Lemma Uint16_small z : 0 <= z < 65536 -> Uint16 z = z.
Proof. intros. unfold Uint16, wrap_unsigned. apply Z.mod_small. lia. Qed.

Lemma Uint32_small z : 0 <= z < 4294967296 -> Uint32 z = z.
Proof. intros. unfold Uint32, wrap_unsigned. apply Z.mod_small. lia. Qed.

Lemma Sint16_small z : -32768 <= z < 32768 -> Sint16 z = z.
Proof.
  intros. unfold Sint16, wrap_signed.
  change (2 ^ (16 - 1)) with 32768. change (2 ^ 16) with 65536.
  rewrite Z.mod_small; lia.
Qed.

Lemma Sint32_small z : -2147483648 <= z < 2147483648 -> Sint32 z = z.
Proof.
  intros. unfold Sint32, wrap_signed.
  change (2 ^ (32 - 1)) with 2147483648. change (2 ^ 32) with 4294967296.
  rewrite Z.mod_small; lia.
Qed.

Lemma Sint32_range z : -2147483648 <= Sint32 z < 2147483648.
Proof.
  unfold Sint32, wrap_signed.
  change (2 ^ (32 - 1)) with 2147483648. change (2 ^ 32) with 4294967296.
  pose proof (Z.mod_pos_bound (z + 2147483648) 4294967296). lia.
Qed.

Lemma Sint16_range z : -32768 <= Sint16 z < 32768.
Proof.
  unfold Sint16, wrap_signed.
  change (2 ^ (16 - 1)) with 32768. change (2 ^ 16) with 65536.
  pose proof (Z.mod_pos_bound (z + 32768) 65536). lia.
Qed.

(** Storing a signed 16-bit value into an unsigned 16-bit object. *)
Lemma Uint16_Sint16 z : Uint16 (Sint16 z) = Uint16 z.
Proof.
  unfold Uint16, Sint16, wrap_unsigned, wrap_signed.
  change (2 ^ (16 - 1)) with 32768. change (2 ^ 16) with 65536.
  rewrite Zminus_mod_idemp_l.
  f_equal. lia.
Qed.

(** A signed [w]-bit conversion is the identity on what fits. *)
Lemma wrap_signed_small w z :
  0 < w -> - 2 ^ (w - 1) <= z < 2 ^ (w - 1) -> wrap_signed w z = z.
Proof.
  intros Hw Hz. unfold wrap_signed.
  assert (E : 2 ^ w = 2 * 2 ^ (w - 1)).
  { replace w with (Z.succ (w - 1)) at 1 by lia.
    rewrite Z.pow_succ_r by lia. reflexivity. }
  rewrite Z.mod_small; lia.
Qed.

Lemma wrap_signed_range w z :
  0 < w -> - 2 ^ (w - 1) <= wrap_signed w z < 2 ^ (w - 1).
Proof.
  intros Hw. unfold wrap_signed.
  assert (E : 2 ^ w = 2 * 2 ^ (w - 1)).
  { replace w with (Z.succ (w - 1)) at 1 by lia.
    rewrite Z.pow_succ_r by lia. reflexivity. }
  assert (0 < 2 ^ (w - 1)) by (apply Z.pow_pos_nonneg; lia).
  pose proof (Z.mod_pos_bound (z + 2 ^ (w - 1)) (2 ^ w)). lia.
Qed.

Lemma byte_to_Z_range b : 0 <= byte_to_Z b < 256.
Proof.
  unfold byte_to_Z. pose proof (Byte.to_N_bounded b). lia.
Qed.

Lemma le_encode_length n z : length (le_encode n z) = n.
Proof. revert z. induction n; simpl; intros; [reflexivity | now rewrite IHn]. Qed.

End CIntFacts.
Import CIntFacts.

(* ================================================================== *)
(** * The ADPCM decode step *)

Section DecodeStep.

Lemma testbit_nibble n : 0 <= n <= 15 -> Z.testbit n 3 = (8 <=? n).
Proof.
  intros H. rewrite <- (Z2Nat.id n) by lia.
  assert (Hk : (Z.to_nat n < 16)%nat) by lia.
  revert Hk. generalize (Z.to_nat n) as k. intros k Hk.
  do 16 (destruct k as [| k]; [reflexivity |]). lia.
Qed.

Lemma AdaptionTable_bounds k : 0 <= nth k AdaptionTable 0 <= 768.
Proof.
  unfold AdaptionTable.
  do 16 (destruct k as [| k]; [simpl; lia |]).
  simpl. destruct k; lia.
Qed.

Lemma quot_256_bounds a :
  -2147483648 <= a < 2147483648 -> -8388608 <= Z.quot a 256 <= 8388607.
Proof.
  intros [Hlo Hhi]. split.
  - change (-8388608) with (Z.quot (-2147483648) 256).
    apply Z.quot_le_mono; lia.
  - change 8388607 with (Z.quot 2147483647 256).
    apply Z.quot_le_mono; lia.
Qed.

Lemma clamp_range x lo hi : lo <= hi -> lo <= clamp x lo hi <= hi.
Proof. unfold clamp. lia. Qed.

Variables (coef : ADPCMCOEFSET) (header : ADPCMBLOCKHEADER) (n : Z).

Hypothesis nibble_range : 0 <= n <= 15.
Hypothesis coef1_range : -32768 <= iCoef1 coef < 32768.
Hypothesis coef2_range : -32768 <= iCoef2 coef < 32768.
Hypothesis samp0_range : -32768 <= iSamp0 header < 32768.
Hypothesis samp1_range : -32768 <= iSamp1 header < 32768.
Hypothesis delta_range : 0 <= iDelta header < 65536.

(** The sum of the two products fits the 32-bit accumulator: every
    channel state but the one with both samples and both coefficients
    at -32768. *)
Hypothesis prediction_fits :
  iSamp0 header * iCoef1 coef + iSamp1 header * iCoef2 coef < 2147483648.

Lemma prediction_sum_range :
  -2147483648 <= iSamp0 header * iCoef1 coef + iSamp1 header * iCoef2 coef
  < 2147483648.
Proof.
  split; [| exact prediction_fits].
  assert (-1073741824 + 32768 <= iSamp0 header * iCoef1 coef) by nia.
  assert (-1073741824 + 32768 <= iSamp1 header * iCoef2 coef) by nia.
  lia.
Qed.

Lemma predict_exact :
  predict coef header =
  Z.quot (iSamp0 header * iCoef1 coef + iSamp1 header * iCoef2 coef) 256.
Proof.
  unfold predict, FIXED_POINT_COEF_BASE.
  rewrite Sint32_small by exact prediction_sum_range. reflexivity.
Qed.

Lemma new_sample_exact p :
  -8388608 <= p <= 8388607 ->
  (if Z.testbit n 3
   then Sint32 (p + Sint32 (iDelta header * (n - 0x10)))
   else Sint32 (p + Sint32 (iDelta header * n)))
  = p + iDelta header * signed_nibble n.
Proof.
  intros Hp. rewrite testbit_nibble by exact nibble_range.
  unfold signed_nibble.
  destruct (Z.leb_spec 8 n) as [H8 | H8];
    destruct (Z.ltb_spec n 8) as [H8' | H8']; try lia.
  - assert (-524288 <= iDelta header * (n - 16) <= 0) by nia.
    rewrite (Sint32_small (iDelta header * (n - 16))) by lia.
    rewrite Sint32_small by lia. reflexivity.
  - assert (0 <= iDelta header * n <= 524288) by nia.
    rewrite (Sint32_small (iDelta header * n)) by lia.
    rewrite Sint32_small by lia. reflexivity.
Qed.

(** C2, as amended.  One decode step of a channel, for every nibble and
    every channel state whose prediction sum fits 32 bits: the new sample
    is [clamp(((sample0*coef1 + sample1*coef2) / 256) + delta * s(n),
    -32768, 32767)] with the division of C; the delta becomes
    [max(delta * AdaptionTable[n] / 256, 16)] reduced to the 16 bits of the
    field, which is that maximum itself whenever it is below 65536; the
    sample history shifts; the predictor index stays. *)
Theorem adpcm_decode_step_spec :
  let table := [230; 230; 230; 230; 307; 409; 512; 614;
                768; 614; 512; 409; 307; 230; 230; 230] in
  let new_delta :=
    Z.max (Z.quot (iDelta header * nth (Z.to_nat n) table 0) 256) 16 in
  let new_sample :=
    clamp (Z.quot (iSamp0 header * iCoef1 coef + iSamp1 header * iCoef2 coef)
                  256
           + iDelta header * signed_nibble n) (-32768) 32767 in
  adpcm_decode_step coef n header =
    mkHeader (bPredictor header) (new_delta mod 65536) new_sample
             (iSamp0 header)
  /\ (new_delta < 65536 ->
      iDelta (adpcm_decode_step coef n header) = new_delta).
Proof.
  intros table new_delta new_sample.
  assert (Hstep : adpcm_decode_step coef n header =
                  mkHeader (bPredictor header) (new_delta mod 65536)
                           new_sample (iSamp0 header)).
  { unfold adpcm_decode_step, do_adpcm_nibble.
    rewrite predict_exact.
    rewrite new_sample_exact
      by (apply quot_256_bounds; exact prediction_sum_range).
    change AdaptionTable with table.
    pose proof (AdaptionTable_bounds (Z.to_nat n)) as Ht.
    change AdaptionTable with table in Ht.
    assert (Hprod : 0 <= iDelta header * nth (Z.to_nat n) table 0
                    <= 50331648) by nia.
    rewrite (Sint32_small (iDelta header * nth (Z.to_nat n) table 0)) by lia.
    rewrite Uint16_Sint16.
    unfold FIXED_POINT_ADAPTION_BASE, SMALLEST_ADPCM_DELTA,
      min_audioval, max_audioval.
    change (- 2 ^ (16 - 1)) with (-32768).
    change (2 ^ (16 - 1) - 1) with 32767.
    fold new_delta. fold new_sample.
    rewrite Sint16_small; [reflexivity |].
    unfold new_sample.
    pose proof (clamp_range
                  (Z.quot (iSamp0 header * iCoef1 coef
                           + iSamp1 header * iCoef2 coef) 256
                   + iDelta header * signed_nibble n) (-32768) 32767).
    lia. }
  split; [exact Hstep |].
  intros Hsmall. rewrite Hstep. simpl.
  apply Z.mod_small. unfold new_delta in *. lia.
Qed.

End DecodeStep.

Lemma adpcm_decode_step_spec_witness :
  adpcm_decode_step (mkCoef 256 0) 1 (mkHeader 0 16 100 50)
  = mkHeader 0 16 116 100
  /\ iDelta (adpcm_decode_step (mkCoef 256 0) 1 (mkHeader 0 16 100 50)) = 16.
Proof.
  destruct (adpcm_decode_step_spec (mkCoef 256 0) (mkHeader 0 16 100 50) 1)
    as [Hstep Hdelta]; simpl; try lia.
  split.
  - exact Hstep.
  - apply Hdelta. reflexivity.
Defined.

(** C2 as stated fails where the scaled delta needs more than 16 bits: at
    delta 30000 and nibble 8 the maximum is 90000 and the field keeps
    24464. *)
Lemma adpcm_delta_truncated :
  let header := mkHeader 0 30000 0 0 in
  iDelta (adpcm_decode_step (mkCoef 256 0) 8 header) = 24464
  /\ Z.max (Z.quot (iDelta header * nth 8 AdaptionTable 0) 256) 16 = 90000
  /\ iDelta (adpcm_decode_step (mkCoef 256 0) 8 header)
     <> Z.max (Z.quot (iDelta header * nth 8 AdaptionTable 0) 256) 16.
Proof.
  repeat split; try reflexivity. vm_compute. discriminate.
Qed.

(* ================================================================== *)
(** * Reasoning about calls *)

Section Calls.

Context {A B : Type}.

Lemma bind_Returned_inv (m : M A) (k : A -> M B) s b s' e :
  bind m k s = Returned b s' e ->
  exists a s1 e1 e2,
    m s = Returned a s1 e1 /\ k a s1 = Returned b s' e2 /\ e = e1 ++ e2.
Proof.
  unfold bind. destruct (m s) as [a s1 e1 | f]; [| discriminate].
  destruct (k a s1) as [b' s2 e2 | f] eqn:Hk; [| discriminate].
  intros H. inversion H; subst. exists a, s1, e1, e2. auto.
Qed.

Lemma bind_Returned (m : M A) (k : A -> M B) s a s1 e1 :
  m s = Returned a s1 e1 ->
  bind m k s =
  match k a s1 with
  | Returned b s2 e2 => Returned b s2 (e1 ++ e2)
  | Faulted f => Faulted f
  end.
Proof. intros H. unfold bind. rewrite H. reflexivity. Qed.

Lemma bind_Faulted (m : M A) (k : A -> M B) s f :
  m s = Faulted f -> bind m k s = Faulted f.
Proof. intros H. unfold bind. rewrite H. reflexivity. Qed.

Lemma preserves_bind I (m : M A) (k : A -> M B) :
  preserves I m -> (forall a, preserves I (k a)) -> preserves I (bind m k).
Proof.
  intros Hm Hk s b s' e HI H.
  apply bind_Returned_inv in H as (a & s1 & e1 & e2 & H1 & H2 & _).
  eapply Hk; [| exact H2]. eapply Hm; eauto.
Qed.

Lemma preserves_ret I (a : A) : preserves I (ret a).
Proof. intros s a' s' e HI H. inversion H; subst. exact HI. Qed.

Lemma preserves_gets I (f : reader -> A) : preserves I (gets f).
Proof. intros s a' s' e HI H. inversion H; subst. exact HI. Qed.

Lemma preserves_abort I f : preserves I (abort f : M A).
Proof. intros s a' s' e HI H. discriminate. Qed.

Lemma preserves_index I (l : list A) i : preserves I (index l i).
Proof.
  unfold index. destruct (i <? 0); [apply preserves_abort |].
  destruct (nth_error l (Z.to_nat i));
    [apply preserves_ret | apply preserves_abort].
Qed.

Lemma preserves_store I (l : list A) i a : preserves I (store l i a).
Proof.
  unfold store. destruct (i <? 0).
  - intros s a' s' e HI H. discriminate.
  - destruct (list_update l (Z.to_nat i) a).
    + intros s a' s' e HI H. inversion H; subst. exact HI.
    + intros s a' s' e HI H. discriminate.
Qed.

End Calls.

Lemma preserves_modify I (f : reader -> reader) :
  (forall s, I s -> I (f s)) -> preserves I (modify f).
Proof. intros Hf s a s' e HI H. inversion H; subst. auto. Qed.

Lemma preserves_SetError I msg : preserves I (SetError msg).
Proof. intros s a s' e HI H. inversion H; subst. exact HI. Qed.

Lemma preserves_ASSERT I c : preserves I (ASSERT c).
Proof.
  destruct c; [apply preserves_ret | apply preserves_abort].
Qed.

Lemma preserves_the_stream I : preserves I the_stream.
Proof.
  intros s a s' e HI H. unfold the_stream in H.
  destruct (rw s); inversion H; subst. exact HI.
Qed.

Create HintDb pres.

#[local] Hint Resolve preserves_ret preserves_gets preserves_abort
  preserves_index preserves_store preserves_SetError preserves_ASSERT
  preserves_the_stream : pres.

(** Splits a goal [preserves I m] along the structure of [m]. *)
Ltac pres :=
  repeat first
    [ solve [eauto with pres]
    | match goal with
      | |- preserves _ (bind _ _) => apply preserves_bind; [| intros ]
      | |- preserves _ (if ?c then _ else _) => destruct c
      | |- preserves _ (match ?x with _ => _ end) => destruct x
      end ].

Section Stdio.

Variable I : reader -> Prop.
Hypothesis I_rw : rw_stable I.

Lemma preserves_fread n : preserves I (fread n).
Proof.
  intros s a s' e HI H. unfold fread in H.
  apply bind_Returned_inv in H as (f & s1 & e1 & e2 & H1 & H2 & _).
  unfold the_stream in H1. destruct (rw s) as [f0 |] eqn:Hrw; [| discriminate].
  inversion H1; subst. clear H1.
  apply bind_Returned_inv in H2 as ([] & s2 & e3 & e4 & H2 & H3 & _).
  inversion H2; subst. inversion H3; subst.
  apply I_rw; auto. lia.
Qed.

Lemma preserves_ftell : preserves I ftell.
Proof. unfold ftell. pres. Qed.

Lemma preserves_fseek_set off : preserves I (fseek_set off).
Proof.
  intros s a s' e HI H. unfold fseek_set in H.
  apply bind_Returned_inv in H as (f & s1 & e1 & e2 & H1 & H2 & _).
  unfold the_stream in H1. destruct (rw s) as [f0 |] eqn:Hrw; [| discriminate].
  inversion H1; subst. clear H1.
  destruct (Z.ltb_spec off 0).
  - inversion H2; subst. exact HI.
  - apply bind_Returned_inv in H2 as ([] & s2 & e3 & e4 & H2 & H3 & _).
    inversion H2; subst. inversion H3; subst.
    apply I_rw; auto.
Qed.

Lemma preserves_fseek_end off : preserves I (fseek_end off).
Proof.
  intros s a s' e HI H. unfold fseek_end in H.
  apply bind_Returned_inv in H as (f & s1 & e1 & e2 & H1 & H2 & _).
  unfold the_stream in H1. destruct (rw s) as [f0 |] eqn:Hrw; [| discriminate].
  inversion H1; subst. clear H1.
  destruct (Z.ltb_spec (Z.of_nat (length (contents f)) + off) 0).
  - inversion H2; subst. exact HI.
  - apply bind_Returned_inv in H2 as ([] & s2 & e3 & e4 & H2 & H3 & _).
    inversion H2; subst. inversion H3; subst.
    apply I_rw; auto.
Qed.

Hint Resolve preserves_fread preserves_ftell preserves_fseek_set
  preserves_fseek_end : pres.

Lemma preserves_read_item n : preserves I (read_item n).
Proof. unfold read_item. pres. Qed.

Hint Resolve preserves_read_item : pres.

Lemma preserves_read_le16_signed : preserves I read_le16_signed.
Proof. unfold read_le16_signed. pres. Qed.

Lemma preserves_read_le16_unsigned : preserves I read_le16_unsigned.
Proof. unfold read_le16_unsigned. pres. Qed.

Lemma preserves_read_le32_signed : preserves I read_le32_signed.
Proof. unfold read_le32_signed. pres. Qed.

Lemma preserves_read_le32_unsigned : preserves I read_le32_unsigned.
Proof. unfold read_le32_unsigned. pres. Qed.

Lemma preserves_read_uint8 : preserves I read_uint8.
Proof. unfold read_uint8. pres. Qed.

Lemma preserves_float_to_Uint32 x : preserves I (float_to_Uint32 x).
Proof. unfold float_to_Uint32. pres. Qed.

Hint Resolve preserves_float_to_Uint32 : pres.

Lemma preserves_ConvertMsToBytePos b c ms :
  preserves I (ConvertMsToBytePos b c ms).
Proof. unfold ConvertMsToBytePos. pres. Qed.

Lemma preserves_ConvertBytePosToMs b c pos :
  preserves I (ConvertBytePosToMs b c pos).
Proof. unfold ConvertBytePosToMs. pres. Qed.

Hint Resolve preserves_read_le16_signed preserves_read_le16_unsigned
  preserves_read_le32_signed preserves_read_le32_unsigned
  preserves_read_uint8 : pres.

Lemma preserves_read_header_field rd upd idxs out :
  preserves I rd -> preserves I (read_header_field rd upd idxs out).
Proof.
  intros Hrd. revert out.
  induction idxs as [| i idxs IH]; intros out; simpl; pres.
Qed.

Hint Resolve preserves_read_header_field : pres.

Lemma preserves_read_adpcm_block_headers out :
  preserves I (read_adpcm_block_headers out).
Proof. unfold read_adpcm_block_headers. pres. Qed.

End Stdio.

#[local] Hint Resolve preserves_fread preserves_ftell preserves_fseek_set
  preserves_fseek_end preserves_read_item preserves_read_le16_signed
  preserves_read_le16_unsigned preserves_read_le32_signed
  preserves_read_le32_unsigned preserves_read_uint8
  preserves_float_to_Uint32 preserves_ConvertMsToBytePos
  preserves_ConvertBytePosToMs preserves_read_header_field
  preserves_read_adpcm_block_headers : pres.

(* ================================================================== *)
(** * Length queries leave the stream alone *)

Section Length.

Variable long_bits : Z.
Hypothesis long_bits_ok : 32 <= long_bits.

Lemma to_long_small z :
  -2147483648 <= z < 2147483648 -> to_long long_bits z = z.
Proof.
  intros Hz. unfold to_long. apply wrap_signed_small; [lia |].
  assert (2 ^ 31 <= 2 ^ (long_bits - 1))
    by (apply Z.pow_le_mono_r; lia).
  change (2 ^ 31) with 2147483648 in *. lia.
Qed.

Lemma moved_refl s : moved s s.
Proof. unfold moved. intuition. Qed.

Lemma moved_rw_stable s0 : rw_stable (moved s0).
Proof.
  intros s f c (Hc & Hrest) Hrw _. unfold moved in *.
  destruct s; simpl in *. subst rw0. simpl in *. auto.
Qed.

Lemma preserves_get_length_fmt_normal I :
  rw_stable I -> preserves I get_length_fmt_normal.
Proof. intros HI. unfold get_length_fmt_normal. pres. Qed.

Lemma preserves_get_length_fmt_adpcm I tmp :
  rw_stable I -> preserves I (get_length_fmt_adpcm long_bits tmp).
Proof.
  intros HI. unfold get_length_fmt_adpcm. pres.
Qed.

(** A call of [GetLength] that returns leaves the object as it found it,
    file position included. *)
Lemma GetLength_restores tmp s f r s' e :
  rw s = Some f ->
  0 <= cursor f < 2147483648 ->
  GetLength long_bits tmp s = Returned r s' e ->
  s' = s.
Proof.
  intros Hrw Hpos H. unfold GetLength in H.
  apply bind_Returned_inv in H as (origpos & s0 & e0 & e0' & H0 & H & _).
  unfold ftell, bind, the_stream in H0. rewrite Hrw in H0.
  simpl in H0. inversion H0; subst; clear H0.
  apply bind_Returned_inv in H as (fm & s1 & e1 & e1' & H1 & H & _).
  inversion H1; subst; clear H1.
  apply bind_Returned_inv in H as (len & s2 & e2 & e2' & H2 & H & _).
  assert (Hmoved : moved s1 s2).
  { assert (P : preserves (moved s1)
                  (if wFormatTag (fmt s1) =? FMT_NORMAL
                   then get_length_fmt_normal
                   else if wFormatTag (fmt s1) =? FMT_ADPCM
                        then get_length_fmt_adpcm long_bits tmp
                        else ret 0)).
    { pose proof (moved_rw_stable s1).
      pose proof (@preserves_get_length_fmt_normal (moved s1)).
      pose proof (@preserves_get_length_fmt_adpcm (moved s1) tmp).
      pres. }
    eapply P; [apply moved_refl | exact H2]. }
  destruct Hmoved as (Hc & Hf & Ha & Hr & Hch & Hb & Hcv & Hi & Ht).
  rewrite Hrw in Hc. destruct (rw s2) as [f2 |] eqn:Hrw2; [| discriminate].
  simpl in Hc. inversion Hc as [Hcont]. clear Hc.
  rewrite Sint32_small in H by lia.
  rewrite to_long_small in H by lia.
  apply bind_Returned_inv in H as (rc & s3 & e3 & e3' & H3 & H & _).
  unfold fseek_set, bind, the_stream in H3. rewrite Hrw2 in H3.
  destruct (Z.ltb_spec (cursor f) 0) as [Hneg | _]; [lia |].
  simpl in H3. inversion H3; subst rc s3; clear H3.
  simpl in H. inversion H; subst s'.
  destruct s1, s2, f, f2; simpl in *. subst. reflexivity.
Qed.

Lemma query_lengths_restore tmps s f s' e :
  rw s = Some f ->
  0 <= cursor f < 2147483648 ->
  query_lengths long_bits tmps s = Returned tt s' e ->
  s' = s.
Proof.
  intros Hrw Hpos. revert e.
  induction tmps as [| tmp tmps IH]; intros e H; simpl in H.
  - inversion H. reflexivity.
  - apply bind_Returned_inv in H as (r & s1 & e1 & e2 & H1 & H2 & _).
    apply (GetLength_restores _ _ _ _ _ _ Hrw Hpos) in H1. subst s1.
    eapply IH. exact H2.
Qed.

(** Within the range of [int]: on a stream whose file position fits
    [int], length queries, however many and whatever they return, leave
    the file position where it was, and with it the whole object: a
    [Read] or a [SetPosition] that follows does what it would have done
    without them. *)
Theorem length_queries_do_not_interfere
        (char_is_signed : bool) tmps s f s' e :
  rw s = Some f ->
  0 <= cursor f < 2147483648 ->
  query_lengths long_bits tmps s = Returned tt s' e ->
  rw s' = Some f
  /\ (forall fuel buf len,
        Read char_is_signed fuel buf len s'
        = Read char_is_signed fuel buf len s)
  /\ (forall fuel ms,
        SetPosition long_bits fuel ms s' = SetPosition long_bits fuel ms s).
Proof.
  intros Hrw Hpos H.
  apply (query_lengths_restore _ _ _ _ _ Hrw Hpos) in H. subst s'.
  auto.
Qed.

End Length.

(* ================================================================== *)
(** * Reading items *)

Section Items.

Lemma ahead_at f c :
  ahead (mkFILE (contents f) c) = skipn (Z.to_nat c) (contents f).
Proof. reflexivity. Qed.

Lemma ahead_advance f bs rest :
  0 <= cursor f ->
  ahead f = bs ++ rest ->
  ahead (mkFILE (contents f) (cursor f + Z.of_nat (length bs))) = rest.
Proof.
  intros Hc H. unfold ahead in *. simpl.
  replace (Z.to_nat (cursor f + Z.of_nat (length bs)))
    with (length bs + Z.to_nat (cursor f))%nat by lia.
  rewrite <- skipn_skipn. rewrite H.
  rewrite skipn_app, skipn_all, Nat.sub_diag. reflexivity.
Qed.

Lemma ahead_length f :
  0 <= cursor f ->
  Z.of_nat (length (ahead f))
  = Z.max 0 (Z.of_nat (length (contents f)) - cursor f).
Proof.
  intros Hc. unfold ahead. rewrite length_skipn. lia.
Qed.

(** A successful item read: the bytes come back and the position moves
    past them. *)
Lemma read_item_ok s f bs rest :
  rw s = Some f ->
  ahead f = bs ++ rest ->
  read_item (Z.of_nat (length bs)) s
  = Returned (Some bs)
             (set_rw (Some (mkFILE (contents f)
                                   (cursor f + Z.of_nat (length bs)))) s) [].
Proof.
  intros Hrw H. unfold read_item, fread, bind, the_stream.
  rewrite Hrw. simpl. fold (ahead f). rewrite H.
  rewrite Nat2Z.id, firstn_app, firstn_all, Nat.sub_diag. simpl.
  rewrite app_nil_r, Z.eqb_refl. reflexivity.
Qed.

(** A short item read: the end-of-file error, and the position at the
    end of what was there. *)
Lemma read_item_short s f n :
  rw s = Some f ->
  Z.of_nat (length (ahead f)) < n ->
  read_item n s
  = Returned None
             (set_rw (Some (mkFILE (contents f)
                                   (cursor f + Z.of_nat (length (ahead f)))))
                     s)
             ["end of file"%string].
Proof.
  intros Hrw H. unfold read_item, fread, bind, the_stream.
  rewrite Hrw. simpl. fold (ahead f).
  rewrite firstn_all2 by lia.
  destruct (Z.eqb_spec (Z.of_nat (length (ahead f))) n); [lia |].
  reflexivity.
Qed.

(** An item read either fails or finds its bytes ahead. *)
Lemma read_item_cases s f n :
  rw s = Some f -> 0 <= n ->
  (Z.of_nat (length (ahead f)) < n)
  \/ (exists bs rest, ahead f = bs ++ rest /\ Z.of_nat (length bs) = n).
Proof.
  intros Hrw Hn.
  destruct (Z.lt_ge_cases (Z.of_nat (length (ahead f))) n) as [Hlt | Hge];
    [left; exact Hlt | right].
  exists (firstn (Z.to_nat n) (ahead f)), (skipn (Z.to_nat n) (ahead f)).
  rewrite firstn_skipn, length_firstn. split; [reflexivity | lia].
Qed.

End Items.

(* ================================================================== *)
(** * The chunk scanner *)

Section Scanner.

Variable long_bits : Z.
Hypothesis long_bits_ok : 32 <= long_bits.

Lemma set_rw_set_rw x y s : set_rw x (set_rw y s) = set_rw x s.
Proof. reflexivity. Qed.

Lemma rw_set_rw x s : rw (set_rw x s) = x.
Proof. reflexivity. Qed.

Lemma fseek_set_ok s f off :
  rw s = Some f -> 0 <= off ->
  fseek_set off s = Returned 0 (set_rw (Some (mkFILE (contents f) off)) s) [].
Proof.
  intros Hrw Hoff. unfold fseek_set, bind, the_stream. rewrite Hrw.
  destruct (Z.ltb_spec off 0); [lia | reflexivity].
Qed.

Lemma fseek_set_negative s f off :
  rw s = Some f -> off < 0 -> fseek_set off s = Returned (-1) s [].
Proof.
  intros Hrw Hoff. unfold fseek_set, bind, the_stream. rewrite Hrw.
  destruct (Z.ltb_spec off 0); [reflexivity | lia].
Qed.

Lemma read_le32_unsigned_ok s f b0 b1 b2 b3 rest :
  rw s = Some f ->
  ahead f = b0 :: b1 :: b2 :: b3 :: rest ->
  read_le32_unsigned s
  = Returned (Some (le_decode [b0; b1; b2; b3]))
             (set_rw (Some (mkFILE (contents f) (cursor f + 4))) s) [].
Proof.
  intros Hrw H. unfold read_le32_unsigned.
  rewrite (bind_Returned _ _ _ _ _ _
             (read_item_ok s f [b0; b1; b2; b3] rest Hrw H)).
  reflexivity.
Qed.

Lemma read_le32_signed_ok s f b0 b1 b2 b3 rest :
  rw s = Some f ->
  ahead f = b0 :: b1 :: b2 :: b3 :: rest ->
  read_le32_signed s
  = Returned (Some (Sint32 (le_decode [b0; b1; b2; b3])))
             (set_rw (Some (mkFILE (contents f) (cursor f + 4))) s) [].
Proof.
  intros Hrw H. unfold read_le32_signed.
  rewrite (bind_Returned _ _ _ _ _ _
             (read_item_ok s f [b0; b1; b2; b3] rest Hrw H)).
  reflexivity.
Qed.

(** The two reads at the head of a turn of the loop. *)
Lemma find_chunk_step_header id pos s f i0 i1 i2 i3 z0 z1 z2 z3 rest :
  rw s = Some f ->
  0 <= cursor f ->
  ahead f = i0 :: i1 :: i2 :: i3 :: z0 :: z1 :: z2 :: z3 :: rest ->
  find_chunk_step long_bits id pos s
  = let id_ := le_decode [i0; i1; i2; i3] in
    let size := Sint32 (le_decode [z0; z1; z2; z3]) in
    let s2 := set_rw (Some (mkFILE (contents f) (cursor f + 8))) s in
    if id_ =? id then Returned (Found size) s2 []
    else if size <? 0 then Returned NotFound s2 []
    else
      match fseek_set (to_long long_bits (Uint32 (pos + 4 * 2 + size))) s2
      with
      | Returned rc s3 e =>
          if rc =? -1
          then Returned NotFound s3 (e ++ [strerror_errno])
          else Returned (Next (Uint32 (pos + 4 * 2 + size))) s3 (e ++ [])
      | Faulted flt => Faulted flt
      end.
Proof.
  intros Hrw Hc H. unfold find_chunk_step.
  rewrite (bind_Returned _ _ _ _ _ _
             (read_le32_unsigned_ok s f _ _ _ _ _ Hrw H)).
  pose proof (ahead_advance f [i0; i1; i2; i3] _ Hc H) as H'. simpl in H'.
  rewrite (bind_Returned _ _ _ _ _ _
             (read_le32_signed_ok _ _ _ _ _ _ _ (rw_set_rw _ s) H')).
  cbv beta iota zeta. cbn [contents cursor]. rewrite set_rw_set_rw.
  replace (cursor f + 4 + 4) with (cursor f + 8) by lia.
  destruct (le_decode [i0; i1; i2; i3] =? id); [reflexivity |].
  destruct (Sint32 (le_decode [z0; z1; z2; z3]) <? 0); [reflexivity |].
  unfold bind.
  destruct (fseek_set _ _) as [rc s3 e |]; [| reflexivity].
  destruct (rc =? -1); reflexivity.
Qed.

(** C4, as amended.  When the chunk at the file position is not the one
    looked for, the scanner moves the position past the 8-byte header and
    exactly the declared size: no pad byte is skipped after an odd size.
    When the declared size is negative it does not move on: it returns
    [false] with the position just past the header. *)
Theorem find_chunk_step_advance
        id s f i0 i1 i2 i3 z0 z1 z2 z3 rest :
  rw s = Some f ->
  0 <= cursor f ->
  ahead f = i0 :: i1 :: i2 :: i3 :: z0 :: z1 :: z2 :: z3 :: rest ->
  le_decode [i0; i1; i2; i3] <> id ->
  let pos := cursor f in
  let size := Sint32 (le_decode [z0; z1; z2; z3]) in
  (size < 0 ->
   find_chunk_step long_bits id pos s
   = Returned NotFound (set_rw (Some (mkFILE (contents f) (pos + 8))) s) [])
  /\ (0 <= size -> pos + 8 + size < 2147483648 ->
      find_chunk_step long_bits id pos s
      = Returned (Next (pos + 8 + size))
                 (set_rw (Some (mkFILE (contents f) (pos + 8 + size))) s) []).
Proof.
  intros Hrw Hc H Hid pos size.
  rewrite (find_chunk_step_header id pos s f _ _ _ _ _ _ _ _ _ Hrw Hc H).
  cbv zeta. fold size.
  destruct (Z.eqb_spec (le_decode [i0; i1; i2; i3]) id) as [E | _];
    [contradiction |].
  split.
  - intros Hneg. destruct (Z.ltb_spec size 0); [reflexivity | lia].
  - intros Hpos Hfit. destruct (Z.ltb_spec size 0); [lia |].
    replace (pos + 4 * 2 + size) with (pos + 8 + size) by lia.
    rewrite Uint32_small by (unfold pos; lia).
    rewrite to_long_small by (auto; unfold pos; lia).
    rewrite (fseek_set_ok _ (mkFILE (contents f) (cursor f + 8)))
      by (try reflexivity; unfold pos; lia).
    simpl. rewrite set_rw_set_rw. reflexivity.
Qed.

End Scanner.

Lemma find_chunk_step_advance_witness :
  find_chunk_step 32 dataID 0 (set_rw (Some (mkFILE odd_chunk_list 0)) new_reader)
  = Returned (Next 9)
             (set_rw (Some (mkFILE odd_chunk_list 9)) new_reader) [].
Proof.
  apply (find_chunk_step_advance 32 ltac:(lia) dataID
           (set_rw (Some (mkFILE odd_chunk_list 0)) new_reader)
           (mkFILE odd_chunk_list 0)
           x4c x49 x53 x54 x01 x00 x00 x00
           (skipn 8 odd_chunk_list)
           eq_refl ltac:(simpl; lia) eq_refl);
    vm_compute; [discriminate | discriminate | reflexivity].
Defined.

(** C4 as stated fails on a chunk of odd size: after the chunk of size 1
    at position 0 the scanner reads the next header at 9, not at the even
    boundary 10, and so misses the data chunk that starts there. *)
Lemma find_chunk_skips_no_pad_byte :
  let s := set_rw (Some (mkFILE odd_chunk_list 0)) new_reader in
  find_chunk_step 32 dataID 0 s
  = Returned (Next 9) (set_rw (Some (mkFILE odd_chunk_list 9)) new_reader) []
  /\ 0 + 8 + padded 1 = 10
  /\ ahead (mkFILE odd_chunk_list 10) = u32 dataID ++ u32 4 ++ [x01; x02; x03; x04]
  /\ exists s' e, find_chunk 32 8 dataID s = Returned None s' e.
Proof.
  repeat split; try reflexivity.
  eexists. eexists. vm_compute. reflexivity.
Qed.

(* ================================================================== *)
(** * Calls that return *)

Section Totality.

Context {A B : Type}.

Lemma total_bind (m : M A) (k : A -> M B) :
  total m -> (forall a, total (k a)) -> total (bind m k).
Proof.
  intros Hm Hk s Hs.
  destruct (Hm s Hs) as (a & s1 & e1 & H1 & Hs1).
  destruct (Hk a s1 Hs1) as (b & s2 & e2 & H2 & Hs2).
  exists b, s2, (e1 ++ e2). split; [| exact Hs2].
  rewrite (bind_Returned _ _ _ _ _ _ H1), H2. reflexivity.
Qed.

Lemma total_ret (a : A) : total (ret a).
Proof. intros s Hs. exists a, s, []. auto. Qed.

Lemma total_gets (f : reader -> A) : total (gets f).
Proof. intros s Hs. exists (f s), s, []. auto. Qed.

End Totality.

Lemma total_modify (f : reader -> reader) :
  (forall s, streaming s -> streaming (f s)) -> total (modify f).
Proof. intros Hf s Hs. exists tt, (f s), []. auto. Qed.

Lemma total_SetError msg : total (SetError msg).
Proof. intros s Hs. exists tt, s, [msg]. auto. Qed.

Lemma total_the_stream : total the_stream.
Proof.
  intros s Hs. unfold the_stream. unfold streaming in Hs.
  destruct (rw s) as [f |] eqn:E; [| contradiction].
  exists f, s, []. split; [reflexivity |]. unfold streaming. congruence.
Qed.

Create HintDb tot.

#[local] Hint Resolve total_ret total_gets total_SetError total_the_stream
  : tot.

Lemma streaming_set_rw f s : streaming (set_rw (Some f) s).
Proof. unfold streaming. simpl. discriminate. Qed.

#[local] Hint Resolve streaming_set_rw : tot.

(** Splits a goal [total m] along the structure of [m]. *)
Ltac tot :=
  repeat first
    [ solve [eauto with tot]
    | match goal with
      | |- total (bind _ _) => apply total_bind; [| intros ]
      | |- total (modify _) =>
          apply total_modify; intros ? ?; solve [ auto with tot ]
      | |- total (if ?c then _ else _) => destruct c
      | |- total (match ?x with _ => _ end) => destruct x
      end ].

Lemma total_fread n : total (fread n).
Proof. unfold fread. tot. Qed.

Lemma total_ftell : total ftell.
Proof. unfold ftell. tot. Qed.

Lemma total_fseek_set off : total (fseek_set off).
Proof. unfold fseek_set. tot. Qed.

#[local] Hint Resolve total_fread total_ftell total_fseek_set : tot.

Lemma total_read_item n : total (read_item n).
Proof. unfold read_item. tot. Qed.

#[local] Hint Resolve total_read_item : tot.

Lemma total_read_le16_signed : total read_le16_signed.
Proof. unfold read_le16_signed. tot. Qed.

Lemma total_read_le16_unsigned : total read_le16_unsigned.
Proof. unfold read_le16_unsigned. tot. Qed.

Lemma total_read_le32_signed : total read_le32_signed.
Proof. unfold read_le32_signed. tot. Qed.

Lemma total_read_le32_unsigned : total read_le32_unsigned.
Proof. unfold read_le32_unsigned. tot. Qed.

#[local] Hint Resolve total_read_le16_signed total_read_le16_unsigned
  total_read_le32_signed total_read_le32_unsigned : tot.

Lemma streaming_upd_fmt g v s : streaming s -> streaming (upd_fmt g v s).
Proof. exact (fun H => H). Qed.

Lemma streaming_upd_adpcm g v s : streaming s -> streaming (upd_adpcm g v s).
Proof. exact (fun H => H). Qed.

Lemma streaming_set_adpcm a s : streaming s -> streaming (set_adpcm a s).
Proof. exact (fun H => H). Qed.

Lemma streaming_set_SampleRate v s :
  streaming s -> streaming (set_SampleRate v s).
Proof. exact (fun H => H). Qed.

Lemma streaming_upd_coef g i v s : streaming s -> streaming (upd_coef g i v s).
Proof.
  intros H. unfold upd_coef.
  destruct (nth_error _ _); [| exact H].
  destruct (list_update _ _ _); exact H.
Qed.

#[local] Hint Resolve streaming_upd_fmt streaming_upd_adpcm
  streaming_set_adpcm streaming_set_SampleRate streaming_upd_coef : tot.

Lemma total_read_into rd upd rest :
  total rd -> (forall v s, streaming s -> streaming (upd v s)) ->
  total rest -> total (read_into rd upd rest).
Proof. intros Hrd Hupd Hrest. unfold read_into. tot. Qed.

Lemma total_read_coefs idxs rest : total rest -> total (read_coefs idxs rest).
Proof.
  intros Hrest. induction idxs as [| i idxs IH]; simpl; [exact Hrest |].
  apply total_read_into; [tot | intros; auto with tot |].
  apply total_read_into; [tot | intros; auto with tot | exact IH].
Qed.

(** Reading the format chunk never faults. *)
Lemma total_read_fmt_chunk : total read_fmt_chunk.
Proof.
  unfold read_fmt_chunk.
  repeat (apply total_read_into; [tot | intros; auto with tot |]).
  apply total_bind; [tot | intros f].
  destruct (wFormatTag f =? FMT_ADPCM); [| tot].
  apply total_bind; [tot | intros _].
  repeat (apply total_read_into; [tot | intros; auto with tot |]).
  apply total_bind; [tot | intros a].
  apply total_bind; [tot | intros _].
  apply total_read_coefs. tot.
Qed.

(* ================================================================== *)
(** * The scan for a chunk ends *)

Section ScanEnds.

Variable long_bits : Z.
Hypothesis long_bits_ok : 32 <= long_bits.

Lemma to_long_nonneg z :
  0 <= z < 4294967296 -> 0 <= to_long long_bits z -> to_long long_bits z = z.
Proof.
  intros Hz Hnn. unfold to_long, wrap_signed in *.
  set (P := 2 ^ (long_bits - 1)) in *.
  assert (HP : 2147483648 <= P).
  { change 2147483648 with (2 ^ 31). apply Z.pow_le_mono_r; lia. }
  assert (E : 2 ^ long_bits = 2 * P).
  { unfold P. replace long_bits with (Z.succ (long_bits - 1)) at 1 by lia.
    rewrite Z.pow_succ_r by lia. reflexivity. }
  rewrite E in *.
  destruct (Z.lt_ge_cases z P) as [Hlt | Hge].
  - rewrite Z.mod_small by lia. lia.
  - exfalso.
    replace (z + P) with ((z - P) + 1 * (2 * P)) in Hnn by lia.
    rewrite Z_mod_plus_full in Hnn.
    rewrite Z.mod_small in Hnn by lia. lia.
Qed.

Lemma read_le32_unsigned_short s f :
  rw s = Some f ->
  Z.of_nat (length (ahead f)) < 4 ->
  exists s', read_le32_unsigned s = Returned None s' ["end of file"%string]
             /\ streaming s'.
Proof.
  intros Hrw H. unfold read_le32_unsigned.
  rewrite (bind_Returned _ _ _ _ _ _ (read_item_short s f 4 Hrw H)).
  eexists. split; [reflexivity | apply streaming_set_rw].
Qed.

Lemma read_le32_signed_short s f :
  rw s = Some f ->
  Z.of_nat (length (ahead f)) < 4 ->
  exists s', read_le32_signed s = Returned None s' ["end of file"%string]
             /\ streaming s'.
Proof.
  intros Hrw H. unfold read_le32_signed.
  rewrite (bind_Returned _ _ _ _ _ _ (read_item_short s f 4 Hrw H)).
  eexists. split; [reflexivity | apply streaming_set_rw].
Qed.

(** One turn of the loop returns, and when it asks for another turn the
    position has moved forward by at least the header. *)
Lemma find_chunk_step_returns id s f :
  rw s = Some f ->
  0 <= cursor f ->
  Z.of_nat (length (contents f)) < 2147483648 ->
  exists r s' e,
    find_chunk_step long_bits id (cursor f) s = Returned r s' e
    /\ streaming s'
    /\ match r with
       | Next pos' =>
           cursor f + 8 <= Z.of_nat (length (contents f))
           /\ cursor f + 8 <= pos'
           /\ rw s' = Some (mkFILE (contents f) pos')
       | _ => True
       end.
Proof.
  intros Hrw Hc Hlen.
  destruct (read_item_cases s f 8 Hrw ltac:(lia))
    as [Hshort | (bs & rest & Hahead & Hbs)].
  - (* fewer than eight bytes ahead *)
    unfold find_chunk_step.
    destruct (read_item_cases s f 4 Hrw ltac:(lia))
      as [Hshort4 | (bs & rest & Hahead & Hbs)].
    + destruct (read_le32_unsigned_short s f Hrw Hshort4) as (s1 & H1 & Hs1).
      rewrite (bind_Returned _ _ _ _ _ _ H1).
      exists NotFound, s1, ["end of file"%string]. simpl. auto.
    + do 4 (destruct bs as [| ? bs]; [simpl in Hbs; lia |]).
      destruct bs; [| simpl in Hbs; lia].
      rewrite (bind_Returned _ _ _ _ _ _
                 (read_le32_unsigned_ok s f _ _ _ _ _ Hrw Hahead)).
      pose proof (ahead_advance f _ _ Hc Hahead) as H'. simpl in H'.
      assert (Hshort' : Z.of_nat (length rest) < 4).
      { rewrite Hahead in Hshort. simpl in Hshort. lia. }
      rewrite <- H' in Hshort'.
      destruct (read_le32_signed_short _ _ (rw_set_rw _ s) Hshort')
        as (s2 & H2 & Hs2).
      cbv beta iota.
      rewrite (bind_Returned _ _ _ _ _ _ H2).
      exists NotFound, s2, ([] ++ ["end of file"%string] ++ []).
      simpl. auto.
  - do 8 (destruct bs as [| ? bs]; [simpl in Hbs; lia |]).
    destruct bs; [| simpl in Hbs; lia].
    rewrite (find_chunk_step_header long_bits id (cursor f) s f
               _ _ _ _ _ _ _ _ _ Hrw Hc Hahead).
    cbv zeta.
    assert (Hfit : cursor f + 8 <= Z.of_nat (length (contents f))).
    { pose proof (ahead_length f Hc) as L. rewrite Hahead in L.
      simpl length in L. lia. }
    destruct (_ =? id).
    { eexists _, _, _. split; [reflexivity |].
      split; [apply streaming_set_rw | exact Logic.I]. }
    set (size := Sint32 (le_decode [b3; b4; b5; b6])).
    pose proof (Sint32_range (le_decode [b3; b4; b5; b6])) as Hsize.
    fold size in Hsize.
    destruct (Z.ltb_spec size 0) as [Hneg | Hpos].
    { eexists _, _, _. split; [reflexivity |].
      split; [apply streaming_set_rw | exact Logic.I]. }
    replace (cursor f + 4 * 2 + size) with (cursor f + 8 + size) by lia.
    rewrite Uint32_small by lia.
    destruct (Z.lt_ge_cases (to_long long_bits (cursor f + 8 + size)) 0)
      as [Hl | Hl].
    + rewrite (fseek_set_negative _ _ _ (rw_set_rw _ s) Hl).
      simpl. eexists _, _, _. split; [reflexivity |].
      split; [apply streaming_set_rw | exact Logic.I].
    + pose proof (to_long_nonneg (cursor f + 8 + size) ltac:(lia) Hl) as E.
      rewrite E.
      rewrite (fseek_set_ok _ _ _ (rw_set_rw _ s)) by lia.
      simpl. eexists _, _, _. split; [reflexivity |].
      split; [apply streaming_set_rw |].
      repeat split; lia.
Qed.

(** With more turns than the file has bytes past the position, the scan
    returns: it finds the chunk or reports that there is none. *)
Lemma find_chunk_loop_returns id fuel :
  forall s f,
    rw s = Some f ->
    0 <= cursor f ->
    Z.of_nat (length (contents f)) < 2147483648 ->
    Z.of_nat (length (contents f)) - cursor f < Z.of_nat fuel ->
    (0 < fuel)%nat ->
    exists r s' e,
      find_chunk_loop long_bits fuel id (cursor f) s = Returned r s' e
      /\ streaming s'.
Proof.
  induction fuel as [| fuel IH]; intros s f Hrw Hc Hlen Hfuel Hpos; [lia |].
  simpl.
  destruct (find_chunk_step_returns id s f Hrw Hc Hlen)
    as (r & s1 & e1 & H1 & Hs1 & Hnext).
  rewrite (bind_Returned _ _ _ _ _ _ H1).
  destruct r as [size | | pos'].
  - exists (Some size), s1, (e1 ++ []). auto.
  - exists None, s1, (e1 ++ []). auto.
  - destruct Hnext as (Hfit & Hfwd & Hrw1).
    destruct (IH s1 (mkFILE (contents f) pos') Hrw1) as (r & s2 & e2 & H2 & Hs2);
      simpl; try lia.
    simpl in H2. rewrite H2.
    exists r, s2, (e1 ++ e2). auto.
Qed.

Lemma find_chunk_returns id fuel s f :
  rw s = Some f ->
  0 <= cursor f ->
  Z.of_nat (length (contents f)) < Z.of_nat fuel ->
  Z.of_nat (length (contents f)) < 2147483648 ->
  exists r s' e,
    find_chunk long_bits fuel id s = Returned r s' e /\ streaming s'.
Proof.
  intros Hrw Hc Hfuel Hlen. unfold find_chunk.
  assert (Ht : ftell s = Returned (cursor f) s []).
  { unfold ftell, bind, the_stream. rewrite Hrw. reflexivity. }
  rewrite (bind_Returned _ _ _ _ _ _ Ht).
  destruct (Z.le_gt_cases (cursor f) (Z.of_nat (length (contents f))))
    as [Hin | Hout].
  - rewrite Uint32_small by lia.
    destruct (find_chunk_loop_returns id fuel s f Hrw Hc Hlen)
      as (r & s' & e & H & Hs); try lia.
    rewrite H. exists r, s', ([] ++ e). auto.
  - (* past the end of the file: the first read fails *)
    destruct fuel as [| fuel]; [lia |].
    simpl. unfold find_chunk_step.
    assert (Hshort : Z.of_nat (length (ahead f)) < 4).
    { rewrite ahead_length by exact Hc. lia. }
    destruct (read_le32_unsigned_short s f Hrw Hshort) as (s1 & H1 & Hs1).
    assert (Hstep : find_chunk_step long_bits id (Uint32 (cursor f)) s
                    = Returned NotFound s1 ["end of file"%string]).
    { unfold find_chunk_step.
      rewrite (bind_Returned _ _ _ _ _ _ H1). reflexivity. }
    rewrite (bind_Returned _ _ _ _ _ _ Hstep).
    simpl. eexists _, _, _. split; [reflexivity | exact Hs1].
Qed.

End ScanEnds.

(* ================================================================== *)
(** * Opening: the container header *)

Section Header.

Lemma byte_of_to_Z b : byte_of_Z (byte_to_Z b) = b.
Proof.
  unfold byte_of_Z, byte_to_Z.
  rewrite Z.mod_small by (pose proof (Byte.to_N_bounded b); lia).
  rewrite N2Z.id, Byte.of_to_N. reflexivity.
Qed.

Lemma byte_of_Z_mod z : byte_of_Z (z mod 256) = byte_of_Z z.
Proof. unfold byte_of_Z. rewrite Z.mod_mod by lia. reflexivity. Qed.

(** The little-endian encoding gives back the bytes decoded. *)
Lemma le_encode_decode bs : le_encode (length bs) (le_decode bs) = bs.
Proof.
  induction bs as [| b bs IH]; [reflexivity |].
  simpl length. cbn [le_encode].
  change (le_decode (b :: bs)) with (byte_to_Z b + 256 * le_decode bs).
  pose proof (byte_to_Z_range b) as Hb.
  f_equal.
  - rewrite <- byte_of_Z_mod.
    replace ((byte_to_Z b + 256 * le_decode bs) mod 256) with (byte_to_Z b).
    + apply byte_of_to_Z.
    + replace (byte_to_Z b + 256 * le_decode bs)
        with (byte_to_Z b + le_decode bs * 256) by lia.
      rewrite Z_mod_plus_full, Z.mod_small; lia.
  - replace ((byte_to_Z b + 256 * le_decode bs) / 256) with (le_decode bs);
      [exact IH |].
    replace (byte_to_Z b + 256 * le_decode bs)
      with (byte_to_Z b + le_decode bs * 256) by lia.
    rewrite Z_div_plus_full by lia.
    rewrite Z.div_small; lia.
Qed.

Lemma bind_Returned_nil {A B} (m : M A) (k : A -> M B) s a s1 :
  m s = Returned a s1 [] -> bind m k s = k a s1.
Proof.
  intros H. rewrite (bind_Returned _ _ _ _ _ _ H).
  destruct (k a s1); reflexivity.
Qed.

(** The two outcomes of a 32-bit read. *)
Lemma read_le32_unsigned_cases s f :
  rw s = Some f ->
  0 <= cursor f ->
  (Z.of_nat (length (ahead f)) < 4
   /\ read_le32_unsigned s
      = Returned None
          (set_rw (Some (mkFILE (contents f)
                                (cursor f + Z.of_nat (length (ahead f))))) s)
          ["end of file"%string])
  \/ (exists b0 b1 b2 b3 rest,
        ahead f = b0 :: b1 :: b2 :: b3 :: rest
        /\ read_le32_unsigned s
           = Returned (Some (le_decode [b0; b1; b2; b3]))
               (set_rw (Some (mkFILE (contents f) (cursor f + 4))) s) []).
Proof.
  intros Hrw Hc.
  destruct (read_item_cases s f 4 Hrw ltac:(lia))
    as [Hshort | (bs & rest & Hahead & Hbs)].
  - left. split; [exact Hshort |]. unfold read_le32_unsigned.
    rewrite (bind_Returned _ _ _ _ _ _ (read_item_short s f 4 Hrw Hshort)).
    reflexivity.
  - right.
    do 4 (destruct bs as [| ? bs]; [simpl in Hbs; lia |]).
    destruct bs; [| simpl in Hbs; lia].
    eexists _, _, _, _, _. split; [exact Hahead |].
    exact (read_le32_unsigned_ok s f _ _ _ _ _ Hrw Hahead).
Qed.

Lemma ahead_exhausted f :
  0 <= cursor f ->
  ahead (mkFILE (contents f) (cursor f + Z.of_nat (length (ahead f)))) = [].
Proof.
  intros Hc. apply (ahead_advance f (ahead f) []); [exact Hc |].
  rewrite app_nil_r. reflexivity.
Qed.

Variable long_bits : Z.

Lemma Open_unfold fuel data s0 :
  Open long_bits fuel data s0
  = match WAV_open_internal long_bits fuel (fresh data s0) with
    | Returned OPEN_OK s e => Returned OPEN_OK s e
    | Returned rc s e => Returned rc (closed s) e
    | Faulted f => Faulted f
    end.
Proof.
  unfold Open, bind, Close, modify. fold (closed s0). fold (fresh data s0).
  destruct (WAV_open_internal long_bits fuel (fresh data s0)) as [rc s e |];
    [| reflexivity].
  destruct rc; simpl; rewrite ?app_nil_r; reflexivity.
Qed.

(** A file with the magic and the form type gets past the header; the
    search for the format chunk starts at offset 12. *)
Lemma WAV_open_internal_accepts fuel data s0 :
  has_magic data -> has_form data ->
  WAV_open_internal long_bits fuel (fresh data s0)
  = after_magic long_bits fuel (scan_start data s0).
Proof.
  unfold has_magic, has_form. intros Hm Hf.
  do 4 (destruct data as [| ? data]; [vm_compute in Hm; discriminate |]).
  do 8 (destruct data as [| ? data]; [vm_compute in Hf; discriminate |]).
  vm_compute in Hm. vm_compute in Hf.
  inversion Hm; subst. inversion Hf; subst. clear Hm Hf.
  unfold WAV_open_internal.
  match goal with
  | |- _ _ _ (fresh ?d s0) = _ => set (file := d)
  end.
  rewrite (bind_Returned_nil _ _ _ _ _
             (read_le32_unsigned_ok (fresh file s0) (mkFILE file 0)
                _ _ _ _ _ eq_refl eq_refl)).
  change (is_magic (Some (le_decode ["R"; "I"; "F"; "F"]%byte)) riffID)
    with true.
  cbv beta iota. cbn [negb contents cursor].
  rewrite (bind_Returned_nil _ _ _ _ _
             (read_le32_unsigned_ok _ (mkFILE file 4)
                _ _ _ _ _ (rw_set_rw _ _) eq_refl)).
  cbn [contents cursor]. rewrite set_rw_set_rw.
  rewrite (bind_Returned_nil _ _ _ _ _
             (read_le32_unsigned_ok _ (mkFILE file 8)
                _ _ _ _ _ (rw_set_rw _ _) eq_refl)).
  change (is_magic (Some (le_decode ["W"; "A"; "V"; "E"]%byte)) waveID)
    with true.
  cbv beta iota. cbn [negb contents cursor]. rewrite set_rw_set_rw.
  reflexivity.
Qed.

Lemma le_decode_is_tag b0 b1 b2 b3 tag :
  le_decode [b0; b1; b2; b3] = tag -> [b0; b1; b2; b3] = u32 tag.
Proof.
  intros H. rewrite <- H.
  symmetry. exact (le_encode_decode [b0; b1; b2; b3]).
Qed.

(** A file without the magic, or without the form type, is not matched. *)
Lemma WAV_open_internal_rejects fuel data s0 :
  ~ (has_magic data /\ has_form data) ->
  exists s e,
    WAV_open_internal long_bits fuel (fresh data s0)
    = Returned OPEN_NO_MATCH s e.
Proof.
  intros Hno. unfold WAV_open_internal.
  destruct (read_le32_unsigned_cases (fresh data s0) (mkFILE data 0)
              eq_refl ltac:(simpl; lia))
    as [(_ & H1) | (m0 & m1 & m2 & m3 & rest1 & Ha1 & H1)];
    rewrite (bind_Returned _ _ _ _ _ _ H1).
  { simpl. eexists _, _. reflexivity. }
  cbn [is_magic].
  destruct (Z.eqb_spec (le_decode [m0; m1; m2; m3]) riffID) as [Hriff | _];
    [| simpl; eexists _, _; reflexivity].
  cbn [negb]. cbv beta iota.
  assert (Hmagic : has_magic data).
  { unfold has_magic. change (ahead (mkFILE data 0)) with data in Ha1.
    rewrite Ha1. simpl. apply le_decode_is_tag. exact Hriff. }
  set (s1 := set_rw (Some (mkFILE (contents (mkFILE data 0))
                                  (cursor (mkFILE data 0) + 4)))
                    (fresh data s0)).
  pose proof (ahead_advance (mkFILE data 0) [m0; m1; m2; m3] rest1
                ltac:(simpl; lia) Ha1) as Ha1'.
  simpl in Ha1'.
  destruct (read_le32_unsigned_cases s1 (mkFILE data 4) eq_refl
              ltac:(simpl; lia))
    as [(Hshort2 & H2) | (g0 & g1 & g2 & g3 & rest2 & Ha2 & H2)];
    rewrite (bind_Returned _ _ _ _ _ _ H2).
  - (* the length field is cut short: nothing is left for the form type *)
    pose proof (ahead_exhausted (mkFILE data 4) ltac:(simpl; lia)) as Hex.
    cbn [contents cursor] in Hex.
    match goal with
    | |- context [bind read_le32_unsigned ?k ?s2] =>
        destruct (read_le32_unsigned_cases s2
                    (mkFILE data
                       (4 + Z.of_nat (length (ahead (mkFILE data 4)))))
                    (rw_set_rw _ s1) ltac:(cbn [cursor]; lia))
          as [(_ & H3) | (w0 & w1 & w2 & w3 & rest3 & Ha3 & H3)]
    end.
    + cbn [contents cursor] in H3.
      rewrite (bind_Returned _ _ _ _ _ _ H3).
      simpl. eexists _, _. reflexivity.
    + cbn [contents cursor] in Ha3. rewrite Hex in Ha3. discriminate.
  - cbn [contents cursor]. unfold s1. rewrite set_rw_set_rw.
    pose proof (ahead_advance (mkFILE data 4) [g0; g1; g2; g3] rest2
                  ltac:(simpl; lia) Ha2) as Ha2'.
    simpl in Ha2'.
    destruct (read_le32_unsigned_cases
                (set_rw (Some (mkFILE data (4 + 4))) (fresh data s0))
                (mkFILE data 8) eq_refl ltac:(simpl; lia))
      as [(_ & H3) | (w0 & w1 & w2 & w3 & rest3 & Ha3 & H3)];
      rewrite (bind_Returned _ _ _ _ _ _ H3).
    { simpl. eexists _, _. reflexivity. }
    cbn [is_magic].
    destruct (Z.eqb_spec (le_decode [w0; w1; w2; w3]) waveID) as [Hwave | _];
      [| simpl; eexists _, _; reflexivity].
    exfalso. apply Hno. split; [exact Hmagic |].
    unfold has_form. change (ahead (mkFILE data 8)) with (skipn 8 data) in Ha3.
    rewrite Ha3. simpl. apply le_decode_is_tag. exact Hwave.
Qed.

End Header.

(* ================================================================== *)
(** * Opening: the format chunk *)

Section Format.

Variable long_bits : Z.

Lemma streaming_rw_stable : rw_stable streaming.
Proof. intros s f c _ _ _. apply streaming_set_rw. Qed.

Lemma preserves_find_chunk_step I id pos :
  rw_stable I -> preserves I (find_chunk_step long_bits id pos).
Proof. intros HI. unfold find_chunk_step. pres. Qed.

Lemma preserves_find_chunk_loop I id fuel :
  rw_stable I -> forall pos, preserves I (find_chunk_loop long_bits fuel id pos).
Proof.
  intros HI. pose proof (preserves_find_chunk_step I id) as Hstep.
  induction fuel as [| fuel IH]; intros pos; simpl; pres.
Qed.

Lemma preserves_find_chunk I id fuel :
  rw_stable I -> preserves I (find_chunk long_bits fuel id).
Proof.
  intros HI. pose proof (preserves_find_chunk_loop I id fuel HI).
  unfold find_chunk. pres.
Qed.

Lemma ftell_streaming s :
  streaming s -> exists f, rw s = Some f /\ ftell s = Returned (cursor f) s [].
Proof.
  unfold streaming. intros Hs. destruct (rw s) as [f |] eqn:E; [| contradiction].
  exists f. split; [reflexivity |].
  unfold ftell, bind, the_stream. rewrite E. reflexivity.
Qed.

(** The three ways out of [after_format_chunk] before the data chunk is
    looked for. *)
Lemma after_format_chunk_channels fuel next s :
  2 < Uint8 (wChannels (fmt s)) ->
  after_format_chunk long_bits fuel next s = Faulted AssertionFailed.
Proof.
  intros H. unfold after_format_chunk, bind, gets, modify. simpl.
  destruct (Z.leb_spec (Uint8 (wChannels (fmt s))) 2); [lia | reflexivity].
Qed.

Lemma after_format_chunk_tag fuel next s :
  Uint8 (wChannels (fmt s)) <= 2 ->
  wFormatTag (fmt s) <> FMT_NORMAL ->
  wFormatTag (fmt s) <> FMT_ADPCM ->
  after_format_chunk long_bits fuel next s
  = Returned OPEN_NO_MATCH (set_Channels (Uint8 (wChannels (fmt s))) s)
             [("Unsupported WAV format " ++ decimal (wFormatTag (fmt s)))%string].
Proof.
  intros Hch Hn Ha. unfold after_format_chunk, bind, gets, modify. simpl.
  destruct (Z.leb_spec (Uint8 (wChannels (fmt s))) 2); [| lia].
  simpl.
  destruct (Z.eqb_spec (wFormatTag (fmt s)) FMT_NORMAL); [contradiction |].
  destruct (Z.eqb_spec (wFormatTag (fmt s)) FMT_ADPCM); [contradiction |].
  reflexivity.
Qed.

Lemma after_format_chunk_sample_size fuel next s :
  Uint8 (wChannels (fmt s)) <= 2 ->
  wFormatTag (fmt s) = FMT_NORMAL \/ wFormatTag (fmt s) = FMT_ADPCM ->
  wBitsPerSample (fmt s) <> 4 ->
  wBitsPerSample (fmt s) <> 8 ->
  wBitsPerSample (fmt s) <> 16 ->
  after_format_chunk long_bits fuel next s
  = Returned OPEN_MATCH_BUT_FAIL (set_Channels (Uint8 (wChannels (fmt s))) s)
             [("Unsupported sample size "
               ++ decimal (wBitsPerSample (fmt s)))%string].
Proof.
  intros Hch Htag H4 H8 H16.
  unfold after_format_chunk, select_conversion, bind, gets, modify. simpl.
  destruct (Z.leb_spec (Uint8 (wChannels (fmt s))) 2); [| lia].
  simpl.
  assert (E : negb (wFormatTag (fmt s) =? FMT_NORMAL)
              && negb (wFormatTag (fmt s) =? FMT_ADPCM) = false).
  { destruct Htag as [-> | ->]; reflexivity. }
  rewrite E.
  change (fmt (set_Channels (Uint8 (wChannels (fmt s))) s)) with (fmt s).
  destruct (Z.eqb_spec (wBitsPerSample (fmt s)) 4); [contradiction |].
  destruct (Z.eqb_spec (wBitsPerSample (fmt s)) 8); [contradiction |].
  destruct (Z.eqb_spec (wBitsPerSample (fmt s)) 16); [contradiction |].
  reflexivity.
Qed.

(** [after_magic] when the format chunk is found and read. *)
Lemma after_magic_format fuel s size s1 e1 s2 e2 :
  streaming s ->
  find_chunk long_bits fuel fmtID s = Returned (Some size) s1 e1 ->
  read_fmt_chunk s1 = Returned true s2 e2 ->
  exists next,
    after_magic long_bits fuel s
    = match after_format_chunk long_bits fuel next s2 with
      | Returned rc s3 e3 => Returned rc s3 (e1 ++ e2 ++ e3)
      | Faulted f => Faulted f
      end.
Proof.
  intros Hs Hfind Hread. unfold after_magic.
  rewrite (bind_Returned _ _ _ _ _ _ Hfind).
  assert (Hs1 : streaming s1).
  { exact (preserves_find_chunk streaming fmtID fuel streaming_rw_stable
             _ _ _ _ Hs Hfind). }
  destruct (ftell_streaming s1 Hs1) as (f1 & Hrw1 & Htell).
  rewrite (bind_Returned_nil _ _ _ _ _ Htell).
  rewrite (bind_Returned _ _ _ _ _ _ Hread). cbn [negb].
  exists (Sint32 (size + cursor f1)).
  destruct (after_format_chunk long_bits fuel _ s2); reflexivity.
Qed.

Lemma streaming_scan_start data s0 : streaming (scan_start data s0).
Proof. apply streaming_set_rw. Qed.

Hypothesis long_bits_ok : 32 <= long_bits.

(** C3, as amended.  A file with the RIFF magic and the WAVE form type
    whose format chunk is found and read, has at most two channels and
    carries a compression tag other than the two supported ones is not
    matched: [Open] returns the soft [OPEN_NO_MATCH], the same result as
    for a file that is not of this container format, and closes the
    stream. *)
Theorem open_unsupported_tag fuel data s0 size s1 e1 s2 e2 :
  has_magic data -> has_form data ->
  find_chunk long_bits fuel fmtID (scan_start data s0)
  = Returned (Some size) s1 e1 ->
  read_fmt_chunk s1 = Returned true s2 e2 ->
  Uint8 (wChannels (fmt s2)) <= 2 ->
  wFormatTag (fmt s2) <> FMT_NORMAL ->
  wFormatTag (fmt s2) <> FMT_ADPCM ->
  exists s e,
    Open long_bits fuel data s0 = Returned OPEN_NO_MATCH s e /\ rw s = None.
Proof.
  intros Hm Hf Hfind Hread Hch Hn Ha.
  rewrite Open_unfold, (WAV_open_internal_accepts _ _ _ _ Hm Hf).
  destruct (after_magic_format fuel _ _ _ _ _ _
              (streaming_scan_start data s0) Hfind Hread) as (next & ->).
  rewrite (after_format_chunk_tag _ _ _ Hch Hn Ha).
  eexists _, _. split; reflexivity.
Qed.

(** C9, as amended.  A file that does not begin with the RIFF magic, or
    whose form type is not WAVE, is not matched: [OPEN_NO_MATCH], never
    [OPEN_MATCH_BUT_FAIL].  A file with both, under 2 GiB, scanned with
    more turns than it has bytes, whose format chunk, where it is found
    and read, has at most two channels, a supported compression tag and 24
    bits per sample, is matched and refused: [OPEN_MATCH_BUT_FAIL]. *)
Theorem open_magic_and_sample_size fuel data s0 :
  (~ (has_magic data /\ has_form data) ->
   exists s e,
     Open long_bits fuel data s0 = Returned OPEN_NO_MATCH s e /\ rw s = None)
  /\ (has_magic data -> has_form data ->
      Z.of_nat (length data) < 2147483648 ->
      (length data < fuel)%nat ->
      (forall size s1 e1 s2 e2,
          find_chunk long_bits fuel fmtID (scan_start data s0)
          = Returned (Some size) s1 e1 ->
          read_fmt_chunk s1 = Returned true s2 e2 ->
          Uint8 (wChannels (fmt s2)) <= 2
          /\ (wFormatTag (fmt s2) = FMT_NORMAL
              \/ wFormatTag (fmt s2) = FMT_ADPCM)
          /\ wBitsPerSample (fmt s2) = 24) ->
      exists s e,
        Open long_bits fuel data s0 = Returned OPEN_MATCH_BUT_FAIL s e
        /\ rw s = None).
Proof.
  split.
  - intros Hno. rewrite Open_unfold.
    destruct (WAV_open_internal_rejects long_bits fuel data s0 Hno)
      as (s & e & ->).
    eexists _, _. split; reflexivity.
  - intros Hm Hf Hlen Hfuel Hfmt.
    rewrite Open_unfold, (WAV_open_internal_accepts _ _ _ _ Hm Hf).
    destruct (find_chunk_returns long_bits long_bits_ok fmtID fuel
                (scan_start data s0) (mkFILE data 12) eq_refl
                ltac:(simpl; lia) ltac:(simpl; lia) Hlen)
      as (r & s1 & e1 & Hfind & Hs1).
    destruct r as [size |].
    + destruct (total_read_fmt_chunk s1 Hs1) as (ok & s2 & e2 & Hread & Hs2).
      destruct ok.
      * destruct (Hfmt _ _ _ _ _ Hfind Hread) as (Hch & Htag & Hbits).
        destruct (after_magic_format fuel _ _ _ _ _ _
                    (streaming_scan_start data s0) Hfind Hread)
          as (next & ->).
        rewrite (after_format_chunk_sample_size _ _ _ Hch Htag)
          by (rewrite Hbits; discriminate).
        eexists _, _. split; reflexivity.
      * unfold after_magic.
        rewrite (bind_Returned _ _ _ _ _ _ Hfind).
        destruct (ftell_streaming s1 Hs1) as (f1 & Hrw1 & Htell).
        rewrite (bind_Returned_nil _ _ _ _ _ Htell).
        rewrite (bind_Returned _ _ _ _ _ _ Hread).
        simpl. eexists _, _. split; reflexivity.
    + unfold after_magic.
      rewrite (bind_Returned _ _ _ _ _ _ Hfind).
      simpl. eexists _, _. split; reflexivity.
Qed.

End Format.

Lemma open_unsupported_tag_witness :
  exists s e,
    Open 32 8 mp3_in_wav_file new_reader = Returned OPEN_NO_MATCH s e
    /\ rw s = None.
Proof.
  eapply (open_unsupported_tag 32 8 mp3_in_wav_file new_reader).
  - vm_compute. reflexivity.
  - vm_compute. reflexivity.
  - vm_compute. reflexivity.
  - vm_compute. reflexivity.
  - vm_compute. discriminate.
  - vm_compute. discriminate.
  - vm_compute. discriminate.
Defined.

(** C3 as stated fails on MP3 data in a WAV container (format tag 0x55):
    the file has the magic and the form type, and [Open] answers
    [OPEN_NO_MATCH], not [OPEN_MATCH_BUT_FAIL]. *)
Lemma unsupported_tag_is_not_a_hard_failure :
  has_magic mp3_in_wav_file
  /\ has_form mp3_in_wav_file
  /\ result_of (Open 32 8 mp3_in_wav_file new_reader) = Some OPEN_NO_MATCH
  /\ result_of (Open 32 8 mp3_in_wav_file new_reader)
     <> Some OPEN_MATCH_BUT_FAIL.
Proof.
  repeat split; try (vm_compute; reflexivity).
  vm_compute. discriminate.
Qed.

Lemma open_magic_and_sample_size_witness :
  (exists s e,
      Open 32 8 [x4f; x67; x67; x53] new_reader = Returned OPEN_NO_MATCH s e
      /\ rw s = None)
  /\ (exists s e,
         Open 32 51 pcm24_stereo_file new_reader
         = Returned OPEN_MATCH_BUT_FAIL s e
         /\ rw s = None).
Proof.
  split.
  - apply (proj1 (open_magic_and_sample_size
                    32 ltac:(lia) 8 [x4f; x67; x67; x53] new_reader)).
    intros [Hm _]. vm_compute in Hm. discriminate.
  - apply (proj2 (open_magic_and_sample_size
                    32 ltac:(lia) 51 pcm24_stereo_file new_reader)).
    + vm_compute. reflexivity.
    + vm_compute. reflexivity.
    + vm_compute. reflexivity.
    + vm_compute. lia.
    + intros size s1 e1 s2 e2 Hfind Hread.
      vm_compute in Hfind. inversion Hfind; subst; clear Hfind.
      vm_compute in Hread. inversion Hread; subst; clear Hread.
      repeat split; try (vm_compute; discriminate).
      left. reflexivity.
Defined.

(** C9 as stated fails on 24-bit PCM with six channels: the file has the
    magic, the form type, the PCM tag and 24 bits per sample, and [Open]
    stops at [ASSERT( Channels <= 2 )] instead of returning
    [OPEN_MATCH_BUT_FAIL]. *)
Lemma open_24_bit_surround_asserts :
  has_magic pcm24_surround_file
  /\ has_form pcm24_surround_file
  /\ Open 32 8 pcm24_surround_file new_reader = Faulted AssertionFailed.
Proof.
  repeat split; vm_compute; reflexivity.
Qed.

(* ================================================================== *)
(** * What the calls on an open stream keep *)

Section Keeps.

Variable I : reader -> Prop.
Hypothesis I_rw : rw_stable I.
Hypothesis I_adpcm : adpcm_stable I.
Hypothesis I_tmpbuf : tmpbuf_stable I.

Variable long_bits : Z.
Variable char_is_signed : bool.

Lemma preserves_modify_adpcm g : preserves I (modify (fun s => set_adpcm (g s) s)).
Proof. apply preserves_modify. intros s Hs. apply I_adpcm. exact Hs. Qed.

Lemma preserves_upd_adpcm g v : preserves I (modify (upd_adpcm g v)).
Proof. apply preserves_modify. intros s Hs. apply I_adpcm. exact Hs. Qed.

Lemma preserves_set_adpcm a : preserves I (modify (set_adpcm a)).
Proof. apply preserves_modify. intros s Hs. apply I_adpcm. exact Hs. Qed.

Lemma preserves_set_tmpbuf t : preserves I (modify (set_tmpbuf t)).
Proof. apply preserves_modify. intros s Hs. apply I_tmpbuf. exact Hs. Qed.

Hint Resolve preserves_modify_adpcm preserves_upd_adpcm preserves_set_adpcm
  preserves_set_tmpbuf : pres.

Lemma preserves_put_header i h : preserves I (put_header i h).
Proof. unfold put_header. pres. Qed.

Lemma preserves_dec_samples_left : preserves I dec_samples_left.
Proof. unfold dec_samples_left. pres. Qed.

Hint Resolve preserves_put_header preserves_dec_samples_left : pres.

Lemma preserves_decode_channels idxs :
  forall nib, preserves I (decode_channels idxs nib).
Proof.
  induction idxs as [| i idxs IH]; intros nib; simpl; pres.
Qed.

Hint Resolve preserves_decode_channels : pres.

Lemma preserves_decode_adpcm_sample_frame :
  preserves I decode_adpcm_sample_frame.
Proof. unfold decode_adpcm_sample_frame. pres. Qed.

Lemma preserves_read_own_block_headers : preserves I read_own_block_headers.
Proof.
  unfold read_own_block_headers.
  apply preserves_bind; [pres | intros a].
  apply preserves_bind; [pres | intros [ok a']]. pres.
Qed.

Lemma preserves_put_adpcm_sample_frame buf bw frame :
  preserves I (put_adpcm_sample_frame buf bw frame).
Proof. unfold put_adpcm_sample_frame. pres. Qed.

Hint Resolve preserves_decode_adpcm_sample_frame
  preserves_read_own_block_headers preserves_put_adpcm_sample_frame : pres.

Lemma preserves_read_sample_fmt_adpcm_loop fuel :
  forall buf len bw, preserves I (read_sample_fmt_adpcm_loop fuel buf len bw).
Proof.
  induction fuel as [| fuel IH]; intros buf len bw; simpl; pres.
Qed.

Lemma preserves_read_sample_fmt_normal buf len :
  preserves I (read_sample_fmt_normal buf len).
Proof. unfold read_sample_fmt_normal. pres. Qed.

Hint Resolve preserves_read_sample_fmt_adpcm_loop
  preserves_read_sample_fmt_normal : pres.

Lemma preserves_read_raw fuel buf n : preserves I (read_raw fuel buf n).
Proof.
  unfold read_raw, read_sample_fmt_adpcm.
  apply preserves_bind; [pres | intros f].
  destruct (wFormatTag f =? FMT_NORMAL); [pres |].
  destruct (wFormatTag f =? FMT_ADPCM); [| pres].
  apply preserves_bind; [pres | intros [bw buf']]. pres.
Qed.

Lemma preserves_widen_step r buf :
  preserves I (widen_step char_is_signed r buf).
Proof. unfold widen_step. pres. Qed.

Lemma preserves_duplicate_step r buf : preserves I (duplicate_step r buf).
Proof. unfold duplicate_step. pres. Qed.

Hint Resolve preserves_read_raw preserves_widen_step preserves_duplicate_step
  : pres.

Lemma preserves_grow_tmpbuf len : preserves I (grow_tmpbuf len).
Proof. unfold grow_tmpbuf. pres. Qed.

Hint Resolve preserves_grow_tmpbuf : pres.

Lemma preserves_convert len r buf :
  preserves I (convert char_is_signed len r buf).
Proof.
  unfold convert. destruct (r <=? 0); [pres |].
  apply preserves_bind; [pres | intros _].
  apply preserves_bind; [pres | intros conv].
  apply preserves_bind; [destruct conv; pres | intros [r' buf']]. pres.
Qed.

Lemma preserves_Read fuel buf len :
  preserves I (Read char_is_signed fuel buf len).
Proof.
  pose proof preserves_convert.
  unfold Read.
  apply preserves_bind; [pres | intros ratio].
  apply preserves_bind; [pres | intros _].
  apply preserves_bind; [pres | intros _].
  apply preserves_bind; [pres | intros [r buf']]. pres.
Qed.

Lemma preserves_seek_sample_fmt_normal ms :
  preserves I (seek_sample_fmt_normal long_bits ms).
Proof. unfold seek_sample_fmt_normal. pres. Qed.

Lemma preserves_seek_decode_loop fuel :
  forall rc, preserves I (seek_decode_loop fuel rc).
Proof.
  induction fuel as [| fuel IH]; intros rc; simpl; pres.
Qed.

Lemma preserves_seek_failed : preserves I seek_failed.
Proof. unfold seek_failed. pres. Qed.

Hint Resolve preserves_seek_decode_loop preserves_seek_failed : pres.

Lemma preserves_seek_sample_fmt_adpcm fuel ms :
  preserves I (seek_sample_fmt_adpcm long_bits fuel ms).
Proof. unfold seek_sample_fmt_adpcm. pres. Qed.

Lemma preserves_SetPosition fuel ms :
  preserves I (SetPosition long_bits fuel ms).
Proof.
  pose proof preserves_seek_sample_fmt_normal.
  pose proof preserves_seek_sample_fmt_adpcm.
  unfold SetPosition. pres.
Qed.

Lemma preserves_GetLength tmp : preserves I (GetLength long_bits tmp).
Proof.
  pose proof (preserves_get_length_fmt_normal I I_rw).
  pose proof (fun t => preserves_get_length_fmt_adpcm long_bits I t I_rw).
  unfold GetLength. pres.
Qed.

End Keeps.

(* ================================================================== *)
(** * What a successful [Open] establishes *)

(** Splits [H : bind m k s = Returned _ _ _] into the call of [m], named
    [H1] with result [a] and state [s1], and the call of [k], left in [H]. *)
Tactic Notation "inv_bind" hyp(H) "as" simple_intropattern(a)
       simple_intropattern(s1) simple_intropattern(H1) :=
  apply bind_Returned_inv in H as (a & s1 & ? & ? & H1 & H & ?).

Section Opened.

Variable long_bits : Z.

Lemma preserves_read_into I rd upd rest :
  preserves I rd -> (forall v s, I s -> I (upd v s)) -> preserves I rest ->
  preserves I (read_into rd upd rest).
Proof.
  intros Hrd Hupd Hrest. unfold read_into.
  apply preserves_bind; [exact Hrd | intros [v |]]; [| pres].
  apply preserves_bind; [| intros _; exact Hrest].
  apply preserves_modify. apply Hupd.
Qed.

Section FormatChunk.

Variable I : reader -> Prop.
Hypothesis I_rw : rw_stable I.
Hypothesis I_fmt : forall s f, I s -> I (set_fmt f s).
Hypothesis I_adpcm : adpcm_stable I.
Hypothesis I_rate : forall s v, I s -> I (set_SampleRate v s).

Lemma I_upd_coef g i v s : I s -> I (upd_coef g i v s).
Proof.
  intros H. unfold upd_coef.
  destruct (nth_error _ _); [| exact H].
  destruct (list_update _ _ _); [apply I_adpcm |]; exact H.
Qed.

Lemma preserves_read_coefs idxs rest :
  preserves I rest -> preserves I (read_coefs idxs rest).
Proof.
  intros Hrest. induction idxs as [| i idxs IH]; simpl; [exact Hrest |].
  apply preserves_read_into; [pres | intros; apply I_upd_coef; assumption |].
  apply preserves_read_into; [pres | intros; apply I_upd_coef; assumption |].
  exact IH.
Qed.

Lemma preserves_read_fmt_chunk : preserves I read_fmt_chunk.
Proof.
  unfold read_fmt_chunk.
  repeat (apply preserves_read_into;
          [pres | intros; first [apply I_fmt | apply I_rate]; assumption |]).
  apply preserves_bind; [pres | intros f].
  destruct (wFormatTag f =? FMT_ADPCM); [| pres].
  apply preserves_bind;
    [apply preserves_modify; intros; apply I_adpcm; assumption | intros _].
  repeat (apply preserves_read_into;
          [pres | intros; apply I_adpcm; assumption |]).
  apply preserves_bind; [pres | intros a].
  apply preserves_bind;
    [apply preserves_modify; intros; apply I_adpcm; assumption | intros _].
  apply preserves_read_coefs.
  apply preserves_bind; [pres | intros a'].
  apply preserves_bind;
    [apply preserves_modify; intros; apply I_adpcm; assumption | intros _].
  pres.
Qed.

End FormatChunk.

(** The sample size decides [Conversion] and [BytesPerSample]. *)
Lemma select_conversion_inv s ok s' e :
  select_conversion s = Returned ok s' e ->
  if ok then
    exists c b,
      s' = set_BytesPerSample b (set_Conversion c s)
      /\ ((wBitsPerSample (fmt s) = 4 /\ wFormatTag (fmt s) = FMT_ADPCM
           /\ c = CONV_NONE /\ b = 2)
          \/ (wBitsPerSample (fmt s) = 8
              /\ c = CONV_8BIT_TO_16BIT /\ b = 1)
          \/ (wBitsPerSample (fmt s) = 16
              /\ c = CONV_16LSB_TO_16SYS /\ b = 2))
  else s' = s.
Proof.
  unfold select_conversion, bind, gets, modify, SetError, ret.
  destruct (Z.eqb_spec (wBitsPerSample (fmt s)) 4) as [E4 | _];
    destruct (Z.eqb_spec (wFormatTag (fmt s)) FMT_ADPCM) as [Ea | _];
    cbn [andb];
    try (destruct (Z.eqb_spec (wBitsPerSample (fmt s)) 8) as [E8 | _];
         [| destruct (Z.eqb_spec (wBitsPerSample (fmt s)) 16) as [E16 | _]]);
    intros H; inversion H; subst; clear H;
    try reflexivity;
    eexists _, _; (split; [reflexivity |]); tauto.
Qed.

End Opened.

Section OpenedStream.

Variable long_bits : Z.

Lemma moved_trans s0 s1 s2 : moved s0 s1 -> moved s1 s2 -> moved s0 s2.
Proof.
  unfold moved. intros (A1 & A2 & A3 & A4 & A5 & A6 & A7 & A8 & A9)
                       (B1 & B2 & B3 & B4 & B5 & B6 & B7 & B8 & B9).
  repeat split; congruence.
Qed.

Lemma gets_inv {A} (g : reader -> A) s a s' e :
  gets g s = Returned a s' e -> a = g s /\ s' = s.
Proof. intros H. inversion H; subst. auto. Qed.

Lemma modify_inv g s a s' e :
  modify g s = Returned a s' e -> s' = g s.
Proof. intros H. inversion H; subst. auto. Qed.

Lemma ret_inv {A} (x : A) s a s' e :
  ret x s = Returned a s' e -> a = x /\ s' = s.
Proof. intros H. inversion H; subst. auto. Qed.

Lemma ftell_inv s pos s' e :
  ftell s = Returned pos s' e ->
  exists f, rw s = Some f /\ pos = cursor f /\ s' = s.
Proof.
  unfold ftell, bind, the_stream. destruct (rw s) as [f |]; [| discriminate].
  simpl. intros H. inversion H; subst. exists f. auto.
Qed.

(** [locate_data], when it finds the data chunk: the ratio it leaves, and
    the two members of [fmt] it sets from the position of the data. *)
Lemma locate_data_inv fuel next s s' e :
  locate_data long_bits fuel next s = Returned OPEN_OK s' e ->
  exists s1 f1,
    moved (set_Input_Buffer_Ratio
             (let r := match Conversion s with
                       | CONV_8BIT_TO_16BIT =>
                           Sint32 (Input_Buffer_Ratio s * 2)
                       | _ => Input_Buffer_Ratio s
                       end in
              if Channels s =? 1 then Sint32 (r * 2) else r) s) s1
    /\ rw s1 = Some f1
    /\ s' = set_fmt
              (set_adpcm_sample_frame_size
                 (Uint32 (BytesPerSample s * Channels s))
                 (set_data_starting_offset (Uint32 (cursor f1)) (fmt s1))) s1.
Proof.
  intros H. unfold locate_data in H.
  inv_bind H as conv sa Ha. apply gets_inv in Ha as (? & ?). subst conv sa.
  inv_bind H as [] sb Hb.
  inv_bind H as ch sc Hc. apply gets_inv in Hc as (? & ?). subst ch sc.
  inv_bind H as [] sd Hd.
  inv_bind H as rc se He.
  inv_bind H as r sf Hf.
  destruct r as [size |];
    [| inv_bind H as [] sg Hg; inversion H; discriminate].
  inv_bind H as dso sg Hg.
  inv_bind H as bps sh Hh. apply gets_inv in Hh as (? & ?). subst bps sh.
  inv_bind H as ch2 si Hi. apply gets_inv in Hi as (? & ?). subst ch2 si.
  inv_bind H as [] sj Hj. apply modify_inv in Hj. subst sj.
  apply ret_inv in H as (_ & ?). subst s'.
  apply ftell_inv in Hg as (f1 & Hrw & ? & ?). subst dso sg.
  assert (Hsd : sd = set_Input_Buffer_Ratio
             (let r := match Conversion s with
                       | CONV_8BIT_TO_16BIT =>
                           Sint32 (Input_Buffer_Ratio s * 2)
                       | _ => Input_Buffer_Ratio s
                       end in
              if Channels s =? 1 then Sint32 (r * 2) else r) s).
  { cbv zeta. unfold double_ratio in Hb, Hd.
    assert (Hsb : sb = match Conversion s with
                       | CONV_8BIT_TO_16BIT =>
                           set_Input_Buffer_Ratio
                             (Sint32 (Input_Buffer_Ratio s * 2)) s
                       | _ => s
                       end).
    { destruct (Conversion s);
        [apply ret_inv in Hb | apply ret_inv in Hb | apply modify_inv in Hb];
        try (destruct Hb as (_ & Hb)); exact Hb. }
    assert (Hch : Channels sb = Channels s).
    { rewrite Hsb. destruct (Conversion s); reflexivity. }
    rewrite Hch in Hd.
    destruct (Channels s =? 1);
      [apply modify_inv in Hd | apply ret_inv in Hd as (_ & Hd)];
      rewrite Hd, Hsb; destruct (Conversion s); try reflexivity;
      destruct s; reflexivity. }
  assert (Hm : moved sd sf).
  { pose proof (moved_rw_stable sd) as St.
    assert (moved sd se)
      by (eapply (preserves_fseek_set _ St); [apply moved_refl | exact He]).
    eapply (preserves_find_chunk _ _ _ _ St); [eassumption | exact Hf]. }
  exists sf, f1. rewrite <- Hsd. split; [exact Hm |]. split; [exact Hrw |].
  destruct Hm as (_ & _ & _ & _ & Hch & Hbps & _).
  rewrite Hch, Hbps. rewrite Hsd. reflexivity.
Qed.

Lemma well_formed_intro s :
  rw s <> None ->
  wFormatTag (fmt s) = FMT_NORMAL \/ wFormatTag (fmt s) = FMT_ADPCM ->
  Channels s = Uint8 (wChannels (fmt s)) -> Channels s <= 2 ->
  (wBitsPerSample (fmt s) = 4 /\ wFormatTag (fmt s) = FMT_ADPCM
   /\ Conversion s = CONV_NONE /\ BytesPerSample s = 2)
  \/ (wBitsPerSample (fmt s) = 8
      /\ Conversion s = CONV_8BIT_TO_16BIT /\ BytesPerSample s = 1)
  \/ (wBitsPerSample (fmt s) = 16
      /\ Conversion s = CONV_16LSB_TO_16SYS /\ BytesPerSample s = 2) ->
  Input_Buffer_Ratio s =
    (match Conversion s with CONV_8BIT_TO_16BIT => 2 | _ => 1 end)
    * (if Channels s =? 1 then 2 else 1) ->
  adpcm_sample_frame_size (fmt s) = BytesPerSample s * Channels s ->
  well_formed s.
Proof. intros. constructor; auto. Qed.

(** [after_format_chunk], when it returns [OPEN_OK]. *)
Lemma after_format_chunk_inv fuel next s s' e :
  Input_Buffer_Ratio s = 1 ->
  after_format_chunk long_bits fuel next s = Returned OPEN_OK s' e ->
  well_formed s'
  /\ exists f, rw s' = Some f
               /\ data_starting_offset (fmt s') = Uint32 (cursor f).
Proof.
  intros Hratio H. unfold after_format_chunk in H.
  inv_bind H as f sa Ha. apply gets_inv in Ha as (? & ?). subst f sa.
  inv_bind H as [] sb Hb. apply modify_inv in Hb. subst sb.
  inv_bind H as ch sc Hc. apply gets_inv in Hc as (? & ?). subst ch sc.
  inv_bind H as [] sd Hd.
  cbn [Channels set_Channels] in Hd.
  destruct (Z.leb_spec (Uint8 (wChannels (fmt s))) 2) as [Hch | _];
    [| discriminate].
  apply ret_inv in Hd as (_ & ?). subst sd.
  destruct (Z.eqb_spec (wFormatTag (fmt s)) FMT_NORMAL) as [Hn | Hn];
    destruct (Z.eqb_spec (wFormatTag (fmt s)) FMT_ADPCM) as [Hadp | Hadp];
    cbn [negb andb] in H;
    try (inv_bind H as [] sx Hx; inversion H; discriminate).
  all: inv_bind H as ok se He.
  all: apply select_conversion_inv in He.
  all: destruct ok; [| inversion H; discriminate].
  all: destruct He as (c & b & -> & Hconv).
  all: cbn [negb] in H.
  all: apply locate_data_inv in H as (s1 & f1 & Hm & Hrw & ->).
  all: destruct Hm as (_ & Hf & _ & _ & Hc & Hb & Hcv & Hr & _).
  all: cbn in Hf, Hc, Hb, Hcv, Hr.
  all: change (fmt (set_Channels (Uint8 (wChannels (fmt s))) s))
         with (fmt s) in Hconv.
  all: split; [| exists f1; split; [exact Hrw | reflexivity]].
  all: pose proof (Uint8_range (wChannels (fmt s))) as Hu.
  all: apply well_formed_intro; cbn; rewrite ?Hf, ?Hc, ?Hb, ?Hcv, ?Hr, ?Hratio.
  all: try (rewrite Hrw; discriminate).
  all: try reflexivity.
  all: try assumption.
  all: try tauto.
  all: try (destruct c; destruct (Uint8 (wChannels (fmt s)) =? 1);
            reflexivity).
  all: try (decompose [and or] Hconv; subst c b;
            rewrite Uint32_small by lia; reflexivity).
Qed.

(** A successful [Open] leaves a well-formed object, the file position at
    the first byte of the data, and that position in
    [fmt.data_starting_offset]. *)
Lemma Open_well_formed fuel data s0 s e :
  Open long_bits fuel data s0 = Returned OPEN_OK s e ->
  well_formed s
  /\ exists f, rw s = Some f
               /\ data_starting_offset (fmt s) = Uint32 (cursor f).
Proof.
  rewrite Open_unfold.
  destruct (WAV_open_internal long_bits fuel (fresh data s0))
    as [rc s1 e1 |] eqn:H; [| discriminate].
  destruct rc; try discriminate.
  intros E. inversion E; subst; clear E.
  unfold WAV_open_internal in H.
  assert (HI : preserves (fun s => Input_Buffer_Ratio s = 1)
                         read_le32_unsigned).
  { apply preserves_read_le32_unsigned. intros ? ? ? ? ? ?. assumption. }
  inv_bind H as magic1 sa Ha.
  destruct (negb (is_magic magic1 riffID));
    [inv_bind H as [] sx Hx; inversion H; discriminate |].
  inv_bind H as ignore sb Hb.
  inv_bind H as magic2 sc Hc.
  destruct (negb (is_magic magic2 waveID));
    [inv_bind H as [] sx Hx; inversion H; discriminate |].
  assert (Hratio : Input_Buffer_Ratio sc = 1).
  { eapply HI; [| exact Hc]. eapply HI; [| exact Hb].
    eapply HI; [| exact Ha]. reflexivity. }
  unfold after_magic in H.
  inv_bind H as r sd Hd.
  destruct r as [size |];
    [| inv_bind H as [] sx Hx; inversion H; discriminate].
  inv_bind H as here se He.
  inv_bind H as ok sf Hf.
  destruct ok; cbn [negb] in H;
    [| inv_bind H as [] sx Hx; inversion H; discriminate].
  assert (Hrs : rw_stable (fun s => Input_Buffer_Ratio s = 1))
    by (intros ? ? ? ? ? ?; assumption).
  assert (Hsd : Input_Buffer_Ratio sd = 1)
    by exact (preserves_find_chunk long_bits
                (fun s => Input_Buffer_Ratio s = 1) fmtID fuel Hrs
                _ _ _ _ Hratio Hd).
  assert (Hse : Input_Buffer_Ratio se = 1)
    by exact (preserves_ftell (fun s => Input_Buffer_Ratio s = 1)
                _ _ _ _ Hsd He).
  assert (Hsf : Input_Buffer_Ratio sf = 1)
    by exact (preserves_read_fmt_chunk (fun s => Input_Buffer_Ratio s = 1)
                Hrs (fun _ _ H => H) (fun _ _ H => H) (fun _ _ H => H)
                _ _ _ _ Hse Hf).
  exact (after_format_chunk_inv _ _ _ _ _ Hsf H).
Qed.

End OpenedStream.

(* ================================================================== *)
(** * Open streams *)

Section OpenStreams.

Variable long_bits : Z.
Variable char_is_signed : bool.

Section StreamOnly.

Variable I : reader -> Prop.
Hypothesis I_rw : rw_stable I.
Hypothesis I_only : rw_only I.

Lemma preserves_modify_static g :
  (forall s, rw (g s) = rw s) -> preserves I (modify g).
Proof.
  intros Hg. apply preserves_modify. intros s Hs.
  exact (I_only s (g s) (Hg s) Hs).
Qed.

(** [pres], with the updates that leave the stream alone. *)
Ltac pres_static :=
  repeat first
    [ solve [eauto with pres]
    | match goal with
      | |- preserves _ (bind _ _) => apply preserves_bind; [| intros ]
      | |- preserves _ (modify _) =>
          apply preserves_modify_static; reflexivity
      | |- preserves _ (if ?c then _ else _) => destruct c
      | |- preserves _ (match ?x with _ => _ end) => destruct x
      end ].

Lemma preserves_select_conversion : preserves I select_conversion.
Proof. unfold select_conversion. pres_static. Qed.

Lemma preserves_double_ratio : preserves I double_ratio.
Proof. apply preserves_modify_static. reflexivity. Qed.

Lemma preserves_locate_data fuel next :
  preserves I (locate_data long_bits fuel next).
Proof.
  pose proof preserves_double_ratio.
  pose proof (preserves_find_chunk long_bits I dataID fuel I_rw).
  unfold locate_data. pres_static.
Qed.

Lemma preserves_after_format_chunk fuel next :
  preserves I (after_format_chunk long_bits fuel next).
Proof.
  pose proof preserves_select_conversion.
  pose proof (preserves_locate_data fuel next).
  unfold after_format_chunk. pres_static.
Qed.

Lemma preserves_after_magic fuel : preserves I (after_magic long_bits fuel).
Proof.
  pose proof (preserves_find_chunk long_bits I fmtID fuel I_rw).
  pose proof (preserves_after_format_chunk fuel).
  assert (preserves I read_fmt_chunk).
  { apply preserves_read_fmt_chunk; try exact I_rw;
      unfold adpcm_stable; intros;
      match goal with
      | Hs : I ?s |- I ?s' => exact (I_only s s' eq_refl Hs)
      end. }
  unfold after_magic. pres.
Qed.

Lemma preserves_WAV_open_internal fuel :
  preserves I (WAV_open_internal long_bits fuel).
Proof.
  pose proof (preserves_after_magic fuel).
  unfold WAV_open_internal. pres.
Qed.

End StreamOnly.

Lemma cursor_ok_rw_stable : rw_stable cursor_ok.
Proof.
  intros s f c Hs Hrw Hc. unfold cursor_ok in *. rewrite Hrw in Hs.
  simpl. auto.
Qed.

Lemma cursor_ok_rw_only : rw_only cursor_ok.
Proof. intros s s' E Hs. unfold cursor_ok in *. rewrite E. exact Hs. Qed.

Lemma well_formed_rw_only_fields s s' :
  rw s' <> None ->
  fmt s' = fmt s -> Channels s' = Channels s ->
  BytesPerSample s' = BytesPerSample s -> Conversion s' = Conversion s ->
  Input_Buffer_Ratio s' = Input_Buffer_Ratio s ->
  well_formed s -> well_formed s'.
Proof.
  intros Hrw Hf Hc Hb Hcv Hr [W1 W2 W3 W4 W5 W6].
  constructor; rewrite ?Hf, ?Hc, ?Hb, ?Hcv, ?Hr; assumption.
Qed.

Lemma well_formed_rw_stable : rw_stable well_formed.
Proof.
  intros s f c Hs Hrw _.
  apply (well_formed_rw_only_fields s); try reflexivity; [| exact Hs].
  simpl. discriminate.
Qed.

Lemma well_formed_adpcm_stable : adpcm_stable well_formed.
Proof.
  intros s a Hs.
  apply (well_formed_rw_only_fields s); try reflexivity; [| exact Hs].
  exact (wf_rw s Hs).
Qed.

Lemma well_formed_tmpbuf_stable : tmpbuf_stable well_formed.
Proof.
  intros s t Hs.
  apply (well_formed_rw_only_fields s); try reflexivity; [| exact Hs].
  exact (wf_rw s Hs).
Qed.

Lemma cursor_ok_adpcm_stable : adpcm_stable cursor_ok.
Proof. intros s a Hs. exact Hs. Qed.

Lemma cursor_ok_tmpbuf_stable : tmpbuf_stable cursor_ok.
Proof. intros s t Hs. exact Hs. Qed.

Lemma Open_cursor_ok fuel data s0 rc s e :
  Open long_bits fuel data s0 = Returned rc s e -> cursor_ok s.
Proof.
  rewrite Open_unfold.
  destruct (WAV_open_internal long_bits fuel (fresh data s0))
    as [rc1 s1 e1 |] eqn:H; [| discriminate].
  assert (Hs1 : cursor_ok s1).
  { eapply (preserves_WAV_open_internal cursor_ok cursor_ok_rw_stable
              cursor_ok_rw_only); [| exact H].
    unfold cursor_ok. simpl. lia. }
  destruct rc1; intros E; inversion E; subst; try exact Hs1; exact Logic.I.
Qed.

(** Every open stream is well formed, and its file position is a
    position. *)
Lemma open_stream_invariant s :
  open_stream long_bits char_is_signed s -> well_formed s /\ cursor_ok s.
Proof.
  induction 1 as [fuel data s0 s e H
                 | fuel buf len s r s' e _ [IHw IHc] H
                 | fuel ms s r s' e _ [IHw IHc] H
                 | tmp s r s' e _ [IHw IHc] H].
  - split; [apply (Open_well_formed _ _ _ _ _ _ H) |
            apply (Open_cursor_ok _ _ _ _ _ _ H)].
  - split.
    + exact (preserves_Read well_formed well_formed_rw_stable
               well_formed_adpcm_stable well_formed_tmpbuf_stable
               char_is_signed fuel buf len _ _ _ _ IHw H).
    + exact (preserves_Read cursor_ok cursor_ok_rw_stable
               cursor_ok_adpcm_stable cursor_ok_tmpbuf_stable
               char_is_signed fuel buf len _ _ _ _ IHc H).
  - split.
    + exact (preserves_SetPosition well_formed well_formed_rw_stable
               well_formed_adpcm_stable long_bits fuel ms _ _ _ _ IHw H).
    + exact (preserves_SetPosition cursor_ok cursor_ok_rw_stable
               cursor_ok_adpcm_stable long_bits fuel ms _ _ _ _ IHc H).
  - split.
    + exact (preserves_GetLength well_formed well_formed_rw_stable
               long_bits tmp _ _ _ _ IHw H).
    + exact (preserves_GetLength cursor_ok cursor_ok_rw_stable
               long_bits tmp _ _ _ _ IHc H).
Qed.

End OpenStreams.

(* ================================================================== *)
(** * Calls in which no assertion fails *)

Section Safety.

Context {A B : Type}.

Lemma safe_bind (m : M A) (k : A -> M B) :
  safe m -> (forall a, safe (k a)) -> safe (bind m k).
Proof.
  intros Hm Hk s. unfold bind.
  destruct (m s) as [a s1 e1 | f] eqn:E1.
  - destruct (k a s1) as [b s2 e2 | f] eqn:E2; [discriminate |].
    intros Hf. inversion Hf; subst. exact (Hk a s1 E2).
  - intros Hf. inversion Hf; subst. exact (Hm s E1).
Qed.

Lemma safe_ret (a : A) : safe (ret a).
Proof. intros s. discriminate. Qed.

Lemma safe_gets (f : reader -> A) : safe (gets f).
Proof. intros s. discriminate. Qed.

Lemma safe_index (l : list A) i : safe (index l i).
Proof.
  intros s. unfold index. destruct (i <? 0); [discriminate |].
  destruct (nth_error l (Z.to_nat i)); discriminate.
Qed.

Lemma safe_store (l : list A) i a : safe (store l i a).
Proof.
  intros s. unfold store. destruct (i <? 0); [discriminate |].
  destruct (list_update l (Z.to_nat i) a); discriminate.
Qed.

End Safety.

Lemma safe_modify f : safe (modify f).
Proof. intros s. discriminate. Qed.

Lemma safe_SetError msg : safe (SetError msg).
Proof. intros s. discriminate. Qed.

Lemma safe_the_stream : safe the_stream.
Proof. intros s. unfold the_stream. destruct (rw s); discriminate. Qed.

Lemma safe_abort_bounds {A} : safe (abort OutOfBounds : M A).
Proof. intros s. discriminate. Qed.

Lemma safe_abort_fuel {A} : safe (abort OutOfFuel : M A).
Proof. intros s. discriminate. Qed.

Create HintDb saf.

#[local] Hint Resolve safe_ret safe_gets safe_index safe_store safe_modify
  safe_SetError safe_the_stream safe_abort_bounds safe_abort_fuel : saf.

(** Splits a goal [safe m] along the structure of [m]. *)
Ltac saf :=
  repeat first
    [ solve [eauto with saf]
    | match goal with
      | |- safe (bind _ _) => apply safe_bind; [| intros ]
      | |- safe (if ?c then _ else _) => destruct c
      | |- safe (match ?x with _ => _ end) => destruct x
      end ].

Lemma safe_fread n : safe (fread n).
Proof. unfold fread. saf. Qed.

#[local] Hint Resolve safe_fread : saf.

Lemma safe_read_item n : safe (read_item n).
Proof. unfold read_item. saf. Qed.

#[local] Hint Resolve safe_read_item : saf.

Lemma safe_read_le16_signed : safe read_le16_signed.
Proof. unfold read_le16_signed. saf. Qed.

Lemma safe_read_le16_unsigned : safe read_le16_unsigned.
Proof. unfold read_le16_unsigned. saf. Qed.

Lemma safe_read_uint8 : safe read_uint8.
Proof. unfold read_uint8. saf. Qed.

#[local] Hint Resolve safe_read_le16_signed safe_read_le16_unsigned
  safe_read_uint8 : saf.

Lemma safe_read_header_field rd upd idxs :
  safe rd -> forall out, safe (read_header_field rd upd idxs out).
Proof.
  intros Hrd. induction idxs as [| i idxs IH]; intros out; simpl; saf.
Qed.

#[local] Hint Resolve safe_read_header_field : saf.

Lemma safe_read_adpcm_block_headers out : safe (read_adpcm_block_headers out).
Proof. unfold read_adpcm_block_headers. saf. Qed.

#[local] Hint Resolve safe_read_adpcm_block_headers : saf.

Lemma safe_read_own_block_headers : safe read_own_block_headers.
Proof. unfold read_own_block_headers. saf. Qed.

Lemma safe_put_header i h : safe (put_header i h).
Proof. unfold put_header. saf. Qed.

Lemma safe_dec_samples_left : safe dec_samples_left.
Proof. unfold dec_samples_left. saf. Qed.

#[local] Hint Resolve safe_read_own_block_headers safe_put_header
  safe_dec_samples_left : saf.

Lemma safe_decode_channels idxs : forall nib, safe (decode_channels idxs nib).
Proof. induction idxs as [| i idxs IH]; intros nib; simpl; saf. Qed.

#[local] Hint Resolve safe_decode_channels : saf.

Lemma safe_decode_adpcm_sample_frame : safe decode_adpcm_sample_frame.
Proof. unfold decode_adpcm_sample_frame. saf. Qed.

Lemma safe_put_adpcm_sample_frame buf bw frame :
  safe (put_adpcm_sample_frame buf bw frame).
Proof. unfold put_adpcm_sample_frame. saf. Qed.

#[local] Hint Resolve safe_decode_adpcm_sample_frame
  safe_put_adpcm_sample_frame : saf.

Lemma safe_read_sample_fmt_adpcm_loop fuel :
  forall buf len bw, safe (read_sample_fmt_adpcm_loop fuel buf len bw).
Proof. induction fuel as [| fuel IH]; intros buf len bw; simpl; saf. Qed.

Lemma safe_read_sample_fmt_normal buf len :
  safe (read_sample_fmt_normal buf len).
Proof. unfold read_sample_fmt_normal. saf. Qed.

Lemma safe_widen_step cs r buf : safe (widen_step cs r buf).
Proof. unfold widen_step. saf. Qed.

Lemma safe_duplicate_step r buf : safe (duplicate_step r buf).
Proof. unfold duplicate_step. saf. Qed.

#[local] Hint Resolve safe_read_sample_fmt_adpcm_loop
  safe_read_sample_fmt_normal safe_widen_step safe_duplicate_step : saf.

Lemma safe_grow_tmpbuf len : safe (grow_tmpbuf len).
Proof. unfold grow_tmpbuf. saf. Qed.

#[local] Hint Resolve safe_grow_tmpbuf : saf.

Lemma safe_convert cs len r buf : safe (convert cs len r buf).
Proof. unfold convert. saf. Qed.

(* ================================================================== *)
(** * Reading uncompressed data *)

Section Reading.

Variable long_bits : Z.
Variable char_is_signed : bool.

Lemma bind_gets {A B} (g : reader -> A) (k : A -> M B) s :
  bind (gets g) k s = k (g s) s.
Proof. apply bind_Returned_nil. reflexivity. Qed.

Lemma bind_modify {B} (g : reader -> reader) (k : unit -> M B) s :
  bind (modify g) k s = k tt (g s).
Proof. apply bind_Returned_nil. reflexivity. Qed.

Lemma bind_ret {A B} (a : A) (k : A -> M B) s : bind (ret a) k s = k a s.
Proof. apply bind_Returned_nil. reflexivity. Qed.

Lemma fread_run s f n :
  rw s = Some f ->
  fread n s
  = Returned (firstn (Z.to_nat n) (ahead f))
      (set_rw (Some (mkFILE (contents f)
                            (cursor f
                             + Z.of_nat (length (firstn (Z.to_nat n)
                                                        (ahead f)))))) s)
      [].
Proof. intros Hrw. unfold fread, bind, the_stream. rewrite Hrw. reflexivity. Qed.

Lemma firstn_length_min {A} (l : list A) n :
  0 <= n ->
  Z.of_nat (length (firstn (Z.to_nat n) l)) = Z.min n (Z.of_nat (length l)).
Proof. intros Hn. rewrite length_firstn. lia. Qed.

(** The uncompressed reader transfers what is asked for, or what is
    left. *)
Lemma read_raw_normal fuel buf n s f :
  rw s = Some f ->
  wFormatTag (fmt s) = FMT_NORMAL ->
  0 <= n < 2147483648 ->
  let got := firstn (Z.to_nat n) (ahead f) in
  let count := Z.min n (Z.of_nat (length (ahead f))) in
  read_raw fuel buf n s
  = Returned (count, write_at 0 got buf)
             (set_rw (Some (mkFILE (contents f) (cursor f + count))) s) [].
Proof.
  intros Hrw Htag Hn got count. unfold read_raw.
  rewrite bind_gets, Htag. cbn [Z.eqb FMT_NORMAL Pos.eqb].
  unfold read_sample_fmt_normal.
  rewrite Uint32_small by lia.
  rewrite (bind_Returned_nil _ _ _ _ _ (fread_run s f n Hrw)).
  fold got. cbv zeta.
  assert (Hcount : Z.of_nat (length got) = count)
    by (apply firstn_length_min; lia).
  rewrite Hcount.
  rewrite Sint32_small by lia.
  destruct (Z.eqb_spec count (-1)); [lia | reflexivity].
Qed.

Lemma write_at_0_length data buf :
  (length data <= length (write_at 0 data buf))%nat.
Proof. unfold write_at. simpl. rewrite length_app. lia. Qed.

Lemma bytes_of_samples_length l :
  length (bytes_of_samples l) = (2 * length l)%nat.
Proof.
  unfold bytes_of_samples. induction l as [| v l IH]; [reflexivity |].
  cbn [flat_map length]. rewrite length_app, IH.
  cbn [le_encode length]. lia.
Qed.

Lemma set_tmpbuf_same s : set_tmpbuf (tmpbuf s) s = s.
Proof. destruct s. reflexivity. Qed.

Lemma set_tmpbuf_set_tmpbuf t t' s :
  set_tmpbuf t (set_tmpbuf t' s) = set_tmpbuf t s.
Proof. reflexivity. Qed.

Lemma grow_tmpbuf_run len s :
  0 <= len ->
  exists t,
    grow_tmpbuf len s = Returned tt (set_tmpbuf t s) []
    /\ len <= Z.of_nat (length t).
Proof.
  intros Hlen. unfold grow_tmpbuf. rewrite bind_gets.
  destruct (Z.ltb_spec (Z.of_nat (length (tmpbuf s))) len).
  - exists (repeat 0 (Z.to_nat len)). split; [reflexivity |].
    rewrite repeat_length. lia.
  - exists (tmpbuf s). split; [| lia].
    rewrite set_tmpbuf_same. reflexivity.
Qed.

Lemma widen_step_run r buf s :
  0 <= r <= Z.of_nat (length (tmpbuf s)) ->
  let n := Z.to_nat r in
  let t := map (widen_8bit char_is_signed) (firstn n buf)
           ++ skipn n (tmpbuf s) in
  widen_step char_is_signed r buf s
  = Returned (Sint32 (r * 2),
              write_at 0 (bytes_of_samples (firstn n t)) buf)
             (set_tmpbuf t s) [].
Proof.
  intros Hr n t. unfold widen_step. rewrite bind_gets.
  destruct (Z.ltb_spec (Z.of_nat (length (tmpbuf s))) r); [lia |].
  fold n. fold t. rewrite bind_modify. reflexivity.
Qed.

Lemma duplicate_step_run r buf s :
  0 <= r <= Z.of_nat (length (tmpbuf s)) ->
  let n := Z.to_nat r in
  let doubled :=
    flat_map (fun v => [v; v])
             (samples_of_bytes (firstn (2 * Z.to_nat (r / 2)) buf)) in
  let t := doubled ++ skipn (length doubled) (tmpbuf s) in
  duplicate_step r buf s
  = Returned (Sint32 (r * 2),
              write_at 0 (bytes_of_samples (firstn n t)) buf)
             (set_tmpbuf t s) [].
Proof.
  intros Hr n doubled t. unfold duplicate_step. rewrite bind_gets.
  destruct (Z.ltb_spec (Z.of_nat (length (tmpbuf s))) r); [lia |].
  fold n. fold doubled. fold t. rewrite bind_modify. reflexivity.
Qed.

Lemma overwrite_length {A} (new old : list A) :
  (length old <= length (new ++ skipn (length new) old))%nat.
Proof. rewrite length_app, length_skipn. lia. Qed.

(** The conversions of an 8-bit mono stream: four output bytes for each
    raw byte. *)
Lemma convert_mono8 len r buf s :
  Conversion s = CONV_8BIT_TO_16BIT ->
  Channels s = 1 ->
  0 <= r -> 4 * r <= len -> len < 2147483648 ->
  (Z.to_nat r <= length buf)%nat ->
  exists buf' t,
    convert char_is_signed len r buf s
    = Returned (4 * r, buf') (set_tmpbuf t s) []
    /\ 4 * r <= Z.of_nat (length buf').
Proof.
  intros Hcv Hch Hr Hlen Hint Hbuf. unfold convert.
  destruct (Z.leb_spec r 0) as [Hz | Hpos].
  { assert (r = 0) by lia. subst r.
    exists buf, (tmpbuf s). rewrite set_tmpbuf_same.
    split; [reflexivity | simpl; lia]. }
  destruct (grow_tmpbuf_run len s ltac:(lia)) as (t0 & Hgrow & Ht0).
  rewrite (bind_Returned_nil _ _ _ _ _ Hgrow).
  rewrite bind_gets. cbn [Conversion set_tmpbuf]. rewrite Hcv.
  rewrite (bind_Returned_nil _ _ _ _ _
             (widen_step_run r buf (set_tmpbuf t0 s)
                ltac:(cbn [tmpbuf set_tmpbuf]; lia))).
  cbv zeta. cbn [tmpbuf set_tmpbuf]. cbv beta iota.
  rewrite bind_gets. cbn [Channels set_tmpbuf]. rewrite Hch.
  cbn [Z.eqb Pos.eqb].
  set (t1 := map (widen_8bit char_is_signed) (firstn (Z.to_nat r) buf)
             ++ skipn (Z.to_nat r) t0).
  assert (Ht1 : (length t0 <= length t1)%nat).
  { unfold t1. rewrite length_app, length_map, length_firstn, length_skipn.
    lia. }
  rewrite (Sint32_small (r * 2)) by lia.
  rewrite (duplicate_step_run (r * 2) _ (set_tmpbuf t1 s)
             ltac:(cbn [tmpbuf set_tmpbuf]; lia)).
  cbv zeta. cbn [tmpbuf set_tmpbuf].
  rewrite (Sint32_small (r * 2 * 2)) by lia.
  replace (r * 2 * 2) with (4 * r) by lia.
  eexists _, _. split; [reflexivity |].
  match goal with
  | |- _ <= Z.of_nat (length (write_at 0 ?d _)) =>
      pose proof (write_at_0_length d
                    (write_at 0 (bytes_of_samples (firstn (Z.to_nat r) t1))
                              buf)) as Hw
  end.
  rewrite bytes_of_samples_length, length_firstn in Hw.
  match goal with
  | Hw : context [length (?d ++ skipn (length ?d) t1)] |- _ =>
      pose proof (overwrite_length d t1)
  end.
  lia.
Qed.

(** A 16-bit stereo stream is handed over as it was read. *)
Lemma convert_stereo16 len r buf s :
  Conversion s = CONV_16LSB_TO_16SYS ->
  Channels s = 2 ->
  0 <= len ->
  exists t,
    convert char_is_signed len r buf s = Returned (r, buf) (set_tmpbuf t s) [].
Proof.
  intros Hcv Hch Hlen. unfold convert.
  destruct (r <=? 0).
  { exists (tmpbuf s). rewrite set_tmpbuf_same. reflexivity. }
  destruct (grow_tmpbuf_run len s Hlen) as (t0 & Hgrow & Ht0).
  rewrite (bind_Returned_nil _ _ _ _ _ Hgrow).
  rewrite bind_gets. cbn [Conversion set_tmpbuf]. rewrite Hcv.
  rewrite bind_ret. cbv beta iota.
  rewrite bind_gets. cbn [Channels set_tmpbuf]. rewrite Hch.
  cbn [Z.eqb Pos.eqb].
  exists t0. reflexivity.
Qed.

(** The conversions never run out of scratch space when the raw count,
    multiplied by the ratio, is within [len]. *)
Lemma convert_returns len r buf s :
  0 <= r ->
  r * ((match Conversion s with CONV_8BIT_TO_16BIT => 2 | _ => 1 end)
       * (if Channels s =? 1 then 2 else 1)) <= len ->
  len < 2147483648 ->
  exists x t,
    convert char_is_signed len r buf s = Returned x (set_tmpbuf t s) [].
Proof.
  intros Hr Hlen Hint. unfold convert.
  destruct (Z.leb_spec r 0) as [Hz | Hpos].
  { exists (r, buf), (tmpbuf s). rewrite set_tmpbuf_same. reflexivity. }
  assert (Hlen0 : 0 <= len).
  { destruct (Conversion s); destruct (Channels s =? 1); lia. }
  destruct (grow_tmpbuf_run len s Hlen0) as (t0 & Hgrow & Ht0).
  rewrite (bind_Returned_nil _ _ _ _ _ Hgrow).
  rewrite bind_gets. cbn [Conversion Channels set_tmpbuf].
  destruct (Conversion s) eqn:Hcv.
  - rewrite bind_ret. cbv beta iota. rewrite bind_gets.
    cbn [Channels set_tmpbuf].
    destruct (Channels s =? 1).
    + rewrite (duplicate_step_run r buf (set_tmpbuf t0 s)
                 ltac:(cbn [tmpbuf set_tmpbuf]; lia)).
      eexists _, _. reflexivity.
    + exists (r, buf), t0. reflexivity.
  - rewrite bind_ret. cbv beta iota. rewrite bind_gets.
    cbn [Channels set_tmpbuf].
    destruct (Channels s =? 1).
    + rewrite (duplicate_step_run r buf (set_tmpbuf t0 s)
                 ltac:(cbn [tmpbuf set_tmpbuf]; lia)).
      eexists _, _. reflexivity.
    + exists (r, buf), t0. reflexivity.
  - rewrite (bind_Returned_nil _ _ _ _ _
               (widen_step_run r buf (set_tmpbuf t0 s)
                  ltac:(cbn [tmpbuf set_tmpbuf];
                        destruct (Channels s =? 1); lia))).
    cbv zeta. cbn [tmpbuf set_tmpbuf]. cbv beta iota.
    rewrite bind_gets. cbn [Channels set_tmpbuf].
    set (t1 := map (widen_8bit char_is_signed) (firstn (Z.to_nat r) buf)
               ++ skipn (Z.to_nat r) t0).
    destruct (Z.eqb_spec (Channels s) 1) as [Hch | Hch].
    + assert (Ht1 : (length t0 - Z.to_nat r <= length t1)%nat).
      { unfold t1. rewrite length_app, length_skipn. lia. }
      rewrite (Sint32_small (r * 2)) by lia.
      destruct (Z.le_gt_cases (r * 2) (Z.of_nat (length t1))) as [Hfit | Hno].
      * rewrite (duplicate_step_run (r * 2) _ (set_tmpbuf t1 s)
                   ltac:(cbn [tmpbuf set_tmpbuf]; lia)).
        eexists _, _. reflexivity.
      * exfalso. lia.
    + eexists _, _. reflexivity.
Qed.

Lemma well_formed_ratio s :
  well_formed s ->
  (Input_Buffer_Ratio s = 1 \/ Input_Buffer_Ratio s = 2
   \/ Input_Buffer_Ratio s = 4).
Proof.
  intros W. rewrite (wf_ratio s W).
  destruct (Conversion s); destruct (Channels s =? 1); simpl; auto.
Qed.

(** With [len] a multiple of the ratio, [Read] gets past its assertion
    and asks the format-specific reader for [len / ratio] bytes. *)
Lemma Read_asks fuel buf len s :
  well_formed s ->
  0 <= len < 2147483648 ->
  len mod Input_Buffer_Ratio s = 0 ->
  Read char_is_signed fuel buf len s
  = bind (read_raw fuel buf (len / Input_Buffer_Ratio s))
         (fun '(r, b) => convert char_is_signed len r b) s.
Proof.
  intros W Hlen Hmod. unfold Read.
  pose proof (well_formed_ratio s W) as Hr.
  rewrite bind_gets.
  rewrite Uint32_small by lia.
  destruct (Z.eqb_spec (Input_Buffer_Ratio s) 0) as [E | _]; [lia |].
  rewrite bind_ret.
  rewrite Hmod. cbn [Z.eqb ASSERT]. rewrite bind_ret.
  rewrite Sint32_small; [reflexivity |].
  assert (0 <= len / Input_Buffer_Ratio s <= len).
  { split; [apply Z.div_pos; lia |].
    apply Z.div_le_upper_bound; [lia | nia]. }
  lia.
Qed.

Lemma read_raw_no_assertion fuel buf n s :
  wFormatTag (fmt s) = FMT_NORMAL \/ wFormatTag (fmt s) = FMT_ADPCM ->
  read_raw fuel buf n s <> Faulted AssertionFailed.
Proof.
  intros Htag. unfold read_raw. rewrite bind_gets.
  destruct Htag as [-> | ->]; cbn [Z.eqb FMT_NORMAL FMT_ADPCM Pos.eqb].
  - apply safe_read_sample_fmt_normal.
  - apply safe_bind.
    + unfold read_sample_fmt_adpcm. apply safe_read_sample_fmt_adpcm_loop.
    + intros [bw b]. apply safe_ret.
Qed.

(** C10, as amended.  On every open stream the conversion ratio is 1, 2 or
    4: twice as much when 8-bit samples are widened, and twice again for
    a mono stream.  When [len] is a multiple of it, the assertion at the
    entry of [Read] does not fail, and the format-specific reader is asked
    for [len / ratio] raw bytes; on an uncompressed stream the call
    returns and consumes that many bytes of the file, or all that is
    left when less is left. *)
Theorem Read_ratio fuel buf len s :
  open_stream long_bits char_is_signed s ->
  0 <= len < 2147483648 ->
  let ratio := Input_Buffer_Ratio s in
  (ratio = 1 \/ ratio = 2 \/ ratio = 4)
  /\ ratio = (match Conversion s with CONV_8BIT_TO_16BIT => 2 | _ => 1 end)
             * (if Channels s =? 1 then 2 else 1)
  /\ (len mod ratio = 0 ->
      Read char_is_signed fuel buf len s <> Faulted AssertionFailed
      /\ Read char_is_signed fuel buf len s
         = bind (read_raw fuel buf (len / ratio))
                (fun '(r, b) => convert char_is_signed len r b) s
      /\ (wFormatTag (fmt s) = FMT_NORMAL ->
          exists f r s' e,
            rw s = Some f
            /\ Read char_is_signed fuel buf len s = Returned r s' e
            /\ rw s' = Some (mkFILE (contents f)
                               (cursor f
                                + Z.min (len / ratio)
                                        (Z.of_nat (length (ahead f))))))).
Proof.
  intros Hopen Hlen ratio.
  destruct (open_stream_invariant _ _ _ Hopen) as [W _].
  pose proof (well_formed_ratio s W) as Hr. fold ratio in Hr.
  split; [exact Hr |]. split; [exact (wf_ratio s W) |].
  intros Hmod.
  pose proof (Read_asks fuel buf len s W Hlen Hmod) as Hasks.
  fold ratio in Hasks.
  assert (Hact : 0 <= len / ratio <= len).
  { split; [apply Z.div_pos; lia |].
    apply Z.div_le_upper_bound; [lia | nia]. }
  split; [| split; [exact Hasks |]].
  - rewrite Hasks. unfold bind.
    destruct (read_raw fuel buf (len / ratio) s) as [[r b] s1 e1 | flt] eqn:E.
    + destruct (convert char_is_signed len r b s1) as [x s2 e2 | flt] eqn:E2;
        [discriminate |].
      intros Hf. inversion Hf; subst.
      exact (safe_convert char_is_signed len r b s1 E2).
    + intros Hf. inversion Hf; subst.
      exact (read_raw_no_assertion fuel buf _ s (wf_tag s W) E).
  - intros Htag.
    pose proof (wf_rw s W) as Hrw.
    destruct (rw s) as [f |] eqn:Erw; [clear Hrw | contradiction].
    pose proof (read_raw_normal fuel buf (len / ratio) s f Erw Htag
                  ltac:(lia)) as Hraw.
    cbv zeta in Hraw.
    set (count := Z.min (len / ratio) (Z.of_nat (length (ahead f)))) in *.
    set (s1 := set_rw (Some (mkFILE (contents f) (cursor f + count))) s) in *.
    destruct (convert_returns len count
                (write_at 0 (firstn (Z.to_nat (len / ratio)) (ahead f)) buf)
                s1) as (x & t & Hconv).
    { unfold count. lia. }
    { change (Conversion s1) with (Conversion s).
      change (Channels s1) with (Channels s).
      rewrite <- (wf_ratio s W). fold ratio.
      assert (ratio * (len / ratio) = len).
      { pose proof (Z.div_mod len ratio ltac:(lia)). lia. }
      unfold count. nia. }
    { lia. }
    rewrite Hasks, (bind_Returned_nil _ _ _ _ _ Hraw).
    cbv beta iota. rewrite Hconv.
    exists f, x, (set_tmpbuf t s1), []. auto.
Qed.

(** C7.  On an open uncompressed stream, a [Read] of [len] bytes ([len]
    an [int], and a multiple of 4 for the mono 8-bit stream) returns, and
    it consumes [N] raw bytes of the file, where [N] is what is asked for
    or what is left: for a mono 8-bit stream it returns [4 * N] and the
    buffer holds that many bytes; for a stereo 16-bit stream it returns
    [N]. *)
Theorem Read_output_size fuel buf len s f :
  open_stream long_bits char_is_signed s ->
  rw s = Some f ->
  wFormatTag (fmt s) = FMT_NORMAL ->
  0 <= len < 2147483648 ->
  (wBitsPerSample (fmt s) = 8 -> Channels s = 1 -> len mod 4 = 0 ->
   let N := Z.min (len / 4) (Z.of_nat (length (ahead f))) in
   exists buf' s',
     Read char_is_signed fuel buf len s = Returned (4 * N, buf') s' []
     /\ rw s' = Some (mkFILE (contents f) (cursor f + N))
     /\ 4 * N <= Z.of_nat (length buf'))
  /\ (wBitsPerSample (fmt s) = 16 -> Channels s = 2 ->
      let N := Z.min len (Z.of_nat (length (ahead f))) in
      exists buf' s',
        Read char_is_signed fuel buf len s = Returned (N, buf') s' []
        /\ rw s' = Some (mkFILE (contents f) (cursor f + N))
        /\ N <= Z.of_nat (length buf')).
Proof.
  intros Hopen Hrw Htag Hlen.
  destruct (open_stream_invariant _ _ _ Hopen) as [W _].
  split.
  - intros Hbits Hch Hmod N.
    assert (Hcv : Conversion s = CONV_8BIT_TO_16BIT).
    { destruct (wf_conversion s W) as [(E & _) | [(_ & E & _) | (E & _)]];
        [lia | exact E | lia]. }
    assert (Hratio : Input_Buffer_Ratio s = 4).
    { rewrite (wf_ratio s W), Hcv, Hch. reflexivity. }
    rewrite (Read_asks fuel buf len s W Hlen) by (rewrite Hratio; exact Hmod).
    rewrite Hratio.
    assert (Hact : 0 <= len / 4 <= len).
    { split; [apply Z.div_pos; lia |].
      apply Z.div_le_upper_bound; lia. }
    rewrite (bind_Returned_nil _ _ _ _ _
               (read_raw_normal fuel buf (len / 4) s f Hrw Htag ltac:(lia))).
    cbv beta iota. fold N.
    destruct (convert_mono8 len N
                (write_at 0 (firstn (Z.to_nat (len / 4)) (ahead f)) buf)
                (set_rw (Some (mkFILE (contents f) (cursor f + N))) s))
      as (buf' & t & Hconv & Hsize); try assumption; try lia.
    + pose proof (Z.div_mod len 4 ltac:(lia)). unfold N. lia.
    + pose proof (write_at_0_length
                    (firstn (Z.to_nat (len / 4)) (ahead f)) buf) as Hw.
      rewrite length_firstn in Hw. unfold N. lia.
    + rewrite Hconv. eexists _, _. split; [reflexivity |]. auto.
  - intros Hbits Hch N.
    assert (Hcv : Conversion s = CONV_16LSB_TO_16SYS).
    { destruct (wf_conversion s W) as [(E & _) | [(E & _) | (_ & E & _)]];
        [lia | lia | exact E]. }
    assert (Hratio : Input_Buffer_Ratio s = 1).
    { rewrite (wf_ratio s W), Hcv, Hch. reflexivity. }
    rewrite (Read_asks fuel buf len s W Hlen)
      by (rewrite Hratio; apply Z.mod_1_r).
    rewrite Hratio, Z.div_1_r.
    rewrite (bind_Returned_nil _ _ _ _ _
               (read_raw_normal fuel buf len s f Hrw Htag Hlen)).
    cbv beta iota. fold N.
    destruct (convert_stereo16 len N
                (write_at 0 (firstn (Z.to_nat len) (ahead f)) buf)
                (set_rw (Some (mkFILE (contents f) (cursor f + N))) s))
      as (t & Hconv); try assumption; try lia.
    rewrite Hconv. eexists _, _. split; [reflexivity |].
    split; [reflexivity |].
    pose proof (write_at_0_length (firstn (Z.to_nat len) (ahead f)) buf) as Hw.
    rewrite length_firstn in Hw. unfold N. lia.
Qed.

End Reading.

Lemma pcm8_mono_open : open_stream 32 true pcm8_mono.
Proof.
  apply (opened 32 true 8 pcm8_mono_file new_reader pcm8_mono []).
  vm_compute. reflexivity.
Defined.

Lemma pcm16_stereo_open : open_stream 32 true pcm16_stereo.
Proof.
  apply (opened 32 true 8 pcm16_stereo_file new_reader pcm16_stereo []).
  vm_compute. reflexivity.
Defined.

Lemma Read_output_size_witness :
  (exists buf' s',
      Read true 0 [] 8 pcm8_mono = Returned (4 * 2, buf') s' []
      /\ rw s' = Some (mkFILE pcm8_mono_file (44 + 2))
      /\ 4 * 2 <= Z.of_nat (length buf'))
  /\ (exists buf' s',
         Read true 0 [] 8 pcm16_stereo = Returned (8, buf') s' []
         /\ rw s' = Some (mkFILE pcm16_stereo_file (44 + 8))
         /\ 8 <= Z.of_nat (length buf')).
Proof.
  split.
  - exact (proj1 (Read_output_size 32 true 0 [] 8 pcm8_mono
                    (mkFILE pcm8_mono_file 44) pcm8_mono_open
                    eq_refl eq_refl ltac:(lia))
                 eq_refl eq_refl eq_refl).
  - exact (proj2 (Read_output_size 32 true 0 [] 8 pcm16_stereo
                    (mkFILE pcm16_stereo_file 44) pcm16_stereo_open
                    eq_refl eq_refl ltac:(lia))
                 eq_refl eq_refl).
Defined.

Lemma Read_ratio_witness :
  Input_Buffer_Ratio pcm8_mono = 4
  /\ Read true 0 [] 8 pcm8_mono <> Faulted AssertionFailed
  /\ exists r s' e,
       Read true 0 [] 8 pcm8_mono = Returned r s' e
       /\ rw s' = Some (mkFILE pcm8_mono_file 46).
Proof.
  destruct (Read_ratio 32 true 0 [] 8 pcm8_mono pcm8_mono_open ltac:(lia))
    as (_ & _ & H).
  destruct (H eq_refl) as (Hsafe & _ & Hnormal).
  destruct (Hnormal eq_refl) as (f & r & s' & e & Hrw & Hread & Hrw').
  vm_compute in Hrw. inversion Hrw; subst f; clear Hrw.
  split; [reflexivity |]. split; [exact Hsafe |].
  exists r, s', e. split; [exact Hread | exact Hrw'].
Defined.

(** C10 as stated fails at the end of the data: a [Read] of 400 bytes on
    the mono 8-bit stream of twenty samples is a multiple of the ratio 4
    and consumes the twenty bytes that are left, not [400 / 4]. *)
Lemma Read_at_end_consumes_what_is_left :
  400 mod Input_Buffer_Ratio pcm8_mono = 0
  /\ rw pcm8_mono = Some (mkFILE pcm8_mono_file 44)
  /\ (exists buf' s',
         Read true 0 [] 400 pcm8_mono = Returned (80, buf') s' []
         /\ rw s' = Some (mkFILE pcm8_mono_file (44 + 20)))
  /\ 20 <> 400 / Input_Buffer_Ratio pcm8_mono.
Proof.
  split; [reflexivity |]. split; [reflexivity |]. split.
  - eexists _, _. split; vm_compute; reflexivity.
  - vm_compute. discriminate.
Qed.

Lemma length_queries_do_not_interfere_witness :
  rw pcm8_mono = Some (mkFILE pcm8_mono_file 44)
  /\ (forall fuel buf len,
         Read true fuel buf len pcm8_mono = Read true fuel buf len pcm8_mono)
  /\ (forall fuel ms,
         SetPosition 32 fuel ms pcm8_mono = SetPosition 32 fuel ms pcm8_mono).
Proof.
  apply (length_queries_do_not_interfere 32 ltac:(lia) true
           [zero_adpcm; zero_adpcm] pcm8_mono (mkFILE pcm8_mono_file 44)
           pcm8_mono []).
  - reflexivity.
  - simpl. lia.
  - vm_compute. reflexivity.
Defined.

(** A length query on the compressed stream, the local [tmp_adpcm]
    holding room for one header: the result, and the position back at
    the start of the data. *)
Example GetLength_adpcm_restores :
  rw adpcm_mono = Some (mkFILE adpcm_mono_file 58)
  /\ exists r e,
       GetLength 32 (set_blockheaders [zero_header] zero_adpcm) adpcm_mono
       = Returned r adpcm_mono e.
Proof.
  split; [reflexivity |]. eexists _, _. vm_compute. reflexivity.
Qed.

(* ================================================================== *)
(** * Seeking *)

Section Seeking.

Variable long_bits : Z.
Hypothesis long_bits_ok : 32 <= long_bits.

Lemma ConvertMsToBytePos_inv b c ms s off s' e :
  ConvertMsToBytePos b c ms s = Returned off s' e -> s' = s /\ e = [].
Proof.
  unfold ConvertMsToBytePos, float_to_Uint32. rewrite bind_gets.
  unfold bind.
  destruct (Float32.to_Uint32 _); [| discriminate].
  simpl. intros H. inversion H; subst. auto.
Qed.

(** [seek_sample_fmt_normal] compares the result of [fseek], which is 0
    when the seek succeeds, with the target position: for every target
    position other than 0 that [fseek] accepts, the stream is moved there
    and the function returns -1. *)
Lemma SetPosition_normal_reports_error fuel ms s f off s' e :
  rw s = Some f ->
  wFormatTag (fmt s) = FMT_NORMAL ->
  ConvertMsToBytePos (BytesPerSample s) (Channels s) (Uint32 ms) s
  = Returned off s' e ->
  0 <= off < 2147483648 ->
  0 < data_starting_offset (fmt s) + off < 2147483648 ->
  SetPosition long_bits fuel ms s
  = Returned (-1)
             (set_rw (Some (mkFILE (contents f)
                                   (data_starting_offset (fmt s) + off))) s)
             [].
Proof.
  intros Hrw Htag Hconv Hoff Hpos.
  destruct (ConvertMsToBytePos_inv _ _ _ _ _ _ _ Hconv) as [-> ->].
  unfold SetPosition. rewrite bind_gets, Htag.
  cbn [Z.eqb FMT_NORMAL Pos.eqb].
  unfold seek_sample_fmt_normal.
  rewrite !bind_gets.
  rewrite (bind_Returned_nil _ _ _ _ _ Hconv).
  rewrite bind_gets.
  assert (Hsmall : -2147483648 <= off < 2147483648) by lia.
  rewrite (Sint32_small off) by exact Hsmall.
  rewrite (Sint32_small (data_starting_offset (fmt s) + off)) by lia.
  rewrite to_long_small by (try exact long_bits_ok; lia).
  rewrite (bind_Returned_nil _ _ _ _ _
             (fseek_set_ok s f (data_starting_offset (fmt s) + off) Hrw
                ltac:(lia))).
  destruct (Z.eqb_spec 0 (data_starting_offset (fmt s) + off)); [lia |].
  reflexivity.
Qed.

(** The compressed path makes the same comparison, and reports "end of
    file". *)
Lemma SetPosition_adpcm_reports_error fuel ms s f off s' e :
  rw s = Some f ->
  wFormatTag (fmt s) = FMT_ADPCM ->
  ConvertMsToBytePos (BytesPerSample s) (Channels s) (Uint32 ms) s
  = Returned off s' e ->
  let bpb := wSamplesPerBlock (adpcm s) * adpcm_sample_frame_size (fmt s) in
  let skipsize := off / bpb * wBlockAlign (fmt s) in
  let pos := skipsize + data_starting_offset (fmt s) in
  0 <= off < 2147483648 ->
  0 < bpb < 2147483648 ->
  0 <= skipsize < 2147483648 ->
  0 < pos < 2147483648 ->
  SetPosition long_bits fuel ms s
  = Returned 0 (set_rw (Some (mkFILE (contents f) pos)) s)
             ["end of file"%string].
Proof.
  intros Hrw Htag Hconv bpb skipsize pos Hoff Hbpb Hskip Hpos.
  destruct (ConvertMsToBytePos_inv _ _ _ _ _ _ _ Hconv) as [-> ->].
  unfold SetPosition. rewrite bind_gets, Htag.
  cbn [Z.eqb FMT_NORMAL FMT_ADPCM Pos.eqb].
  unfold seek_sample_fmt_adpcm.
  rewrite !bind_gets.
  rewrite (bind_Returned_nil _ _ _ _ _ Hconv).
  rewrite !bind_gets.
  fold bpb.
  rewrite (Sint32_small off) by lia.
  rewrite (Sint32_small bpb) by lia.
  destruct (Z.eqb_spec bpb 0); [lia |].
  rewrite Z.quot_div_nonneg by lia.
  fold skipsize.
  rewrite (Sint32_small skipsize) by lia.
  fold pos.
  rewrite (Sint32_small pos) by lia.
  rewrite to_long_small by (try exact long_bits_ok; lia).
  rewrite (bind_Returned_nil _ _ _ _ _
             (fseek_set_ok s f pos Hrw ltac:(lia))).
  change (0 =? -1) with false. cbv iota.
  destruct (Z.eqb_spec 0 pos); [lia |].
  reflexivity.
Qed.

End Seeking.

(** C1 on the code.  On the mono 8-bit stream (8000 Hz, twenty bytes of
    data from offset 44) position 1 ms translates to byte 8 of the data,
    and position 0 to byte 0; on the compressed stream (two blocks of six
    samples from offset 58) position 1 ms lies in the second block.  All
    are inside the data, and [SetPosition] moves the stream there and
    reports an error: -1 on the uncompressed path, 0 and "end of file"
    on the compressed one. *)
Theorem SetPosition_in_range_reports_error :
  ConvertMsToBytePos 1 1 1 pcm8_mono = Returned 8 pcm8_mono []
  /\ SetPosition 32 0 1 pcm8_mono
     = Returned (-1) (set_rw (Some (mkFILE pcm8_mono_file (44 + 8))) pcm8_mono)
                []
  /\ SetPosition 32 0 0 pcm8_mono
     = Returned (-1) (set_rw (Some (mkFILE pcm8_mono_file 44)) pcm8_mono) []
  /\ ConvertMsToBytePos 2 1 1 adpcm_mono = Returned 16 adpcm_mono []
  /\ SetPosition 32 8 1 adpcm_mono
     = Returned 0 (set_rw (Some (mkFILE adpcm_mono_file (58 + 9))) adpcm_mono)
                ["end of file"%string].
Proof.
  repeat split; vm_compute; reflexivity.
Qed.

(* ================================================================== *)
(** * Single-precision arithmetic on small integers *)

Section SmallIntegers.

Lemma digits2_pos_size (p : positive) : digits2_pos p = Pos.size p.
Proof. induction p; cbn; congruence. Qed.

Lemma digits_bounds (p : positive) :
  2 ^ (Zpos (digits2_pos p) - 1) <= Zpos p < 2 ^ Zpos (digits2_pos p).
Proof.
  rewrite digits2_pos_size.
  pose proof (Pos.size_gt p) as Hgt.
  pose proof (Pos.size_le p) as Hle.
  apply Pos2Z.pos_lt_pos in Hgt. apply Pos2Z.pos_le_pos in Hle.
  rewrite Pos2Z.inj_pow in Hgt, Hle.
  change (Z.pos p~0) with (2 * Z.pos p) in Hle.
  replace (Z.pos (Pos.size p)) with (Z.succ (Z.pos (Pos.size p) - 1)) in Hle at 1 by lia.
  rewrite Z.pow_succ_r in Hle by lia.
  split; [lia | exact Hgt].
Qed.

Lemma digits_unique (p : positive) (d : Z) :
  2 ^ (d - 1) <= Zpos p < 2 ^ d -> Zpos (digits2_pos p) = d.
Proof.
  intros [Hlo Hhi].
  pose proof (digits_bounds p) as [Hlo' Hhi'].
  set (d' := Zpos (digits2_pos p)) in *.
  assert (0 < d) by (destruct d; try lia; cbn in Hhi; lia).
  destruct (Z.lt_trichotomy d' d) as [Hlt | [Heq | Hgt]]; [| exact Heq |].
  - assert (2 ^ d' <= 2 ^ (d - 1)) by (apply Z.pow_le_mono_r; lia). lia.
  - assert (2 ^ d <= 2 ^ (d' - 1)) by (apply Z.pow_le_mono_r; lia). lia.
Qed.

Lemma digits_shift (p : positive) (k : Z) :
  0 <= k ->
  Zdigits2 (Zpos p * 2 ^ k) = Zpos (digits2_pos p) + k.
Proof.
  intros Hk.
  pose proof (digits_bounds p) as [Hlo Hhi].
  assert (Hpos : 0 < 2 ^ k) by (apply Z.pow_pos_nonneg; lia).
  assert (0 < Zpos p * 2 ^ k) by lia.
  destruct (Zpos p * 2 ^ k) as [| q |] eqn:E; try lia.
  cbn [Zdigits2]. apply digits_unique. rewrite <- E.
  replace (Z.pos (digits2_pos p) + k - 1) with (Z.pos (digits2_pos p) - 1 + k) by lia.
  rewrite !Z.pow_add_r by lia. nia.
Qed.

Lemma fexp_single (x : Z) : fexp 24 128 x = Z.max (x - 24) (-149).
Proof. reflexivity. Qed.

Lemma shr_1_double (c : Z) :
  0 <= c ->
  shr_1 (Build_shr_record (c * 2) false false) = Build_shr_record c false false.
Proof.
  intros Hc. destruct c as [| q |]; [reflexivity | | lia].
  rewrite Z.mul_comm. reflexivity.
Qed.

Lemma iter_shr_1_exact (p : positive) :
  forall c, 0 <= c ->
  iter_pos shr_1 p (Build_shr_record (c * 2 ^ Zpos p) false false)
  = Build_shr_record c false false.
Proof.
  induction p as [p IH | p IH |]; intros c Hc; cbn [iter_pos].
  - replace (c * 2 ^ Zpos p~1) with (c * 2 ^ Zpos p * 2 ^ Zpos p * 2).
    + assert (0 <= 2 ^ Zpos p) by (apply Z.pow_nonneg; lia).
      rewrite shr_1_double by nia. rewrite IH by nia. apply IH, Hc.
    + replace (Zpos p~1) with (Zpos p + Zpos p + 1) by lia.
      rewrite !Z.pow_add_r by lia. change (2 ^ 1) with 2. ring.
  - replace (c * 2 ^ Zpos p~0) with (c * 2 ^ Zpos p * 2 ^ Zpos p).
    + assert (0 <= 2 ^ Zpos p) by (apply Z.pow_nonneg; lia).
      rewrite IH by nia. apply IH, Hc.
    + replace (Zpos p~0) with (Zpos p + Zpos p) by lia.
      rewrite !Z.pow_add_r by lia. ring.
  - change (2 ^ 1) with 2. apply shr_1_double, Hc.
Qed.

Lemma shr_exact (c e k : Z) :
  0 <= c -> 0 <= k ->
  shr (Build_shr_record (c * 2 ^ k) false false) e k
  = (Build_shr_record c false false, e + k).
Proof.
  intros Hc Hk. destruct k as [| p |]; [| | lia].
  - cbn [shr]. rewrite Z.pow_0_r, Z.mul_1_r, Z.add_0_r. reflexivity.
  - cbn [shr]. rewrite iter_shr_1_exact by exact Hc. reflexivity.
Qed.

(** Rounding a significand that holds the integer [n * 2^-e] exactly. *)
Lemma binary_round_aux_exact (n : Z) (m : positive) (e : Z) :
  0 < n < 2 ^ 24 -> e <= 0 -> Zpos m = n * 2 ^ (- e) -> 2 ^ 23 <= Zpos m ->
  binary_round_aux 24 128 false (Zpos m) e loc_Exact = exact_float n.
Proof.
  intros Hn He Hm Hbig.
  destruct n as [| p |]; try lia.
  pose proof (digits_bounds p) as Hd.
  pose proof (digits_shift p (- e) ltac:(lia)) as HD.
  rewrite <- Hm in HD. cbn [Zdigits2] in HD.
  set (d := Zpos (digits2_pos p)) in *.
  assert (Hd24 : d <= 24).
  { destruct (Z_le_gt_dec d 24) as [|Hgt]; [assumption|].
    assert (2 ^ 24 <= 2 ^ (d - 1)) by (apply Z.pow_le_mono_r; lia). lia. }
  assert (HD24 : 24 <= d - e).
  { pose proof (digits_bounds m) as Hdm. rewrite HD in Hdm.
    destruct (Z_le_gt_dec 24 (d - e)) as [|Hlt]; [assumption|].
    assert (2 ^ (d + - e) <= 2 ^ 23) by (apply Z.pow_le_mono_r; lia). lia. }
  assert (Hsplit : Zpos m = Zpos p * 2 ^ (24 - d) * 2 ^ (d - 24 - e)).
  { rewrite Hm, <- Z.mul_assoc, <- Z.pow_add_r by lia. f_equal. f_equal. lia. }
  assert (Hpow : 0 < 2 ^ (24 - d)) by (apply Z.pow_pos_nonneg; lia).
  assert (Hc : 0 < Zpos p * 2 ^ (24 - d)) by lia.
  unfold binary_round_aux, shr_fexp.
  cbn [Zdigits2 shr_record_of_loc]. rewrite HD, fexp_single.
  replace (Z.max (d + - e + e - 24) (-149) - e) with (d - 24 - e) by lia.
  rewrite Hsplit at 1. rewrite shr_exact by lia.
  cbn [shr_m loc_of_shr_record round_nearest_even shr_record_of_loc].
  rewrite (digits_shift p (24 - d)) by lia. fold d. rewrite fexp_single.
  replace (Z.max (d + (24 - d) + (e + (d - 24 - e)) - 24) (-149)
           - (e + (d - 24 - e))) with 0 by lia.
  cbn [shr shr_m].
  destruct (Zpos p * 2 ^ (24 - d)) as [| q |] eqn:Eq; try lia.
  replace (e + (d - 24 - e)) with (d - 24) by lia.
  replace (d - 24 <=? 128 - 24) with true by (symmetry; apply Z.leb_le; lia).
  unfold exact_float. fold d. rewrite Eq. reflexivity.
Qed.

Lemma digits_le_24 (p : positive) :
  Zpos p < 2 ^ 24 -> Zpos (digits2_pos p) <= 24.
Proof.
  intros Hp. pose proof (digits_bounds p) as Hd.
  destruct (Z_le_gt_dec (Zpos (digits2_pos p)) 24) as [|Hgt]; [assumption|].
  assert (2 ^ 24 <= 2 ^ (Zpos (digits2_pos p) - 1))
    by (apply Z.pow_le_mono_r; lia).
  lia.
Qed.

Lemma significand_bounds (p : positive) :
  Zpos p < 2 ^ 24 ->
  2 ^ 23 <= Zpos p * 2 ^ (24 - Zpos (digits2_pos p)) < 2 ^ 24.
Proof.
  intros Hp. pose proof (digits_bounds p) as [Hlo Hhi].
  pose proof (digits_le_24 p Hp) as Hd.
  set (d := Zpos (digits2_pos p)) in *.
  assert (H23 : 2 ^ 23 = 2 ^ (d - 1) * 2 ^ (24 - d))
    by (rewrite <- Z.pow_add_r by lia; f_equal; lia).
  assert (H24 : 2 ^ 24 = 2 ^ d * 2 ^ (24 - d))
    by (rewrite <- Z.pow_add_r by lia; f_equal; lia).
  assert (0 < 2 ^ (24 - d)) by (apply Z.pow_pos_nonneg; lia).
  rewrite H23, H24 at 1. split; nia.
Qed.

Lemma exact_float_pos (p : positive) :
  Zpos p < 2 ^ 24 ->
  exists m, exact_float (Zpos p) = S754_finite false m (Zpos (digits2_pos p) - 24)
            /\ Zpos m = Zpos p * 2 ^ (24 - Zpos (digits2_pos p)).
Proof.
  intros Hp. pose proof (significand_bounds p Hp) as Hb.
  exists (Z.to_pos (Zpos p * 2 ^ (24 - Zpos (digits2_pos p)))).
  split; [reflexivity|]. apply Z2Pos.id.
  assert (0 < 2 ^ 23) by reflexivity. lia.
Qed.

Lemma iter_xO (p k : positive) :
  Zpos (Pos.iter xO p k) = Zpos p * 2 ^ Zpos k.
Proof.
  induction k as [| k IH] using Pos.peano_ind.
  - cbn [Pos.iter]. change (2 ^ 1) with 2. lia.
  - rewrite Pos.iter_succ, Pos2Z.inj_xO, IH, Pos2Z.inj_succ, Z.pow_succ_r by lia.
    ring.
Qed.

(** [(float) n] is exact for an [n] of at most 24 bits. *)
Lemma of_Z_exact (n : Z) :
  0 <= n < 2 ^ 24 -> Float32.of_Z n = exact_float n.
Proof.
  intros Hn. destruct n as [| p |]; [reflexivity | | lia].
  pose proof (digits_bounds p) as Hd.
  pose proof (digits_le_24 p ltac:(lia)) as Hd24.
  unfold Float32.of_Z, Float32.prec, Float32.emax, binary_normalize, binary_round.
  rewrite fexp_single. unfold shl_align.
  set (d := Zpos (digits2_pos p)) in *.
  replace (Z.max (d + 0 - 24) (-149) - 0) with (d - 24) by lia.
  replace (Z.max (d + 0 - 24) (-149)) with (d - 24) by lia.
  destruct (d - 24) as [| k | k] eqn:Ek; try lia.
  - apply binary_round_aux_exact; try lia.
    replace d with 24 in Hd by lia. cbn in Hd |- *. lia.
  - apply binary_round_aux_exact; try lia.
    + rewrite iter_xO. reflexivity.
    + rewrite iter_xO.
      pose proof (significand_bounds p ltac:(lia)) as Hb. fold d in Hb.
      replace (Zpos k) with (24 - d) by lia. lia.
Qed.

(** The product of two small integers is exact when it fits 24 bits. *)
Lemma mul_exact (a b : Z) :
  0 <= a -> 0 <= b -> a * b < 2 ^ 24 ->
  Float32.mul (exact_float a) (exact_float b) = exact_float (a * b).
Proof.
  intros Ha Hb Hab.
  destruct a as [| p |]; [destruct b; try lia; reflexivity | | lia].
  destruct b as [| q |]; [reflexivity | | lia].
  assert (Hp : Zpos p < 2 ^ 24) by nia.
  assert (Hq : Zpos q < 2 ^ 24) by nia.
  destruct (exact_float_pos p Hp) as (mp & -> & Hmp).
  destruct (exact_float_pos q Hq) as (mq & -> & Hmq).
  pose proof (significand_bounds p Hp) as Hbp.
  pose proof (significand_bounds q Hq) as Hbq.
  pose proof (digits_le_24 p Hp). pose proof (digits_le_24 q Hq).
  unfold Float32.mul, Float32.prec, Float32.emax, SFmul. cbn [xorb].
  apply binary_round_aux_exact;
    [lia | lia | | rewrite Pos2Z.inj_mul; nia].
  rewrite Pos2Z.inj_mul, Hmp, Hmq.
  replace (- (Zpos (digits2_pos p) - 24 + (Zpos (digits2_pos q) - 24)))
    with ((24 - Zpos (digits2_pos p)) + (24 - Zpos (digits2_pos q))) by lia.
  rewrite Z.pow_add_r by lia. ring.
Qed.

Lemma div_eucl_exact (q m : Z) :
  0 < m -> Z.div_eucl (m * q) m = (q, 0).
Proof.
  intros Hm.
  assert (E : Z.div_eucl (m * q) m = ((m * q) / m, (m * q) mod m)).
  { unfold Z.div, Z.modulo. destruct (Z.div_eucl (m * q) m). reflexivity. }
  rewrite E, (Z.mul_comm m q), Z.div_mul, Z.mod_mul by lia. reflexivity.
Qed.

Lemma new_location_0 (m : Z) : new_location m 0 = loc_Exact.
Proof. unfold new_location. destruct (Z.even m); reflexivity. Qed.

(** The quotient of two small integers is exact when the division is. *)
Lemma div_exact (b c : Z) :
  0 < b -> 0 <= c -> b * c < 2 ^ 24 ->
  Float32.div (exact_float (b * c)) (exact_float b) = exact_float c.
Proof.
  intros Hb Hc Hbc.
  destruct b as [| q |]; try lia.
  destruct c as [| r |]; [rewrite Z.mul_0_r; reflexivity | | lia].
  assert (Hq : Zpos q < 2 ^ 24) by nia.
  assert (Hr : Zpos r < 2 ^ 24) by nia.
  change (Zpos q * Zpos r) with (Zpos (q * r)) in *.
  destruct (exact_float_pos (q * r) Hbc) as (m1 & -> & Hm1).
  destruct (exact_float_pos q Hq) as (m2 & -> & Hm2).
  pose proof (significand_bounds (q * r) Hbc) as Hb1.
  pose proof (significand_bounds q Hq) as Hb2.
  pose proof (digits_le_24 (q * r) Hbc) as Hd1.
  pose proof (digits_le_24 q Hq) as Hd2.
  pose proof (digits_shift (q * r) (24 - Zpos (digits2_pos (q * r))) ltac:(lia)) as HD1.
  pose proof (digits_shift q (24 - Zpos (digits2_pos q)) ltac:(lia)) as HD2.
  rewrite <- Hm1 in HD1, Hb1. rewrite <- Hm2 in HD2, Hb2.
  set (d1 := Zpos (digits2_pos (q * r))) in *.
  set (d2 := Zpos (digits2_pos q)) in *.
  unfold Float32.div, Float32.prec, Float32.emax, SFdiv, SFdiv_core_binary.
  cbn [xorb]. rewrite HD1, HD2, fexp_single.
  replace (Z.min (Z.max (d1 + (24 - d1) + (d1 - 24) - (d2 + (24 - d2) + (d2 - 24)) - 24) (-149))
                 (d1 - 24 - (d2 - 24))) with (d1 - d2 - 24) by lia.
  replace (d1 - 24 - (d2 - 24) - (d1 - d2 - 24)) with 24 by lia.
  rewrite Z.shiftl_mul_pow2 by lia.
  assert (Hquot : Zpos m1 * 2 ^ 24 = Zpos m2 * (Zpos r * 2 ^ (24 + d2 - d1))).
  { rewrite Hm1, Hm2, Pos2Z.inj_mul.
    replace (24 + d2 - d1) with ((24 - d1) + d2) by lia.
    replace (2 ^ 24) with (2 ^ (24 - d2) * 2 ^ d2)
      by (rewrite <- Z.pow_add_r by lia; f_equal; lia).
    rewrite Z.pow_add_r by lia. ring. }
  rewrite Hquot, div_eucl_exact by lia. rewrite new_location_0.
  assert (Hpow : 0 < 2 ^ (24 + d2 - d1)) by (apply Z.pow_pos_nonneg; lia).
  destruct (Zpos r * 2 ^ (24 + d2 - d1)) as [| mq |] eqn:Eq; try lia.
  apply binary_round_aux_exact; try lia.
  - rewrite <- Eq. f_equal. f_equal. lia.
  - assert (2 ^ 23 * 2 ^ 24 <= Zpos m2 * Zpos mq) by nia.
    assert (0 < 2 ^ 24) by reflexivity. nia.
Qed.

(** Converting back to an integer gives the integer held. *)
Lemma to_Uint32_exact (n : Z) :
  0 <= n < 2 ^ 24 -> Float32.to_Uint32 (exact_float n) = Some n.
Proof.
  intros Hn.
  assert (Htr : Float32.trunc (exact_float n) = Some n).
  { destruct n as [| p |]; [reflexivity | | lia].
    destruct (exact_float_pos p ltac:(lia)) as (m & -> & Hm).
    pose proof (digits_le_24 p ltac:(lia)) as Hd.
    cbn [Float32.trunc]. f_equal.
    destruct (Zpos (digits2_pos p) - 24) as [| k | k] eqn:Ek; try lia.
    - rewrite Z.shiftl_0_r, Hm.
      replace (24 - Zpos (digits2_pos p)) with 0 by lia. lia.
    - rewrite Z.shiftr_div_pow2, Hm by lia.
      replace (24 - Zpos (digits2_pos p)) with (Zpos k) by lia.
      apply Z.div_mul. apply Z.pow_nonzero; lia. }
  unfold Float32.to_Uint32. rewrite Htr.
  replace (0 <=? n) with true by (symmetry; apply Z.leb_le; lia).
  replace (n <? 4294967296) with true
    by (symmetry; apply Z.ltb_lt; change (2 ^ 24) with 16777216 in Hn; lia).
  reflexivity.
Qed.

End SmallIntegers.

(* ================================================================== *)
(** * Translation between milliseconds and byte offsets *)

Lemma frames_per_ms_exact (k : Z) :
  0 < k -> 1000 * k < 2 ^ 24 -> frames_per_ms (1000 * k) = exact_float k.
Proof.
  intros Hk Hr. unfold frames_per_ms.
  rewrite (of_Z_exact (1000 * k)) by lia.
  rewrite (of_Z_exact 1000) by (split; [lia | reflexivity]).
  apply div_exact; lia.
Qed.

(** Where single precision is exact.  For a stream whose sample rate
    is a whole number [k] of kHz (below 2^24 Hz) and a position [ms] that
    lies fewer than 2^24 frames into the data, [ConvertMsToBytePos] is the
    exact integer formula [floor(ms * rate / 1000) * frame_size] with
    [frame_size = bytesPerSample * channels], and [ConvertBytePosToMs]
    takes that offset back to [ms]. *)
Theorem ms_translation_exact (bytesPerSample channels k ms : Z) (s : reader) :
  SampleRate s = 1000 * k -> 0 < k -> 1000 * k < 2 ^ 24 ->
  0 <= ms -> k * ms < 2 ^ 24 ->
  0 < bytesPerSample * channels < 2 ^ 32 ->
  ms_to_byte_offset (SampleRate s) (bytesPerSample * channels) ms < 2 ^ 32 ->
  ConvertMsToBytePos bytesPerSample channels ms s
  = Returned (ms_to_byte_offset (SampleRate s) (bytesPerSample * channels) ms)
             s []
  /\ ConvertBytePosToMs bytesPerSample channels
       (ms_to_byte_offset (SampleRate s) (bytesPerSample * channels) ms) s
     = Returned ms s [].
Proof.
  intros Hrate Hk Hr Hms Hframes Hsize Hfit.
  assert (Hoff : ms_to_byte_offset (SampleRate s) (bytesPerSample * channels) ms
                 = k * ms * (bytesPerSample * channels)).
  { unfold ms_to_byte_offset. rewrite Hrate.
    replace (ms * (1000 * k)) with (k * ms * 1000) by ring.
    rewrite Z.div_mul by lia. reflexivity. }
  rewrite Hoff in *.
  assert (H32 : 2 ^ 32 = 4294967296) by reflexivity.
  assert (Hfs : Uint32 (bytesPerSample * channels) = bytesPerSample * channels)
    by (apply Uint32_small; lia).
  split.
  - unfold ConvertMsToBytePos. rewrite bind_gets, Hrate.
    rewrite frames_per_ms_exact by lia.
    rewrite (of_Z_exact ms) by nia.
    rewrite mul_exact by lia.
    unfold float_to_Uint32. rewrite to_Uint32_exact by nia.
    rewrite bind_ret, Hfs. unfold ret. f_equal.
    apply Uint32_small. nia.
  - unfold ConvertBytePosToMs. rewrite Hfs.
    replace (bytesPerSample * channels =? 0) with false
      by (symmetry; apply Z.eqb_neq; lia).
    rewrite bind_gets, Hrate, Z.div_mul by lia.
    rewrite frames_per_ms_exact by lia.
    rewrite (of_Z_exact (k * ms)) by nia.
    rewrite div_exact by lia.
    unfold float_to_Uint32. rewrite to_Uint32_exact by nia.
    reflexivity.
Qed.

Lemma ms_translation_exact_witness :
  SampleRate pcm8_mono = 1000 * 8
  /\ ConvertMsToBytePos 1 1 1000 pcm8_mono = Returned 8000 pcm8_mono []
  /\ ConvertBytePosToMs 1 1 8000 pcm8_mono = Returned 1000 pcm8_mono [].
Proof.
  split; [reflexivity |].
  exact (ms_translation_exact 1 1 8 1000 pcm8_mono eq_refl
           eq_refl eq_refl ltac:(discriminate) eq_refl
           (conj eq_refl eq_refl) eq_refl).
Defined.

(** C8 as stated fails where single precision rounds: at 44100 Hz the
    factor 44.1 is not a [float], and 90 ms is translated to frame 3968,
    not to frame [floor(90 * 44100 / 1000) = 3969]. *)
Lemma ms_translation_rounds_at_44100_Hz :
  SampleRate pcm16_stereo = 44100
  /\ ConvertMsToBytePos 2 2 90 pcm16_stereo = Returned (3968 * 4) pcm16_stereo []
  /\ ms_to_byte_offset 44100 (2 * 2) 90 = 3969 * 4
  /\ ConvertBytePosToMs 2 2 (3968 * 4) pcm16_stereo = Returned 89 pcm16_stereo [].
Proof. repeat split; vm_compute; reflexivity. Qed.

(* ================================================================== *)
(** * Rounding in single precision *)

Section Rounding.

Lemma shr_m_shr_1 mrs : 0 <= shr_m mrs -> shr_m (shr_1 mrs) = shr_m mrs / 2.
Proof.
  destruct mrs as [m r s]. cbn [shr_m]. intros Hm.
  destruct m as [| [q | q |] |]; cbn [shr_1 shr_m orb].
  - reflexivity.
  - apply (Z.div_unique _ _ _ 1); lia.
  - apply (Z.div_unique _ _ _ 0); lia.
  - reflexivity.
  - lia.
Qed.

Lemma shr_m_iter p :
  forall mrs, 0 <= shr_m mrs ->
  shr_m (iter_pos shr_1 p mrs) = shr_m mrs / 2 ^ Zpos p.
Proof.
  assert (Hpos : forall q, 0 < 2 ^ Zpos q)
    by (intros q; apply Z.pow_pos_nonneg; lia).
  induction p as [p IH | p IH |]; intros mrs Hm; cbn [iter_pos].
  - assert (H1 : 0 <= shr_m (shr_1 mrs))
      by (rewrite shr_m_shr_1 by exact Hm; apply Z.div_pos; lia).
    assert (H2 : 0 <= shr_m (iter_pos shr_1 p (shr_1 mrs)))
      by (rewrite IH by exact H1; apply Z.div_pos; [exact H1 | apply Hpos]).
    rewrite IH by exact H2. rewrite IH by exact H1.
    rewrite shr_m_shr_1 by exact Hm.
    pose proof (Hpos p).
    rewrite !Z.div_div by lia. f_equal.
    replace (Zpos p~1) with (1 + Zpos p + Zpos p) by lia.
    rewrite !Z.pow_add_r by lia. change (2 ^ 1) with 2. ring.
  - assert (H2 : 0 <= shr_m (iter_pos shr_1 p mrs))
      by (rewrite IH by exact Hm; apply Z.div_pos; [exact Hm | apply Hpos]).
    rewrite IH by exact H2. rewrite IH by exact Hm.
    pose proof (Hpos p).
    rewrite Z.div_div by lia. f_equal.
    replace (Zpos p~0) with (Zpos p + Zpos p) by lia.
    rewrite Z.pow_add_r by lia. reflexivity.
  - change (2 ^ 1) with 2. apply shr_m_shr_1, Hm.
Qed.

Lemma shr_value mrs e n :
  0 <= shr_m mrs -> 0 <= n ->
  shr_m (fst (shr mrs e n)) = shr_m mrs / 2 ^ n /\ snd (shr mrs e n) = e + n.
Proof.
  intros Hm Hn. destruct n as [| q |]; [| | lia]; cbn [shr fst snd].
  - rewrite Z.pow_0_r, Z.div_1_r. lia.
  - split; [apply shr_m_iter, Hm | reflexivity].
Qed.

Lemma shr_m_of_loc m l : shr_m (shr_record_of_loc m l) = m.
Proof. destruct l as [| []]; reflexivity. Qed.

Lemma round_nearest_even_range m l :
  round_nearest_even m l = m \/ round_nearest_even m l = m + 1.
Proof.
  destruct l as [| []]; cbn [round_nearest_even]; auto.
  destruct (Z.even m); auto.
Qed.

(** Rounding to 24 bits keeps the value between the two neighbours, in
    units of [2^n], of what is rounded. *)
Lemma binary_round_aux_bounds (p : positive) (ex : Z) (lx : location) :
  let n := Zpos (digits2_pos p) - 24 in
  0 <= n -> -149 <= ex + n -> ex + n < 104 ->
  exists (m : positive) (k : Z),
    binary_round_aux 24 128 false (Zpos p) ex lx = S754_finite false m (ex + k)
    /\ 2 ^ 23 <= Zpos m < 2 ^ 24
    /\ n <= k <= n + 1
    /\ (Zpos m * 2 ^ k = (Zpos p / 2 ^ n) * 2 ^ n
        \/ Zpos m * 2 ^ k = (Zpos p / 2 ^ n) * 2 ^ n + 2 ^ n).
Proof.
  intros n Hn Hlo Hhi.
  pose proof (digits_bounds p) as [Hd1 Hd2].
  set (d := Zpos (digits2_pos p)) in *.
  assert (Hpn : 0 < 2 ^ n) by (apply Z.pow_pos_nonneg; lia).
  assert (Hq : 2 ^ 23 <= Zpos p / 2 ^ n < 2 ^ 24).
  { replace (d - 1) with (23 + n) in Hd1 by (unfold n; lia).
    replace d with (24 + n) in Hd2 by (unfold n; lia).
    rewrite Z.pow_add_r in Hd1, Hd2 by lia.
    split.
    - apply Z.div_le_lower_bound; lia.
    - apply Z.div_lt_upper_bound; lia. }
  set (q := Zpos p / 2 ^ n) in *.
  unfold binary_round_aux, shr_fexp. cbn [Zdigits2]. fold d.
  rewrite fexp_single.
  replace (Z.max (d + ex - 24) (-149) - ex) with n by (unfold n; lia).
  pose proof (shr_value (shr_record_of_loc (Zpos p) lx) ex n
                ltac:(rewrite shr_m_of_loc; lia) Hn) as [Hm He].
  rewrite shr_m_of_loc in Hm. fold q in Hm.
  destruct (shr (shr_record_of_loc (Zpos p) lx) ex n) as [mrs' e'].
  cbn [fst snd] in Hm, He. subst e'.
  rewrite Hm.
  set (m1 := round_nearest_even q (loc_of_shr_record mrs')).
  assert (Hm1 : m1 = q \/ m1 = q + 1) by apply round_nearest_even_range.
  assert (H24 : 2 ^ 24 = 16777216) by reflexivity.
  assert (H23 : 2 ^ 23 = 8388608) by reflexivity.
  destruct (Z.eq_dec m1 (2 ^ 24)) as [Etop | Ntop].
  - (* the significand was all ones and went up *)
    rewrite Etop. change (2 ^ 24) with 16777216.
    cbn [Zdigits2 digits2_pos Pos.succ shr_record_of_loc].
    rewrite fexp_single.
    replace (Z.max (25 + (ex + n) - 24) (-149) - (ex + n)) with 1 by lia.
    cbn [shr iter_pos shr_1 shr_m orb].
    replace (ex + n + 1 <=? 128 - 24) with true
      by (symmetry; apply Z.leb_le; lia).
    exists 8388608%positive, (n + 1).
    split; [f_equal; lia |]. split; [lia |]. split; [lia |].
    right. rewrite Z.pow_add_r by lia. change (2 ^ 1) with 2.
    assert (q + 1 = 16777216) by lia. nia.
  - assert (Hr : 2 ^ 23 <= m1 < 2 ^ 24) by lia.
    destruct m1 as [| pm |] eqn:Em; try lia.
    assert (Hdm : Zpos (digits2_pos pm) = 24)
      by (apply digits_unique; change (24 - 1) with 23; lia).
    cbn [Zdigits2 shr_record_of_loc]. rewrite Hdm, fexp_single.
    replace (Z.max (24 + (ex + n) - 24) (-149) - (ex + n)) with 0 by lia.
    cbn [shr shr_m].
    replace (ex + n <=? 128 - 24) with true
      by (symmetry; apply Z.leb_le; lia).
    exists pm, n. split; [reflexivity |]. split; [lia |]. split; [lia |].
    destruct Hm1 as [-> | ->]; [left; reflexivity | right; ring].
Qed.


(** What one rounding costs: the rounded value [V] is one of the two
    neighbours [lo], [lo + W] of the exact quotient [N / D]. *)
Lemma within_one_ulp (B V lo W N D : Z) :
  1 < B -> 0 < D -> 0 < W -> W * B <= lo ->
  V = lo \/ V = lo + W ->
  lo * D <= N < (lo + W) * D ->
  V * D * B <= N * (B + 1) /\ N * (B - 1) < V * D * B.
Proof.
  intros HB HD HW Hlo HV [Hl Hu].
  assert (H1 : W * D * B <= lo * D).
  { replace (W * D * B) with (W * B * D) by ring.
    apply Z.mul_le_mono_nonneg_r; lia. }
  assert (H2 : V * D <= lo * D + W * D) by (destruct HV; subst V; nia).
  assert (H3 : lo * D <= V * D) by (destruct HV; subst V; nia).
  split.
  - assert (V * D * B <= lo * D * B + W * D * B) by nia.
    assert (lo * D * (B + 1) <= N * (B + 1))
      by (apply Z.mul_le_mono_nonneg_r; lia).
    lia.
  - assert (N * (B - 1) < (lo * D + W * D) * (B - 1))
      by (apply Z.mul_lt_mono_pos_r; lia).
    assert (lo * D * B <= V * D * B)
      by (apply Z.mul_le_mono_nonneg_r; lia).
    assert (0 < W * D) by nia.
    nia.
Qed.

Lemma floor_unit (mx n : Z) :
  0 <= n -> 2 ^ (23 + n) <= mx ->
  let lo := mx / 2 ^ n * 2 ^ n in
  lo <= mx < lo + 2 ^ n /\ 2 ^ n * 2 ^ 23 <= lo.
Proof.
  intros Hn Hmx lo.
  assert (Hp : 0 < 2 ^ n) by (apply Z.pow_pos_nonneg; lia).
  pose proof (Z.div_mod mx (2 ^ n) ltac:(lia)) as E.
  pose proof (Z.mod_pos_bound mx (2 ^ n) Hp) as Hr.
  assert (2 ^ 23 <= mx / 2 ^ n).
  { apply Z.div_le_lower_bound; [lia |].
    rewrite Z.pow_add_r in Hmx by lia. lia. }
  unfold lo. split; [lia | nia].
Qed.

Lemma digits_24 (m : positive) :
  2 ^ 23 <= Zpos m < 2 ^ 24 -> Zpos (digits2_pos m) = 24.
Proof. intros H. apply digits_unique. exact H. Qed.

(** The product of two normal numbers, to within one unit in the last
    place. *)
Lemma mul_bounds (m1 m2 : positive) (e1 e2 : Z) :
  2 ^ 23 <= Zpos m1 < 2 ^ 24 -> 2 ^ 23 <= Zpos m2 < 2 ^ 24 ->
  -170 <= e1 + e2 < 79 ->
  exists (m : positive) (k : Z),
    Float32.mul (S754_finite false m1 e1) (S754_finite false m2 e2)
    = S754_finite false m (e1 + e2 + k)
    /\ 2 ^ 23 <= Zpos m < 2 ^ 24 /\ 0 <= k <= 25
    /\ Zpos m * 2 ^ k * 2 ^ 23 <= Zpos m1 * Zpos m2 * (2 ^ 23 + 1)
    /\ Zpos m1 * Zpos m2 * (2 ^ 23 - 1) < Zpos m * 2 ^ k * 2 ^ 23.
Proof.
  intros H1 H2 He.
  unfold Float32.mul, Float32.prec, Float32.emax, SFmul. cbn [xorb].
  pose proof (digits_bounds (m1 * m2)) as [Hd1 Hd2].
  set (d := Zpos (digits2_pos (m1 * m2))) in *.
  rewrite Pos2Z.inj_mul in Hd1, Hd2.
  assert (Hprod : 2 ^ 46 <= Zpos m1 * Zpos m2 < 2 ^ 48).
  { change (2 ^ 46) with (2 ^ 23 * 2 ^ 23).
    change (2 ^ 48) with (2 ^ 24 * 2 ^ 24). nia. }
  assert (Hd : 47 <= d <= 48).
  { split.
    - destruct (Z_le_gt_dec 47 d) as [| Hlt]; [assumption |].
      assert (2 ^ d <= 2 ^ 46) by (apply Z.pow_le_mono_r; lia). lia.
    - destruct (Z_le_gt_dec d 48) as [| Hgt]; [assumption |].
      assert (2 ^ 48 <= 2 ^ (d - 1)) by (apply Z.pow_le_mono_r; lia). lia. }
  destruct (binary_round_aux_bounds (m1 * m2) (e1 + e2) loc_Exact
              ltac:(fold d; lia) ltac:(fold d; lia) ltac:(fold d; lia))
    as (m & k & Hr & Hm & Hk & HV).
  fold d in HV. rewrite Pos2Z.inj_mul in HV.
  exists m, k. split; [exact Hr |]. split; [exact Hm |]. split; [lia |].
  pose proof (floor_unit (Zpos m1 * Zpos m2) (d - 24) ltac:(lia)
                ltac:(replace (23 + (d - 24)) with (d - 1) by lia; exact Hd1))
    as [Hlo HW].
  assert (Hp : 0 < 2 ^ (d - 24)) by (apply Z.pow_pos_nonneg; lia).
  pose proof (within_one_ulp (2 ^ 23) (Zpos m * 2 ^ k)
                (Zpos m1 * Zpos m2 / 2 ^ (d - 24) * 2 ^ (d - 24))
                (2 ^ (d - 24)) (Zpos m1 * Zpos m2) 1
                ltac:(reflexivity) ltac:(lia) Hp HW HV ltac:(lia)) as [Hu Hl].
  lia.
Qed.

(** The quotient of two normal numbers, to within one unit in the last
    place. *)
Lemma div_bounds (m1 m2 : positive) (e1 e2 : Z) :
  2 ^ 23 <= Zpos m1 < 2 ^ 24 -> 2 ^ 23 <= Zpos m2 < 2 ^ 24 ->
  -120 <= e1 - e2 < 120 ->
  exists (m : positive) (k : Z),
    Float32.div (S754_finite false m1 e1) (S754_finite false m2 e2)
    = S754_finite false m (e1 - e2 - 24 + k)
    /\ 2 ^ 23 <= Zpos m < 2 ^ 24 /\ 0 <= k <= 2
    /\ Zpos m * 2 ^ k * Zpos m2 * 2 ^ 23 <= Zpos m1 * 2 ^ 24 * (2 ^ 23 + 1)
    /\ Zpos m1 * 2 ^ 24 * (2 ^ 23 - 1) < Zpos m * 2 ^ k * Zpos m2 * 2 ^ 23.
Proof.
  intros H1 H2 He.
  unfold Float32.div, Float32.prec, Float32.emax, SFdiv, SFdiv_core_binary.
  cbn [xorb Zdigits2]. rewrite (digits_24 m1 H1), (digits_24 m2 H2).
  rewrite fexp_single.
  replace (Z.min (Z.max (24 + e1 - (24 + e2) - 24) (-149)) (e1 - e2))
    with (e1 - e2 - 24) by lia.
  replace (e1 - e2 - (e1 - e2 - 24)) with 24 by lia.
  rewrite Z.shiftl_mul_pow2 by lia.
  set (N := Zpos m1 * 2 ^ 24).
  pose proof (Z.div_mod N (Zpos m2) ltac:(lia)) as E.
  pose proof (Z.mod_pos_bound N (Zpos m2) ltac:(lia)) as Hrem.
  assert (Hdm : Z.div_eucl N (Zpos m2) = (N / Zpos m2, N mod Zpos m2)).
  { unfold Z.div, Z.modulo. destruct (Z.div_eucl N (Zpos m2)). reflexivity. }
  rewrite Hdm.
  set (Q := N / Zpos m2) in *.
  assert (H24 : 2 ^ 24 = 16777216) by reflexivity.
  assert (H23 : 2 ^ 23 = 8388608) by reflexivity.
  assert (HQ : 2 ^ 23 <= Q < 2 ^ 25).
  { change (2 ^ 25) with 33554432. unfold Q, N. split.
    - apply Z.div_le_lower_bound; lia.
    - apply Z.div_lt_upper_bound; lia. }
  destruct Q as [| q |] eqn:EQ; try lia.
  pose proof (digits_bounds q) as [Hd1 Hd2].
  set (d := Zpos (digits2_pos q)) in *.
  assert (Hd : 24 <= d <= 25).
  { split.
    - destruct (Z_le_gt_dec 24 d) as [| Hlt]; [assumption |].
      assert (2 ^ d <= 2 ^ 23) by (apply Z.pow_le_mono_r; lia). lia.
    - destruct (Z_le_gt_dec d 25) as [| Hgt]; [assumption |].
      assert (2 ^ 25 <= 2 ^ (d - 1)) by (apply Z.pow_le_mono_r; lia). lia. }
  destruct (binary_round_aux_bounds q (e1 - e2 - 24)
              (new_location (Zpos m2) (N mod Zpos m2))
              ltac:(fold d; lia) ltac:(fold d; lia) ltac:(fold d; lia))
    as (m & k & Hr & Hm & Hk & HV).
  fold d in HV.
  exists m, k. split; [exact Hr |]. split; [exact Hm |]. split; [lia |].
  pose proof (floor_unit (Zpos q) (d - 24) ltac:(lia)
                ltac:(replace (23 + (d - 24)) with (d - 1) by lia; exact Hd1))
    as [Hlo HW].
  assert (Hp : 0 < 2 ^ (d - 24)) by (apply Z.pow_pos_nonneg; lia).
  set (lo := Zpos q / 2 ^ (d - 24) * 2 ^ (d - 24)) in *.
  assert (HN : lo * Zpos m2 <= N < (lo + 2 ^ (d - 24)) * Zpos m2) by nia.
  pose proof (within_one_ulp (2 ^ 23) (Zpos m * 2 ^ k) lo (2 ^ (d - 24)) N
                (Zpos m2) ltac:(reflexivity) ltac:(lia) Hp HW HV HN)
    as [Hu Hl].
  unfold N in *. lia.
Qed.

(** Truncation to an integer is a floor. *)
Lemma trunc_floor (m : positive) (u w : Z) :
  0 <= u -> 0 <= w ->
  Float32.trunc (S754_finite false m (u - w))
  = Some (Zpos m * 2 ^ u / 2 ^ w).
Proof.
  intros Hu Hw. cbn [Float32.trunc]. f_equal.
  assert (Hpw : 0 < 2 ^ w) by (apply Z.pow_pos_nonneg; lia).
  destruct (u - w) as [| e | e] eqn:E.
  - rewrite Z.shiftl_0_r. replace u with w by lia.
    rewrite Z.div_mul by lia. reflexivity.
  - rewrite Z.shiftl_mul_pow2 by lia.
    replace u with (Zpos e + w) by lia.
    rewrite Z.pow_add_r, Z.mul_assoc, Z.div_mul by lia. reflexivity.
  - rewrite Z.shiftr_div_pow2 by lia.
    replace w with (u + Zpos e) by lia.
    rewrite Z.pow_add_r by lia.
    assert (0 < 2 ^ u) by (apply Z.pow_pos_nonneg; lia).
    rewrite (Z.mul_comm (Zpos m)), Z.div_mul_cancel_l by lia. reflexivity.
Qed.

End Rounding.


Section Chains.

Variables B R ms G T Vc Nn F : Z.
Hypothesis HB : 1 < B.
Hypothesis HR : 0 < R.
Hypothesis Hms : 0 < ms.
Hypothesis HG : 0 < G.
Hypothesis HT : 0 < T.
Hypothesis HVc : 0 < Vc.
Hypothesis Uc : Vc * 1000 * B <= R * G * (B + 1).
Hypothesis Lc : R * G * (B - 1) < Vc * 1000 * B.
Hypothesis Up : Nn * B <= Vc * ms * T * (B + 1).
Hypothesis Lp : Vc * ms * T * (B - 1) < Nn * B.
Hypothesis HF : F * (G * T) <= Nn < (F + 1) * (G * T).

Lemma chain_6 : F * G * B <= Vc * ms * (B + 1).
Proof.
  apply (Z.mul_le_mono_pos_l _ _ T HT).
  assert (F * (G * T) * B <= Nn * B) by (apply Z.mul_le_mono_nonneg_r; lia).
  lia.
Qed.

Lemma chain_7 : Vc * ms * (B - 1) < (F + 1) * G * B.
Proof.
  apply (Z.mul_lt_mono_pos_l T _ _ HT).
  assert (Nn * B < (F + 1) * (G * T) * B) by (apply Z.mul_lt_mono_pos_r; lia).
  lia.
Qed.

Lemma chain_8 : F * 1000 * B * B <= R * ms * (B + 1) * (B + 1).
Proof.
  pose proof chain_6 as H6.
  apply (Z.mul_le_mono_pos_l _ _ G HG).
  assert (F * G * B * (1000 * B) <= Vc * ms * (B + 1) * (1000 * B))
    by (apply Z.mul_le_mono_nonneg_r; lia).
  assert (Vc * 1000 * B * (ms * (B + 1)) <= R * G * (B + 1) * (ms * (B + 1)))
    by (apply Z.mul_le_mono_nonneg_r; nia).
  lia.
Qed.

Lemma chain_9 : R * ms * (B - 1) * (B - 1) < (F + 1) * 1000 * B * B.
Proof.
  pose proof chain_7 as H7.
  apply (Z.mul_lt_mono_pos_l G _ _ HG).
  assert (R * G * (B - 1) * (ms * (B - 1)) < Vc * 1000 * B * (ms * (B - 1)))
    by (apply Z.mul_lt_mono_pos_r; nia).
  assert (Vc * ms * (B - 1) * (1000 * B) < (F + 1) * G * B * (1000 * B))
    by (apply Z.mul_lt_mono_pos_r; lia).
  lia.
Qed.

End Chains.

(** The frame that the product is truncated to, between the two bounds. *)
Lemma frames_between (R ms G T Vc Nn F : Z) :
  0 < R -> 0 < ms -> 0 < G -> 0 < T -> 0 < Vc ->
  Vc * 1000 * 2 ^ 23 <= R * G * (2 ^ 23 + 1) ->
  R * G * (2 ^ 23 - 1) < Vc * 1000 * 2 ^ 23 ->
  Nn * 2 ^ 23 <= Vc * ms * T * (2 ^ 23 + 1) ->
  Vc * ms * T * (2 ^ 23 - 1) < Nn * 2 ^ 23 ->
  F * (G * T) <= Nn < (F + 1) * (G * T) ->
  frames_low R ms <= F <= frames_high R ms.
Proof.
  intros HR Hms HG HT HVc Uc Lc Up Lp HF.
  assert (H8 : F * 1000 * 2 ^ 23 * 2 ^ 23
               <= R * ms * (2 ^ 23 + 1) * (2 ^ 23 + 1))
    by (apply chain_8 with (G := G) (T := T) (Vc := Vc) (Nn := Nn);
        assumption || reflexivity).
  assert (H9 : R * ms * (2 ^ 23 - 1) * (2 ^ 23 - 1)
               < (F + 1) * 1000 * 2 ^ 23 * 2 ^ 23)
    by (apply chain_9 with (G := G) (T := T) (Vc := Vc) (Nn := Nn);
        assumption || reflexivity).
  unfold frames_low, frames_high.
  change (2 ^ 23) with 8388608 in *.
  set (K := ms * R) in *.
  replace (R * ms) with K in * by (unfold K; ring).
  split.
  - match goal with
    | |- ?a / ?b <= F =>
        assert (a / b < F + 1) by (apply Z.div_lt_upper_bound; lia)
    end.
    lia.
  - apply Z.div_le_lower_bound; lia.
Qed.

(** Up to [2^22 - 1] frames the two bounds are one frame from the exact
    number. *)
Lemma frames_within_one (R ms : Z) :
  0 <= ms * R <= 1000 * (2 ^ 22 - 1) ->
  ms * R / 1000 - 1 <= frames_low R ms
  /\ frames_high R ms <= ms * R / 1000 + 1.
Proof.
  intros HK. unfold frames_low, frames_high.
  change (2 ^ 23) with 8388608. change (2 ^ 22) with 4194304 in HK.
  set (K := ms * R) in *.
  pose proof (Z.div_mod K 1000 ltac:(lia)) as E.
  pose proof (Z.mod_pos_bound K 1000 ltac:(lia)) as Hr.
  split.
  - apply Z.div_le_lower_bound; lia.
  - match goal with
    | |- ?a / ?b <= _ =>
        assert (a / b < K / 1000 + 2) by (apply Z.div_lt_upper_bound; lia)
    end.
    lia.
Qed.

Section BackChains.

Variables B P G mc Kc TF V3 F ms msr : Z.
Hypothesis HB : 1 < B.
Hypothesis HP : 0 < P.
Hypothesis HG : 0 < G.
Hypothesis Hmc : 0 < mc.
Hypothesis HKc : 0 < Kc.
Hypothesis HTF : 0 < TF.
Hypothesis HF0 : 0 <= F.
Hypothesis Hms : 0 < ms.
Hypothesis U3 : V3 * mc * B <= F * TF * P * (B + 1).
Hypothesis L3 : F * TF * P * (B - 1) < V3 * mc * B.
Hypothesis Hm : msr * (TF * Kc * P) <= V3 * G < (msr + 1) * (TF * Kc * P).
Hypothesis H6 : F * G * B <= mc * Kc * ms * (B + 1).
Hypothesis H7 : mc * Kc * ms * (B - 1) < (F + 1) * G * B.
Hypothesis Hc2 : 2 * G <= mc * Kc.

Lemma back_10 : msr * (mc * Kc) * B <= G * F * (B + 1).
Proof.
  apply (Z.mul_le_mono_pos_l _ _ (TF * P)); [nia |].
  assert (msr * (TF * Kc * P) * (mc * B) <= V3 * G * (mc * B))
    by (apply Z.mul_le_mono_nonneg_r; nia).
  assert (G * (V3 * mc * B) <= G * (F * TF * P * (B + 1)))
    by (apply Z.mul_le_mono_nonneg_l; lia).
  lia.
Qed.

Lemma back_11 : msr * B * B <= ms * (B + 1) * (B + 1).
Proof.
  pose proof back_10 as H10.
  apply (Z.mul_le_mono_pos_l _ _ (mc * Kc)); [nia |].
  assert (msr * (mc * Kc) * B * B <= G * F * (B + 1) * B)
    by (apply Z.mul_le_mono_nonneg_r; lia).
  assert (F * G * B * (B + 1) <= mc * Kc * ms * (B + 1) * (B + 1))
    by (apply Z.mul_le_mono_nonneg_r; lia).
  lia.
Qed.

Lemma back_12 : G * F * (B - 1) < (msr + 1) * (mc * Kc) * B.
Proof.
  apply (Z.mul_lt_mono_pos_l (TF * P)); [nia |].
  assert (V3 * G * (mc * B) < (msr + 1) * (TF * Kc * P) * (mc * B))
    by (apply Z.mul_lt_mono_pos_r; nia).
  assert (G * (F * TF * P * (B - 1)) < G * (V3 * mc * B))
    by (apply Z.mul_lt_mono_pos_l; lia).
  lia.
Qed.

Lemma back_13 :
  2 * ms * (B - 1) * (B - 1) < 2 * (msr + 1) * B * B + B * (B - 1).
Proof.
  pose proof back_12 as H12.
  apply (Z.mul_lt_mono_pos_l (mc * Kc)); [nia |].
  assert (G * F * (B - 1) * B < (msr + 1) * (mc * Kc) * B * B)
    by (apply Z.mul_lt_mono_pos_r; lia).
  assert (mc * Kc * ms * (B - 1) * (B - 1) < (F + 1) * G * B * (B - 1))
    by (apply Z.mul_lt_mono_pos_r; lia).
  assert (2 * G * (B * (B - 1)) <= mc * Kc * (B * (B - 1)))
    by (apply Z.mul_le_mono_nonneg_r; nia).
  lia.
Qed.

End BackChains.

Lemma ms_close (G mc Kc TF V3 F ms msr : Z) :
  0 < G -> 0 < mc -> 0 < Kc -> 0 < TF -> 0 <= F -> 0 < ms ->
  V3 * mc * 2 ^ 23 <= F * TF * 2 ^ 24 * (2 ^ 23 + 1) ->
  F * TF * 2 ^ 24 * (2 ^ 23 - 1) < V3 * mc * 2 ^ 23 ->
  msr * (TF * Kc * 2 ^ 24) <= V3 * G < (msr + 1) * (TF * Kc * 2 ^ 24) ->
  F * G * 2 ^ 23 <= mc * Kc * ms * (2 ^ 23 + 1) ->
  mc * Kc * ms * (2 ^ 23 - 1) < (F + 1) * G * 2 ^ 23 ->
  2 * G <= mc * Kc ->
  ms <= 2 ^ 21 ->
  ms - 1 <= msr <= ms.
Proof.
  intros HG Hmc HKc HTF HF0 Hms U3 L3 Hm H6 H7 Hc2 Hfar.
  assert (H11 : msr * 2 ^ 23 * 2 ^ 23 <= ms * (2 ^ 23 + 1) * (2 ^ 23 + 1))
    by (apply back_11 with (P := 2 ^ 24) (G := G) (mc := mc) (Kc := Kc)
                           (TF := TF) (V3 := V3) (F := F);
        assumption || reflexivity).
  assert (H13 : 2 * ms * (2 ^ 23 - 1) * (2 ^ 23 - 1)
                < 2 * (msr + 1) * 2 ^ 23 * 2 ^ 23 + 2 ^ 23 * (2 ^ 23 - 1))
    by (apply back_13 with (P := 2 ^ 24) (G := G) (mc := mc) (Kc := Kc)
                           (TF := TF) (V3 := V3) (F := F);
        assumption || reflexivity).
  change (2 ^ 23) with 8388608 in *. change (2 ^ 21) with 2097152 in *.
  lia.
Qed.

Section Translation.

Lemma exact_float_repr (n : Z) :
  0 < n < 2 ^ 24 ->
  exists (m : positive) (t : Z),
    exact_float n = S754_finite false m (- t)
    /\ 0 <= t <= 23 /\ Zpos m = n * 2 ^ t /\ 2 ^ 23 <= Zpos m < 2 ^ 24.
Proof.
  intros Hn. destruct n as [| p |]; try lia.
  destruct (exact_float_pos p ltac:(lia)) as (m & E & Hm).
  pose proof (significand_bounds p ltac:(lia)) as Hb.
  pose proof (digits_le_24 p ltac:(lia)) as Hd.
  exists m, (24 - Zpos (digits2_pos p)). rewrite E.
  split; [f_equal; lia |]. split; [lia |].
  split; [exact Hm | rewrite Hm; exact Hb].
Qed.

(** [frames_per_ms]: the quotient [rate / 1000] to within one unit in the
    last place, as the significand [mc * 2^kc] over the power [2^g]. *)
Lemma frames_per_ms_bounds (R : Z) :
  0 < R < 2 ^ 24 ->
  exists (mc : positive) (kc g : Z),
    frames_per_ms R = S754_finite false mc (kc - g)
    /\ 2 ^ 23 <= Zpos mc < 2 ^ 24 /\ 0 <= kc <= 2 /\ 10 <= g <= 33
    /\ Zpos mc * 2 ^ kc * 1000 * 2 ^ 23 <= R * 2 ^ g * (2 ^ 23 + 1)
    /\ R * 2 ^ g * (2 ^ 23 - 1) < Zpos mc * 2 ^ kc * 1000 * 2 ^ 23.
Proof.
  intros HR. unfold frames_per_ms.
  rewrite (of_Z_exact R) by lia.
  rewrite (of_Z_exact 1000) by (split; [lia | reflexivity]).
  destruct (exact_float_repr R HR) as (ma & ta & Ea & Hta & Hma & Hba).
  rewrite Ea. change (exact_float 1000) with (S754_finite false 16384000 (-14)).
  destruct (div_bounds ma 16384000 (- ta) (-14) Hba
              ltac:(split; [discriminate | reflexivity]) ltac:(lia))
    as (m & k & E & Hm & Hk & Hu & Hl).
  exists m, k, (ta + 10). rewrite E.
  split; [f_equal; lia |]. split; [exact Hm |]. split; [exact Hk |].
  split; [lia |].
  rewrite Hma in Hu, Hl. rewrite Z.pow_add_r by lia.
  set (Va := Zpos m * 2 ^ k) in *. set (pa := 2 ^ ta) in *.
  change (2 ^ 10) with 1024. change (2 ^ 23) with 8388608 in *.
  change (2 ^ 24) with 16777216 in *. change (Zpos 16384000) with 16384000 in *.
  set (Rp := R * pa) in *.
  replace (R * (pa * 1024)) with (1024 * Rp) by (unfold Rp; ring).
  lia.
Qed.

Lemma to_Uint32_floor (m : positive) (u w : Z) :
  0 <= u -> 0 <= w ->
  Zpos m * 2 ^ u / 2 ^ w < 4294967296 ->
  Float32.to_Uint32 (S754_finite false m (u - w))
  = Some (Zpos m * 2 ^ u / 2 ^ w).
Proof.
  intros Hu Hw Hlt. unfold Float32.to_Uint32. rewrite trunc_floor by lia.
  assert (0 <= Zpos m * 2 ^ u / 2 ^ w).
  { apply Z.div_pos; [| apply Z.pow_pos_nonneg; lia].
    assert (0 < 2 ^ u) by (apply Z.pow_pos_nonneg; lia). lia. }
  replace (0 <=? Zpos m * 2 ^ u / 2 ^ w) with true
    by (symmetry; apply Z.leb_le; lia).
  replace (Zpos m * 2 ^ u / 2 ^ w <? 4294967296) with true
    by (symmetry; apply Z.ltb_lt; lia).
  reflexivity.
Qed.

Lemma floor_bounds (a b : Z) : 0 < b -> a / b * b <= a < (a / b + 1) * b.
Proof.
  intros Hb. pose proof (Z.div_mod a b ltac:(lia)).
  pose proof (Z.mod_pos_bound a b Hb). lia.
Qed.

(** C8, as far as single precision carries it.  [ConvertMsToBytePos]
    computes [frames_per_ms * ms] in [float].  At a sample rate that is a
    whole number of kHz, and fewer than 2^24 frames in, this is the exact
    integer formula [floor(ms * rate / 1000) * frame_size], and
    [ConvertBytePosToMs] takes the offset back to [ms].  At any sample
    rate below 2^24 Hz and any [ms] below 2^24 the offset is a whole
    number [F] of frames that two roundings to 24 bits leave between
    [frames_low] and [frames_high]; up to [2^22 - 1] frames in, that is
    within one frame of the exact formula, and at a rate above 2 kHz
    [ConvertBytePosToMs] takes the offset back to [ms] or to [ms - 1]. *)
Theorem ms_translation_in_single_precision
        (bytesPerSample channels ms : Z) (s : reader) :
  0 < SampleRate s < 2 ^ 24 ->
  0 <= ms ->
  0 < bytesPerSample * channels < 2 ^ 32 ->
  (forall k,
      SampleRate s = 1000 * k -> k * ms < 2 ^ 24 ->
      ms_to_byte_offset (SampleRate s) (bytesPerSample * channels) ms
        < 2 ^ 32 ->
      ConvertMsToBytePos bytesPerSample channels ms s
      = Returned (ms_to_byte_offset (SampleRate s)
                    (bytesPerSample * channels) ms) s []
      /\ ConvertBytePosToMs bytesPerSample channels
           (ms_to_byte_offset (SampleRate s) (bytesPerSample * channels) ms)
           s
         = Returned ms s [])
  /\ (ms < 2 ^ 24 ->
      (frames_high (SampleRate s) ms + 1) * (bytesPerSample * channels)
        <= 2 ^ 32 ->
      exists F,
        ConvertMsToBytePos bytesPerSample channels ms s
        = Returned (F * (bytesPerSample * channels)) s []
        /\ frames_low (SampleRate s) ms <= F <= frames_high (SampleRate s) ms
        /\ (ms * SampleRate s <= 1000 * (2 ^ 22 - 1) ->
            ms * SampleRate s / 1000 - 1 <= F <= ms * SampleRate s / 1000 + 1
            /\ (2000 < SampleRate s ->
                exists ms',
                  ConvertBytePosToMs bytesPerSample channels
                    (F * (bytesPerSample * channels)) s
                  = Returned ms' s []
                  /\ ms - 1 <= ms' <= ms))).
Proof.
  intros HR Hms0 Hfs.
  set (R := SampleRate s) in *. set (fs := bytesPerSample * channels) in *.
  assert (H32 : 2 ^ 32 = 4294967296) by reflexivity.
  assert (H24 : 2 ^ 24 = 16777216) by reflexivity.
  assert (H22 : 2 ^ 22 = 4194304) by reflexivity.
  assert (HUfs : Uint32 fs = fs) by (apply Uint32_small; lia).
  split.
  { (* whole kHz *)
    intros k Hk Hframes Hfit.
    exact (ms_translation_exact bytesPerSample channels k ms s Hk
             ltac:(lia) ltac:(lia) Hms0 Hframes Hfs Hfit). }
  intros Hms Hfit.
  assert (Hhi0 : 0 <= frames_high R ms).
  { unfold frames_high. apply Z.div_pos; [| reflexivity].
    apply Z.mul_nonneg_nonneg; [nia | discriminate]. }
  assert (Hhi32 : frames_high R ms < 2 ^ 32) by nia.
  destruct (frames_per_ms_bounds R HR)
    as (mc & kc & g & Ec & Hmc & Hkc & Hg & Uc & Lc).
  assert (HKc : 0 < 2 ^ kc) by (apply Z.pow_pos_nonneg; lia).
  assert (HG : 0 < 2 ^ g) by (apply Z.pow_pos_nonneg; lia).
  destruct (Z.eq_dec ms 0) as [Hz | Hnz].
  - (* position 0 *)
    subst ms. exists 0.
    assert (H0 : ConvertMsToBytePos bytesPerSample channels 0 s
                 = Returned (0 * fs) s []).
    { unfold ConvertMsToBytePos. rewrite bind_gets. fold R. rewrite Ec.
      reflexivity. }
    assert (Hb : ConvertBytePosToMs bytesPerSample channels (0 * fs) s
                 = Returned 0 s []).
    { unfold ConvertBytePosToMs. fold fs. rewrite HUfs.
      destruct (Z.eqb_spec fs 0) as [| _]; [lia |].
      rewrite bind_gets. fold R. rewrite Ec. reflexivity. }
    split; [exact H0 |]. split; [split; reflexivity |].
    intros _. split; [cbn; lia |].
    intros _. exists 0. split; [exact Hb | lia].
  - assert (Hpos : 0 < ms) by lia.
    destruct (exact_float_repr ms ltac:(lia))
      as (mt & tm & Et & Htm & Hmt & Hbt).
    assert (HT : 0 < 2 ^ tm) by (apply Z.pow_pos_nonneg; lia).
    destruct (mul_bounds mc mt (kc - g) (- tm) Hmc Hbt ltac:(lia))
      as (m & k2 & Em & Hm & Hk2 & Um & Lm).
    assert (HK2 : 0 < 2 ^ k2) by (apply Z.pow_pos_nonneg; lia).
    set (Nn := Zpos m * 2 ^ (kc + k2)).
    set (F := Nn / 2 ^ (g + tm)).
    assert (HNn : Nn = Zpos m * 2 ^ k2 * 2 ^ kc)
      by (unfold Nn; rewrite Z.pow_add_r by lia; ring).
    assert (HGT : 2 ^ (g + tm) = 2 ^ g * 2 ^ tm)
      by (apply Z.pow_add_r; lia).
    assert (HF : F * (2 ^ g * 2 ^ tm) <= Nn < (F + 1) * (2 ^ g * 2 ^ tm)).
    { rewrite <- HGT. apply floor_bounds. apply Z.pow_pos_nonneg; lia. }
    assert (Up : Nn * 2 ^ 23
                 <= Zpos mc * 2 ^ kc * ms * 2 ^ tm * (2 ^ 23 + 1)).
    { rewrite HNn, Hmt in *.
      assert (Zpos m * 2 ^ k2 * 2 ^ 23 * 2 ^ kc
              <= Zpos mc * (ms * 2 ^ tm) * (2 ^ 23 + 1) * 2 ^ kc)
        by (apply Z.mul_le_mono_nonneg_r; lia).
      lia. }
    assert (Lp : Zpos mc * 2 ^ kc * ms * 2 ^ tm * (2 ^ 23 - 1)
                 < Nn * 2 ^ 23).
    { rewrite HNn, Hmt in *.
      assert (Zpos mc * (ms * 2 ^ tm) * (2 ^ 23 - 1) * 2 ^ kc
              < Zpos m * 2 ^ k2 * 2 ^ 23 * 2 ^ kc)
        by (apply Z.mul_lt_mono_pos_r; lia).
      lia. }
    assert (HVc : 0 < Zpos mc * 2 ^ kc) by lia.
    pose proof (frames_between R ms (2 ^ g) (2 ^ tm) (Zpos mc * 2 ^ kc) Nn F
                  ltac:(lia) Hpos HG HT HVc Uc Lc Up Lp HF) as HFb.
    assert (HF0 : 0 <= F).
    { unfold F. apply Z.div_pos; [unfold Nn | apply Z.pow_pos_nonneg; lia].
      assert (0 < 2 ^ (kc + k2)) by (apply Z.pow_pos_nonneg; lia). lia. }
    assert (Hcall : ConvertMsToBytePos bytesPerSample channels ms s
                    = Returned (F * fs) s []).
    { unfold ConvertMsToBytePos. rewrite bind_gets. fold R. rewrite Ec.
      rewrite (of_Z_exact ms) by lia. rewrite Et, Em.
      replace (kc - g + - tm + k2) with ((kc + k2) - (g + tm)) by lia.
      unfold float_to_Uint32.
      rewrite to_Uint32_floor by (try lia; fold Nn F; lia).
      fold Nn F. rewrite bind_ret. fold fs. rewrite HUfs.
      unfold ret. f_equal. apply Uint32_small. nia. }
    exists F. split; [exact Hcall |]. split; [exact HFb |].
    intros Hfar.
    pose proof (frames_within_one R ms ltac:(nia)) as Hone.
    assert (HFE : ms * R / 1000 - 1 <= F <= ms * R / 1000 + 1) by lia.
    split; [exact HFE |].
    set (E := ms * R / 1000) in *.
    assert (HE : 0 <= E <= 2 ^ 22 - 1).
    { unfold E. split; [apply Z.div_pos; nia |].
      apply Z.div_le_upper_bound; lia. }
    assert (H6 : F * 2 ^ g * 2 ^ 23 <= Zpos mc * 2 ^ kc * ms * (2 ^ 23 + 1))
      by (apply chain_6 with (T := 2 ^ tm) (Nn := Nn);
          assumption || reflexivity || lia).
    assert (H7 : Zpos mc * 2 ^ kc * ms * (2 ^ 23 - 1) < (F + 1) * 2 ^ g * 2 ^ 23)
      by (apply chain_7 with (T := 2 ^ tm) (Nn := Nn);
          assumption || reflexivity || lia).
    intros Hfast.
    assert (Hms21 : ms <= 2 ^ 21).
    { change (2 ^ 21) with 2097152. nia. }
    unfold ConvertBytePosToMs. fold fs. rewrite HUfs.
    destruct (Z.eqb_spec fs 0) as [| _]; [lia |].
    rewrite bind_gets. fold R. rewrite Ec.
    rewrite Z.div_mul by lia.
    rewrite (of_Z_exact F) by lia.
    destruct (Z.eq_dec F 0) as [HFz | HFnz].
    + (* fewer than one frame: only at position 0, excluded here *)
      exfalso.
      assert (H9 : R * ms * (2 ^ 23 - 1) * (2 ^ 23 - 1)
                   < (F + 1) * 1000 * 2 ^ 23 * 2 ^ 23)
        by (apply chain_9 with (G := 2 ^ g) (T := 2 ^ tm)
                               (Vc := Zpos mc * 2 ^ kc) (Nn := Nn);
            assumption || reflexivity || lia).
      change (2 ^ 23) with 8388608 in H9.
      assert (2001 <= R * ms) by nia.
      set (K := R * ms) in *. lia.
    + destruct (exact_float_repr F ltac:(lia))
        as (mF & tF & EF & HtF & HmF & HbF).
      assert (HTF : 0 < 2 ^ tF) by (apply Z.pow_pos_nonneg; lia).
      destruct (div_bounds mF mc (- tF) (kc - g) HbF Hmc ltac:(lia))
        as (mq & k3 & Eq & Hmq & Hk3 & U3 & L3).
      rewrite EF, Eq.
      replace (- tF - (kc - g) - 24 + k3)
        with ((k3 + g) - (tF + kc + 24)) by lia.
      set (msr := Zpos mq * 2 ^ (k3 + g) / 2 ^ (tF + kc + 24)).
      assert (HH : 2 ^ (tF + kc + 24) = 2 ^ tF * 2 ^ kc * 2 ^ 24)
        by (rewrite !Z.pow_add_r by lia; reflexivity).
      assert (HV3 : Zpos mq * 2 ^ (k3 + g) = Zpos mq * 2 ^ k3 * 2 ^ g)
        by (rewrite Z.pow_add_r by lia; ring).
      assert (Hmsr : msr * (2 ^ tF * 2 ^ kc * 2 ^ 24)
                     <= Zpos mq * 2 ^ k3 * 2 ^ g
                     < (msr + 1) * (2 ^ tF * 2 ^ kc * 2 ^ 24)).
      { rewrite <- HH, <- HV3. apply floor_bounds.
        apply Z.pow_pos_nonneg; lia. }
      assert (Hc2 : 2 * 2 ^ g <= Zpos mc * 2 ^ kc).
      { assert (2001 * 2 ^ g * (2 ^ 23 - 1) <= R * 2 ^ g * (2 ^ 23 - 1)).
        { apply Z.mul_le_mono_nonneg_r;
            [change (2 ^ 23) with 8388608; lia
            | apply Z.mul_le_mono_nonneg_r; lia]. }
        change (2 ^ 23) with 8388608 in *. lia. }
      rewrite HmF in U3, L3.
      pose proof (ms_close (2 ^ g) (Zpos mc) (2 ^ kc) (2 ^ tF)
                    (Zpos mq * 2 ^ k3) F ms msr
                    HG ltac:(lia) HKc HTF HF0 Hpos U3 L3 Hmsr H6 H7 Hc2
                    Hms21) as Hclose.
      exists msr. split; [| exact Hclose].
      unfold float_to_Uint32.
      rewrite to_Uint32_floor by (try lia; fold msr; lia).
      reflexivity.
Qed.

End Translation.

Lemma ms_translation_in_single_precision_witness :
  (forall k,
      SampleRate pcm16_stereo = 1000 * k -> k * 90 < 2 ^ 24 ->
      ms_to_byte_offset (SampleRate pcm16_stereo) (2 * 2) 90 < 2 ^ 32 ->
      ConvertMsToBytePos 2 2 90 pcm16_stereo
      = Returned (ms_to_byte_offset (SampleRate pcm16_stereo) (2 * 2) 90)
                 pcm16_stereo []
      /\ ConvertBytePosToMs 2 2
           (ms_to_byte_offset (SampleRate pcm16_stereo) (2 * 2) 90)
           pcm16_stereo
         = Returned 90 pcm16_stereo [])
  /\ (90 < 2 ^ 24 ->
      (frames_high (SampleRate pcm16_stereo) 90 + 1) * (2 * 2) <= 2 ^ 32 ->
      exists F,
        ConvertMsToBytePos 2 2 90 pcm16_stereo
        = Returned (F * (2 * 2)) pcm16_stereo []
        /\ frames_low (SampleRate pcm16_stereo) 90 <= F
           <= frames_high (SampleRate pcm16_stereo) 90
        /\ (90 * SampleRate pcm16_stereo <= 1000 * (2 ^ 22 - 1) ->
            90 * SampleRate pcm16_stereo / 1000 - 1 <= F
            <= 90 * SampleRate pcm16_stereo / 1000 + 1
            /\ (2000 < SampleRate pcm16_stereo ->
                exists ms',
                  ConvertBytePosToMs 2 2 (F * (2 * 2)) pcm16_stereo
                  = Returned ms' pcm16_stereo []
                  /\ 90 - 1 <= ms' <= 90))).
Proof.
  apply (ms_translation_in_single_precision 2 2 90 pcm16_stereo).
  - vm_compute. split; reflexivity.
  - lia.
  - lia.
Defined.

(** Both ways of rounding occur: at 44100 Hz the frame of 90 ms is one
    below the exact formula's, the lower of the two bounds; at 12345 Hz
    the frame of 5371 ms is one above it, the higher of the two. *)
Example ms_translation_rounds_up_at_12345_Hz :
  frames_low 44100 90 = 3968 /\ frames_high 44100 90 = 3969
  /\ SampleRate pcm16_odd_rate = 12345
  /\ ConvertMsToBytePos 2 2 5371 pcm16_odd_rate
     = Returned (66305 * 4) pcm16_odd_rate []
  /\ ms_to_byte_offset 12345 (2 * 2) 5371 = 66304 * 4
  /\ frames_low 12345 5371 = 66304 /\ frames_high 12345 5371 = 66305.
Proof. repeat split; vm_compute; reflexivity. Qed.

(* ================================================================== *)
(** * Widening of 8-bit samples *)

Section Widening.

Variable long_bits : Z.
Variable char_is_signed : bool.

(** Whether plain [char] is signed or not, the value stored for the byte
    [b] is [(b - 128) << 8]: a signed [char] makes the difference lower by
    65536, which the store into a [Sint16] takes back. *)
Lemma widen_8bit_shift b :
  widen_8bit char_is_signed b = Z.shiftl (byte_to_Z b - 128) 8.
Proof. destruct char_is_signed, b; vm_compute; reflexivity. Qed.

Lemma byte_to_of_Z z : byte_to_Z (byte_of_Z z) = z mod 256.
Proof.
  unfold byte_to_Z, byte_of_Z.
  pose proof (Z.mod_pos_bound z 256 ltac:(lia)) as Hm.
  destruct (Byte.of_N (Z.to_N (z mod 256))) as [b |] eqn:E.
  - apply Byte.to_of_N in E. rewrite E. lia.
  - apply Byte.of_N_None_iff in E. lia.
Qed.

Lemma sample_decode_encode v :
  -32768 <= v < 32768 -> Sint16 (le_decode (le_encode 2 (Uint16 v))) = v.
Proof.
  intros Hv. pose proof (Uint16_range v) as Hu.
  cbn [le_encode le_decode fold_right]. rewrite !byte_to_of_Z.
  rewrite (Z.mod_small (Uint16 v / 256))
    by (split; [apply Z.div_pos; lia | apply Z.div_lt_upper_bound; lia]).
  replace (Uint16 v mod 256 + 256 * (Uint16 v / 256 + 256 * 0))
    with (Uint16 v) by (pose proof (Z.div_mod (Uint16 v) 256); lia).
  unfold Sint16, Uint16, wrap_signed, wrap_unsigned.
  change (2 ^ (16 - 1)) with 32768. change (2 ^ 16) with 65536.
  rewrite Zplus_mod_idemp_l, Z.mod_small; lia.
Qed.

Lemma samples_of_bytes_of_samples l :
  Forall (fun v => -32768 <= v < 32768) l ->
  samples_of_bytes (bytes_of_samples l) = l.
Proof.
  induction 1 as [| v l Hv _ IH]; [reflexivity |].
  change (bytes_of_samples (v :: l))
    with (byte_of_Z (Uint16 v) :: byte_of_Z (Uint16 v / 256)
            :: bytes_of_samples l).
  cbn [samples_of_bytes]. rewrite IH. f_equal.
  exact (sample_decode_encode v Hv).
Qed.

Lemma firstn_prefix {A} (new rest : list A) :
  firstn (length new) (new ++ rest) = new.
Proof.
  rewrite firstn_app, Nat.sub_diag, firstn_all. cbn [firstn].
  apply app_nil_r.
Qed.

Lemma firstn_write_at_0 data buf :
  firstn (length data) (write_at 0 data buf) = data.
Proof. unfold write_at. cbn [firstn app]. apply firstn_prefix. Qed.

Lemma widened_range l :
  Forall (fun v => -32768 <= v < 32768) (map (widen_8bit char_is_signed) l).
Proof.
  apply Forall_forall. intros v Hin. apply in_map_iff in Hin.
  destruct Hin as (b & <- & _). unfold widen_8bit. apply Sint16_range.
Qed.

Lemma doubled_range l :
  Forall (fun v => -32768 <= v < 32768) l ->
  Forall (fun v => -32768 <= v < 32768) (flat_map (fun v => [v; v]) l).
Proof.
  induction 1 as [| v l Hv _ IH]; [constructor |].
  cbn [flat_map app].
  constructor; [exact Hv | constructor; [exact Hv | exact IH]].
Qed.

Lemma doubled_length (l : list Z) :
  length (flat_map (fun v => [v; v]) l) = (2 * length l)%nat.
Proof. induction l as [| v l IH]; cbn [flat_map app length]; lia. Qed.

(** What [convert] leaves in the buffer for an 8-bit stream whose raw
    bytes [raw] are at the start of [buf]. *)
Lemma convert_widens len raw buf s :
  Conversion s = CONV_8BIT_TO_16BIT ->
  firstn (length raw) buf = raw ->
  let r := Z.of_nat (length raw) in
  let widened := map (widen_8bit char_is_signed) raw in
  r * (if Channels s =? 1 then 4 else 2) <= len -> len < 2147483648 ->
  exists r' buf' t,
    convert char_is_signed len r buf s
    = Returned (r', buf') (set_tmpbuf t s) []
    /\ samples_of_bytes (firstn (Z.to_nat r') buf')
       = if Channels s =? 1 then flat_map (fun v => [v; v]) widened
         else widened.
Proof.
  intros Hcv Hraw r widened Hlen Hint. unfold convert.
  assert (Hr : 0 <= r) by (unfold r; lia).
  destruct (Z.leb_spec r 0) as [Hz | Hpos].
  { assert (E : raw = []) by (destruct raw; [reflexivity | cbn in r; lia]).
    exists r, buf, (tmpbuf s). rewrite set_tmpbuf_same.
    split; [reflexivity |].
    replace r with 0 by lia. unfold widened. rewrite E.
    destruct (Channels s =? 1); reflexivity. }
  assert (Hlen0 : 0 <= len) by (destruct (Channels s =? 1); lia).
  destruct (grow_tmpbuf_run len s Hlen0) as (t0 & Hgrow & Ht0).
  rewrite (bind_Returned_nil _ _ _ _ _ Hgrow).
  rewrite bind_gets. cbn [Conversion set_tmpbuf]. rewrite Hcv.
  rewrite (bind_Returned_nil _ _ _ _ _
             (widen_step_run char_is_signed r buf (set_tmpbuf t0 s)
                ltac:(cbn [tmpbuf set_tmpbuf];
                      destruct (Channels s =? 1); lia))).
  cbv zeta. cbn [tmpbuf set_tmpbuf]. cbv beta iota.
  rewrite bind_gets. cbn [Channels set_tmpbuf].
  assert (Hn : Z.to_nat r = length raw) by (unfold r; lia).
  assert (Hwl : length widened = length raw)
    by (unfold widened; apply length_map).
  rewrite !Hn, Hraw. fold widened.
  rewrite <- Hwl, firstn_prefix, Hwl.
  rewrite set_tmpbuf_set_tmpbuf.
  set (buf1 := write_at 0 (bytes_of_samples widened) buf).
  assert (Hb1 : firstn (2 * length raw) buf1 = bytes_of_samples widened).
  { unfold buf1. rewrite <- Hwl, <- bytes_of_samples_length.
    apply firstn_write_at_0. }
  rewrite (Sint32_small (r * 2)) by (destruct (Channels s =? 1); lia).
  destruct (Z.eqb_spec (Channels s) 1) as [Hch | Hch].
  - set (t1 := widened ++ skipn (length raw) t0).
    assert (Ht1 : (length t0 <= length t1)%nat).
    { unfold t1. rewrite <- Hwl. apply overwrite_length. }
    rewrite (duplicate_step_run (r * 2) buf1 (set_tmpbuf t1 s)
               ltac:(cbn [tmpbuf set_tmpbuf]; lia)).
    cbv zeta. cbn [tmpbuf set_tmpbuf].
    replace (r * 2 / 2) with r by (rewrite Z.div_mul; lia).
    rewrite Hn, Hb1.
    rewrite (samples_of_bytes_of_samples widened (widened_range raw)).
    set (doubled := flat_map (fun v => [v; v]) widened).
    assert (Hdl : length doubled = Z.to_nat (r * 2)).
    { unfold doubled. rewrite doubled_length, Hwl. unfold r. lia. }
    rewrite <- Hdl, firstn_prefix.
    rewrite (Sint32_small (r * 2 * 2)) by lia.
    eexists _, _, _. split; [reflexivity |].
    replace (Z.to_nat (r * 2 * 2)) with (length (bytes_of_samples doubled))
      by (rewrite bytes_of_samples_length, Hdl; lia).
    rewrite firstn_write_at_0.
    apply samples_of_bytes_of_samples, doubled_range, widened_range.
  - eexists _, _, _. split; [reflexivity |].
    replace (Z.to_nat (r * 2)) with (2 * length raw)%nat by (unfold r; lia).
    rewrite Hb1.
    apply samples_of_bytes_of_samples, widened_range.
Qed.

(** C6.  On an open uncompressed 8-bit stream, a [Read] of [len] bytes
    ([len] an [int] and a multiple of the conversion ratio) returns, and
    the 16-bit samples it leaves in the buffer are [(b - 128) << 8] for
    each raw byte [b] of the file in turn, taken as a value in 0..255;
    a mono stream has each of them twice.  In particular the byte 255
    gives 32512. *)
Theorem Read_widens_8bit fuel buf len s f :
  open_stream long_bits char_is_signed s ->
  rw s = Some f ->
  wFormatTag (fmt s) = FMT_NORMAL ->
  wBitsPerSample (fmt s) = 8 ->
  0 <= len < 2147483648 ->
  len mod Input_Buffer_Ratio s = 0 ->
  let raw := firstn (Z.to_nat (len / Input_Buffer_Ratio s)) (ahead f) in
  let widened := map (fun b => Z.shiftl (byte_to_Z b - 128) 8) raw in
  (exists r buf' s',
      Read char_is_signed fuel buf len s = Returned (r, buf') s' []
      /\ samples_of_bytes (firstn (Z.to_nat r) buf')
         = if Channels s =? 1 then flat_map (fun v => [v; v]) widened
           else widened)
  /\ (forall b, widen_8bit char_is_signed b = Z.shiftl (byte_to_Z b - 128) 8)
  /\ widen_8bit char_is_signed xff = 32512.
Proof.
  intros Hopen Hrw Htag Hbits Hlen Hmod raw widened.
  split; [| split; [exact widen_8bit_shift
                   | rewrite widen_8bit_shift; reflexivity]].
  destruct (open_stream_invariant _ _ _ Hopen) as [W _].
  assert (Hcv : Conversion s = CONV_8BIT_TO_16BIT).
  { destruct (wf_conversion s W) as [(E & _) | [(_ & E & _) | (E & _)]];
      [lia | exact E | lia]. }
  pose proof (wf_ratio s W) as Hratio. rewrite Hcv in Hratio.
  set (ratio := Input_Buffer_Ratio s) in *.
  assert (Hrpos : ratio = 2 \/ ratio = 4)
    by (destruct (Channels s =? 1); lia).
  assert (Hact : 0 <= len / ratio <= len).
  { split; [apply Z.div_pos; lia |].
    apply Z.div_le_upper_bound; [lia | nia]. }
  rewrite (Read_asks char_is_signed fuel buf len s W Hlen Hmod). fold ratio.
  pose proof (read_raw_normal fuel buf (len / ratio) s f Hrw Htag
                ltac:(lia)) as Hraw.
  cbv zeta in Hraw. fold raw in Hraw.
  rewrite (bind_Returned_nil _ _ _ _ _ Hraw). cbv beta iota.
  assert (Hcount : Z.min (len / ratio) (Z.of_nat (length (ahead f)))
                   = Z.of_nat (length raw)).
  { unfold raw. rewrite length_firstn. lia. }
  rewrite Hcount.
  set (s1 := set_rw _ s).
  destruct (convert_widens len raw (write_at 0 raw buf) s1)
    as (r' & buf' & t & Hconv & Hsamples).
  - exact Hcv.
  - apply firstn_write_at_0.
  - change (Channels s1) with (Channels s).
    assert (ratio * (len / ratio) = len)
      by (pose proof (Z.div_mod len ratio ltac:(lia)); lia).
    assert (Z.of_nat (length raw) <= len / ratio) by lia.
    destruct (Channels s =? 1); nia.
  - lia.
  - exists r', buf', (set_tmpbuf t s1). split; [exact Hconv |].
    change (Channels s1) with (Channels s) in Hsamples.
    rewrite Hsamples. unfold widened.
    rewrite (map_ext _ _ widen_8bit_shift). reflexivity.
Qed.

End Widening.

Lemma Read_widens_8bit_witness :
  exists r buf' s',
    Read true 0 [] 8 pcm8_mono = Returned (r, buf') s' []
    /\ samples_of_bytes (firstn (Z.to_nat r) buf')
       = flat_map (fun v => [v; v])
           (map (fun b => Z.shiftl (byte_to_Z b - 128) 8)
                (firstn 2 (ahead (mkFILE pcm8_mono_file 44)))).
Proof.
  destruct (Read_widens_8bit 32 true 0 [] 8 pcm8_mono
              (mkFILE pcm8_mono_file 44) pcm8_mono_open
              eq_refl eq_refl eq_refl ltac:(lia)
              eq_refl)
    as ((r & buf' & s' & Hread & Hsamples) & _).
  exists r, buf', s'. split; [exact Hread |].
  rewrite Hsamples. vm_compute. reflexivity.
Defined.

(* ================================================================== *)
(** * Opening and closing *)

Section Opening.

Variable long_bits : Z.

Lemma WAV_open_internal_keeps_file fuel data s0 rc s e :
  WAV_open_internal long_bits fuel (fresh data s0) = Returned rc s e ->
  exists f, rw s = Some f /\ contents f = data.
Proof.
  intros H.
  refine (preserves_WAV_open_internal long_bits
            (fun s => exists f, rw s = Some f /\ contents f = data)
            _ _ fuel (fresh data s0) rc s e _ H).
  - intros s1 f c (f0 & Hf0 & Hc) Hrw _.
    rewrite Hrw in Hf0. inversion Hf0; subst f0.
    exists (mkFILE (contents f) c). split; [reflexivity | exact Hc].
  - intros s1 s2 Heq (f & Hf & Hc). exists f. rewrite Heq. auto.
  - exists (mkFILE data 0). split; reflexivity.
Qed.

(** X1.  [Open] leaves the object with a stream exactly when it returns
    [OPEN_OK], and the stream is then on the file that was opened; after
    any other result the stream is closed and the two ADPCM arrays are
    released. *)
Theorem Open_keeps_the_stream_on_success_only fuel data s0 rc s e :
  Open long_bits fuel data s0 = Returned rc s e ->
  match rc with
  | OPEN_OK => exists f, rw s = Some f /\ contents f = data
  | _ => rw s = None /\ aCoef (adpcm s) = [] /\ blockheaders (adpcm s) = []
  end.
Proof.
  rewrite Open_unfold.
  destruct (WAV_open_internal long_bits fuel (fresh data s0))
    as [rc' s' e' |] eqn:E; [| discriminate].
  destruct rc'; intros H; inversion H; subst; clear H.
  - exact (WAV_open_internal_keeps_file _ _ _ _ _ _ E).
  - repeat split.
  - repeat split.
Qed.

End Opening.

Lemma Open_keeps_the_stream_on_success_only_witness :
  exists f, rw pcm8_mono = Some f /\ contents f = pcm8_mono_file.
Proof.
  exact (Open_keeps_the_stream_on_success_only 32 8 pcm8_mono_file new_reader
           OPEN_OK pcm8_mono [] ltac:(vm_compute; reflexivity)).
Defined.

(* ================================================================== *)
(** * Reading integers *)

Section Integers.

Lemma le_decode_encode n v :
  le_decode (le_encode n v) = v mod 256 ^ Z.of_nat n.
Proof.
  revert v. induction n as [| n IH]; intros v.
  - cbn [le_encode le_decode fold_right]. rewrite Z.mod_1_r. reflexivity.
  - cbn [le_encode].
    change (le_decode (byte_of_Z v :: le_encode n (v / 256)))
      with (byte_to_Z (byte_of_Z v) + 256 * le_decode (le_encode n (v / 256))).
    rewrite IH, byte_to_of_Z, Nat2Z.inj_succ, Z.pow_succ_r by lia.
    assert (0 < 256 ^ Z.of_nat n) by (apply Z.pow_pos_nonneg; lia).
    rewrite Z.rem_mul_r by lia. reflexivity.
Qed.

Lemma read_item_advances s f bs rest :
  rw s = Some f ->
  ahead f = bs ++ rest ->
  read_item (Z.of_nat (length bs)) s
  = Returned (Some bs) (advanced (Z.of_nat (length bs)) f s) [].
Proof. apply read_item_ok. Qed.

Lemma Sint16_mod v : Sint16 (v mod 65536) = Sint16 v.
Proof.
  unfold Sint16, wrap_signed.
  change (2 ^ (16 - 1)) with 32768. change (2 ^ 16) with 65536.
  rewrite Zplus_mod_idemp_l. reflexivity.
Qed.

Lemma Sint32_mod v : Sint32 (v mod 4294967296) = Sint32 v.
Proof.
  unfold Sint32, wrap_signed.
  change (2 ^ (32 - 1)) with 2147483648. change (2 ^ 32) with 4294967296.
  rewrite Zplus_mod_idemp_l. reflexivity.
Qed.

(** X2.  The integer readers take the bytes least significant first:
    on the two (four) bytes that encode [v], the unsigned reader returns
    [v] reduced to 16 (32) bits and the signed one returns it as a
    two's-complement number, so a value that fits comes back as it was
    written; the stream moves past the bytes and no error is recorded. *)
Theorem read_le_round_trip s f v rest :
  rw s = Some f ->
  (ahead f = u16 v ++ rest ->
   read_le16_unsigned s = Returned (Some (Uint16 v)) (advanced 2 f s) []
   /\ read_le16_signed s = Returned (Some (Sint16 v)) (advanced 2 f s) []
   /\ (0 <= v < 65536 -> Uint16 v = v)
   /\ (-32768 <= v < 32768 -> Sint16 v = v))
  /\ (ahead f = u32 v ++ rest ->
      read_le32_unsigned s = Returned (Some (Uint32 v)) (advanced 4 f s) []
      /\ read_le32_signed s = Returned (Some (Sint32 v)) (advanced 4 f s) []
      /\ (0 <= v < 4294967296 -> Uint32 v = v)
      /\ (-2147483648 <= v < 2147483648 -> Sint32 v = v)).
Proof.
  intros Hrw. split; intros Hahead.
  - pose proof (read_item_advances s f (u16 v) rest Hrw Hahead) as Hitem.
    change (Z.of_nat (length (u16 v))) with 2 in Hitem.
    unfold read_le16_unsigned, read_le16_signed.
    rewrite !(bind_Returned_nil _ _ _ _ _ Hitem).
    cbn [option_map]. unfold u16. rewrite le_decode_encode.
    change (256 ^ Z.of_nat 2) with 65536.
    rewrite Sint16_mod.
    repeat split; [apply Uint16_small | apply Sint16_small].
  - pose proof (read_item_advances s f (u32 v) rest Hrw Hahead) as Hitem.
    change (Z.of_nat (length (u32 v))) with 4 in Hitem.
    unfold read_le32_unsigned, read_le32_signed.
    rewrite !(bind_Returned_nil _ _ _ _ _ Hitem).
    cbn [option_map]. unfold u32. rewrite le_decode_encode.
    change (256 ^ Z.of_nat 4) with 4294967296.
    rewrite Sint32_mod.
    repeat split; [apply Uint32_small | apply Sint32_small].
Qed.

Lemma read_item_falls_short s f n :
  rw s = Some f ->
  Z.of_nat (length (ahead f)) < n ->
  read_item n s
  = Returned None (advanced (Z.of_nat (length (ahead f))) f s)
             ["end of file"%string].
Proof. apply read_item_short. Qed.

(** X3.  A read that finds fewer bytes than the integer has fails: the
    reader returns [false], records the error "end of file", and the
    bytes that were there are consumed. *)
Theorem read_le_at_end_of_file s f :
  rw s = Some f ->
  let left := Z.of_nat (length (ahead f)) in
  let failed (rd : M (option Z)) :=
    rd s = Returned None (advanced left f s) ["end of file"%string] in
  (left < 1 -> failed read_uint8)
  /\ (left < 2 -> failed read_le16_unsigned /\ failed read_le16_signed)
  /\ (left < 4 -> failed read_le32_unsigned /\ failed read_le32_signed).
Proof.
  intros Hrw left failed. unfold failed.
  unfold read_uint8, read_le16_unsigned, read_le16_signed,
    read_le32_unsigned, read_le32_signed.
  repeat split; intros;
    erewrite bind_Returned
      by (apply read_item_falls_short; [exact Hrw | assumption]);
    reflexivity.
Qed.

End Integers.

Lemma read_le_round_trip_witness :
  let s := set_rw (Some (mkFILE (u16 (-2) ++ [x07]) 0)) new_reader in
  read_le16_unsigned s
  = Returned (Some (Uint16 (-2))) (advanced 2 (mkFILE (u16 (-2) ++ [x07]) 0) s) []
  /\ read_le16_signed s
     = Returned (Some (Sint16 (-2)))
                (advanced 2 (mkFILE (u16 (-2) ++ [x07]) 0) s) [].
Proof.
  intros s.
  destruct (proj1 (read_le_round_trip s (mkFILE (u16 (-2) ++ [x07]) 0) (-2)
                     [x07] eq_refl) eq_refl) as (Hu & Hs & _).
  split; [exact Hu | exact Hs].
Defined.

Lemma read_le_at_end_of_file_witness :
  let f := mkFILE [x01; x02; x03] 1 in
  let s := set_rw (Some f) new_reader in
  read_le32_unsigned s = Returned None (advanced 2 f s) ["end of file"%string].
Proof.
  intros f s.
  exact (proj1 (proj2 (proj2 (read_le_at_end_of_file s f eq_refl))
                  ltac:(vm_compute; reflexivity))).
Defined.

(* ================================================================== *)
(** * The chunk scanner, again *)

Section Scanning.

Variable long_bits : Z.
Hypothesis long_bits_ok : 32 <= long_bits.

(** X4.  The scanner's [while (1)] loop ends: on a file of less than
    2 GiB it returns within as many turns as the file has bytes (every
    turn that goes on has read a chunk header of eight bytes and moved
    forward), and the stream is still there. *)
Theorem find_chunk_terminates id fuel s f :
  rw s = Some f ->
  0 <= cursor f ->
  Z.of_nat (length (contents f)) < Z.of_nat fuel ->
  Z.of_nat (length (contents f)) < 2147483648 ->
  exists r s' e,
    find_chunk long_bits fuel id s = Returned r s' e /\ rw s' <> None.
Proof. exact (find_chunk_returns long_bits long_bits_ok id fuel s f). Qed.

(** X5.  A chunk whose identifier is the one looked for is found where
    it stands: the scanner returns [true] with the declared size as it is
    written, negative sizes included, and leaves the stream on the first
    byte after the eight bytes of the chunk header. *)
Theorem find_chunk_finds_the_chunk_at_the_cursor
        id fuel s f i0 i1 i2 i3 z0 z1 z2 z3 rest :
  rw s = Some f ->
  0 <= cursor f ->
  ahead f = i0 :: i1 :: i2 :: i3 :: z0 :: z1 :: z2 :: z3 :: rest ->
  le_decode [i0; i1; i2; i3] = id ->
  find_chunk long_bits (S fuel) id s
  = Returned (Some (Sint32 (le_decode [z0; z1; z2; z3]))) (advanced 8 f s) [].
Proof.
  intros Hrw Hpos Hahead Hid. unfold find_chunk.
  assert (Hftell : ftell s = Returned (cursor f) s []).
  { unfold ftell, bind, the_stream. rewrite Hrw. reflexivity. }
  rewrite (bind_Returned_nil _ _ _ _ _ Hftell). cbn [find_chunk_loop].
  rewrite (bind_Returned_nil _ _ _ (Found (Sint32 (le_decode [z0; z1; z2; z3])))
             (advanced 8 f s)); [reflexivity |].
  rewrite (find_chunk_step_header long_bits id _ s f _ _ _ _ _ _ _ _ rest
             Hrw Hpos Hahead).
  cbv zeta. rewrite Hid, Z.eqb_refl. reflexivity.
Qed.

Lemma find_chunk_step_short id pos s f :
  rw s = Some f ->
  0 <= cursor f ->
  Z.of_nat (length (ahead f)) < 8 ->
  exists s',
    find_chunk_step long_bits id pos s
    = Returned NotFound s' ["end of file"%string]
    /\ rw s' <> None.
Proof.
  intros Hrw Hpos Hshort. unfold find_chunk_step.
  destruct (Z.ltb_spec (Z.of_nat (length (ahead f))) 4) as [H4 | H4].
  - destruct (read_le32_unsigned_short s f Hrw H4) as (s' & Hrd & Hs').
    exists s'. rewrite (bind_Returned _ _ _ _ _ _ Hrd). auto.
  - destruct (ahead f) as [| b0 [| b1 [| b2 [| b3 rest]]]] eqn:Hahead;
      try (cbn [length] in H4; lia).
    rewrite (bind_Returned_nil _ _ _ _ _
               (read_le32_unsigned_ok s f b0 b1 b2 b3 rest Hrw Hahead)).
    set (s1 := set_rw (Some (mkFILE (contents f) (cursor f + 4))) s).
    assert (Hrest : ahead (mkFILE (contents f) (cursor f + 4)) = rest).
    { exact (ahead_advance f [b0; b1; b2; b3] rest Hpos Hahead). }
    destruct (read_le32_signed_short s1 (mkFILE (contents f) (cursor f + 4))
                eq_refl) as (s' & Hrd & Hs').
    { rewrite Hrest. cbn [length] in Hshort. lia. }
    exists s'. rewrite (bind_Returned _ _ _ _ _ _ Hrd). auto.
Qed.

End Scanning.

Lemma find_chunk_terminates_witness :
  exists r s' e,
    find_chunk 32 100 dataID (set_rw (Some (mkFILE odd_chunk_list 0)) new_reader)
    = Returned r s' e
    /\ rw s' <> None.
Proof.
  apply (find_chunk_terminates 32 ltac:(lia) dataID 100
           (set_rw (Some (mkFILE odd_chunk_list 0)) new_reader)
           (mkFILE odd_chunk_list 0) eq_refl);
    [cbn [cursor]; lia | vm_compute; reflexivity | vm_compute; reflexivity].
Defined.

Lemma find_chunk_finds_the_chunk_at_the_cursor_witness :
  let f := mkFILE (u32 dataID ++ u32 (-5) ++ [x01]) 0 in
  let s := set_rw (Some f) new_reader in
  find_chunk 32 1 dataID s = Returned (Some (-5)) (advanced 8 f s) [].
Proof.
  intros f s.
  exact (find_chunk_finds_the_chunk_at_the_cursor 32 dataID 0 s f
           _ _ _ _ _ _ _ _ _ eq_refl ltac:(cbn; lia) eq_refl eq_refl).
Defined.

Section Truncated.

Variable long_bits : Z.

(** X6.  A file that has the container magic and the form type and then
    ends before a whole chunk header is matched and refused: [Open]
    returns [OPEN_MATCH_BUT_FAIL], the errors recorded are "end of file"
    and "No format chunk.", and the stream is closed. *)
Theorem Open_header_without_chunks fuel data s0 :
  has_magic data -> has_form data ->
  Z.of_nat (length data) < 20 ->
  exists s,
    Open long_bits (S fuel) data s0
    = Returned OPEN_MATCH_BUT_FAIL s
               ["end of file"%string; "No format chunk."%string]
    /\ rw s = None.
Proof.
  intros Hmagic Hform Hlen.
  rewrite Open_unfold, (WAV_open_internal_accepts _ _ _ _ Hmagic Hform).
  destruct (find_chunk_step_short long_bits fmtID (Uint32 12)
              (scan_start data s0) (mkFILE data 12) eq_refl)
    as (s' & Hstep & _).
  { cbn [cursor]. lia. }
  { rewrite ahead_length by (cbn [cursor]; lia). cbn [contents cursor]. lia. }
  assert (Hfind : find_chunk long_bits (S fuel) fmtID (scan_start data s0)
                  = Returned None s' ["end of file"%string]).
  { unfold find_chunk.
    assert (Hftell : ftell (scan_start data s0)
                     = Returned 12 (scan_start data s0) []) by reflexivity.
    rewrite (bind_Returned_nil _ _ _ _ _ Hftell). cbn [find_chunk_loop].
    rewrite (bind_Returned _ _ _ _ _ _ Hstep). reflexivity. }
  unfold after_magic. rewrite (bind_Returned _ _ _ _ _ _ Hfind).
  cbn [ret bind SetError app].
  exists (closed s'). split; reflexivity.
Qed.

End Truncated.

Lemma Open_header_without_chunks_witness :
  exists s,
    Open 32 1 header_only_file new_reader
    = Returned OPEN_MATCH_BUT_FAIL s
               ["end of file"%string; "No format chunk."%string]
    /\ rw s = None.
Proof.
  apply (Open_header_without_chunks 32 0 header_only_file new_reader);
    vm_compute; reflexivity.
Defined.

(* ================================================================== *)
(** * What [Read] returns *)

Section ReadResults.

Variable long_bits : Z.
Variable char_is_signed : bool.

(** X7.  On an open stream a [len] that is not a multiple of the
    conversion ratio stops the program at the assertion on entry to
    [Read], before anything is read. *)
Theorem Read_rejects_a_ragged_length fuel buf len s :
  open_stream long_bits char_is_signed s ->
  0 <= len < 4294967296 ->
  len mod Input_Buffer_Ratio s <> 0 ->
  Read char_is_signed fuel buf len s = Faulted AssertionFailed.
Proof.
  intros Hopen Hlen Hmod.
  destruct (open_stream_invariant _ _ _ Hopen) as [W _].
  pose proof (well_formed_ratio s W) as Hr.
  unfold Read. rewrite bind_gets.
  rewrite Uint32_small by lia.
  destruct (Z.eqb_spec (Input_Buffer_Ratio s) 0) as [E | _]; [lia |].
  rewrite bind_ret.
  destruct (Z.eqb_spec (len mod Input_Buffer_Ratio s) 0) as [E | _];
    [contradiction |].
  reflexivity.
Qed.

Lemma advanced_0 f s : rw s = Some f -> advanced 0 f s = s.
Proof.
  intros Hrw. unfold advanced. rewrite Z.add_0_r.
  destruct s, f. cbn in *. rewrite Hrw. reflexivity.
Qed.

(** X8.  At the end of the data an uncompressed stream has nothing to
    give: [Read] returns 0, the buffer and the object (scratch array
    included) are as they were, and no error is recorded. *)
Theorem Read_at_the_end_of_the_data fuel buf len s f :
  open_stream long_bits char_is_signed s ->
  rw s = Some f ->
  wFormatTag (fmt s) = FMT_NORMAL ->
  ahead f = [] ->
  0 <= len < 2147483648 ->
  len mod Input_Buffer_Ratio s = 0 ->
  Read char_is_signed fuel buf len s = Returned (0, buf) s [].
Proof.
  intros Hopen Hrw Htag Hend Hlen Hmod.
  destruct (open_stream_invariant _ _ _ Hopen) as [W _].
  pose proof (well_formed_ratio s W) as Hr.
  rewrite (Read_asks char_is_signed fuel buf len s W Hlen Hmod).
  assert (Hact : 0 <= len / Input_Buffer_Ratio s <= len).
  { split; [apply Z.div_pos; lia |].
    apply Z.div_le_upper_bound; [lia | nia]. }
  pose proof (read_raw_normal fuel buf (len / Input_Buffer_Ratio s) s f
                Hrw Htag ltac:(lia)) as Hraw.
  cbv zeta in Hraw. rewrite Hend in Hraw.
  rewrite firstn_nil in Hraw. cbn [length] in Hraw.
  replace (Z.min (len / Input_Buffer_Ratio s) (Z.of_nat 0)) with 0 in Hraw
    by lia.
  change (write_at 0 [] buf) with buf in Hraw.
  fold (advanced 0 f s) in Hraw. rewrite (advanced_0 f s Hrw) in Hraw.
  rewrite (bind_Returned_nil _ _ _ _ _ Hraw). reflexivity.
Qed.

Lemma skipn_prefix {A} (new rest : list A) :
  skipn (length new) (new ++ rest) = rest.
Proof.
  rewrite skipn_app, Nat.sub_diag, skipn_all. reflexivity.
Qed.

(** One [Read] on a 16-bit stereo stream, with the object it leaves. *)
Lemma Read_stereo16_run fuel buf len s f :
  well_formed s ->
  rw s = Some f ->
  wFormatTag (fmt s) = FMT_NORMAL ->
  wBitsPerSample (fmt s) = 16 ->
  Channels s = 2 ->
  0 <= len < 2147483648 ->
  let raw := firstn (Z.to_nat len) (ahead f) in
  exists t,
    Read char_is_signed fuel buf len s
    = Returned (Z.of_nat (length raw), write_at 0 raw buf)
               (set_tmpbuf t (advanced (Z.of_nat (length raw)) f s)) [].
Proof.
  intros W Hrw Htag Hbits Hch Hlen raw.
  assert (Hcv : Conversion s = CONV_16LSB_TO_16SYS).
  { destruct (wf_conversion s W) as [(E & _) | [(E & _) | (_ & E & _)]];
      [lia | lia | exact E]. }
  assert (Hratio : Input_Buffer_Ratio s = 1).
  { rewrite (wf_ratio s W), Hcv, Hch. reflexivity. }
  rewrite (Read_asks char_is_signed fuel buf len s W Hlen)
    by (rewrite Hratio; apply Z.mod_1_r).
  rewrite Hratio, Z.div_1_r.
  pose proof (read_raw_normal fuel buf len s f Hrw Htag Hlen) as Hraw.
  cbv zeta in Hraw. fold raw in Hraw.
  replace (Z.min len (Z.of_nat (length (ahead f))))
    with (Z.of_nat (length raw)) in Hraw
    by (unfold raw; rewrite length_firstn; lia).
  fold (advanced (Z.of_nat (length raw)) f s) in Hraw.
  rewrite (bind_Returned_nil _ _ _ _ _ Hraw). cbv beta iota.
  destruct (convert_stereo16 char_is_signed len (Z.of_nat (length raw))
              (write_at 0 raw buf) (advanced (Z.of_nat (length raw)) f s)
              Hcv Hch ltac:(lia)) as (t & Hconv).
  exists t. exact Hconv.
Qed.

(** X9.  A 16-bit stereo stream is handed over as it is in the file:
    [Read] returns the number of bytes that were left, up to [len]; the
    buffer starts with those bytes of the file, in order, and is
    unchanged after them; the stream has moved past them. *)
Theorem Read_16_bit_stereo_is_verbatim fuel buf len s f :
  open_stream long_bits char_is_signed s ->
  rw s = Some f ->
  wFormatTag (fmt s) = FMT_NORMAL ->
  wBitsPerSample (fmt s) = 16 ->
  Channels s = 2 ->
  0 <= len < 2147483648 ->
  let raw := firstn (Z.to_nat len) (ahead f) in
  exists buf' s',
    Read char_is_signed fuel buf len s
    = Returned (Z.of_nat (length raw), buf') s' []
    /\ firstn (length raw) buf' = raw
    /\ skipn (length raw) buf' = skipn (length raw) buf
    /\ rw s' = Some (mkFILE (contents f) (cursor f + Z.of_nat (length raw))).
Proof.
  intros Hopen Hrw Htag Hbits Hch Hlen raw.
  destruct (open_stream_invariant _ _ _ Hopen) as [W _].
  destruct (Read_stereo16_run fuel buf len s f W Hrw Htag Hbits Hch Hlen)
    as (t & Hread).
  fold raw in Hread.
  eexists _, _. split; [exact Hread |].
  split; [apply firstn_write_at_0 |].
  split; [| reflexivity].
  unfold write_at. cbn [firstn app Nat.add]. apply skipn_prefix.
Qed.

Lemma firstn_then_firstn {A} (l : list A) a b :
  firstn a l ++ firstn b (skipn (length (firstn a l)) l) = firstn (a + b) l.
Proof.
  rewrite length_firstn.
  destruct (Nat.le_gt_cases a (length l)) as [Hle | Hgt].
  - rewrite Nat.min_l by exact Hle.
    rewrite <- (firstn_skipn a l) at 3.
    rewrite firstn_app, length_firstn, Nat.min_l by exact Hle.
    replace (a + b - a)%nat with b by lia.
    rewrite (firstn_all2 (n := (a + b)%nat) (firstn a l))
      by (rewrite length_firstn; lia).
    reflexivity.
  - rewrite Nat.min_r by lia.
    rewrite skipn_all, firstn_nil, app_nil_r.
    rewrite !firstn_all2 by lia. reflexivity.
Qed.

(** X10.  Two calls of [Read] in a row on a 16-bit stereo stream return
    what one call for both lengths would have: the second call goes on
    from the byte where the first one stopped. *)
Theorem Read_goes_on_where_it_stopped fuel1 fuel2 buf1 buf2 len1 len2 s f :
  open_stream long_bits char_is_signed s ->
  rw s = Some f ->
  wFormatTag (fmt s) = FMT_NORMAL ->
  wBitsPerSample (fmt s) = 16 ->
  Channels s = 2 ->
  0 <= len1 < 2147483648 ->
  0 <= len2 < 2147483648 ->
  exists n1 out1 s1 n2 out2 s2,
    Read char_is_signed fuel1 buf1 len1 s = Returned (n1, out1) s1 []
    /\ Read char_is_signed fuel2 buf2 len2 s1 = Returned (n2, out2) s2 []
    /\ firstn (Z.to_nat n1) out1 ++ firstn (Z.to_nat n2) out2
       = firstn (Z.to_nat (len1 + len2)) (ahead f).
Proof.
  intros Hopen Hrw Htag Hbits Hch Hlen1 Hlen2.
  destruct (open_stream_invariant _ _ _ Hopen) as [W C].
  assert (Hpos : 0 <= cursor f) by (unfold cursor_ok in C; rewrite Hrw in C; exact C).
  destruct (Read_stereo16_run fuel1 buf1 len1 s f W Hrw Htag Hbits Hch Hlen1)
    as (t1 & Hread1).
  set (raw1 := firstn (Z.to_nat len1) (ahead f)) in *.
  set (f1 := mkFILE (contents f) (cursor f + Z.of_nat (length raw1))).
  set (s1 := set_tmpbuf t1 (advanced (Z.of_nat (length raw1)) f s)) in *.
  assert (W1 : well_formed s1).
  { apply well_formed_tmpbuf_stable. unfold advanced.
    apply (well_formed_rw_stable s f (cursor f + Z.of_nat (length raw1))
             W Hrw).
    lia. }
  destruct (Read_stereo16_run fuel2 buf2 len2 s1 f1 W1 eq_refl Htag Hbits Hch
              Hlen2) as (t2 & Hread2).
  set (raw2 := firstn (Z.to_nat len2) (ahead f1)) in *.
  eexists _, _, _, _, _, _.
  split; [exact Hread1 |]. split; [exact Hread2 |].
  rewrite !Nat2Z.id, !firstn_write_at_0.
  assert (Hahead1 : ahead f1 = skipn (length raw1) (ahead f)).
  { apply (ahead_advance f raw1 (skipn (length raw1) (ahead f)) Hpos).
    unfold raw1. rewrite length_firstn.
    destruct (Nat.le_gt_cases (Z.to_nat len1) (length (ahead f))).
    - rewrite Nat.min_l by assumption. symmetry. apply firstn_skipn.
    - rewrite Nat.min_r by lia.
      rewrite skipn_all, app_nil_r, firstn_all2 by lia. reflexivity. }
  unfold raw2. rewrite Hahead1. unfold raw1.
  rewrite firstn_then_firstn. f_equal. lia.
Qed.

Lemma samples_of_bytes_range l :
  Forall (fun v => -32768 <= v < 32768) (samples_of_bytes l).
Proof.
  assert (H : forall n l, (length l <= n)%nat ->
              Forall (fun v => -32768 <= v < 32768) (samples_of_bytes l)).
  { induction n as [| n IH]; intros l0 Hl.
    - destruct l0; [constructor | cbn [length] in Hl; lia].
    - destruct l0 as [| b0 [| b1 l1]]; try constructor.
      + apply Sint16_range.
      + apply IH. cbn [length] in Hl. lia. }
  exact (H (length l) l (Nat.le_refl _)).
Qed.

Lemma samples_of_bytes_length n :
  forall l, length l = (2 * n)%nat -> length (samples_of_bytes l) = n.
Proof.
  induction n as [| n IH]; intros l Hl.
  - destruct l; [reflexivity | discriminate].
  - destruct l as [| b0 [| b1 l1]]; cbn [length] in Hl; try lia.
    cbn [samples_of_bytes length]. rewrite IH by lia. reflexivity.
Qed.

(** X11.  On a 16-bit mono stream every sample is given twice, for the
    left and for the right channel: when an even number [n] of raw bytes
    is consumed, [Read] returns [2 * n] and the buffer holds each 16-bit
    sample of the file followed by a copy of it. *)
Theorem Read_16_bit_mono_is_doubled fuel buf len s f :
  open_stream long_bits char_is_signed s ->
  rw s = Some f ->
  wFormatTag (fmt s) = FMT_NORMAL ->
  wBitsPerSample (fmt s) = 16 ->
  Channels s = 1 ->
  0 <= len < 2147483648 ->
  len mod 2 = 0 ->
  let raw := firstn (Z.to_nat (len / 2)) (ahead f) in
  Z.of_nat (length raw) mod 2 = 0 ->
  exists buf' s',
    Read char_is_signed fuel buf len s
    = Returned (2 * Z.of_nat (length raw), buf') s' []
    /\ samples_of_bytes (firstn (2 * length raw) buf')
       = flat_map (fun v => [v; v]) (samples_of_bytes raw)
    /\ rw s' = Some (mkFILE (contents f) (cursor f + Z.of_nat (length raw))).
Proof.
  intros Hopen Hrw Htag Hbits Hch Hlen Hmod raw Heven.
  destruct (open_stream_invariant _ _ _ Hopen) as [W _].
  assert (Hcv : Conversion s = CONV_16LSB_TO_16SYS).
  { destruct (wf_conversion s W) as [(E & _) | [(E & _) | (_ & E & _)]];
      [lia | lia | exact E]. }
  assert (Hratio : Input_Buffer_Ratio s = 2).
  { rewrite (wf_ratio s W), Hcv, Hch. reflexivity. }
  rewrite (Read_asks char_is_signed fuel buf len s W Hlen)
    by (rewrite Hratio; exact Hmod).
  rewrite Hratio.
  assert (Hact : 0 <= len / 2 /\ 2 * (len / 2) = len).
  { pose proof (Z.div_mod len 2 ltac:(lia)).
    split; [apply Z.div_pos; lia | lia]. }
  pose proof (read_raw_normal fuel buf (len / 2) s f Hrw Htag ltac:(lia))
    as Hraw.
  cbv zeta in Hraw. fold raw in Hraw.
  set (r := Z.of_nat (length raw)) in *.
  assert (Hr : 0 <= r <= len / 2).
  { unfold r, raw. rewrite length_firstn. lia. }
  replace (Z.min (len / 2) (Z.of_nat (length (ahead f)))) with r in Hraw
    by (unfold r, raw; rewrite length_firstn; lia).
  rewrite (bind_Returned_nil _ _ _ _ _ Hraw). cbv beta iota.
  set (s1 := set_rw (Some (mkFILE (contents f) (cursor f + r))) s).
  set (buf1 := write_at 0 raw buf).
  unfold convert.
  destruct (Z.leb_spec r 0) as [Hz | Hpos].
  { assert (E : raw = [])
      by (destruct raw; [reflexivity | unfold r in Hz; cbn [length] in Hz; lia]).
    exists buf1, s1.
    split; [replace (2 * r) with r by lia; reflexivity |].
    rewrite E. split; reflexivity. }
  destruct (grow_tmpbuf_run len s1 ltac:(lia)) as (t0 & Hgrow & Ht0).
  rewrite (bind_Returned_nil _ _ _ _ _ Hgrow).
  rewrite bind_gets. cbn [Conversion set_tmpbuf].
  change (Conversion s1) with (Conversion s). rewrite Hcv.
  rewrite bind_ret. cbv beta iota.
  rewrite bind_gets. cbn [Channels set_tmpbuf].
  change (Channels s1) with (Channels s). rewrite Hch.
  cbn [Z.eqb Pos.eqb].
  rewrite (duplicate_step_run r buf1 (set_tmpbuf t0 s1)
             ltac:(cbn [tmpbuf set_tmpbuf]; lia)).
  cbv zeta. cbn [tmpbuf set_tmpbuf].
  assert (Hhalf : (2 * Z.to_nat (r / 2))%nat = length raw).
  { pose proof (Z.div_mod r 2 ltac:(lia)). unfold r in *. lia. }
  rewrite Hhalf.
  assert (Hb1 : firstn (length raw) buf1 = raw)
    by (apply firstn_write_at_0).
  rewrite Hb1.
  set (doubled := flat_map (fun v => [v; v]) (samples_of_bytes raw)).
  assert (Hdl : length doubled = length raw).
  { unfold doubled.
    rewrite doubled_length, (samples_of_bytes_length (Z.to_nat (r / 2)));
      [exact Hhalf | symmetry; exact Hhalf]. }
  replace (Z.to_nat r) with (length doubled) by (unfold r; lia).
  rewrite firstn_prefix.
  rewrite (Sint32_small (r * 2)) by lia.
  replace (r * 2) with (2 * r) by lia.
  eexists _, _. split; [reflexivity |].
  split; [| reflexivity].
  replace (2 * length raw)%nat with (length (bytes_of_samples doubled))
    by (rewrite bytes_of_samples_length, Hdl; reflexivity).
  rewrite firstn_write_at_0.
  apply samples_of_bytes_of_samples, doubled_range, samples_of_bytes_range.
Qed.

End ReadResults.

Lemma pcm16_mono_open : open_stream 32 true pcm16_mono.
Proof.
  apply (opened 32 true 8 pcm16_mono_file new_reader pcm16_mono []).
  vm_compute. reflexivity.
Defined.

Lemma pcm8_mono_drained_open : open_stream 32 true pcm8_mono_drained.
Proof.
  refine (after_Read 32 true 0 [] 80 pcm8_mono _ pcm8_mono_drained []
            pcm8_mono_open _).
  vm_compute. reflexivity.
Defined.

Lemma Read_rejects_a_ragged_length_witness :
  Read true 0 [] 3 pcm8_mono = Faulted AssertionFailed.
Proof.
  apply (Read_rejects_a_ragged_length 32 true 0 [] 3 pcm8_mono pcm8_mono_open);
    [lia | vm_compute; discriminate].
Defined.

Lemma Read_at_the_end_of_the_data_witness :
  Read true 0 [x01; x02] 4 pcm8_mono_drained
  = Returned (0, [x01; x02]) pcm8_mono_drained [].
Proof.
  apply (Read_at_the_end_of_the_data 32 true 0 [x01; x02] 4 pcm8_mono_drained
           (mkFILE pcm8_mono_file 64) pcm8_mono_drained_open);
    [vm_compute; reflexivity | vm_compute; reflexivity
     | vm_compute; reflexivity | lia | vm_compute; reflexivity].
Defined.

Lemma Read_16_bit_stereo_is_verbatim_witness :
  exists buf' s',
    Read true 0 [xaa; xbb; xcc; xdd; xee; xff] 4 pcm16_stereo
    = Returned (4, buf') s' []
    /\ firstn 4 buf' = [x01; x00; x02; x00]
    /\ skipn 4 buf' = [xee; xff]
    /\ rw s' = Some (mkFILE pcm16_stereo_file 48).
Proof.
  destruct (Read_16_bit_stereo_is_verbatim 32 true 0
              [xaa; xbb; xcc; xdd; xee; xff] 4 pcm16_stereo
              (mkFILE pcm16_stereo_file 44) pcm16_stereo_open
              eq_refl eq_refl eq_refl eq_refl ltac:(lia))
    as (buf' & s' & Hread & Hfirst & Hskip & Hrw).
  exists buf', s'. vm_compute in Hread, Hfirst, Hskip, Hrw.
  repeat split; assumption.
Defined.

Lemma Read_goes_on_where_it_stopped_witness :
  exists n1 out1 s1 n2 out2 s2,
    Read true 0 [] 4 pcm16_stereo = Returned (n1, out1) s1 []
    /\ Read true 0 [] 6 s1 = Returned (n2, out2) s2 []
    /\ firstn (Z.to_nat n1) out1 ++ firstn (Z.to_nat n2) out2
       = firstn 10 (ahead (mkFILE pcm16_stereo_file 44)).
Proof.
  exact (Read_goes_on_where_it_stopped 32 true 0 0 [] [] 4 6 pcm16_stereo
           (mkFILE pcm16_stereo_file 44) pcm16_stereo_open
           eq_refl eq_refl eq_refl eq_refl ltac:(lia) ltac:(lia)).
Defined.

Lemma Read_16_bit_mono_is_doubled_witness :
  exists buf' s',
    Read true 0 [] 8 pcm16_mono = Returned (8, buf') s' []
    /\ samples_of_bytes (firstn 8 buf') = [1; 1; -2; -2]
    /\ rw s' = Some (mkFILE pcm16_mono_file 48).
Proof.
  destruct (Read_16_bit_mono_is_doubled 32 true 0 [] 8 pcm16_mono
              (mkFILE pcm16_mono_file 44) pcm16_mono_open
              eq_refl eq_refl eq_refl eq_refl ltac:(lia) eq_refl eq_refl)
    as (buf' & s' & Hread & Hsamples & Hrw).
  exists buf', s'. vm_compute in Hsamples, Hrw.
  vm_compute in Hread.
  repeat split; assumption.
Defined.

(* ================================================================== *)
(** * What the calls leave alone *)

Section FormatKept.

Variable long_bits : Z.
Variable char_is_signed : bool.

Lemma same_format_refl s : same_format s s.
Proof. repeat split. Qed.

Lemma same_format_rw_stable s0 : rw_stable (same_format s0).
Proof.
  intros s f c (Hc & H) Hrw _. split; [| exact H].
  cbn. rewrite <- Hc, Hrw. reflexivity.
Qed.

Lemma same_format_adpcm_stable s0 : adpcm_stable (same_format s0).
Proof. intros s a H. exact H. Qed.

Lemma same_format_tmpbuf_stable s0 : tmpbuf_stable (same_format s0).
Proof. intros s t H. exact H. Qed.

(** X12.  [Read], [SetPosition] and [GetLength] work on the file
    position, the decoder state and the scratch array only: whatever they
    return, the bytes of the file, the format description, the sample
    rate, the channel count, the sample size, the conversion and its
    ratio are what they were before the call. *)
Theorem calls_keep_the_format s :
  (forall fuel buf len r s' e,
      Read char_is_signed fuel buf len s = Returned r s' e ->
      same_format s s')
  /\ (forall fuel ms r s' e,
         SetPosition long_bits fuel ms s = Returned r s' e ->
         same_format s s')
  /\ (forall tmp r s' e,
         GetLength long_bits tmp s = Returned r s' e ->
         same_format s s').
Proof.
  pose proof (same_format_rw_stable s) as Hrw.
  pose proof (same_format_adpcm_stable s) as Had.
  pose proof (same_format_tmpbuf_stable s) as Htm.
  split; [| split].
  - intros fuel buf len r s' e H.
    exact (preserves_Read (same_format s) Hrw Had Htm char_is_signed fuel buf
             len s r s' e (same_format_refl s) H).
  - intros fuel ms r s' e H.
    exact (preserves_SetPosition (same_format s) Hrw Had long_bits fuel ms
             s r s' e (same_format_refl s) H).
  - intros tmp r s' e H.
    exact (preserves_GetLength (same_format s) Hrw long_bits tmp
             s r s' e (same_format_refl s) H).
Qed.

End FormatKept.

Lemma calls_keep_the_format_witness : same_format pcm8_mono pcm8_mono_drained.
Proof.
  refine (proj1 (calls_keep_the_format 32 true pcm8_mono)
            0%nat [] 80 _ pcm8_mono_drained [] _).
  vm_compute. reflexivity.
Defined.

(* ================================================================== *)
(** * The format record *)

Section FormatRecord.

Lemma read_le16_unsigned_run s f v rest :
  rw s = Some f ->
  ahead f = u16 v ++ rest ->
  read_le16_unsigned s = Returned (Some (Uint16 v)) (advanced 2 f s) [].
Proof.
  intros Hrw Hahead.
  pose proof (read_item_advances s f (u16 v) rest Hrw Hahead) as Hitem.
  change (Z.of_nat (length (u16 v))) with 2 in Hitem.
  unfold read_le16_unsigned.
  rewrite (bind_Returned_nil _ _ _ _ _ Hitem).
  cbn [option_map]. unfold u16. rewrite le_decode_encode. reflexivity.
Qed.

Lemma read_le32_unsigned_run s f v rest :
  rw s = Some f ->
  ahead f = u32 v ++ rest ->
  read_le32_unsigned s = Returned (Some (Uint32 v)) (advanced 4 f s) [].
Proof.
  intros Hrw Hahead.
  pose proof (read_item_advances s f (u32 v) rest Hrw Hahead) as Hitem.
  change (Z.of_nat (length (u32 v))) with 4 in Hitem.
  unfold read_le32_unsigned.
  rewrite (bind_Returned_nil _ _ _ _ _ Hitem).
  cbn [option_map]. unfold u32. rewrite le_decode_encode. reflexivity.
Qed.

Lemma read_into_some rd upd rest s v s1 :
  rd s = Returned (Some v) s1 [] ->
  read_into rd upd rest s = rest (upd v s1).
Proof.
  intros H. unfold read_into.
  rewrite (bind_Returned_nil _ _ _ _ _ H). apply bind_modify.
Qed.

Lemma ahead_advanced f n bs rest :
  0 <= cursor f ->
  ahead f = bs ++ rest ->
  n = Z.of_nat (length bs) ->
  ahead (mkFILE (contents f) (cursor f + n)) = rest.
Proof. intros Hpos Hahead ->. exact (ahead_advance f bs rest Hpos Hahead). Qed.

(** X13.  [read_fmt_chunk] takes the sixteen bytes of the format record
    in the order of the container layout: tag, channels, sample rate,
    average bytes per second, block alignment and bits per sample, each
    least significant byte first.  For a tag other than ADPCM it reads
    nothing more: it returns [true], the stream is sixteen bytes further
    on, and the ADPCM description is untouched. *)
Theorem read_fmt_chunk_reads_the_format_record
        s f tag channels rate avg align bits rest :
  rw s = Some f ->
  0 <= cursor f ->
  ahead f = u16 tag ++ u16 channels ++ u32 rate ++ u32 avg
            ++ u16 align ++ u16 bits ++ rest ->
  Uint16 tag <> FMT_ADPCM ->
  read_fmt_chunk s
  = Returned true
      (advanced 16 f
         (set_SampleRate (Uint32 rate)
            (set_fmt (mkFmt (Uint16 tag) (Uint16 channels) (Uint32 avg)
                            (Uint16 align) (Uint16 bits)
                            (adpcm_sample_frame_size (fmt s))
                            (data_starting_offset (fmt s))) s))) [].
Proof.
  intros Hrw Hpos Hahead Htag. unfold read_fmt_chunk.
  (* tag *)
  rewrite (read_into_some _ _ _ s _ _
             (read_le16_unsigned_run s f tag _ Hrw Hahead)).
  set (f1 := mkFILE (contents f) (cursor f + 2)).
  set (s1 := upd_fmt set_wFormatTag (Uint16 tag) (advanced 2 f s)).
  assert (H1 : ahead f1 = u16 channels ++ u32 rate ++ u32 avg
                          ++ u16 align ++ u16 bits ++ rest)
    by (exact (ahead_advanced f 2 (u16 tag) _ Hpos Hahead eq_refl)).
  (* channels *)
  rewrite (read_into_some _ _ _ s1 _ _
             (read_le16_unsigned_run s1 f1 channels _ eq_refl H1)).
  set (f2 := mkFILE (contents f1) (cursor f1 + 2)).
  set (s2 := upd_fmt set_wChannels (Uint16 channels) (advanced 2 f1 s1)).
  assert (H2 : ahead f2 = u32 rate ++ u32 avg ++ u16 align ++ u16 bits ++ rest)
    by (refine (ahead_advanced f1 2 (u16 channels) _ _ H1 eq_refl);
        cbn [cursor f1]; lia).
  (* sample rate *)
  rewrite (read_into_some _ _ _ s2 _ _
             (read_le32_unsigned_run s2 f2 rate _ eq_refl H2)).
  set (f3 := mkFILE (contents f2) (cursor f2 + 4)).
  set (s3 := set_SampleRate (Uint32 rate) (advanced 4 f2 s2)).
  assert (H3 : ahead f3 = u32 avg ++ u16 align ++ u16 bits ++ rest)
    by (refine (ahead_advanced f2 4 (u32 rate) _ _ H2 eq_refl);
        cbn [cursor f1 f2]; lia).
  (* average bytes per second *)
  rewrite (read_into_some _ _ _ s3 _ _
             (read_le32_unsigned_run s3 f3 avg _ eq_refl H3)).
  set (f4 := mkFILE (contents f3) (cursor f3 + 4)).
  set (s4 := upd_fmt set_dwAvgBytesPerSec (Uint32 avg) (advanced 4 f3 s3)).
  assert (H4 : ahead f4 = u16 align ++ u16 bits ++ rest)
    by (refine (ahead_advanced f3 4 (u32 avg) _ _ H3 eq_refl);
        cbn [cursor f1 f2 f3]; lia).
  (* block alignment *)
  rewrite (read_into_some _ _ _ s4 _ _
             (read_le16_unsigned_run s4 f4 align _ eq_refl H4)).
  set (f5 := mkFILE (contents f4) (cursor f4 + 2)).
  set (s5 := upd_fmt set_wBlockAlign (Uint16 align) (advanced 2 f4 s4)).
  assert (H5 : ahead f5 = u16 bits ++ rest)
    by (refine (ahead_advanced f4 2 (u16 align) _ _ H4 eq_refl);
        cbn [cursor f1 f2 f3 f4]; lia).
  (* bits per sample *)
  rewrite (read_into_some _ _ _ s5 _ _
             (read_le16_unsigned_run s5 f5 bits _ eq_refl H5)).
  rewrite bind_gets.
  change (wFormatTag (fmt _)) with (Uint16 tag).
  destruct (Z.eqb_spec (Uint16 tag) FMT_ADPCM) as [E | _]; [contradiction |].
  unfold ret. f_equal.
  unfold s5, f5, s4, f4, s3, f3, s2, f2, s1, f1, advanced, upd_fmt.
  destruct s as [rw0 fmt0 ad rate0 ch0 bps0 cv0 ratio0 tb0].
  destruct f as [data pos]. destruct fmt0.
  cbv [set_fmt set_rw set_SampleRate set_wFormatTag set_wChannels
       set_dwAvgBytesPerSec set_wBlockAlign set_wBitsPerSample
       rw fmt adpcm SampleRate Channels BytesPerSample Conversion
       Input_Buffer_Ratio tmpbuf contents cursor
       wFormatTag wChannels dwAvgBytesPerSec wBlockAlign wBitsPerSample
       adpcm_sample_frame_size data_starting_offset].
  replace (pos + 2 + 2 + 4 + 4 + 2 + 2) with (pos + 16) by lia.
  reflexivity.
Qed.

End FormatRecord.

Lemma read_fmt_chunk_reads_the_format_record_witness :
  let f := mkFILE pcm16_stereo_file 20 in
  let s := set_rw (Some f) new_reader in
  read_fmt_chunk s
  = Returned true
      (advanced 16 f
         (set_SampleRate 44100
            (set_fmt (mkFmt 1 2 176400 4 16 0 0) s))) [].
Proof.
  intros f s.
  exact (read_fmt_chunk_reads_the_format_record s f 1 2 44100 176400 4 16
           (skipn 36 pcm16_stereo_file) eq_refl ltac:(cbn; lia)
           ltac:(vm_compute; reflexivity) ltac:(vm_compute; discriminate)).
Defined.

(* ================================================================== *)
(** * Where [Open] leaves the stream *)

Section DataChunk.

Variable long_bits : Z.

Lemma fseek_set_inv off s rc s' e :
  fseek_set off s = Returned rc s' e ->
  exists f, rw s = Some f
            /\ ((off < 0 /\ s' = s)
                \/ (0 <= off
                    /\ s' = set_rw (Some (mkFILE (contents f) off)) s)).
Proof.
  unfold fseek_set, bind, the_stream.
  destruct (rw s) as [f |] eqn:Hrw; [| discriminate].
  destruct (Z.ltb_spec off 0) as [Hneg | Hpos]; cbn; intros H;
    inversion H; subst; exists f; split; auto.
Qed.

Lemma find_chunk_loop_found id fuel :
  forall pos s f size s' e,
    rw s = Some f ->
    0 <= cursor f ->
    find_chunk_loop long_bits fuel id pos s = Returned (Some size) s' e ->
    exists f', rw s' = Some f' /\ behind_header id (contents f) f'.
Proof.
  induction fuel as [| fuel IH]; intros pos s f size s' e Hrw Hpos H;
    [discriminate |].
  cbn [find_chunk_loop] in H.
  inv_bind H as r s1 H1.
  destruct (Z.ltb_spec (Z.of_nat (length (ahead f))) 8) as [Hshort | Hlong].
  { destruct (find_chunk_step_short long_bits id pos s f Hrw Hpos Hshort)
      as (sx & Hx & _).
    rewrite Hx in H1. inversion H1; subst. inversion H. }
  destruct (ahead f)
    as [| i0 [| i1 [| i2 [| i3 [| z0 [| z1 [| z2 [| z3 rest]]]]]]]] eqn:Hahead;
    try (cbn [length] in Hlong; lia).
  rewrite (find_chunk_step_header long_bits id pos s f _ _ _ _ _ _ _ _ rest
             Hrw Hpos Hahead) in H1.
  cbv zeta in H1.
  set (size0 := Sint32 (le_decode [z0; z1; z2; z3])) in *.
  set (pos' := Uint32 (pos + 4 * 2 + size0)) in *.
  set (s2 := set_rw (Some (mkFILE (contents f) (cursor f + 8))) s) in *.
  destruct (Z.eqb_spec (le_decode [i0; i1; i2; i3]) id) as [Hid | Hid].
  - injection H1 as <- <- _. apply ret_inv in H as (_ & ->).
    exists (mkFILE (contents f) (cursor f + 8)).
    split; [reflexivity |]. split; [reflexivity |].
    cbn [cursor contents].
    pose proof (ahead_length f Hpos) as Hlen.
    rewrite Hahead in Hlen. cbn [length] in Hlen.
    split; [lia |].
    replace (cursor f + 8 - 8) with (cursor f) by lia.
    fold (ahead f). rewrite Hahead. cbn [firstn].
    apply le_decode_is_tag. exact Hid.
  - destruct (size0 <? 0).
    { injection H1 as <- _ _. apply ret_inv in H as (Hn & _). discriminate. }
    destruct (fseek_set (to_long long_bits pos') s2) as [rc s3 e3 |] eqn:Hseek;
      [| discriminate].
    apply fseek_set_inv in Hseek as (f2 & Hrw2 & Hcase).
    unfold s2 in Hrw2. rewrite rw_set_rw in Hrw2.
    injection Hrw2 as <-.
    destruct (Z.eqb_spec rc (-1)).
    { injection H1 as <- _ _. apply ret_inv in H as (Hn & _). discriminate. }
    injection H1 as <- <- _.
    destruct Hcase as [(_ & ->) | (Hoff & ->)].
    + destruct (IH pos' s2 (mkFILE (contents f) (cursor f + 8)) size s' _
                  eq_refl ltac:(cbn [cursor]; lia) H) as (f' & Hf' & Hb).
      exists f'. auto.
    + unfold s2 in H. rewrite set_rw_set_rw in H. cbn [contents] in H.
      exact (IH pos'
               (set_rw (Some (mkFILE (contents f) (to_long long_bits pos'))) s)
               (mkFILE (contents f) (to_long long_bits pos'))
               size s' _ eq_refl Hoff H).
Qed.

Lemma find_chunk_found id fuel s f size s' e :
  rw s = Some f ->
  0 <= cursor f ->
  find_chunk long_bits fuel id s = Returned (Some size) s' e ->
  exists f', rw s' = Some f' /\ behind_header id (contents f) f'.
Proof.
  intros Hrw Hpos H. unfold find_chunk in H.
  inv_bind H as pos s1 H1. apply ftell_inv in H1 as (_ & _ & _ & ->).
  exact (find_chunk_loop_found id fuel _ s f size s' _ Hrw Hpos H).
Qed.

(** The calls of [Open] before [locate_data] keep a property of the
    stream that does not depend on where the stream is. *)
Section UpToTheData.

Variable I : reader -> Prop.
Hypothesis I_rw : rw_stable I.
Hypothesis I_only : rw_only I.

Lemma after_format_chunk_locates fuel next s s' e :
  I s ->
  after_format_chunk long_bits fuel next s = Returned OPEN_OK s' e ->
  exists s3 e3,
    I s3 /\ locate_data long_bits fuel next s3 = Returned OPEN_OK s' e3.
Proof.
  intros HI H. unfold after_format_chunk in H.
  inv_bind H as f sa Ha. apply gets_inv in Ha as (? & ?). subst f sa.
  inv_bind H as [] sb Hb. apply modify_inv in Hb. subst sb.
  inv_bind H as ch sc Hc. apply gets_inv in Hc as (? & ?). subst ch sc.
  inv_bind H as [] sd Hd.
  destruct (Channels (set_Channels (Uint8 (wChannels (fmt s))) s) <=? 2);
    [| discriminate].
  apply ret_inv in Hd as (_ & ?). subst sd.
  destruct (negb (wFormatTag (fmt s) =? FMT_NORMAL)
            && negb (wFormatTag (fmt s) =? FMT_ADPCM)).
  { inv_bind H as [] sx Hx. inversion H; discriminate. }
  inv_bind H as ok se He.
  destruct ok; cbn [negb] in H; [| inversion H; discriminate].
  exists se. eexists. split; [| exact H].
  refine (preserves_select_conversion I I_only _ _ _ _ _ He).
  exact (I_only s (set_Channels (Uint8 (wChannels (fmt s))) s) eq_refl HI).
Qed.

Lemma after_magic_locates fuel s s' e :
  I s ->
  after_magic long_bits fuel s = Returned OPEN_OK s' e ->
  exists next s3 e3,
    I s3 /\ locate_data long_bits fuel next s3 = Returned OPEN_OK s' e3.
Proof.
  intros HI H. unfold after_magic in H.
  inv_bind H as r sd Hd.
  destruct r as [size |];
    [| inv_bind H as [] sx Hx; inversion H; discriminate].
  inv_bind H as here se He.
  inv_bind H as ok sf Hf.
  destruct ok; cbn [negb] in H;
    [| inv_bind H as [] sx Hx; inversion H; discriminate].
  assert (Hsd : I sd)
    by exact (preserves_find_chunk long_bits I fmtID fuel I_rw _ _ _ _ HI Hd).
  assert (Hse : I se) by exact (preserves_ftell I _ _ _ _ Hsd He).
  assert (Hsf : I sf).
  { refine (preserves_read_fmt_chunk I I_rw _ _ _ _ _ _ _ Hse Hf);
      [intros st v Hst; exact (I_only st (set_fmt v st) eq_refl Hst)
      | intros st v Hst; exact (I_only st (set_adpcm v st) eq_refl Hst)
      | intros st v Hst; exact (I_only st (set_SampleRate v st) eq_refl Hst)]. }
  destruct (after_format_chunk_locates _ _ _ _ _ Hsf H) as (s3 & e3 & H3).
  eexists _, s3, e3. exact H3.
Qed.

Lemma Open_locates fuel data s0 s e :
  I (fresh data s0) ->
  Open long_bits fuel data s0 = Returned OPEN_OK s e ->
  exists next s3 e3,
    I s3 /\ locate_data long_bits fuel next s3 = Returned OPEN_OK s e3.
Proof.
  intros HI. rewrite Open_unfold.
  destruct (WAV_open_internal long_bits fuel (fresh data s0))
    as [rc s1 e1 |] eqn:H; [| discriminate].
  destruct rc; try discriminate.
  intros E. inversion E; subst; clear E.
  unfold WAV_open_internal in H.
  inv_bind H as magic1 sa Ha.
  destruct (negb (is_magic magic1 riffID));
    [inv_bind H as [] sx Hx; inversion H; discriminate |].
  inv_bind H as ignore sb Hb.
  inv_bind H as magic2 sc Hc.
  destruct (negb (is_magic magic2 waveID));
    [inv_bind H as [] sx Hx; inversion H; discriminate |].
  pose proof (preserves_read_le32_unsigned I I_rw) as P.
  eapply (after_magic_locates fuel sc); [| exact H].
  eapply P; [| exact Hc]. eapply P; [| exact Hb]. eapply P; [| exact Ha].
  exact HI.
Qed.

End UpToTheData.

Lemma locate_data_found fuel next s f s' e :
  rw s = Some f ->
  0 <= cursor f ->
  locate_data long_bits fuel next s = Returned OPEN_OK s' e ->
  exists f', rw s' = Some f'
             /\ behind_header dataID (contents f) f'
             /\ data_starting_offset (fmt s') = Uint32 (cursor f').
Proof.
  intros Hrw Hpos H. unfold locate_data in H.
  inv_bind H as conv sa Ha. apply gets_inv in Ha as (? & ?). subst conv sa.
  inv_bind H as [] sb Hb.
  inv_bind H as ch sc Hc. apply gets_inv in Hc as (? & ?). subst ch sc.
  inv_bind H as [] sd Hd.
  inv_bind H as rc se He.
  inv_bind H as r sf Hf.
  destruct r as [size |];
    [| inv_bind H as [] sg Hg; inversion H; discriminate].
  inv_bind H as dso sg Hg.
  inv_bind H as bps sh Hh. apply gets_inv in Hh as (? & ?). subst bps sh.
  inv_bind H as ch2 si Hi. apply gets_inv in Hi as (? & ?). subst ch2 si.
  inv_bind H as [] sj Hj. apply modify_inv in Hj. subst sj.
  apply ret_inv in H as (_ & ?). subst s'.
  apply ftell_inv in Hg as (f1 & Hrw1 & ? & ?). subst dso sg.
  assert (Hsb : rw sb = Some f).
  { unfold double_ratio in Hb. destruct (Conversion s);
      [apply ret_inv in Hb as (_ & ->) | apply ret_inv in Hb as (_ & ->)
       | apply modify_inv in Hb; subst sb]; exact Hrw. }
  assert (Hsd : rw sd = Some f).
  { unfold double_ratio in Hd. destruct (Channels sb =? 1);
      [apply modify_inv in Hd; subst sd | apply ret_inv in Hd as (_ & ->)];
      exact Hsb. }
  apply fseek_set_inv in He as (f2 & Hrw2 & Hcase).
  rewrite Hsd in Hrw2. injection Hrw2 as <-.
  assert (Hfound : exists f', rw sf = Some f'
                              /\ behind_header dataID (contents f) f').
  { destruct Hcase as [(_ & ->) | (Hoff & ->)].
    - exact (find_chunk_found dataID fuel sd f size sf _ Hsd Hpos Hf).
    - exact (find_chunk_found dataID fuel
               (set_rw (Some (mkFILE (contents f) (to_long long_bits next)))
                       sd)
               (mkFILE (contents f) (to_long long_bits next)) size sf _
               eq_refl Hoff Hf). }
  destruct Hfound as (f' & Hf' & Hb').
  rewrite Hf' in Hrw1. injection Hrw1 as <-.
  exists f'. split; [exact Hf' |]. split; [exact Hb' | reflexivity].
Qed.

(** X14.  After a successful [Open] the stream is on the first byte of
    the payload of a chunk whose identifier is "data": the eight bytes
    before the file position are a chunk header with that identifier,
    and [fmt.data_starting_offset] holds the position (reduced to 32
    bits, so the position itself on a file of less than 4 GiB). *)
Theorem Open_stops_at_the_data fuel data s0 s e :
  Open long_bits fuel data s0 = Returned OPEN_OK s e ->
  exists f,
    rw s = Some f
    /\ contents f = data
    /\ 8 <= cursor f <= Z.of_nat (length data)
    /\ firstn 4 (skipn (Z.to_nat (cursor f - 8)) data) = u32 dataID
    /\ data_starting_offset (fmt s) = Uint32 (cursor f)
    /\ (Z.of_nat (length data) < 4294967296 ->
        data_starting_offset (fmt s) = cursor f).
Proof.
  intros H.
  destruct (Open_locates
              (fun s => exists f, rw s = Some f /\ contents f = data
                                  /\ 0 <= cursor f)
              ) with (fuel := fuel) (data := data) (s0 := s0) (s := s) (e := e)
    as (next & s3 & e3 & (f3 & Hrw3 & Hc3 & Hpos3) & Hloc).
  - intros s1 f c (f0 & Hf0 & Hc & Hp) Hrw Hnonneg.
    rewrite Hrw in Hf0. injection Hf0 as <-.
    exists (mkFILE (contents f) c). repeat split; auto.
  - intros s1 s2 Heq (f & Hf & Hc). exists f. rewrite Heq. auto.
  - exists (mkFILE data 0). repeat split. cbn. lia.
  - exact H.
  - destruct (locate_data_found fuel next s3 f3 s e3 Hrw3 Hpos3 Hloc)
      as (f' & Hf' & (Hc' & Hrange & Hid) & Hdso).
    rewrite Hc3 in *.
    exists f'. repeat split; auto; try lia.
    intros Hsmall. rewrite Hdso. apply Uint32_small. lia.
Qed.

End DataChunk.

Lemma Open_stops_at_the_data_witness :
  exists f,
    rw pcm8_mono = Some f
    /\ contents f = pcm8_mono_file
    /\ 8 <= cursor f <= Z.of_nat (length pcm8_mono_file)
    /\ firstn 4 (skipn (Z.to_nat (cursor f - 8)) pcm8_mono_file) = u32 dataID
    /\ data_starting_offset (fmt pcm8_mono) = Uint32 (cursor f)
    /\ (Z.of_nat (length pcm8_mono_file) < 4294967296 ->
        data_starting_offset (fmt pcm8_mono) = cursor f).
Proof.
  exact (Open_stops_at_the_data 32 8 pcm8_mono_file new_reader pcm8_mono []
           ltac:(vm_compute; reflexivity)).
Defined.

(* ================================================================== *)
(** * Positions and lengths in milliseconds *)

Section Milliseconds.

Variable long_bits : Z.
Hypothesis long_bits_ok : 32 <= long_bits.

Lemma ConvertMsToBytePos_kHz bps ch k ms s :
  SampleRate s = 1000 * k -> 0 < k -> 1000 * k < 2 ^ 24 ->
  0 <= ms -> k * ms < 2 ^ 24 ->
  ConvertMsToBytePos bps ch ms s
  = Returned (Uint32 (k * ms * Uint32 (bps * ch))) s [].
Proof.
  intros Hrate Hk Hr Hms Hframes.
  unfold ConvertMsToBytePos. rewrite bind_gets, Hrate.
  rewrite frames_per_ms_exact by lia.
  rewrite (of_Z_exact ms) by nia.
  rewrite mul_exact by lia.
  unfold float_to_Uint32. rewrite to_Uint32_exact by nia.
  rewrite bind_ret. reflexivity.
Qed.

Lemma ConvertBytePosToMs_kHz bps ch k m pos s :
  SampleRate s = 1000 * k -> 0 < k -> 1000 * k < 2 ^ 24 ->
  0 <= m -> k * m < 2 ^ 24 ->
  Uint32 (bps * ch) <> 0 ->
  pos / Uint32 (bps * ch) = k * m ->
  ConvertBytePosToMs bps ch pos s = Returned m s [].
Proof.
  intros Hrate Hk Hr Hm Hframes Hfs Hpos.
  unfold ConvertBytePosToMs.
  destruct (Z.eqb_spec (Uint32 (bps * ch)) 0) as [E | _]; [contradiction |].
  rewrite bind_gets, Hrate, Hpos.
  rewrite frames_per_ms_exact by lia.
  rewrite (of_Z_exact (k * m)) by nia.
  rewrite div_exact by lia.
  unfold float_to_Uint32. rewrite to_Uint32_exact by nia.
  reflexivity.
Qed.

(** X15.  On an uncompressed stream whose sample rate is a whole number
    [k] of kHz, [SetPosition(ms)] puts the file position on the first
    byte of the frame [k * ms] of the data, at [data_starting_offset +
    k * ms * frame_size]; nothing else in the object changes, no error is
    recorded, and the value returned is -1. *)
Theorem SetPosition_moves_the_stream fuel ms k s f :
  rw s = Some f ->
  wFormatTag (fmt s) = FMT_NORMAL ->
  SampleRate s = 1000 * k -> 0 < k -> 1000 * k < 2 ^ 24 ->
  0 <= ms -> k * ms < 2 ^ 24 ->
  0 < BytesPerSample s * Channels s < 4294967296 ->
  let off := k * ms * (BytesPerSample s * Channels s) in
  0 < data_starting_offset (fmt s) ->
  data_starting_offset (fmt s) + off < 2147483648 ->
  SetPosition long_bits fuel ms s
  = Returned (-1)
      (set_rw (Some (mkFILE (contents f) (data_starting_offset (fmt s) + off)))
              s) [].
Proof.
  intros Hrw Htag Hrate Hk Hr Hms Hframes Hfs off Hdso Hfit.
  assert (H24 : 2 ^ 24 = 16777216) by reflexivity.
  assert (Hu : Uint32 ms = ms) by (apply Uint32_small; nia).
  assert (Hoff : 0 <= off) by (unfold off; nia).
  apply (SetPosition_normal_reports_error long_bits long_bits_ok fuel ms s f
           off s []); try assumption; try lia.
  rewrite Hu, (ConvertMsToBytePos_kHz _ _ k ms s Hrate Hk Hr Hms Hframes).
  rewrite (Uint32_small (BytesPerSample s * Channels s)) by lia.
  fold off. rewrite (Uint32_small off) by lia. reflexivity.
Qed.

Lemma set_rw_back s f x :
  rw s = Some f ->
  set_rw (Some (mkFILE (contents f) (cursor f))) (set_rw x s) = s.
Proof. intros Hrw. destruct s, f. cbn in *. rewrite Hrw. reflexivity. Qed.

(** The length in frames of the data of an uncompressed stream at the
    end of the file, as [get_length_fmt_normal] takes it. *)
Lemma get_length_fmt_normal_run s f m k :
  rw s = Some f ->
  wFormatTag (fmt s) = FMT_NORMAL ->
  SampleRate s = 1000 * k -> 0 < k -> 1000 * k < 2 ^ 24 ->
  0 <= m -> k * m < 2 ^ 24 ->
  0 < BytesPerSample s * Channels s < 4294967296 ->
  let len := Z.of_nat (length (contents f)) in
  len < 2147483648 ->
  0 <= data_starting_offset (fmt s) <= len ->
  (len - data_starting_offset (fmt s)) / (BytesPerSample s * Channels s)
  = k * m ->
  get_length_fmt_normal s
  = Returned m (set_rw (Some (mkFILE (contents f) len)) s) [].
Proof.
  intros Hrw Htag Hrate Hk Hr Hm Hframes Hfs len Hlen Hdso Hdata.
  assert (H24 : 2 ^ 24 = 16777216) by reflexivity.
  unfold get_length_fmt_normal.
  assert (Hend : fseek_end 0 s
                 = Returned 0 (set_rw (Some (mkFILE (contents f) len)) s) []).
  { unfold fseek_end, bind, the_stream. rewrite Hrw.
    fold len. rewrite Z.add_0_r.
    destruct (Z.ltb_spec len 0); [lia | reflexivity]. }
  rewrite (bind_Returned_nil _ _ _ _ _ Hend).
  change (0 =? -1) with false. cbv iota.
  set (s1 := set_rw (Some (mkFILE (contents f) len)) s).
  assert (Hftell : ftell s1 = Returned len s1 []) by reflexivity.
  rewrite (bind_Returned_nil _ _ _ _ _ Hftell).
  rewrite !bind_gets.
  change (fmt s1) with (fmt s). change (BytesPerSample s1) with (BytesPerSample s).
  change (Channels s1) with (Channels s).
  rewrite (Sint32_small len) by lia.
  rewrite (Uint32_small (len - data_starting_offset (fmt s))) by lia.
  assert (Hcv : ConvertBytePosToMs (BytesPerSample s) (Channels s)
                  (len - data_starting_offset (fmt s)) s1
                = Returned m s1 []).
  { apply (ConvertBytePosToMs_kHz _ _ k m); try assumption.
    - rewrite Uint32_small; lia.
    - rewrite Uint32_small by lia. exact Hdata. }
  rewrite (bind_Returned_nil _ _ _ _ _ Hcv).
  rewrite (bind_Returned_nil _ _ _ _ _ Hcv).
  rewrite Sint32_small by nia. reflexivity.
Qed.

(** X16.  On an uncompressed stream whose sample rate is a whole number
    [k] of kHz and whose data, from [data_starting_offset] to the end of
    the file, is [k * m] frames long (a last partial frame not counted),
    [GetLength] returns [m], the length in milliseconds, records no
    error and leaves the object as it was. *)
Theorem GetLength_of_whole_milliseconds tmp s f m k :
  rw s = Some f ->
  0 <= cursor f < 2147483648 ->
  wFormatTag (fmt s) = FMT_NORMAL ->
  SampleRate s = 1000 * k -> 0 < k -> 1000 * k < 2 ^ 24 ->
  0 <= m -> k * m < 2 ^ 24 ->
  0 < BytesPerSample s * Channels s < 4294967296 ->
  let len := Z.of_nat (length (contents f)) in
  len < 2147483648 ->
  0 <= data_starting_offset (fmt s) <= len ->
  (len - data_starting_offset (fmt s)) / (BytesPerSample s * Channels s)
  = k * m ->
  GetLength long_bits tmp s = Returned m s [].
Proof.
  intros Hrw Hpos Htag Hrate Hk Hr Hm Hframes Hfs len Hlen Hdso Hdata.
  unfold GetLength.
  assert (Hftell : ftell s = Returned (cursor f) s []).
  { unfold ftell, bind, the_stream. rewrite Hrw. reflexivity. }
  rewrite (bind_Returned_nil _ _ _ _ _ Hftell).
  rewrite bind_gets, Htag. cbn [Z.eqb FMT_NORMAL Pos.eqb].
  rewrite (bind_Returned_nil _ _ _ _ _
             (get_length_fmt_normal_run s f m k Hrw Htag Hrate Hk Hr Hm
                Hframes Hfs Hlen Hdso Hdata)).
  rewrite Sint32_small by lia.
  rewrite to_long_small by (try exact long_bits_ok; lia).
  rewrite (bind_Returned_nil _ _ _ _ _
             (fseek_set_ok (set_rw (Some (mkFILE (contents f) len)) s)
                (mkFILE (contents f) len) (cursor f) eq_refl
                (proj1 Hpos))).
  change (0 =? -1) with false. cbv iota.
  cbn [contents]. rewrite set_rw_set_rw.
  unfold ret. f_equal.
  destruct s, f. cbn in *. rewrite Hrw. reflexivity.
Qed.

(** X17.  A length query on an uncompressed stream whose frame size is
    zero, as it is when the file declares no channel, divides by zero in
    [ConvertBytePosToMs]. *)
Theorem GetLength_divides_by_the_frame_size tmp s f :
  rw s = Some f ->
  0 <= cursor f < 2147483648 ->
  wFormatTag (fmt s) = FMT_NORMAL ->
  Z.of_nat (length (contents f)) < 2147483648 ->
  Uint32 (BytesPerSample s * Channels s) = 0 ->
  GetLength long_bits tmp s = Faulted DivisionByZero.
Proof.
  intros Hrw Hpos Htag Hlen Hfs.
  unfold GetLength.
  assert (Hftell : ftell s = Returned (cursor f) s []).
  { unfold ftell, bind, the_stream. rewrite Hrw. reflexivity. }
  rewrite (bind_Returned_nil _ _ _ _ _ Hftell).
  rewrite bind_gets, Htag. cbn [Z.eqb FMT_NORMAL Pos.eqb].
  set (len := Z.of_nat (length (contents f))) in *.
  assert (Hnormal : get_length_fmt_normal s = Faulted DivisionByZero).
  { unfold get_length_fmt_normal.
    assert (Hend : fseek_end 0 s
                   = Returned 0 (set_rw (Some (mkFILE (contents f) len)) s) []).
    { unfold fseek_end, bind, the_stream. rewrite Hrw.
      fold len. rewrite Z.add_0_r.
      destruct (Z.ltb_spec len 0); [lia | reflexivity]. }
    rewrite (bind_Returned_nil _ _ _ _ _ Hend).
    change (0 =? -1) with false. cbv iota.
    set (s1 := set_rw (Some (mkFILE (contents f) len)) s).
    assert (Hftell1 : ftell s1 = Returned len s1 []) by reflexivity.
    rewrite (bind_Returned_nil _ _ _ _ _ Hftell1).
    rewrite !bind_gets.
    change (BytesPerSample s1) with (BytesPerSample s).
    change (Channels s1) with (Channels s).
    apply bind_Faulted. unfold ConvertBytePosToMs. rewrite Hfs. reflexivity. }
  apply bind_Faulted. exact Hnormal.
Qed.

End Milliseconds.

Lemma SetPosition_moves_the_stream_witness :
  SetPosition 32 0 2 pcm8_mono
  = Returned (-1) (set_rw (Some (mkFILE pcm8_mono_file (44 + 16))) pcm8_mono) [].
Proof.
  apply (SetPosition_moves_the_stream 32 ltac:(lia) 0 2 8 pcm8_mono
           (mkFILE pcm8_mono_file 44));
    try (vm_compute; reflexivity); try lia;
    vm_compute; split; reflexivity.
Defined.

Lemma GetLength_of_whole_milliseconds_witness :
  GetLength 32 zero_adpcm two_ms = Returned 2 two_ms [].
Proof.
  apply (GetLength_of_whole_milliseconds 32 ltac:(lia) zero_adpcm two_ms
           (mkFILE two_ms_file 44) 2 8);
    try (vm_compute; reflexivity); try lia;
    vm_compute; split; congruence.
Defined.

Lemma GetLength_divides_by_the_frame_size_witness :
  result_of (Open 32 8 no_channel_file new_reader) = Some OPEN_OK
  /\ GetLength 32 zero_adpcm no_channel = Faulted DivisionByZero.
Proof.
  split; [vm_compute; reflexivity |].
  apply (GetLength_divides_by_the_frame_size 32 zero_adpcm
           no_channel (mkFILE no_channel_file 44));
    try (vm_compute; reflexivity);
    vm_compute; split; congruence.
Defined.

(* ================================================================== *)
(** * Block headers *)

Section BlockHeaders.

Lemma set_blockheaders_same out :
  set_blockheaders (blockheaders out) out = out.
Proof. destruct out. reflexivity. Qed.

Lemma index_app {A} (done : list A) t todo :
  forall s, index (done ++ t :: todo) (Z.of_nat (length done)) s
            = Returned t s [].
Proof.
  intros s. unfold index.
  destruct (Z.ltb_spec (Z.of_nat (length done)) 0); [lia |].
  rewrite Nat2Z.id, nth_error_app2, Nat.sub_diag by lia. reflexivity.
Qed.

Lemma list_update_app {A} (done : list A) t todo x :
  list_update (done ++ t :: todo) (length done) x = Some (done ++ x :: todo).
Proof.
  induction done as [| d done IH]; [reflexivity |].
  cbn [app length list_update]. rewrite IH. reflexivity.
Qed.

Lemma store_app {A} (done : list A) t todo x :
  forall s, store (done ++ t :: todo) (Z.of_nat (length done)) x s
            = Returned (done ++ x :: todo) s [].
Proof.
  intros s. unfold store.
  destruct (Z.ltb_spec (Z.of_nat (length done)) 0); [lia |].
  rewrite Nat2Z.id, list_update_app. reflexivity.
Qed.

Lemma advanced_advanced n m f s :
  advanced m (mkFILE (contents f) (cursor f + n)) (advanced n f s)
  = advanced (n + m) f s.
Proof.
  unfold advanced. cbn [contents cursor].
  rewrite set_rw_set_rw, Z.add_assoc. reflexivity.
Qed.

(** One of the four loops, on the bytes of its field for every channel. *)
Lemma read_header_field_run rd upd enc post w :
  (forall h, length (enc h) = w) ->
  (forall s f h rest,
      rw s = Some f -> ahead f = enc h ++ rest ->
      rd s = Returned (Some (post (le_decode (enc h))))
                      (advanced (Z.of_nat w) f s) []) ->
  forall hs done todo out s f rest,
    rw s = Some f ->
    0 <= cursor f ->
    ahead f = flat_map enc hs ++ rest ->
    length todo = length hs ->
    blockheaders out = done ++ todo ->
    read_header_field rd upd (seq (length done) (length hs)) out s
    = Returned (true, set_blockheaders (done ++ fill upd enc post hs todo) out)
               (advanced (Z.of_nat (w * length hs)) f s) [].
Proof.
  intros Hw Hrd.
  induction hs as [| h hs IH]; intros done todo out s f rest Hrw Hpos Hahead
                                      Hlen Hout.
  - destruct todo; [| discriminate].
    cbn [length seq read_header_field fill combine map].
    rewrite Nat.mul_0_r. change (Z.of_nat 0) with 0.
    rewrite (advanced_0 f s Hrw), <- Hout, set_blockheaders_same.
    reflexivity.
  - destruct todo as [| t todo]; [discriminate |].
    cbn [length seq read_header_field].
    cbn [flat_map] in Hahead. rewrite <- app_assoc in Hahead.
    rewrite (bind_Returned_nil _ _ _ _ _ (Hrd s f h _ Hrw Hahead)).
    rewrite Hout.
    rewrite (bind_Returned_nil _ _ _ _ _ (index_app done t todo _)).
    set (x := upd (post (le_decode (enc h))) t).
    rewrite (bind_Returned_nil _ _ _ _ _ (store_app done t todo x _)).
    set (f1 := mkFILE (contents f) (cursor f + Z.of_nat w)).
    assert (Hahead1 : ahead f1 = flat_map enc hs ++ rest).
    { refine (ahead_advanced f (Z.of_nat w) (enc h) _ Hpos Hahead _).
      rewrite Hw. reflexivity. }
    replace (S (length done)) with (length (done ++ [x]))
      by (rewrite length_app; cbn [length]; lia).
    rewrite (IH (done ++ [x]) todo
                (set_blockheaders (done ++ x :: todo) out)
                (advanced (Z.of_nat w) f s) f1 rest eq_refl
                ltac:(cbn [cursor f1]; lia) Hahead1
                ltac:(cbn [length] in Hlen; lia)
                ltac:(cbn [blockheaders set_blockheaders];
                      rewrite <- app_assoc; reflexivity)).
    unfold f1. rewrite advanced_advanced.
    f_equal.
    + f_equal. cbn [fill combine map fst snd]. fold x.
      rewrite <- app_assoc. reflexivity.
    + f_equal. lia.
Qed.

Lemma read_uint8_run s f b rest :
  rw s = Some f ->
  ahead f = [b] ++ rest ->
  read_uint8 s = Returned (Some (le_decode [b])) (advanced 1 f s) [].
Proof.
  intros Hrw Hahead. unfold read_uint8.
  rewrite (bind_Returned_nil _ _ _ _ _
             (read_item_advances s f [b] rest Hrw Hahead)).
  reflexivity.
Qed.

Lemma read_le16_run s f v rest :
  rw s = Some f ->
  ahead f = u16 v ++ rest ->
  read_le16_unsigned s
  = Returned (Some (le_decode (u16 v))) (advanced 2 f s) []
  /\ read_le16_signed s
     = Returned (Some (Sint16 (le_decode (u16 v)))) (advanced 2 f s) [].
Proof.
  intros Hrw Hahead. unfold read_le16_unsigned, read_le16_signed.
  pose proof (read_item_advances s f (u16 v) rest Hrw Hahead) as Hitem.
  change (Z.of_nat (length (u16 v))) with 2 in Hitem.
  rewrite !(bind_Returned_nil _ _ _ _ _ Hitem). split; reflexivity.
Qed.

Lemma fill_length upd enc post hs olds :
  length olds = length hs -> length (fill upd enc post hs olds) = length hs.
Proof.
  intros H. unfold fill. rewrite length_map, length_combine. lia.
Qed.

(** The four loops one after the other give back the headers encoded. *)
Lemma four_passes hs :
  Forall header_in_range hs ->
  forall olds,
    length olds = length hs ->
    fill set_iSamp1 (fun h => u16 (iSamp1 h)) Sint16 hs
      (fill set_iSamp0 (fun h => u16 (iSamp0 h)) Sint16 hs
         (fill set_iDelta (fun h => u16 (iDelta h)) (fun z => z) hs
            (fill set_bPredictor (fun h => [byte_of_Z (bPredictor h)])
                  (fun z => z) hs olds)))
    = hs.
Proof.
  induction 1 as [| h hs (Hp & Hd & H0 & H1) _ IH]; intros olds Hlen.
  - reflexivity.
  - destruct olds as [| t olds]; [discriminate |].
    unfold fill in *. cbn [combine map fst snd].
    rewrite IH by (cbn [length] in Hlen; lia).
    f_equal.
    change [byte_of_Z (bPredictor h)] with (le_encode 1 (bPredictor h)).
    unfold u16. rewrite !le_decode_encode.
    change (256 ^ Z.of_nat 1) with 256. change (256 ^ Z.of_nat 2) with 65536.
    rewrite !Sint16_mod, (Z.mod_small (bPredictor h)),
      (Z.mod_small (iDelta h)), !Sint16_small by lia.
    destruct h. reflexivity.
Qed.

(** The four passes of [read_adpcm_block_headers] on the bytes of a
    block's headers. *)
Lemma read_adpcm_block_headers_run out s f hs rest :
  rw s = Some f ->
  0 <= cursor f ->
  ahead f = block_header_bytes hs ++ rest ->
  Forall header_in_range hs ->
  length hs = Z.to_nat (wChannels (fmt s)) ->
  length (blockheaders out) = length hs ->
  read_adpcm_block_headers out s
  = Returned (true,
              set_nibble_state 0
                (set_samples_left_in_block (wSamplesPerBlock out)
                   (set_blockheaders hs out)))
             (advanced (7 * Z.of_nat (length hs)) f s) [].
Proof.
  intros Hrw Hpos Hahead Hrange Hn Hout.
  unfold read_adpcm_block_headers. rewrite bind_gets.
  unfold channel_indices. rewrite <- Hn.
  set (n := length hs) in *.
  unfold block_header_bytes in Hahead. rewrite <- !app_assoc in Hahead.
  assert (Hmap : map (fun h => byte_of_Z (bPredictor h)) hs
                 = flat_map (fun h => [byte_of_Z (bPredictor h)]) hs).
  { clear. induction hs as [| h hs IH]; [reflexivity |].
    cbn [map flat_map app]. rewrite IH. reflexivity. }
  rewrite Hmap in Hahead.
  (* predictors *)
  set (L1 := fill set_bPredictor (fun h => [byte_of_Z (bPredictor h)])
                  (fun z => z) hs (blockheaders out)).
  pose proof (read_header_field_run read_uint8 set_bPredictor
                (fun h => [byte_of_Z (bPredictor h)]) (fun z => z) 1
                (fun _ => eq_refl)
                (fun s f h rest => read_uint8_run s f _ rest)
                hs [] (blockheaders out) out s f _ Hrw Hpos Hahead Hout
                eq_refl) as P1.
  cbn [length app] in P1. fold n L1 in P1.
  rewrite (bind_Returned_nil _ _ _ _ _ P1). cbv beta iota. cbn [negb].
  set (w1 := Z.of_nat (1 * n)) in *.
  set (f1 := mkFILE (contents f) (cursor f + w1)).
  assert (A1 : ahead f1
               = flat_map (fun h => u16 (iDelta h)) hs
                 ++ flat_map (fun h => u16 (iSamp0 h)) hs
                 ++ flat_map (fun h => u16 (iSamp1 h)) hs ++ rest).
  { refine (ahead_advanced f w1 _ _ Hpos Hahead _).
    unfold w1. rewrite <- Hmap, length_map. fold n. lia. }
  (* deltas *)
  set (L2 := fill set_iDelta (fun h => u16 (iDelta h)) (fun z => z) hs L1).
  pose proof (read_header_field_run read_le16_unsigned set_iDelta
                (fun h => u16 (iDelta h)) (fun z => z) 2
                (fun _ => eq_refl)
                (fun s f h rest Hrw Ha => proj1 (read_le16_run s f _ rest Hrw Ha))
                hs [] L1 (set_blockheaders L1 out) (advanced w1 f s) f1 _
                eq_refl ltac:(cbn [cursor f1]; lia) A1
                (fill_length _ _ _ _ _ Hout) eq_refl) as P2.
  cbn [length app] in P2. fold n L2 in P2.
  rewrite (bind_Returned_nil _ _ _ _ _ P2). cbv beta iota. cbn [negb].
  set (w2 := Z.of_nat (2 * n)) in *.
  set (f2 := mkFILE (contents f1) (cursor f1 + w2)).
  assert (Hflat : forall (g : ADPCMBLOCKHEADER -> Z),
             length (flat_map (fun h => u16 (g h)) hs) = (2 * n)%nat).
  { intros g. unfold n. clear. induction hs as [| h hs IH]; [reflexivity |].
    cbn [flat_map]. rewrite length_app, IH. cbn [length u16 le_encode]. lia. }
  assert (A2 : ahead f2
               = flat_map (fun h => u16 (iSamp0 h)) hs
                 ++ flat_map (fun h => u16 (iSamp1 h)) hs ++ rest).
  { refine (ahead_advanced f1 w2 _ _ ltac:(cbn [cursor f1]; lia) A1 _).
    unfold w2. rewrite Hflat. reflexivity. }
  (* newest samples *)
  set (L3 := fill set_iSamp0 (fun h => u16 (iSamp0 h)) Sint16 hs L2).
  pose proof (read_header_field_run read_le16_signed set_iSamp0
                (fun h => u16 (iSamp0 h)) Sint16 2
                (fun _ => eq_refl)
                (fun s f h rest Hrw Ha => proj2 (read_le16_run s f _ rest Hrw Ha))
                hs [] L2 (set_blockheaders L2 (set_blockheaders L1 out))
                (advanced w2 f1 (advanced w1 f s)) f2 _
                eq_refl ltac:(cbn [cursor f1 f2]; lia) A2
                (fill_length _ _ _ _ _ (fill_length _ _ _ _ _ Hout))
                eq_refl) as P3.
  cbn [length app] in P3. fold n L3 in P3.
  rewrite (bind_Returned_nil _ _ _ _ _ P3). cbv beta iota. cbn [negb].
  set (f3 := mkFILE (contents f2) (cursor f2 + w2)).
  assert (A3 : ahead f3 = flat_map (fun h => u16 (iSamp1 h)) hs ++ rest).
  { refine (ahead_advanced f2 w2 _ _ ltac:(cbn [cursor f1 f2]; lia) A2 _).
    unfold w2. rewrite Hflat. reflexivity. }
  (* the samples before *)
  pose proof (read_header_field_run read_le16_signed set_iSamp1
                (fun h => u16 (iSamp1 h)) Sint16 2
                (fun _ => eq_refl)
                (fun s f h rest Hrw Ha => proj2 (read_le16_run s f _ rest Hrw Ha))
                hs [] L3
                (set_blockheaders L3
                   (set_blockheaders L2 (set_blockheaders L1 out)))
                (advanced w2 f2 (advanced w2 f1 (advanced w1 f s))) f3 _
                eq_refl ltac:(cbn [cursor f1 f2 f3]; lia) A3
                (fill_length _ _ _ _ _
                   (fill_length _ _ _ _ _ (fill_length _ _ _ _ _ Hout)))
                eq_refl) as P4.
  cbn [length app] in P4. fold n in P4.
  rewrite (bind_Returned_nil _ _ _ _ _ P4). cbv beta iota. cbn [negb].
  unfold L3, L2, L1. rewrite (four_passes hs Hrange _ Hout).
  unfold ret. f_equal.
  unfold f3, f2, f1. rewrite !advanced_advanced. f_equal. unfold w1, w2. lia.
Qed.

(** X18.  [read_adpcm_block_headers] reads a block's headers field by
    field, not channel by channel: the predictor bytes of all channels,
    then their deltas, then their newest samples, then the samples before
    them, two-byte fields least significant byte first.  On the bytes
    that encode the headers [hs] this way it returns [true], the headers
    of [out] are [hs], [samples_left_in_block] is the block's sample
    count, [nibble_state] is 0, and the stream is seven bytes per channel
    further on. *)
Theorem read_adpcm_block_headers_round_trip out s f hs rest :
  rw s = Some f ->
  0 <= cursor f ->
  ahead f = block_header_bytes hs ++ rest ->
  Forall header_in_range hs ->
  length hs = Z.to_nat (wChannels (fmt s)) ->
  length (blockheaders out) = length hs ->
  read_adpcm_block_headers out s
  = Returned (true,
              set_nibble_state 0
                (set_samples_left_in_block (wSamplesPerBlock out)
                   (set_blockheaders hs out)))
             (advanced (7 * Z.of_nat (length hs)) f s) [].
Proof. exact (read_adpcm_block_headers_run out s f hs rest). Qed.

End BlockHeaders.

Lemma read_adpcm_block_headers_round_trip_witness :
  let hs := [mkHeader 1 16 100 50; mkHeader 0 32 (-7) 9] in
  let f := mkFILE (block_header_bytes hs ++ [x12]) 0 in
  let s := set_fmt (set_wChannels 2 zero_fmt) (set_rw (Some f) new_reader) in
  let out := set_wSamplesPerBlock 6
               (set_blockheaders [zero_header; zero_header] zero_adpcm) in
  read_adpcm_block_headers out s
  = Returned (true,
              set_nibble_state 0
                (set_samples_left_in_block 6 (set_blockheaders hs out)))
             (advanced 14 f s) [].
Proof.
  intros hs f s out.
  apply (read_adpcm_block_headers_round_trip out s f hs [x12]);
    try reflexivity; try (cbn; lia).
  repeat constructor; cbn; lia.
Defined.

(* ================================================================== *)
(** * Decoding a sample frame *)

Section Nibbles.

Lemma index_at {A} (l : list A) i a :
  0 <= i -> nth_error l (Z.to_nat i) = Some a ->
  forall s, index l i s = Returned a s [].
Proof.
  intros Hi Hnth s. unfold index.
  destruct (Z.ltb_spec i 0); [lia |]. rewrite Hnth. reflexivity.
Qed.

Lemma put_header_run done (h : ADPCMBLOCKHEADER) todo x s :
  blockheaders (adpcm s) = done ++ h :: todo ->
  put_header (Z.of_nat (length done)) x s
  = Returned tt
      (set_adpcm (set_blockheaders (done ++ x :: todo) (adpcm s)) s) [].
Proof.
  intros Hh. unfold put_header. rewrite bind_gets, Hh.
  rewrite (bind_Returned_nil _ _ _ _ _ (store_app done h todo x s)).
  reflexivity.
Qed.

(** A channel's turn when a new byte is due: the byte is read and its
    high nibble decoded. *)
Lemma decode_channels_high idxs nib s f b rest done h todo c :
  rw s = Some f ->
  ahead f = [b] ++ rest ->
  blockheaders (adpcm s) = done ++ h :: todo ->
  0 <= bPredictor h ->
  nth_error (aCoef (adpcm s)) (Z.to_nat (bPredictor h)) = Some c ->
  nibble_state (adpcm s) = 0 ->
  decode_channels (length done :: idxs) nib s
  = decode_channels idxs (byte_to_Z b)
      (set_adpcm
         (set_blockheaders
            (done ++ adpcm_decode_step c (Z.shiftr (byte_to_Z b) 4) h :: todo)
            (set_nibble_state 1 (adpcm s)))
         (advanced 1 f s)).
Proof.
  intros Hrw Hahead Hh Hp Hc Hst. cbn [decode_channels].
  rewrite bind_gets, Hh.
  rewrite (bind_Returned_nil _ _ _ _ _ (index_app done h todo s)).
  rewrite (bind_Returned_nil _ _ _ _ _ (index_at _ _ c Hp Hc s)).
  rewrite Hst. cbn [Z.eqb].
  rewrite (bind_Returned_nil _ _ _ _ _ (read_uint8_run s f b rest Hrw Hahead)).
  rewrite bind_modify.
  rewrite (bind_Returned_nil _ _ _ _ _
             (put_header_run done h todo _
                (upd_adpcm set_nibble_state 1 (advanced 1 f s)) Hh)).
  cbn [le_decode fold_right]. rewrite Z.mul_0_r, Z.add_0_r.
  reflexivity.
Qed.

(** A channel's turn when the low nibble of the last byte is still to be
    used: nothing is read. *)
Lemma decode_channels_low idxs nib s done h todo c :
  blockheaders (adpcm s) = done ++ h :: todo ->
  0 <= bPredictor h ->
  nth_error (aCoef (adpcm s)) (Z.to_nat (bPredictor h)) = Some c ->
  nibble_state (adpcm s) <> 0 ->
  decode_channels (length done :: idxs) nib s
  = decode_channels idxs nib
      (set_adpcm
         (set_blockheaders
            (done ++ adpcm_decode_step c (Z.land nib 15) h :: todo)
            (set_nibble_state 0 (adpcm s)))
         s).
Proof.
  intros Hh Hp Hc Hst. cbn [decode_channels].
  rewrite bind_gets, Hh.
  rewrite (bind_Returned_nil _ _ _ _ _ (index_app done h todo s)).
  rewrite (bind_Returned_nil _ _ _ _ _ (index_at _ _ c Hp Hc s)).
  destruct (Z.eqb_spec (nibble_state (adpcm s)) 0) as [E | _];
    [contradiction |].
  rewrite bind_modify.
  rewrite (bind_Returned_nil _ _ _ _ _
             (put_header_run done h todo _
                (upd_adpcm set_nibble_state 0 s) Hh)).
  reflexivity.
Qed.

Lemma byte_is_Uint8 b : Uint8 (byte_to_Z b) = byte_to_Z b.
Proof. apply Uint8_small, byte_to_Z_range. Qed.

(** X19.  A byte holds two nibbles and the high one comes first.  On a
    mono stream with a new byte due, two calls of
    [decode_adpcm_sample_frame] read one byte between them: the first
    decodes its high nibble, the second its low nibble, each with the
    coefficient pair that the channel's predictor selects; after them a
    new byte is due again. *)
Theorem decode_takes_the_high_nibble_first s f b rest h c :
  rw s = Some f ->
  ahead f = b :: rest ->
  wChannels (fmt s) = 1 ->
  blockheaders (adpcm s) = [h] ->
  0 <= bPredictor h ->
  nth_error (aCoef (adpcm s)) (Z.to_nat (bPredictor h)) = Some c ->
  nibble_state (adpcm s) = 0 ->
  let high := Z.shiftr (byte_to_Z b) 4 in
  let low := Z.land (byte_to_Z b) 15 in
  exists s1 s2,
    decode_adpcm_sample_frame s = Returned true s1 []
    /\ rw s1 = Some (mkFILE (contents f) (cursor f + 1))
    /\ blockheaders (adpcm s1) = [adpcm_decode_step c high h]
    /\ decode_adpcm_sample_frame s1 = Returned true s2 []
    /\ rw s2 = rw s1
    /\ blockheaders (adpcm s2)
       = [adpcm_decode_step c low (adpcm_decode_step c high h)]
    /\ nibble_state (adpcm s2) = 0.
Proof.
  intros Hrw Hahead Hch Hh Hp Hc Hst high low.
  set (h1 := adpcm_decode_step c high h).
  set (a1 := set_blockheaders [h1] (set_nibble_state 1 (adpcm s))).
  set (s1 := set_adpcm (set_nibble (byte_to_Z b) a1) (advanced 1 f s)).
  set (a2 := set_blockheaders [adpcm_decode_step c low h1]
               (set_nibble_state 0 (adpcm s1))).
  set (s2 := set_adpcm (set_nibble (byte_to_Z b) a2) s1).
  exists s1, s2.
  assert (First : decode_adpcm_sample_frame s = Returned true s1 []).
  { unfold decode_adpcm_sample_frame. rewrite bind_gets.
    unfold channel_indices. rewrite Hch. cbn [Z.to_nat Pos.to_nat Pos.iter_op
                                                Nat.add seq].
    rewrite bind_gets.
    pose proof (decode_channels_high [] (Uint8 (nibble (adpcm s))) s f b rest
                  [] h [] c Hrw Hahead Hh Hp Hc Hst) as Hd.
    cbn [length decode_channels app] in Hd. unfold ret in Hd.
    rewrite (bind_Returned_nil _ _ _ _ _ Hd), bind_modify. reflexivity. }
  assert (Second : decode_adpcm_sample_frame s1 = Returned true s2 []).
  { unfold decode_adpcm_sample_frame. rewrite bind_gets.
    unfold channel_indices.
    change (wChannels (fmt s1)) with (wChannels (fmt s)). rewrite Hch.
    cbn [Z.to_nat Pos.to_nat Pos.iter_op Nat.add seq].
    rewrite bind_gets.
    change (nibble (adpcm s1)) with (byte_to_Z b). rewrite byte_is_Uint8.
    pose proof (decode_channels_low [] (byte_to_Z b) s1 [] h1 [] c eq_refl
                  Hp Hc ltac:(cbn; discriminate)) as Hd.
    cbn [length decode_channels app] in Hd. unfold ret in Hd.
    rewrite (bind_Returned_nil _ _ _ _ _ Hd), bind_modify. reflexivity. }
  repeat split; assumption || reflexivity.
Qed.

(** X20.  On a stereo stream one call of [decode_adpcm_sample_frame]
    decodes a sample of each channel from one byte: the high nibble is
    the left channel's, the low nibble the right channel's. *)
Theorem decode_shares_a_byte_between_two_channels s f b rest h0 h1 c0 c1 :
  rw s = Some f ->
  ahead f = b :: rest ->
  wChannels (fmt s) = 2 ->
  blockheaders (adpcm s) = [h0; h1] ->
  0 <= bPredictor h0 -> 0 <= bPredictor h1 ->
  nth_error (aCoef (adpcm s)) (Z.to_nat (bPredictor h0)) = Some c0 ->
  nth_error (aCoef (adpcm s)) (Z.to_nat (bPredictor h1)) = Some c1 ->
  nibble_state (adpcm s) = 0 ->
  exists s',
    decode_adpcm_sample_frame s = Returned true s' []
    /\ rw s' = Some (mkFILE (contents f) (cursor f + 1))
    /\ blockheaders (adpcm s')
       = [adpcm_decode_step c0 (Z.shiftr (byte_to_Z b) 4) h0;
          adpcm_decode_step c1 (Z.land (byte_to_Z b) 15) h1]
    /\ nibble_state (adpcm s') = 0.
Proof.
  intros Hrw Hahead Hch Hh Hp0 Hp1 Hc0 Hc1 Hst.
  unfold decode_adpcm_sample_frame. rewrite bind_gets.
  unfold channel_indices. rewrite Hch.
  cbn [Z.to_nat Pos.to_nat Pos.iter_op Nat.add seq].
  rewrite bind_gets.
  pose proof (decode_channels_high [1%nat] (Uint8 (nibble (adpcm s))) s f b
                rest [] h0 [h1] c0 Hrw Hahead Hh Hp0 Hc0 Hst) as Hd.
  cbn [length app] in Hd.
  set (g0 := adpcm_decode_step c0 (Z.shiftr (byte_to_Z b) 4) h0) in *.
  set (sa := set_adpcm (set_blockheaders [g0; h1]
                          (set_nibble_state 1 (adpcm s)))
                       (advanced 1 f s)) in *.
  set (g1 := adpcm_decode_step c1 (Z.land (byte_to_Z b) 15) h1).
  assert (Hd' : decode_channels [1%nat] (byte_to_Z b) sa
                = Returned (Some (byte_to_Z b))
                    (set_adpcm (set_blockheaders [g0; g1]
                                  (set_nibble_state 0 (adpcm sa))) sa) [])
    by exact (decode_channels_low [] (byte_to_Z b) sa [g0] h1 [] c1 eq_refl
                Hp1 Hc1 ltac:(cbn; discriminate)).
  rewrite Hd' in Hd.
  rewrite (bind_Returned_nil _ _ _ _ _ Hd), bind_modify.
  eexists. split; [reflexivity |]. repeat split.
Qed.

(** X21.  The predictor byte of a block header is used as an index into
    the coefficient table as it is read: with a predictor that is not
    below the number of coefficient pairs, [decode_adpcm_sample_frame]
    reads outside the table. *)
Theorem decode_trusts_the_predictor s h hs n :
  Z.to_nat (wChannels (fmt s)) = S n ->
  blockheaders (adpcm s) = h :: hs ->
  Z.of_nat (length (aCoef (adpcm s))) <= bPredictor h ->
  decode_adpcm_sample_frame s = Faulted OutOfBounds.
Proof.
  intros Hch Hh Hp.
  unfold decode_adpcm_sample_frame. rewrite bind_gets.
  unfold channel_indices. rewrite Hch. cbn [seq].
  rewrite bind_gets. apply bind_Faulted.
  cbn [decode_channels]. rewrite bind_gets, Hh.
  rewrite (bind_Returned_nil _ _ _ _ _ (index_app [] h hs s)).
  apply bind_Faulted. unfold index.
  destruct (Z.ltb_spec (bPredictor h) 0); [reflexivity |].
  destruct (nth_error (aCoef (adpcm s)) (Z.to_nat (bPredictor h))) eqn:E;
    [| reflexivity].
  assert (Hlt : (Z.to_nat (bPredictor h) < length (aCoef (adpcm s)))%nat)
    by (apply nth_error_Some; rewrite E; discriminate).
  lia.
Qed.

End Nibbles.

Lemma decode_takes_the_high_nibble_first_witness :
  let c := mkCoef 256 0 in
  let h := mkHeader 0 16 100 50 in
  (exists s1 s2,
      decode_adpcm_sample_frame adpcm_mono_in_block = Returned true s1 []
      /\ rw s1 = Some (mkFILE adpcm_mono_file (65 + 1))
      /\ blockheaders (adpcm s1) = [adpcm_decode_step c 1 h]
      /\ decode_adpcm_sample_frame s1 = Returned true s2 []
      /\ rw s2 = rw s1
      /\ blockheaders (adpcm s2)
         = [adpcm_decode_step c 2 (adpcm_decode_step c 1 h)]
      /\ nibble_state (adpcm s2) = 0)
  /\ nth_error adpcm_mono_file 65 = Some x12
  /\ adpcm_decode_step c 2 (adpcm_decode_step c 1 h) = mkHeader 0 16 148 116
  /\ adpcm_decode_step c 1 (adpcm_decode_step c 2 h) = mkHeader 0 16 148 132.
Proof.
  intros c h. split; [| repeat split].
  exact (decode_takes_the_high_nibble_first adpcm_mono_in_block
           (mkFILE adpcm_mono_file 65) x12
           (skipn 66 adpcm_mono_file) h c
           eq_refl ltac:(vm_compute; reflexivity) eq_refl eq_refl
           ltac:(cbn; lia) eq_refl eq_refl).
Defined.

Lemma decode_shares_a_byte_between_two_channels_witness :
  let h0 := mkHeader 0 16 100 50 in
  let h1 := mkHeader 0 32 (-7) 9 in
  let c := mkCoef 256 0 in
  let f := mkFILE [x9f; x00] 0 in
  let s := set_adpcm (set_aCoef [c] (set_blockheaders [h0; h1] zero_adpcm))
             (set_fmt (set_wChannels 2 zero_fmt)
                      (set_rw (Some f) new_reader)) in
  exists s',
    decode_adpcm_sample_frame s = Returned true s' []
    /\ rw s' = Some (mkFILE [x9f; x00] 1)
    /\ blockheaders (adpcm s')
       = [adpcm_decode_step c 9 h0; adpcm_decode_step c 15 h1]
    /\ nibble_state (adpcm s') = 0.
Proof.
  intros h0 h1 c f s.
  exact (decode_shares_a_byte_between_two_channels s f x9f [x00] h0 h1 c c
           eq_refl eq_refl eq_refl eq_refl ltac:(cbn; lia) ltac:(cbn; lia)
           eq_refl eq_refl eq_refl).
Defined.

Lemma decode_trusts_the_predictor_witness :
  let s := set_adpcm (set_blockheaders [mkHeader 7 16 0 0] (adpcm adpcm_mono))
                     adpcm_mono in
  length (aCoef (adpcm s)) = 2%nat
  /\ decode_adpcm_sample_frame s = Faulted OutOfBounds.
Proof.
  intros s. split; [vm_compute; reflexivity |].
  apply (decode_trusts_the_predictor s (mkHeader 7 16 0 0) [] 0);
    [vm_compute; reflexivity | reflexivity | vm_compute; discriminate].
Defined.

(* ================================================================== *)
(** * Chunks that are passed over *)

Section PassingOver.

Variable long_bits : Z.
Hypothesis long_bits_ok : 32 <= long_bits.

(** X22.  A chunk with another identifier is passed over: when its
    declared size is not negative and the chunk ends before 2 GiB, the
    scanner goes on as if it had been started on the byte after the
    chunk's payload. *)
Theorem find_chunk_passes_over_other_chunks
        id fuel s f i0 i1 i2 i3 z0 z1 z2 z3 rest :
  rw s = Some f ->
  0 <= cursor f ->
  ahead f = i0 :: i1 :: i2 :: i3 :: z0 :: z1 :: z2 :: z3 :: rest ->
  le_decode [i0; i1; i2; i3] <> id ->
  let size := Sint32 (le_decode [z0; z1; z2; z3]) in
  0 <= size ->
  cursor f + 8 + size < 2147483648 ->
  find_chunk long_bits (S fuel) id s
  = find_chunk long_bits fuel id
      (set_rw (Some (mkFILE (contents f) (cursor f + 8 + size))) s).
Proof.
  intros Hrw Hpos Hahead Hid size Hsize Hfit.
  unfold find_chunk.
  assert (Hftell : ftell s = Returned (cursor f) s []).
  { unfold ftell, bind, the_stream. rewrite Hrw. reflexivity. }
  rewrite (bind_Returned_nil _ _ _ _ _ Hftell).
  set (s' := set_rw (Some (mkFILE (contents f) (cursor f + 8 + size))) s).
  assert (Hftell' : ftell s' = Returned (cursor f + 8 + size) s' [])
    by reflexivity.
  rewrite (bind_Returned_nil _ _ _ _ _ Hftell').
  rewrite (Uint32_small (cursor f)), (Uint32_small (cursor f + 8 + size))
    by lia.
  cbn [find_chunk_loop].
  assert (Hstep : find_chunk_step long_bits id (cursor f) s
                  = Returned (Next (cursor f + 8 + size)) s' []).
  { rewrite (find_chunk_step_header long_bits id _ s f _ _ _ _ _ _ _ _ rest
               Hrw Hpos Hahead).
    cbv zeta. fold size.
    destruct (Z.eqb_spec (le_decode [i0; i1; i2; i3]) id) as [E | _];
      [contradiction |].
    destruct (Z.ltb_spec size 0) as [E | _]; [lia |].
    replace (cursor f + 4 * 2 + size) with (cursor f + 8 + size) by lia.
    rewrite (Uint32_small (cursor f + 8 + size)) by lia.
    rewrite to_long_small by (try exact long_bits_ok; lia).
    rewrite (fseek_set_ok
               (set_rw (Some (mkFILE (contents f) (cursor f + 8))) s)
               (mkFILE (contents f) (cursor f + 8)) (cursor f + 8 + size)
               eq_refl ltac:(lia)).
    change (0 =? -1) with false. cbv iota.
    cbn [contents]. rewrite set_rw_set_rw. reflexivity. }
  rewrite (bind_Returned_nil _ _ _ _ _ Hstep). reflexivity.
Qed.

End PassingOver.

Lemma find_chunk_passes_over_other_chunks_witness :
  find_chunk 32 2 dataID (set_rw (Some (mkFILE odd_chunk_list 0)) new_reader)
  = find_chunk 32 1 dataID
      (set_rw (Some (mkFILE odd_chunk_list (0 + 8 + 1))) new_reader).
Proof.
  exact (find_chunk_passes_over_other_chunks 32 ltac:(lia) dataID 1
           (set_rw (Some (mkFILE odd_chunk_list 0)) new_reader)
           (mkFILE odd_chunk_list 0) _ _ _ _ _ _ _ _ _
           eq_refl ltac:(cbn; lia) eq_refl ltac:(vm_compute; discriminate)
           ltac:(vm_compute; discriminate) ltac:(vm_compute; reflexivity)).
Defined.

(* ================================================================== *)
(** * The streams a caller holds *)

Section Held.

Variable long_bits : Z.
Variable char_is_signed : bool.

(** X23.  Whatever sequence of [Read], [SetPosition] and [GetLength]
    calls has returned since the successful [Open], the object has its
    stream, at a position that is not negative; its format tag is one of
    the two supported ones; it has at most two channels; the sample size
    is 8 or 16 bits, or 4 bits with ADPCM, with the conversion and the
    bytes per sample that go with it; and the frame size is the bytes
    per sample times the channels. *)
Theorem open_streams_stay_well_formed s :
  open_stream long_bits char_is_signed s ->
  (exists f, rw s = Some f /\ 0 <= cursor f)
  /\ (wFormatTag (fmt s) = FMT_NORMAL \/ wFormatTag (fmt s) = FMT_ADPCM)
  /\ 0 <= Channels s <= 2
  /\ ((wBitsPerSample (fmt s) = 4 /\ wFormatTag (fmt s) = FMT_ADPCM
       /\ Conversion s = CONV_NONE /\ BytesPerSample s = 2)
      \/ (wBitsPerSample (fmt s) = 8
          /\ Conversion s = CONV_8BIT_TO_16BIT /\ BytesPerSample s = 1)
      \/ (wBitsPerSample (fmt s) = 16
          /\ Conversion s = CONV_16LSB_TO_16SYS /\ BytesPerSample s = 2))
  /\ adpcm_sample_frame_size (fmt s) = BytesPerSample s * Channels s.
Proof.
  intros Hopen.
  destruct (open_stream_invariant _ _ _ Hopen) as [W C].
  split.
  { pose proof (wf_rw s W) as Hrw. unfold cursor_ok in C.
    destruct (rw s) as [f |]; [| contradiction].
    exists f. split; [reflexivity | exact C]. }
  split; [exact (wf_tag s W) |].
  split.
  { destruct (wf_channels s W) as [E Hle].
    pose proof (Uint8_range (wChannels (fmt s))). lia. }
  split; [exact (wf_conversion s W) | exact (wf_frame_size s W)].
Qed.

End Held.

Lemma open_streams_stay_well_formed_witness :
  (exists f, rw pcm8_mono_drained = Some f /\ 0 <= cursor f)
  /\ 0 <= Channels pcm8_mono_drained <= 2.
Proof.
  destruct (open_streams_stay_well_formed 32 true pcm8_mono_drained
              pcm8_mono_drained_open) as (H1 & _ & H2 & _).
  split; assumption.
Defined.

(* ================================================================== *)
(** * The decoding loop *)

Section WithinFuel.

Context {A B : Type}.

Lemma within_fuel_bind (m : M A) (k : A -> M B) :
  within_fuel m -> (forall a, within_fuel (k a)) -> within_fuel (bind m k).
Proof.
  intros Hm Hk s. unfold bind.
  destruct (m s) as [a s1 e1 | f] eqn:E1.
  - destruct (k a s1) as [b s2 e2 | f] eqn:E2; [discriminate |].
    intros Hf. inversion Hf; subst. exact (Hk a s1 E2).
  - intros Hf. inversion Hf; subst. exact (Hm s E1).
Qed.

Lemma within_fuel_ret (a : A) : within_fuel (ret a).
Proof. intros s. discriminate. Qed.

Lemma within_fuel_gets (f : reader -> A) : within_fuel (gets f).
Proof. intros s. discriminate. Qed.

Lemma within_fuel_index (l : list A) i : within_fuel (index l i).
Proof.
  intros s. unfold index. destruct (i <? 0); [discriminate |].
  destruct (nth_error l (Z.to_nat i)); discriminate.
Qed.

Lemma within_fuel_store (l : list A) i a : within_fuel (store l i a).
Proof.
  intros s. unfold store. destruct (i <? 0); [discriminate |].
  destruct (list_update l (Z.to_nat i) a); discriminate.
Qed.

(** What a call that ran out of fuel in its second part did before. *)
Lemma bind_OutOfFuel (m : M A) (k : A -> M B) s :
  within_fuel m ->
  bind m k s = Faulted OutOfFuel ->
  exists a s1 e1, m s = Returned a s1 e1 /\ k a s1 = Faulted OutOfFuel.
Proof.
  intros Hm. unfold bind.
  destruct (m s) as [a s1 e1 | f] eqn:E1.
  - destruct (k a s1) as [b s2 e2 | f] eqn:E2; [discriminate |].
    intros Hf. inversion Hf; subst. exists a, s1, e1. auto.
  - intros Hf. inversion Hf; subst. destruct (Hm s E1).
Qed.

(** The same at one state. *)
Lemma bind_OutOfFuel_at (m : M A) (k : A -> M B) s :
  m s <> Faulted OutOfFuel ->
  bind m k s = Faulted OutOfFuel ->
  exists a s1 e1, m s = Returned a s1 e1 /\ k a s1 = Faulted OutOfFuel.
Proof.
  intros Hm. unfold bind.
  destruct (m s) as [a s1 e1 | f] eqn:E1.
  - destruct (k a s1) as [b s2 e2 | f] eqn:E2; [discriminate |].
    intros Hf. inversion Hf; subst. exists a, s1, e1. auto.
  - intros Hf. inversion Hf; subst. destruct (Hm eq_refl).
Qed.

End WithinFuel.

Lemma within_fuel_modify f : within_fuel (modify f).
Proof. intros s. discriminate. Qed.

Lemma within_fuel_SetError msg : within_fuel (SetError msg).
Proof. intros s. discriminate. Qed.

Lemma within_fuel_the_stream : within_fuel the_stream.
Proof. intros s. unfold the_stream. destruct (rw s); discriminate. Qed.

Lemma within_fuel_abort {A} f :
  f <> OutOfFuel -> within_fuel (abort f : M A).
Proof. intros Hf s H. inversion H. congruence. Qed.

Lemma within_fuel_abort_bounds {A} : within_fuel (abort OutOfBounds : M A).
Proof. apply within_fuel_abort. discriminate. Qed.

Create HintDb fuel.

#[local] Hint Resolve within_fuel_ret within_fuel_gets within_fuel_index
  within_fuel_store within_fuel_modify within_fuel_SetError
  within_fuel_the_stream within_fuel_abort_bounds : fuel.

(** Splits a goal [within_fuel m] along the structure of [m]. *)
Ltac fuel :=
  repeat first
    [ solve [eauto with fuel]
    | match goal with
      | |- within_fuel (bind _ _) => apply within_fuel_bind; [| intros ]
      | |- within_fuel (if ?c then _ else _) => destruct c
      | |- within_fuel (match ?x with _ => _ end) => destruct x
      end ].

Lemma within_fuel_fread n : within_fuel (fread n).
Proof. unfold fread. fuel. Qed.

#[local] Hint Resolve within_fuel_fread : fuel.

Lemma within_fuel_read_item n : within_fuel (read_item n).
Proof. unfold read_item. fuel. Qed.

#[local] Hint Resolve within_fuel_read_item : fuel.

Lemma within_fuel_read_le16_signed : within_fuel read_le16_signed.
Proof. unfold read_le16_signed. fuel. Qed.

Lemma within_fuel_read_le16_unsigned : within_fuel read_le16_unsigned.
Proof. unfold read_le16_unsigned. fuel. Qed.

Lemma within_fuel_read_uint8 : within_fuel read_uint8.
Proof. unfold read_uint8. fuel. Qed.

#[local] Hint Resolve within_fuel_read_le16_signed
  within_fuel_read_le16_unsigned within_fuel_read_uint8 : fuel.

Lemma within_fuel_read_header_field rd upd idxs :
  within_fuel rd ->
  forall out, within_fuel (read_header_field rd upd idxs out).
Proof.
  intros Hrd. induction idxs as [| i idxs IH]; intros out; simpl; fuel.
Qed.

#[local] Hint Resolve within_fuel_read_header_field : fuel.

Lemma within_fuel_read_adpcm_block_headers out :
  within_fuel (read_adpcm_block_headers out).
Proof. unfold read_adpcm_block_headers. fuel. Qed.

#[local] Hint Resolve within_fuel_read_adpcm_block_headers : fuel.

Lemma within_fuel_read_own_block_headers : within_fuel read_own_block_headers.
Proof. unfold read_own_block_headers. fuel. Qed.

Lemma within_fuel_put_header i h : within_fuel (put_header i h).
Proof. unfold put_header. fuel. Qed.

Lemma within_fuel_dec_samples_left : within_fuel dec_samples_left.
Proof. unfold dec_samples_left. fuel. Qed.

#[local] Hint Resolve within_fuel_read_own_block_headers within_fuel_put_header
  within_fuel_dec_samples_left : fuel.

Lemma within_fuel_decode_channels idxs :
  forall nib, within_fuel (decode_channels idxs nib).
Proof. induction idxs as [| i idxs IH]; intros nib; simpl; fuel. Qed.

#[local] Hint Resolve within_fuel_decode_channels : fuel.

Lemma within_fuel_decode_adpcm_sample_frame :
  within_fuel decode_adpcm_sample_frame.
Proof. unfold decode_adpcm_sample_frame. fuel. Qed.

Lemma within_fuel_put_adpcm_sample_frame buf bw frame :
  within_fuel (put_adpcm_sample_frame buf bw frame).
Proof. unfold put_adpcm_sample_frame. fuel. Qed.

#[local] Hint Resolve within_fuel_decode_adpcm_sample_frame
  within_fuel_put_adpcm_sample_frame : fuel.

Lemma within_fuel_convert cs len r buf : within_fuel (convert cs len r buf).
Proof.
  unfold convert, grow_tmpbuf, widen_step, duplicate_step. fuel.
Qed.

Lemma within_fuel_ASSERT c : within_fuel (ASSERT c).
Proof. unfold ASSERT. fuel. apply within_fuel_abort. discriminate. Qed.

Lemma within_fuel_read_sample_fmt_normal buf len :
  within_fuel (read_sample_fmt_normal buf len).
Proof. unfold read_sample_fmt_normal. fuel. Qed.

Section LoopEnds.

Variable char_is_signed : bool.

Lemma frame_size_rw_stable F : rw_stable (frame_size_is F).
Proof. intros s f c H _ _. exact H. Qed.

Lemma frame_size_adpcm_stable F : adpcm_stable (frame_size_is F).
Proof. intros s a H. exact H. Qed.

(** Every round of the loop adds the size of a frame to [bw]. *)
Lemma read_sample_fmt_adpcm_loop_ends F :
  0 < F ->
  forall fuel buf len bw s,
    frame_size_is F s -> 0 <= bw -> len + F <= 4294967296 ->
    len <= bw + F * Z.of_nat fuel ->
    read_sample_fmt_adpcm_loop fuel buf len bw s <> Faulted OutOfFuel.
Proof.
  intros HF.
  pose proof (frame_size_rw_stable F) as Irw.
  pose proof (frame_size_adpcm_stable F) as Iad.
  induction fuel as [| fuel IH]; intros buf len bw s Hs Hbw Hlen Hfuel.
  - simpl. destruct (bw <? len) eqn:E; [| discriminate].
    apply Z.ltb_lt in E. lia.
  - cbn [read_sample_fmt_adpcm_loop].
    destruct (bw <? len) eqn:E; [| discriminate].
    apply Z.ltb_lt in E.
    rewrite !bind_gets. rewrite Hs.
    assert (Hnext : Uint32 (bw + F) = bw + F).
    { unfold Uint32. apply Z.mod_small. lia. }
    rewrite Hnext.
    assert (Hgo : forall buf' s', frame_size_is F s' ->
              read_sample_fmt_adpcm_loop fuel buf' len (bw + F) s'
              <> Faulted OutOfFuel).
    { intros buf' s' Hs'. apply IH; try assumption; lia. }
    destruct (samples_left_in_block (adpcm s) =? 0);
      [| destruct (samples_left_in_block (adpcm s) =? 1)].
    + intros Hf.
      apply bind_OutOfFuel in Hf as (ok & s1 & e1 & H1 & Hf);
        [| apply within_fuel_read_own_block_headers].
      pose proof (preserves_read_own_block_headers _ Irw Iad _ _ _ _ Hs H1)
        as Hs1.
      destruct ok; cbn [negb] in Hf; [| discriminate].
      apply bind_OutOfFuel in Hf as (b & s2 & e2 & H2 & Hf);
        [| apply within_fuel_put_adpcm_sample_frame].
      pose proof (preserves_put_adpcm_sample_frame _ _ _ _ _ _ _ _ Hs1 H2)
        as Hs2.
      apply bind_OutOfFuel in Hf as ([] & s3 & e3 & H3 & Hf);
        [| apply within_fuel_dec_samples_left].
      pose proof (preserves_dec_samples_left _ Iad _ _ _ _ Hs2 H3) as Hs3.
      exact (Hgo _ _ Hs3 Hf).
    + intros Hf.
      apply bind_OutOfFuel in Hf as (b & s2 & e2 & H2 & Hf);
        [| apply within_fuel_put_adpcm_sample_frame].
      pose proof (preserves_put_adpcm_sample_frame _ _ _ _ _ _ _ _ Hs H2)
        as Hs2.
      apply bind_OutOfFuel in Hf as ([] & s3 & e3 & H3 & Hf);
        [| apply within_fuel_dec_samples_left].
      pose proof (preserves_dec_samples_left _ Iad _ _ _ _ Hs2 H3) as Hs3.
      exact (Hgo _ _ Hs3 Hf).
    + intros Hf.
      apply bind_OutOfFuel in Hf as (b & s2 & e2 & H2 & Hf);
        [| apply within_fuel_put_adpcm_sample_frame].
      pose proof (preserves_put_adpcm_sample_frame _ _ _ _ _ _ _ _ Hs H2)
        as Hs2.
      apply bind_OutOfFuel in Hf as ([] & s3 & e3 & H3 & Hf);
        [| apply within_fuel_dec_samples_left].
      pose proof (preserves_dec_samples_left _ Iad _ _ _ _ Hs2 H3) as Hs3.
      apply bind_OutOfFuel in Hf as (ok & s4 & e4 & H4 & Hf);
        [| apply within_fuel_decode_adpcm_sample_frame].
      pose proof (preserves_decode_adpcm_sample_frame _ Irw Iad _ _ _ _ Hs3 H4)
        as Hs4.
      destruct ok; cbn [negb] in Hf; [| discriminate].
      exact (Hgo _ _ Hs4 Hf).
Qed.

(** X24.  On a stream whose frames have a size, [Read] of [len] bytes
    (below 2^31) comes to an end: its decoding loop goes round at most
    once for every byte asked for, whatever the file holds. *)
Theorem Read_ends_within_len_rounds fuel buf len s :
  0 < adpcm_sample_frame_size (fmt s) <= 2147483648 ->
  0 <= len < 2147483648 ->
  len <= Z.of_nat fuel ->
  Read char_is_signed fuel buf len s <> Faulted OutOfFuel.
Proof.
  intros HF Hlen Hfuel.
  unfold Read. rewrite bind_gets.
  set (ratio := Uint32 (Input_Buffer_Ratio s)).
  assert (Hratio : 0 <= ratio) by (apply Z.mod_pos_bound; lia).
  destruct (ratio =? 0) eqn:E0.
  { unfold bind, abort. discriminate. }
  apply Z.eqb_neq in E0. rewrite bind_ret.
  intros Hf.
  apply bind_OutOfFuel in Hf as ([] & s1 & e1 & H1 & Hf);
    [| apply within_fuel_ASSERT].
  assert (s1 = s) as ->.
  { unfold ASSERT in H1. destruct (len mod ratio =? 0);
      [inversion H1; reflexivity | discriminate]. }
  assert (Hq : 0 <= len / ratio <= len).
  { split; [apply Z.div_pos; lia |].
    apply Z.div_le_upper_bound; [lia |]. nia. }
  apply bind_OutOfFuel_at in Hf as ([r b] & s2 & e2 & H2 & Hf).
  - exact (within_fuel_convert char_is_signed len r b s2 Hf).
  - clear Hf. intros Hf. unfold read_raw in Hf. rewrite bind_gets in Hf.
    destruct (wFormatTag (fmt s) =? FMT_NORMAL).
    { exact (within_fuel_read_sample_fmt_normal _ _ _ Hf). }
    destruct (wFormatTag (fmt s) =? FMT_ADPCM).
    + apply bind_OutOfFuel_at in Hf as ([bw b] & s2 & e2 & H2 & Hf);
        [discriminate |].
      clear Hf. unfold read_sample_fmt_adpcm.
      assert (Hs32 : Sint32 (len / ratio) = len / ratio).
      { apply Sint32_small. lia. }
      assert (Hu32 : Uint32 (len / ratio) = len / ratio).
      { unfold Uint32. apply Z.mod_small. lia. }
      rewrite Hs32, Hu32.
      apply (read_sample_fmt_adpcm_loop_ends
               (adpcm_sample_frame_size (fmt s))); try reflexivity; try lia.
      nia.
    + apply bind_OutOfFuel in Hf as ([] & s2 & e2 & H2 & Hf);
        [discriminate | apply within_fuel_ASSERT].
Qed.

End LoopEnds.

Lemma Read_ends_within_len_rounds_witness :
  Read true 8 (repeat x00 8) 8 adpcm_mono <> Faulted OutOfFuel.
Proof.
  apply (Read_ends_within_len_rounds true 8 (repeat x00 8) 8 adpcm_mono).
  - vm_compute. split; [reflexivity | discriminate].
  - lia.
  - vm_compute. discriminate.
Defined.

(* ================================================================== *)
(** * A format without channels *)

Section NoChannel.

Variable char_is_signed : bool.

Variable s0 : reader.
Hypothesis no_channel : wChannels (fmt s0) = 0.
Hypothesis no_frame : adpcm_sample_frame_size (fmt s0) = 0.

Lemma no_channel_indices s : fmt s = fmt s0 -> channel_indices s = [].
Proof. intros H. unfold channel_indices. rewrite H, no_channel. reflexivity. Qed.

Lemma read_own_block_headers_no_channel s :
  fmt s = fmt s0 ->
  exists s', read_own_block_headers s = Returned true s' []
             /\ fmt s' = fmt s0.
Proof.
  intros H.
  assert (Hh : forall a, read_adpcm_block_headers a s =
            Returned (true,
                      set_nibble_state 0
                        (set_samples_left_in_block (wSamplesPerBlock a) a))
                     s []).
  { intros a. unfold read_adpcm_block_headers.
    rewrite bind_gets, (no_channel_indices s H).
    cbn [read_header_field]. rewrite !bind_ret. reflexivity. }
  eexists. split.
  - unfold read_own_block_headers. rewrite bind_gets.
    rewrite (bind_Returned_nil _ _ _ _ _ (Hh _)).
    rewrite bind_modify. reflexivity.
  - exact H.
Qed.

Lemma put_adpcm_sample_frame_no_channel buf bw frame s :
  fmt s = fmt s0 ->
  exists buf', put_adpcm_sample_frame buf bw frame s = Returned buf' s [].
Proof.
  intros H. eexists. unfold put_adpcm_sample_frame.
  rewrite !bind_gets. rewrite (no_channel_indices s H).
  cbn [length Z.of_nat].
  destruct (Z.of_nat (length (blockheaders (adpcm s))) <? 0) eqn:E;
    [apply Z.ltb_lt in E; lia |].
  reflexivity.
Qed.

Lemma decode_adpcm_sample_frame_no_channel s :
  fmt s = fmt s0 ->
  exists s', decode_adpcm_sample_frame s = Returned true s' []
             /\ fmt s' = fmt s0.
Proof.
  intros H. eexists. split.
  - unfold decode_adpcm_sample_frame.
    rewrite bind_gets, (no_channel_indices s H), bind_gets.
    cbn [decode_channels]. rewrite bind_ret, bind_modify. reflexivity.
  - exact H.
Qed.

(** No round of the loop moves [bw]. *)
Lemma read_sample_fmt_adpcm_loop_no_channel fuel :
  forall buf len bw s,
    fmt s = fmt s0 -> 0 <= bw < len -> bw < 4294967296 ->
    read_sample_fmt_adpcm_loop fuel buf len bw s = Faulted OutOfFuel.
Proof.
  induction fuel as [| fuel IH]; intros buf len bw s Hs Hbw Hmax;
    cbn [read_sample_fmt_adpcm_loop];
    (destruct (bw <? len) eqn:E; [| apply Z.ltb_ge in E; lia]).
  - reflexivity.
  - rewrite !bind_gets. rewrite Hs, no_frame.
    assert (Hnext : Uint32 (bw + 0) = bw).
    { unfold Uint32. rewrite Z.add_0_r. apply Z.mod_small. lia. }
    rewrite Hnext.
    assert (Hdec : forall s1, dec_samples_left s1 =
              Returned tt
                (set_adpcm (set_samples_left_in_block
                   (Uint32 (samples_left_in_block (adpcm s1) - 1)) (adpcm s1))
                   s1) []) by reflexivity.
    destruct (samples_left_in_block (adpcm s) =? 0);
      [| destruct (samples_left_in_block (adpcm s) =? 1)].
    + destruct (read_own_block_headers_no_channel s Hs) as (s1 & H1 & Hs1).
      rewrite (bind_Returned_nil _ _ _ _ _ H1). cbn [negb].
      destruct (put_adpcm_sample_frame_no_channel buf bw 1 s1 Hs1)
        as (buf' & H2).
      rewrite (bind_Returned_nil _ _ _ _ _ H2).
      rewrite (bind_Returned_nil _ _ _ _ _ (Hdec s1)).
      apply IH; assumption.
    + destruct (put_adpcm_sample_frame_no_channel buf bw 0 s Hs)
        as (buf' & H2).
      rewrite (bind_Returned_nil _ _ _ _ _ H2).
      rewrite (bind_Returned_nil _ _ _ _ _ (Hdec s)).
      apply IH; assumption.
    + destruct (put_adpcm_sample_frame_no_channel buf bw 0 s Hs)
        as (buf' & H2).
      rewrite (bind_Returned_nil _ _ _ _ _ H2).
      rewrite (bind_Returned_nil _ _ _ _ _ (Hdec s)).
      match goal with
      | |- bind _ _ ?st = _ =>
          destruct (decode_adpcm_sample_frame_no_channel st Hs)
            as (s4 & H4 & Hs4);
          rewrite (bind_Returned_nil _ _ _ _ _ H4)
      end.
      cbn [negb]. apply IH; assumption.
Qed.

(** X25.  MS-ADPCM with a channel count of zero has frames of no bytes,
    and the decoding loop of [Read] counts the bytes of the frames it
    wrote: a [Read] of one byte or more then never comes back, however
    many rounds it is given. *)
Theorem Read_without_channels_never_ends fuel buf len :
  wFormatTag (fmt s0) = FMT_ADPCM ->
  Input_Buffer_Ratio s0 = 1 ->
  0 < len < 2147483648 ->
  Read char_is_signed fuel buf len s0 = Faulted OutOfFuel.
Proof.
  intros Htag Hratio Hlen.
  unfold Read. rewrite bind_gets, Hratio.
  change (Uint32 1) with 1. cbn [Z.eqb]. rewrite bind_ret.
  rewrite Z.mod_1_r. cbn [Z.eqb ASSERT]. rewrite bind_ret.
  rewrite Z.div_1_r, Sint32_small by lia.
  apply bind_Faulted.
  unfold read_raw. rewrite bind_gets, Htag.
  change (FMT_ADPCM =? FMT_NORMAL) with false.
  change (FMT_ADPCM =? FMT_ADPCM) with true. cbn iota.
  apply bind_Faulted. unfold read_sample_fmt_adpcm.
  assert (Hu32 : Uint32 len = len).
  { unfold Uint32. apply Z.mod_small. lia. }
  rewrite Hu32.
  apply read_sample_fmt_adpcm_loop_no_channel; [reflexivity | lia | lia].
Qed.

End NoChannel.

Lemma Read_without_channels_never_ends_witness :
  Read true 1000 [x00; x00] 2 adpcm_no_channel = Faulted OutOfFuel.
Proof.
  apply (Read_without_channels_never_ends true adpcm_no_channel
           eq_refl eq_refl 1000 [x00; x00] 2 eq_refl eq_refl ltac:(lia)).
Defined.

(* ================================================================== *)
(** * The loop of the seek *)

Section SeekEnds.

Variable long_bits : Z.

Lemma within_fuel_float_to_Uint32 x : within_fuel (float_to_Uint32 x).
Proof.
  unfold float_to_Uint32. destruct (Float32.to_Uint32 x).
  - apply within_fuel_ret.
  - apply within_fuel_abort. discriminate.
Qed.

Lemma within_fuel_ConvertMsToBytePos b c ms :
  within_fuel (ConvertMsToBytePos b c ms).
Proof.
  unfold ConvertMsToBytePos.
  apply within_fuel_bind; [apply within_fuel_gets | intros rate].
  apply within_fuel_bind; [apply within_fuel_float_to_Uint32 | intros x].
  apply within_fuel_ret.
Qed.

Lemma within_fuel_fseek_set off : within_fuel (fseek_set off).
Proof. unfold fseek_set. fuel. Qed.

Lemma within_fuel_seek_failed : within_fuel seek_failed.
Proof.
  unfold seek_failed.
  apply within_fuel_bind; [apply within_fuel_fseek_set | intros rc]. fuel.
Qed.

Lemma within_fuel_seek_sample_fmt_normal ms :
  within_fuel (seek_sample_fmt_normal long_bits ms).
Proof.
  unfold seek_sample_fmt_normal.
  apply within_fuel_bind; [apply within_fuel_gets | intros bps].
  apply within_fuel_bind; [apply within_fuel_gets | intros ch].
  apply within_fuel_bind; [apply within_fuel_ConvertMsToBytePos | intros off].
  apply within_fuel_bind; [apply within_fuel_gets | intros dso].
  apply within_fuel_bind; [apply within_fuel_fseek_set | intros rc]. fuel.
Qed.

(** Every round of the loop takes the size of a frame from [rc]. *)
Lemma seek_decode_loop_ends F :
  0 < F <= 2147483648 ->
  forall fuel rc s,
    frame_size_is F s -> rc < 2147483648 -> rc <= F * Z.of_nat fuel ->
    seek_decode_loop fuel rc s <> Faulted OutOfFuel.
Proof.
  intros HF.
  pose proof (frame_size_rw_stable F) as Irw.
  pose proof (frame_size_adpcm_stable F) as Iad.
  induction fuel as [| fuel IH]; intros rc s Hs Hmax Hfuel;
    cbn [seek_decode_loop]; (destruct (0 <? rc) eqn:E; [| discriminate]);
    apply Z.ltb_lt in E.
  - lia.
  - intros Hf.
    apply bind_OutOfFuel in Hf as (ok & s1 & e1 & H1 & Hf);
      [| apply within_fuel_decode_adpcm_sample_frame].
    pose proof (preserves_decode_adpcm_sample_frame _ Irw Iad _ _ _ _ Hs H1)
      as Hs1.
    destruct ok; cbn [negb] in Hf; [| discriminate].
    apply bind_OutOfFuel in Hf as ([] & s2 & e2 & H2 & Hf);
      [| apply within_fuel_dec_samples_left].
    pose proof (preserves_dec_samples_left _ Iad _ _ _ _ Hs1 H2) as Hs2.
    rewrite bind_gets, Hs2 in Hf.
    rewrite Sint32_small in Hf by lia.
    revert Hf. apply IH; [exact Hs2 | lia | lia].
Qed.

(** X26.  On a stream whose frames have a size, a seek decodes less than
    one block: [SetPosition] comes to an end within as many rounds of its
    decoding loop as a block has samples, whatever the file holds and
    wherever the seek goes. *)
Theorem SetPosition_ends_within_a_block fuel ms s :
  0 < adpcm_sample_frame_size (fmt s) ->
  0 <= wSamplesPerBlock (adpcm s) ->
  wSamplesPerBlock (adpcm s) * adpcm_sample_frame_size (fmt s)
    < 1073741824 ->
  wSamplesPerBlock (adpcm s) <= Z.of_nat fuel ->
  SetPosition long_bits fuel ms s <> Faulted OutOfFuel.
Proof.
  set (F := adpcm_sample_frame_size (fmt s)).
  set (W := wSamplesPerBlock (adpcm s)).
  intros HF HW0 HW Hfuel.
  pose proof (frame_size_rw_stable F) as Irw.
  pose proof (frame_size_adpcm_stable F) as Iad.
  unfold SetPosition. rewrite bind_gets.
  destruct (wFormatTag (fmt s) =? FMT_NORMAL).
  { apply within_fuel_seek_sample_fmt_normal. }
  destruct (wFormatTag (fmt s) =? FMT_ADPCM).
  2: { intros Hf.
       apply bind_OutOfFuel in Hf as ([] & s2 & e2 & H2 & Hf);
         [discriminate | apply within_fuel_ASSERT]. }
  unfold seek_sample_fmt_adpcm. rewrite !bind_gets.
  intros Hf.
  apply bind_OutOfFuel in Hf as (off & s1 & e1 & H1 & Hf);
    [| apply within_fuel_ConvertMsToBytePos].
  pose proof (preserves_ConvertMsToBytePos
                (fun st => frame_size_is F st /\ wSamplesPerBlock (adpcm st) = W)
                _ _ _ _ _ _ _ (conj eq_refl eq_refl) H1) as (Hs1 & HW1).
  rewrite !bind_gets in Hf. rewrite HW1, Hs1 in Hf.
  rewrite (Sint32_small (W * F)) in Hf by nia.
  destruct (W * F =? 0) eqn:E0; [discriminate |].
  apply Z.eqb_neq in E0.
  set (offset := Sint32 off) in Hf.
  apply bind_OutOfFuel in Hf as (rc & s2 & e2 & H2 & Hf);
    [| apply within_fuel_fseek_set].
  pose proof (preserves_fseek_set _ Irw _ _ _ _ _ Hs1 H2) as Hs2.
  destruct (rc =? -1).
  { apply bind_OutOfFuel in Hf as ([] & s3 & e3 & H3 & Hf);
      [discriminate | apply within_fuel_SetError]. }
  match type of Hf with
  | (if negb ?c then _ else _) _ = _ => destruct c; cbn [negb] in Hf
  end.
  2: { apply bind_OutOfFuel in Hf as ([] & s3 & e3 & H3 & Hf);
         [discriminate | apply within_fuel_SetError]. }
  apply bind_OutOfFuel in Hf as (ok & s3 & e3 & H3 & Hf);
    [| apply within_fuel_read_own_block_headers].
  pose proof (preserves_read_own_block_headers _ Irw Iad _ _ _ _ Hs2 H3)
    as Hs3.
  destruct ok; cbn [negb] in Hf;
    [| exact (within_fuel_seek_failed _ Hf)].
  apply bind_OutOfFuel in Hf as ([] & s4 & e4 & H4 & Hf);
    [| apply within_fuel_dec_samples_left].
  pose proof (preserves_dec_samples_left _ Iad _ _ _ _ Hs3 H4) as Hs4.
  assert (Hrem : - (W * F) < Z.rem offset (W * F) < W * F).
  { pose proof (Z.rem_bound_abs offset (W * F) E0) as Hb. lia. }
  assert (Hone : 1 <= W).
  { destruct (Z.eq_dec W 0) as [e | ne]; [rewrite e in E0 |]; lia. }
  assert (HFW : F <= W * F) by nia.
  rewrite Sint32_small in Hf by lia.
  apply bind_OutOfFuel_at in Hf as (r & s5 & e5 & H5 & Hf).
  - destruct r; [discriminate | exact (within_fuel_seek_failed _ Hf)].
  - apply (seek_decode_loop_ends F); [lia | exact Hs4 | lia | nia].
Qed.

End SeekEnds.

Lemma SetPosition_ends_within_a_block_witness :
  result_of (Open 32 8 adpcm_far_file new_reader) = Some OPEN_OK
  /\ SetPosition 32 16 8388607 adpcm_far <> Faulted OutOfFuel
  /\ result_of (SetPosition 32 16 8388607 adpcm_far) = Some 8388607
  /\ SetPosition 32 6 8388607 adpcm_far = Faulted OutOfFuel.
Proof.
  split; [vm_compute; reflexivity |].
  split; [| split; vm_compute; reflexivity].
  apply (SetPosition_ends_within_a_block 32 16 8388607 adpcm_far).
  - vm_compute. reflexivity.
  - vm_compute. discriminate.
  - vm_compute. reflexivity.
  - vm_compute. discriminate.
Defined.

(* ================================================================== *)
(** * The first frame of a block *)

Section BlockStart.

Lemma firstn_whole {A} (l : list A) n : n = length l -> firstn n l = l.
Proof. intros ->. apply firstn_all. Qed.

(** X27.  At the start of a block the MS-ADPCM reader reads the block's
    headers and writes one frame: of each channel the older of its two
    seed samples, [iSamp[1]].  It writes and counts the whole frame also
    when fewer bytes than a frame were asked for, so that it can return
    more than [len]. *)
Theorem read_sample_fmt_adpcm_starts_a_block fuel buf len s f hs rest :
  rw s = Some f ->
  0 <= cursor f ->
  ahead f = block_header_bytes hs ++ rest ->
  Forall header_in_range hs ->
  length hs = Z.to_nat (wChannels (fmt s)) ->
  length (blockheaders (adpcm s)) = length hs ->
  samples_left_in_block (adpcm s) = 0 ->
  0 < len <= adpcm_sample_frame_size (fmt s) ->
  adpcm_sample_frame_size (fmt s) < 4294967296 ->
  read_sample_fmt_adpcm (S fuel) buf len s
  = Returned (adpcm_sample_frame_size (fmt s),
              write_at 0 (flat_map (fun h => u16 (Uint16 (iSamp1 h))) hs) buf)
             (set_adpcm
                (set_samples_left_in_block
                   (Uint32 (wSamplesPerBlock (adpcm s) - 1))
                   (set_nibble_state 0
                      (set_samples_left_in_block (wSamplesPerBlock (adpcm s))
                         (set_blockheaders hs (adpcm s)))))
                (advanced (7 * Z.of_nat (length hs)) f s)) [].
Proof.
  intros Hrw Hpos Hahead Hrange Hn Hout Hleft Hlen Hmax.
  unfold read_sample_fmt_adpcm. cbn [read_sample_fmt_adpcm_loop].
  destruct (Z.ltb_spec 0 len) as [_ | ?]; [| lia].
  rewrite !bind_gets, Hleft. cbn [Z.eqb].
  set (F := adpcm_sample_frame_size (fmt s)) in *.
  set (a' := set_nibble_state 0
               (set_samples_left_in_block (wSamplesPerBlock (adpcm s))
                  (set_blockheaders hs (adpcm s)))).
  set (s1 := set_adpcm a' (advanced (7 * Z.of_nat (length hs)) f s)).
  assert (H1 : read_own_block_headers s = Returned true s1 []).
  { unfold read_own_block_headers. rewrite bind_gets.
    rewrite (bind_Returned_nil _ _ _ _ _
               (read_adpcm_block_headers_run (adpcm s) s f hs rest
                  Hrw Hpos Hahead Hrange Hn Hout)).
    rewrite bind_modify. reflexivity. }
  rewrite (bind_Returned_nil _ _ _ _ _ H1). cbn [negb].
  assert (H2 : put_adpcm_sample_frame buf 0 1 s1
               = Returned
                   (write_at 0
                      (flat_map (fun h => u16 (Uint16 (iSamp1 h))) hs) buf)
                   s1 []).
  { unfold put_adpcm_sample_frame. rewrite !bind_gets.
    change (channel_indices s1)
      with (seq 0 (Z.to_nat (wChannels (fmt s)))).
    rewrite <- Hn, length_seq.
    change (blockheaders (adpcm s1)) with hs.
    rewrite Z.ltb_irrefl, (firstn_whole hs _ eq_refl).
    unfold ret. do 2 f_equal.
    clear. induction hs as [| h l IH]; [reflexivity |].
    cbn [map flat_map]. rewrite IH. reflexivity. }
  rewrite (bind_Returned_nil _ _ _ _ _ H2).
  unfold dec_samples_left. rewrite bind_modify.
  assert (HF : Uint32 (0 + F) = F).
  { unfold Uint32. apply Z.mod_small. lia. }
  rewrite HF.
  destruct fuel; cbn [read_sample_fmt_adpcm_loop];
    (destruct (Z.ltb_spec F len) as [? | _]; [lia |]); reflexivity.
Qed.

End BlockStart.

Lemma read_sample_fmt_adpcm_starts_a_block_witness :
  let hs := [mkHeader 1 16 100 50; mkHeader 0 32 (-7) 9] in
  let f := mkFILE (block_header_bytes hs ++ [x12]) 0 in
  let a := set_wSamplesPerBlock 6
             (set_blockheaders [zero_header; zero_header] zero_adpcm) in
  let s := set_adpcm a
             (set_fmt (set_adpcm_sample_frame_size 4
                         (set_wChannels 2 zero_fmt))
                (set_rw (Some f) new_reader)) in
  read_sample_fmt_adpcm 1 [x00; x00] 2 s
  = Returned (4, [x32; x00; x09; x00])
             (set_adpcm
                (set_samples_left_in_block 5
                   (set_nibble_state 0
                      (set_samples_left_in_block 6 (set_blockheaders hs a))))
                (advanced 14 f s)) [].
Proof.
  intros hs f a s.
  apply (read_sample_fmt_adpcm_starts_a_block 0 [x00; x00] 2 s f hs [x12]);
    try reflexivity; try (cbn; lia).
  repeat constructor; cbn; lia.
Defined.

(* ================================================================== *)
(** * Positions that an [int] cannot hold *)

Section PastInt.

Variable long_bits : Z.
Hypothesis long_bits_ok : 32 <= long_bits.

Lemma ConvertBytePosToMs_set_rw b c pos s z x :
  ConvertBytePosToMs b c pos s = Returned z s [] ->
  ConvertBytePosToMs b c pos (set_rw x s) = Returned z (set_rw x s) [].
Proof.
  unfold ConvertBytePosToMs.
  destruct (Uint32 (b * c) =? 0); [discriminate |].
  rewrite !bind_gets. change (SampleRate (set_rw x s)) with (SampleRate s).
  unfold float_to_Uint32.
  destruct (Float32.to_Uint32 _); [| discriminate].
  unfold ret. intros H. inversion H. reflexivity.
Qed.

(** [GetLength] saves the position in an [int].  From a position that an
    [int] cannot hold (and [long] can) the value saved is negative, the
    seek back fails, and the stream stays at the end of the file, where
    the length was taken. *)
Lemma GetLength_past_int tmp s f ms :
  rw s = Some f ->
  wFormatTag (fmt s) = FMT_NORMAL ->
  2147483648 <= cursor f < 4294967296 ->
  let len := Z.of_nat (length (contents f)) in
  ConvertBytePosToMs (BytesPerSample s) (Channels s)
    (Uint32 (Sint32 len - data_starting_offset (fmt s))) s
  = Returned ms s [] ->
  GetLength long_bits tmp s
  = Returned (-1) (set_rw (Some (mkFILE (contents f) len)) s)
             [strerror_errno].
Proof.
  intros Hrw Htag Hpos len Hms.
  unfold GetLength.
  assert (Htell : ftell s = Returned (cursor f) s [])
    by (unfold ftell, bind, the_stream; rewrite Hrw; reflexivity).
  rewrite (bind_Returned_nil _ _ _ _ _ Htell).
  rewrite bind_gets, Htag. change (FMT_NORMAL =? FMT_NORMAL) with true.
  cbv iota.
  set (s1 := set_rw (Some (mkFILE (contents f) len)) s).
  assert (Hlen : get_length_fmt_normal s = Returned (Sint32 ms) s1 []).
  { unfold get_length_fmt_normal.
    assert (Hend : fseek_end 0 s = Returned 0 s1 []).
    { unfold fseek_end, bind, the_stream. rewrite Hrw.
      fold len. rewrite Z.add_0_r.
      destruct (Z.ltb_spec len 0); [unfold len in *; lia | reflexivity]. }
    rewrite (bind_Returned_nil _ _ _ _ _ Hend).
    change (0 =? -1) with false. cbv iota.
    assert (Hftell : ftell s1 = Returned len s1 []) by reflexivity.
    rewrite (bind_Returned_nil _ _ _ _ _ Hftell).
    rewrite !bind_gets.
    change (fmt s1) with (fmt s).
    change (BytesPerSample s1) with (BytesPerSample s).
    change (Channels s1) with (Channels s).
    pose proof (ConvertBytePosToMs_set_rw _ _ _ _ _
                  (Some (mkFILE (contents f) len)) Hms) as Hms1.
    fold s1 in Hms1.
    rewrite (bind_Returned_nil _ _ _ _ _ Hms1).
    rewrite (bind_Returned_nil _ _ _ _ _ Hms1). reflexivity. }
  rewrite (bind_Returned_nil _ _ _ _ _ Hlen).
  assert (Hneg : to_long long_bits (Sint32 (cursor f)) < 0).
  { pose proof (Sint32_range (cursor f)) as Hr.
    rewrite (to_long_small long_bits long_bits_ok) by exact Hr.
    unfold Sint32, wrap_signed.
    change (2 ^ (32 - 1)) with 2147483648. change (2 ^ 32) with 4294967296.
    replace (cursor f + 2147483648)
      with (cursor f - 2147483648 + 1 * 4294967296) by lia.
    rewrite Z.mod_add, Z.mod_small by lia. lia. }
  assert (Hback : fseek_set (to_long long_bits (Sint32 (cursor f))) s1
                  = Returned (-1) s1 []).
  { unfold fseek_set, bind, the_stream. cbn [rw s1 set_rw].
    destruct (Z.ltb_spec (to_long long_bits (Sint32 (cursor f))) 0);
      [reflexivity | lia]. }
  rewrite (bind_Returned_nil _ _ _ _ _ Hback).
  reflexivity.
Qed.

End PastInt.

Section BigFile.

Variable data : list byte.
Hypothesis data_size : Z.of_nat (length data) = 2147483648.

Local Abbreviation file := (wav_file 1 2 8000 4 16 [] data).

(** The 44 bytes before the data. *)
Local Abbreviation header :=
  (u32 riffID ++ u32 2147483684 ++ u32 waveID
   ++ u32 fmtID ++ u32 16
   ++ u16 1 ++ u16 2 ++ u32 8000 ++ u32 32000 ++ u16 4 ++ u16 16
   ++ u32 dataID ++ u32 2147483648).

Lemma big_file_layout : file = header ++ data.
Proof.
  unfold wav_file. cbn [length app Nat.add].
  rewrite data_size. reflexivity.
Qed.

Lemma big_file_length : Z.of_nat (length file) = 2147483692.
Proof.
  rewrite big_file_layout, length_app, Nat2Z.inj_add, data_size. reflexivity.
Qed.

Lemma big_open :
  exists s0,
    Open 64 8 file new_reader = Returned OPEN_OK s0 []
    /\ rw s0 = Some (mkFILE file 44)
    /\ wFormatTag (fmt s0) = FMT_NORMAL
    /\ wBitsPerSample (fmt s0) = 16
    /\ data_starting_offset (fmt s0) = 44
    /\ Channels s0 = 2 /\ BytesPerSample s0 = 2 /\ SampleRate s0 = 8000.
Proof.
  rewrite big_file_layout.
  eexists. split; [vm_compute; reflexivity |].
  repeat (split; [vm_compute; reflexivity |]). vm_compute. reflexivity.
Qed.

Lemma big_ahead c :
  44 <= c <= 2147483692 ->
  Z.of_nat (length (ahead (mkFILE file c))) = 2147483692 - c.
Proof.
  intros Hc. rewrite ahead_length by (cbn [cursor]; lia).
  cbn [contents cursor]. rewrite big_file_length. lia.
Qed.

Lemma big_read c len (raw := firstn (Z.to_nat len) (ahead (mkFILE file c))) :
  44 <= c <= 2147483692 -> 0 <= len ->
  Z.of_nat (length raw) = Z.min len (2147483692 - c).
Proof.
  intros Hc Hlen. unfold raw. rewrite firstn_length_min by exact Hlen.
  rewrite big_ahead by exact Hc. reflexivity.
Qed.

(** Opened, read up to the last frame, asked for its length. *)
Lemma big_scenario :
  exists s s',
    open_stream 64 true s
    /\ rw s = Some (mkFILE file 2147483688)
    /\ (forall tmp, GetLength 64 tmp s = Returned (-1) s' [strerror_errno])
    /\ rw s' = Some (mkFILE file 2147483692)
    /\ option_map fst (result_of (Read true 0 [] 4 s)) = Some 4
    /\ option_map fst (result_of (Read true 0 [] 4 s')) = Some 0.
Proof.
  destruct big_open
    as (s0 & Hopen & Hrw0 & Htag & Hbits & Hdso & Hch & Hbps & Hrate).
  assert (O0 : open_stream 64 true s0) by (eapply opened; exact Hopen).
  destruct (open_stream_invariant _ _ _ O0) as [W0 _].
  (* all of the data but the last frame *)
  destruct (Read_stereo16_run true 0 [] 2147483644 s0 _ W0 Hrw0 Htag Hbits
              Hch ltac:(lia)) as (t1 & HR1).
  cbv zeta in HR1.
  rewrite (big_read 44 2147483644 ltac:(lia) ltac:(lia)) in HR1.
  change (Z.min 2147483644 (2147483692 - 44)) with 2147483644 in HR1.
  set (s1 := set_tmpbuf t1 (advanced 2147483644 (mkFILE file 44) s0)) in *.
  assert (O1 : open_stream 64 true s1) by (eapply after_Read; eassumption).
  destruct (open_stream_invariant _ _ _ O1) as [W1 _].
  assert (Hrw1 : rw s1 = Some (mkFILE file 2147483688)) by reflexivity.
  (* the length *)
  assert (Hfl : Float32.to_Uint32
                  (Float32.div (Float32.of_Z (2147483648 / Uint32 (2 * 2)))
                               (frames_per_ms 8000))
                = Some 67108864) by (vm_compute; reflexivity).
  assert (Hms : ConvertBytePosToMs (BytesPerSample s1) (Channels s1)
                  (Uint32 (Sint32 (Z.of_nat (length file))
                           - data_starting_offset (fmt s1))) s1
                = Returned 67108864 s1 []).
  { change (BytesPerSample s1) with (BytesPerSample s0).
    change (Channels s1) with (Channels s0).
    change (fmt s1) with (fmt s0).
    rewrite big_file_length, Hbps, Hch, Hdso.
    change (Uint32 (Sint32 2147483692 - 44)) with 2147483648.
    unfold ConvertBytePosToMs.
    change (Uint32 (2 * 2) =? 0) with false. cbv iota.
    rewrite bind_gets. change (SampleRate s1) with (SampleRate s0).
    rewrite Hrate. unfold float_to_Uint32. rewrite Hfl. reflexivity. }
  set (s2 := set_rw (Some (mkFILE file (Z.of_nat (length file)))) s1).
  assert (HG : forall tmp,
             GetLength 64 tmp s1 = Returned (-1) s2 [strerror_errno]).
  { intros tmp.
    apply (GetLength_past_int 64 ltac:(lia) tmp s1
             (mkFILE file 2147483688) 67108864 Hrw1).
    - exact Htag.
    - cbn [cursor]. lia.
    - exact Hms. }
  assert (O2 : open_stream 64 true s2)
    by (eapply after_GetLength; [exact O1 | exact (HG zero_adpcm)]).
  destruct (open_stream_invariant _ _ _ O2) as [W2 _].
  assert (Hrw2 : rw s2 = Some (mkFILE file 2147483692)).
  { unfold s2. cbn [rw set_rw]. rewrite big_file_length. reflexivity. }
  exists s1, s2.
  split; [exact O1 |]. split; [exact Hrw1 |]. split; [exact HG |].
  split; [exact Hrw2 |].
  split.
  - destruct (Read_stereo16_run true 0 [] 4 s1 _ W1 Hrw1 Htag Hbits Hch
                ltac:(lia)) as (t & HR).
    cbv zeta in HR. rewrite HR. cbn [result_of option_map fst].
    rewrite (big_read 2147483688 4 ltac:(lia) ltac:(lia)). reflexivity.
  - destruct (Read_stereo16_run true 0 [] 4 s2 _ W2 Hrw2 Htag Hbits Hch
                ltac:(lia)) as (t & HR).
    cbv zeta in HR. rewrite HR. cbn [result_of option_map fst].
    rewrite (big_read 2147483692 4 ltac:(lia) ltac:(lia)). reflexivity.
Qed.

End BigFile.

Lemma big_pcm_data_size : Z.of_nat (length big_pcm_data) = 2147483648.
Proof. unfold big_pcm_data. rewrite repeat_length. apply Z2Nat.id. lia. Qed.

(** C5.  A length query does not always leave the stream where it was.
    [GetLength] keeps the position in an [int]: on the 2 GiB file, opened
    where [long] has 64 bits and read up to its last frame, the query
    returns -1 with an error and leaves the stream at the end of the
    file, so that the [Read] that would have given the last four bytes
    gives none.  And on MS-ADPCM the headers of the last block are read
    through the array pointer of a local that was never set: with no
    array behind it the query does not return at all. *)
Theorem GetLength_loses_a_position_past_2_GiB :
  (exists s s',
     open_stream 64 true s
     /\ rw s = Some (mkFILE big_pcm_file 2147483688)
     /\ (forall tmp, GetLength 64 tmp s = Returned (-1) s' [strerror_errno])
     /\ rw s' = Some (mkFILE big_pcm_file 2147483692)
     /\ option_map fst (result_of (Read true 0 [] 4 s)) = Some 4
     /\ option_map fst (result_of (Read true 0 [] 4 s')) = Some 0)
  /\ GetLength 32 zero_adpcm adpcm_mono = Faulted OutOfBounds
  /\ GetLength 64 zero_adpcm adpcm_mono = Faulted OutOfBounds.
Proof.
  split; [exact (big_scenario big_pcm_data big_pcm_data_size) |].
  split; vm_compute; reflexivity.
Qed.
